(* ===== verification/_CoqProject ===== *)
-Q . S2P
Prelude.v
Json.v
Serde.v
Types.v
CircuitBreaker.v
ThinkTags.v
Alerts.v
RateLimit.v
Concurrency.v
Cache.v
Config.v
Pricing.v
Db.v
ConfigStore.v
Router.v
StreamNormalize.v
Metrics.v
Inspector.v
Relay.v
Providers.v
Catalog.v
Credential.v
Auth.v
AdminApi.v
Export.v
ModelImport.v
Boot.v
Health.v
Handler.v
Failover.v
Wire.v
LogDb.v
Csv.v
Dashboard.v
Cli.v
Gateway.v
Server.v
CliRun.v
CliGateway.v
Endpoints.v
Tasks.v
Process.v
AdminBodies.v
ConfigFile.v
