(* ===== verification/Prelude.v ===== *)
(** * llm_proxy: a verification development for the gateway

    llm_proxy is an HTTP gateway: clients send OpenAI-style chat requests, the
    gateway authenticates them, limits them, picks an upstream provider and one of
    the keys of its pool, retries with other keys on failure, translates the
    native formats of Anthropic and Gemini, cleans the answer (complete or
    streamed), and accounts for it.  The sources are under [src/src/].

    ** The parts and the files that model them

    A request passes through the parts in this order, composed in [Gateway] as
    [build_router] of [server/mod.rs] does.
    - [Auth]: [auth/mod.rs] ([require_auth]), [auth_store.rs] (the store of client
      keys and its operations), [ip_guard] of [server/middleware.rs].
    - [RateLimit]: [ratelimit/mod.rs], a token bucket per tenant, on [f64].
    - [Handler]: [server/handler.rs], the whole of [chat_completions_handler]: the
      concurrency guard ([Concurrency]: [concurrency.rs]), the prompt cache
      ([Cache]: [cache/mod.rs]), routing, the retry and failover loop, log rows,
      alerts and metrics ([Metrics]: [metrics.rs]), and the streaming response.
      Its state [Shared] is the mutable part of [AppState].
    - [Router]: [router.rs] (registry of bad keys, choice of a key, demotion),
      [chat_service.rs], [provider/registry.rs], [runtime.rs] (rebuilding).
    - [Catalog]: [model_catalog.rs] (listing, metadata, thinking levels).
    - [Credential]: [credential/mod.rs] (token cache), [credential/xai.rs]
      (refresh, device login).
    - [CircuitBreaker]: [circuit_breaker.rs].
    - [Providers]: [provider/http.rs], [openai.rs], [anthropic.rs], [gemini.rs]
      (requests, classification of failures, conversions, audit fields).
    - [Relay]: [provider/anthropic_stream.rs] and [gemini_stream.rs].
    - [Wire]: the derived decoders and encoders of the types of [types.rs] and of the
      native formats: the body of a request with its unknown fields, what goes
      upstream, answers and chunks.
    - [ThinkTags]: [response_normalize.rs], and [StreamNormalize]:
      [server/stream_normalize.rs], which separate reasoning from content.
    - [Inspector]: [provider/inspector.rs] and its task in [handler.rs].
    - [Pricing]: [config/pricing.rs] and the composition of prices of
      [config_store.rs].
    The configuration comes from SQLite and is managed while the gateway runs.
    - [Db]: the tables of the migrations and the statements run on them.
    - [ConfigStore]: [config_store.rs], the snapshot readers see, the loads, the
      import of a document in a transaction, the poller.  A computation runs on a
      [World]: the database, the snapshot, and the failures the driver will report
      at the next statements.
    - [AdminApi]: the endpoints of [dashboard/admin_api.rs] that change the
      configuration or the client keys, the status; [Export]: its exported
      document, the decoders that read it, and the listings.
    - [ModelImport]: [model_import.rs], metadata from a public catalog.
    - [Boot]: [bootstrap.rs], startup and the task that rebuilds the router, with
      the health endpoints of [health_check.rs].
    Every request leaves a row in the log, from which the dashboard lives.
    - [LogDb]: the row of [db/mod.rs], the hourly totals of [aggregator/mod.rs],
      retention and search index of [db_maintenance.rs], on the tables of the log.
    - [Dashboard]: the screens of [dashboard/] (requests, usage, cost, drilldown,
      traffic, keys, alerts, export, live events); [Csv]: [dashboard/csv.rs] with a
      reader of RFC 4180 as its specification.
    - [Cli]: the operations of [cli.rs] on prices, costs and credentials.
    The parts are put together in the last files.
    - [Failover]: the trait [Provider] of [provider/mod.rs] as a class, with the
      three providers as its instances over a network, under the handler.
    - [Server]: [build_router] and [build_admin_routes] of [server/mod.rs] as data
      (routes, methods, layers in the order they are added) with what axum makes of
      them, the request ids of [server/middleware.rs], and the extensions that the
      handlers' arguments ask for.
    - [CliRun]: every command of [cli.rs], with its requests, decoders, output and
      error texts, on whatever the command talks to (the class [Outside]);
      [CliGateway]: the commands against the gateway itself.
    - [Endpoints]: what each endpoint does to [AppState]; [serve_request] is a
      request from its arrival to the state it leaves.
    - [Tasks]: the socket of [dashboard/live.rs] over its broadcast channel and the
      maintenance task of [db_maintenance.rs].
    - [Process]: the process of [main.rs] and [bootstrap.rs]: the state, the tasks
      that were spawned, and a step for each thing that can happen next (a request,
      the end of a stream, a turn of a task, the shutdown).
    - [AdminBodies]: the bodies of the admin requests, from the text and the path to
      the operation of [AdminApi].
    - [ConfigFile]: the decoders serde derives for [Config] of [config/mod.rs] and
      the types below it, with the defaults of their fields and sections; and the
      process started from a document.
    The three files of decoders put theirs together from the pieces of [Serde]: serde's
    data model (the class [Deserializer]), fields with their attributes, the visitor of
    a struct, [flatten], and the entries an encoder writes.
    In the background run [Health] ([health.rs], revival of bad keys) and [Alerts]
    ([alerts/]).  [Config] has [config/mod.rs] (types, validation, key identities,
    routing entries, metadata); [Types] the DTOs, errors and audit records of
    [types.rs], [error.rs] and [audit/mod.rs]; [Json] the [serde_json] values; this
    file the vocabulary the others share.

    ** How Rust is rendered

    - Functions are functions; [&mut self] is state passing; [Result] and [?] are
      [Result] and [let?].  Unsigned integers are [Z] with [wrap]; [f64] arithmetic
      is exact arithmetic on [Q] followed by the rounding of the class [F64],
      whose laws [F64Laws] are those of rounding to nearest, with the relative error of
      2^-53 ([F64Within]) where a bound depends on it.  Strings are bytes.
    - Clocks, random draws, the answers of upstreams and of the token endpoint are
      arguments, one for each time the code reads them.
    - A [DashMap] is a [gmap]; where the code iterates over one, the order is the
      class [DashIter], any permutation of the bindings.
    - Crates are classes with what is documented of them as laws: [SerdeJson]
      (parsing and printing JSON), [Digest] (SHA-256), [Hmac], [F64Display],
      [WeightedIndex] (rand), [JsonErrors] (texts of decoding errors), [StatusDisplay], [Sqlx]
      (order of unordered rows, decoding), [SumReal], [FixedDisplay], [DecodeI16].
      Theorems that need a law say so and have a concrete instance as witness.
    - What serde derives is a definition per type.  [Providers] is written over the
      class [Decoders], which [Wire] implements, and [Process] over the decoding of
      bodies, which [AdminBodies] gives.
    - Concurrency: what other requests do while one waits is a function on the
      shared state in the environment of the attempt ([AttemptEnv], [ProbeEnv]),
      at each await and between the count and the mark of a demotion,
      restricted in theorems only by what they promise in return (rely and
      guarantee); the limiter is a step relation over permits.  One scan of the
      registry of bad keys ([healthy_key_count], [pick_key]) is one step.
    - Loops that are not structural have fuel ([drain_loop], [process_pending_loop],
      [feed_loop], [take_lines], [poll_all], [poll_to_end]): every turn removes a
      byte, a line or an item, and the theorems are about the functions with the
      bound in place (the length of the buffer plus one, [need] for the stream
      normaliser), for which the result is proved to be the reference; the
      retry loop, the device flow and the health loop consume a list of
      environments, and the theorems say how long a list is always enough.

    ** What the theorems show

    - [Handler]: a request ends within [max_retries + 1] attempts whatever happens
      around it; it never empties its pool nor reports it exhausted while others
      keep it alive and leave two keys between its count of them and its mark (a race
      without which it can, as an example shows); it returns its permits; it logs
      exactly its complete answers.
    - [CircuitBreaker]: the entries refine a three-state machine per key, and the
      circuit opens at the threshold.  [Router]: the registry is a set; demotions
      keep a key; a rebuilt router holds exactly the configured routes.
    - [ThinkTags], [StreamNormalize], [Relay], [Inspector]: what the streaming
      machines emit is a function of the concatenated bytes (a one-pass scan, a
      line-by-line reference), however the bytes are cut, with bounded buffers.
    - [Cache], [Auth], [Credential], [Health], [Catalog]: hits are fresh and the
      latest; the key store does what its operations say and authentication
      follows it; keys keep their identity and tokens are reused until expiry;
      only probed keys are revived and they are; advertised levels are accepted.
    - [RateLimit], [Concurrency], [Gateway]: limits in every interleaving and
      window; the limit holds for the whole pipeline over any window of any request
      history, up to the rounding of [f64], and refused requests leave no trace
      beyond the limiter.
    - [Config], [Pricing], [Providers]: validation decides validity, prices follow
      the layers, the providers classify failures alike.
    - [ConfigStore], [AdminApi], [Export], [ModelImport], [Boot]: imports are atomic
      whatever fails and install exactly the document; any history of admin
      requests with any failures keeps the tables and the snapshot consistent; an
      export imported elsewhere gives the same configuration; catalog imports
      choose deterministically, protect existing rows and store nothing that looks
      like a credential; a startup succeeds when nothing fails and never overwrites
      what administrators changed; after any history the next rebuild installs a
      router that serves exactly the snapshot.
    - [LogDb], [Dashboard], [Csv]: the aggregation replaces the totals of the hour by
      those of the log, touches nothing else and may be repeated; the usage screen
      reports what the log holds, the cost screen agrees with it; pages partition
      the filtered log; the CSV reads back.
    - [Failover]: a request alone on its pool of API keys is answered as long as one of
      them is accepted upstream and the retries suffice for the others, for each kind
      of provider.
    - [Wire]: an OpenAI upstream reads the request the gateway means to send, with every
      unknown field, exactly when no default parameter names a typed field; a client
      reads the answer the provider made, and the relays stream chunks of the
      declared type, each saying what an event of the upstream said.
    - [Server], [Endpoints]: a handler runs exactly for the requests that fit its
      route and pass the guards of its side, with the extensions it asks for (one
      endpoint apart); the layers make the pipeline of [Gateway]; a request changes
      only what its kind may change; the rows it writes decode, and the detail
      screen finds an answered request under the id the client was given.
    - [Tasks]: the frames of the live view account for every request, once and in
      order; while the database does not fail, no row of the log outlives the
      retention, an hour and the delay.
    - [Process]: in any history after a startup, the rebuilder's next tick leaves a
      router that serves a consistent configuration, the answers come from the pools
      and keys it names, and alerts reach the channels, and the table when their
      insert succeeds.
    - [ConfigFile], [AdminBodies]: a document is read field by field by the documented
      names, types and defaults, whatever the order of its sections; a valid document
      (with the conditions its theorem lists) starts the gateway
      with its settings; what a gateway does without the optional sections; hot reload
      and a key posted by the command line, from the bytes of the request to the
      router, with nothing assumed of the decoders.
    - [CliRun], [CliGateway]: the client-key commands do to the gateway's store what
      they say and report it; every command reaches its handler; error texts do not
      show what a URL or header hides.
    - [Cli]: a price set takes effect at the next refresh and replaces the one before;
      a backfill rewrites exactly the costs it should; a login without a gateway
      leaves the pool, the key, the provider and the route.
    Examples beside the theorems record where the code does not do what it is
    meant to (each is a finding of the manifest).

    ** What is not modelled

    Binding and serving sockets, signals and tracing; the parsing of command-line
    arguments (clap) and of addresses; the construction of the HTTP clients with their
    timeouts; opening and migrating the database; the frontend;
    the derived serialisation of those screens that nothing in the program reads back.
    SQLite itself, the grammars of YAML and JSON, the network, the broadcast channels of tokio ([Broadcast])
    and the path matching of axum ([Matchit]) are parameters with their documented laws.
    A turn of the rebuilder ([rebuild_step]) takes one snapshot, where the code reads the
    store three times and once more to build the router, and what it compares with
    first ([pr_last] of [assemble]) is the snapshot the router was built from, where the
    code reads the store anew in the spawned task: a change that falls in between is
    outside the model (and a finding).
    Screens run on tables that do not change between their queries, a request of a
    process history runs to its end before the next step (what others do meanwhile is
    in the environments of its attempts), and each viewer of the live page is followed
    on its own. *)

From stdpp Require Export base strings list gmap.
From Stdlib Require Export ZArith QArith Ascii.
From Stdlib Require Import Lia Lqa.

#[global] Open Scope string_scope.
#[global] Open Scope list_scope.
#[global] Open Scope Z_scope.
#[global] Arguments String.append !_ _ / : simpl nomatch.

(* ------------------------------------------------------------------ *)
(** ** Results: Rust's [Result<T, E>] *)

Inductive Result (A E : Type) : Type :=
| Ok (a : A)
| Err (e : E).
Arguments Ok {A E} a.
Arguments Err {A E} e.

Declare Scope rust_scope.
Delimit Scope rust_scope with rust.
#[global] Open Scope rust_scope.

(** The [?] operator: [let? x := e in k] returns early with the error of [e]. *)
Notation "'let?' x ':=' e 'in' k" :=
  (match e with Ok x => k | Err err => Err err end)
  (at level 10, x name, e at level 100, k at level 200) : rust_scope.

Definition is_ok {A E} (r : Result A E) : bool :=
  match r with Ok _ => true | Err _ => false end.

Definition ok_or {A E} (o : option A) (e : E) : Result A E :=
  match o with Some a => Ok a | None => Err e end.

(* ------------------------------------------------------------------ *)
(** ** Machine integers

    A [w]-bit unsigned integer is a [Z] in [0, 2^w); [wrap w] is the
    wrap-around of the release build, [as u32] of a wider value, and of the
    atomic [fetch_add]. *)

Definition wrap (w z : Z) : Z := z mod 2 ^ w.
Definition wadd (w a b : Z) : Z := wrap w (a + b).
Definition in_range (w z : Z) : bool := (0 <=? z) && (z <? 2 ^ w).
Definition u32_max : Z := 4294967295.
Definition saturating_sub (a b : Z) : Z := Z.max 0 (a - b).

Lemma wrap_small w z : 0 <= z < 2 ^ w -> wrap w z = z.
Proof. intros H. unfold wrap. by apply Z.mod_small. Qed.

Lemma wrap_range w z : 0 <= w -> 0 <= wrap w z < 2 ^ w.
Proof. intros H. unfold wrap. apply Z.mod_pos_bound. apply Z.pow_pos_nonneg; lia. Qed.

Lemma in_range_spec w z : in_range w z = true <-> 0 <= z < 2 ^ w.
Proof. unfold in_range. rewrite andb_true_iff, Z.leb_le, Z.ltb_lt. lia. Qed.

(** [i64] arithmetic of a release build wraps. *)
Definition i64 (z : Z) : Z := (z + 2 ^ 63) mod 2 ^ 64 - 2 ^ 63.

Lemma i64_small z : - 2 ^ 63 <= z < 2 ^ 63 -> i64 z = z.
Proof. intros H. unfold i64. rewrite Z.mod_small; lia. Qed.
Lemma i64_add_l a b : i64 (i64 a + b) = i64 (a + b).
Proof.
  unfold i64. replace ((a + 2 ^ 63) mod 2 ^ 64 - 2 ^ 63 + b + 2 ^ 63) with ((a + 2 ^ 63) mod 2 ^ 64 + b) by lia.
  rewrite Zplus_mod_idemp_l. do 2 f_equal. lia.
Qed.

(* ------------------------------------------------------------------ *)
(** ** Options *)

Definition unwrap_or {A} (o : option A) (d : A) : A :=
  match o with Some a => a | None => d end.

(** [o.filter(p)] *)
Definition opt_filter {A} (p : A -> bool) (o : option A) : option A :=
  match o with Some a => if p a then Some a else None | None => None end.

(** [o.or_else(|| o')] *)
Definition or_else {A} (o o' : option A) : option A :=
  match o with Some a => Some a | None => o' end.

Definition is_some {A} (o : option A) : bool :=
  match o with Some _ => true | None => false end.

(* ------------------------------------------------------------------ *)
(** ** Strings

    A Rust [String], [&str], [Bytes] or [Vec<u8>] is the list of its bytes:
    the type [string], whose characters are 8-bit. *)

Definition str_is_empty (s : string) : bool :=
  match s with EmptyString => true | String _ _ => false end.

Fixpoint str_take (n : nat) (s : string) : string :=
  match n, s with
  | S n', String c s' => String c (str_take n' s')
  | _, _ => EmptyString
  end.

Fixpoint str_drop (n : nat) (s : string) : string :=
  match n, s with
  | S n', String _ s' => str_drop n' s'
  | _, _ => s
  end.

(** [p] is a prefix of [s]. *)
Fixpoint str_prefix (p s : string) : bool :=
  match p, s with
  | EmptyString, _ => true
  | String c p', String d s' => Ascii.eqb c d && str_prefix p' s'
  | String _ _, EmptyString => false
  end.

Definition starts_with (s p : string) : bool := str_prefix p s.

Definition strip_prefix (p s : string) : option string :=
  if str_prefix p s then Some (str_drop (String.length p) s) else None.

(** [s.find(needle)]: byte offset of the first occurrence. *)
Fixpoint str_find (needle s : string) : option nat :=
  if str_prefix needle s then Some 0%nat
  else match s with
       | EmptyString => None
       | String _ s' => S <$> str_find needle s'
       end.

Definition str_contains (needle s : string) : bool := is_some (str_find needle s).

Fixpoint str_rev_app (s acc : string) : string :=
  match s with EmptyString => acc | String c s' => str_rev_app s' (String c acc) end.
Definition str_rev (s : string) : string := str_rev_app s EmptyString.

Definition ends_with (s p : string) : bool := str_prefix (str_rev p) (str_rev s).

(** Concatenation of a list of strings with a separator: [v.join(sep)]. *)
Fixpoint str_join (sep : string) (l : list string) : string :=
  match l with
  | [] => EmptyString
  | [x] => x
  | x :: l' => x +:+ sep +:+ str_join sep l'
  end.

Definition str_concat (l : list string) : string := foldr String.append EmptyString l.

Definition str_eqb (a b : string) : bool := bool_decide (a = b).

(** Control characters used by the wire formats. *)
Definition chr (n : N) : ascii := ascii_of_N n.
Definition LF : ascii := chr 10.
Definition CR : ascii := chr 13.
Definition lf : string := String LF EmptyString.
Definition cr : string := String CR EmptyString.

(** The UTF-8 encodings of the characters with the Unicode White_Space
    property, which [str::trim] removes. *)
Definition ws_encodings : list string :=
  (fun l => foldr (fun n s => String (chr n) s) EmptyString l) <$>
  [ [9]; [10]; [11]; [12]; [13]; [32];
    [0xC2;0x85]; [0xC2;0xA0]; [0xE1;0x9A;0x80];
    [0xE2;0x80;0x80]; [0xE2;0x80;0x81]; [0xE2;0x80;0x82]; [0xE2;0x80;0x83];
    [0xE2;0x80;0x84]; [0xE2;0x80;0x85]; [0xE2;0x80;0x86]; [0xE2;0x80;0x87];
    [0xE2;0x80;0x88]; [0xE2;0x80;0x89]; [0xE2;0x80;0x8A];
    [0xE2;0x80;0xA8]; [0xE2;0x80;0xA9]; [0xE2;0x80;0xAF];
    [0xE2;0x81;0x9F]; [0xE3;0x80;0x80] ]%N.

Fixpoint strip_any (ps : list string) (s : string) : option string :=
  match ps with
  | [] => None
  | p :: ps' => match strip_prefix p s with Some r => Some r | None => strip_any ps' s end
  end.

Fixpoint strip_all (fuel : nat) (ps : list string) (s : string) : string :=
  match fuel with
  | O => s
  | S f => match strip_any ps s with Some r => strip_all f ps r | None => s end
  end.

Definition trim_start (s : string) : string := strip_all (String.length s) ws_encodings s.
Definition trim_end (s : string) : string :=
  str_rev (strip_all (String.length s) (str_rev <$> ws_encodings) (str_rev s)).
Definition trim (s : string) : string := trim_end (trim_start s).

(** First line of a buffer, without its [\n], and the bytes after it. *)
Fixpoint split_line (s : string) : option (string * string) :=
  match s with
  | EmptyString => None
  | String c s' =>
      if Ascii.eqb c LF then Some (EmptyString, s')
      else match split_line s' with
           | Some (l, r) => Some (String c l, r)
           | None => None
           end
  end.

(** All complete lines of a buffer and the incomplete rest: what the
    [while let Some(pos) = buf.iter().position(|&b| b == b'\n')] loops of the
    stream code drain from their buffers. *)
Fixpoint drain_lines (s : string) : list string * string :=
  match s with
  | EmptyString => ([], EmptyString)
  | String c s' =>
      let '(ls, rest) := drain_lines s' in
      if Ascii.eqb c LF then (EmptyString :: ls, rest)
      else match ls with
           | [] => ([], String c rest)
           | l :: ls' => (String c l :: ls', rest)
           end
  end.

(** Well-formed UTF-8: [std::str::from_utf8(s).is_ok()]. *)
Definition in_bytes (lo hi : N) (c : ascii) : bool :=
  let n := N_of_ascii c in (lo <=? n)%N && (n <=? hi)%N.

Fixpoint utf8_valid (s : string) : bool :=
  match s with
  | EmptyString => true
  | String a s1 =>
      if in_bytes 0 0x7F a then utf8_valid s1
      else match s1 with
      | EmptyString => false
      | String b s2 =>
          if in_bytes 0xC2 0xDF a then in_bytes 0x80 0xBF b && utf8_valid s2
          else match s2 with
          | EmptyString => false
          | String c s3 =>
              if in_bytes 0xE0 0xEF a then
                in_bytes (if in_bytes 0xE0 0xE0 a then 0xA0 else 0x80)
                         (if in_bytes 0xED 0xED a then 0x9F else 0xBF) b
                && in_bytes 0x80 0xBF c && utf8_valid s3
              else match s3 with
              | EmptyString => false
              | String d s4 =>
                  in_bytes 0xF0 0xF4 a
                  && in_bytes (if in_bytes 0xF0 0xF0 a then 0x90 else 0x80)
                              (if in_bytes 0xF4 0xF4 a then 0x8F else 0xBF) b
                  && in_bytes 0x80 0xBF c && in_bytes 0x80 0xBF d && utf8_valid s4
              end
          end
      end
  end.

(** [s.strip_suffix(c)] for a one-byte character, or [s] itself. *)
Definition strip_suffix_char (c : ascii) (s : string) : string :=
  match strip_prefix (String c EmptyString) (str_rev s) with
  | Some r => str_rev r
  | None => s
  end.

(** Lower-case hexadecimal of a byte: [format!("{b:02x}")]. *)
Definition hex_digit (n : N) : ascii :=
  if (n <? 10)%N then ascii_of_N (48 + n) else ascii_of_N (87 + n).
Definition hex_byte (b : ascii) : string :=
  let n := N_of_ascii b in
  String (hex_digit (n / 16)) (String (hex_digit (n mod 16)) EmptyString).
Fixpoint hex_encode (s : string) : string :=
  match s with EmptyString => EmptyString | String c s' => hex_byte c +:+ hex_encode s' end.

(** Decimal rendering of an integer: [n.to_string()]. *)
Fixpoint dec_digits (fuel : nat) (n : N) (acc : string) : string :=
  match fuel with
  | O => acc
  | S f =>
      let acc' := String (ascii_of_N (48 + n mod 10)) acc in
      if (n <? 10)%N then acc' else dec_digits f (n / 10) acc'
  end.
Definition string_of_N (n : N) : string := dec_digits (S (N.to_nat (N.log2 n))) n EmptyString.
Definition string_of_Z (z : Z) : string :=
  if z <? 0 then "-" +:+ string_of_N (Z.to_N (- z)) else string_of_N (Z.to_N z).

(* ------------------------------------------------------------------ *)
(** ** Lemmas on strings *)

Lemma app_nil_r_str s : s +:+ "" = s.
Proof. induction s; simpl; congruence. Qed.

Lemma app_assoc_str a b c : a +:+ b +:+ c = (a +:+ b) +:+ c.
Proof. induction a; simpl; congruence. Qed.

Lemma length_app_str a b :
  String.length (a +:+ b) = (String.length a + String.length b)%nat.
Proof. induction a; simpl; congruence. Qed.

Lemma length_drop_str n s : String.length (str_drop n s) = (String.length s - n)%nat.
Proof. revert s; induction n; intros [|c s]; simpl; auto. Qed.

Lemma length_take_str n s : String.length (str_take n s) = (n `min` String.length s)%nat.
Proof. revert s; induction n; intros [|c s]; simpl; auto. Qed.

Lemma take_drop_str n s : str_take n s +:+ str_drop n s = s.
Proof. revert s; induction n; intros [|c s]; simpl; auto. by rewrite IHn. Qed.

Lemma drop_app_str a b : str_drop (String.length a) (a +:+ b) = b.
Proof. induction a; simpl; auto. Qed.

Lemma take_app_str a b : str_take (String.length a) (a +:+ b) = a.
Proof. induction a; simpl; auto. by rewrite IHa. Qed.

Lemma prefix_iff p s : str_prefix p s = true <-> exists r, s = p +:+ r.
Proof.
  revert s; induction p as [|c p IH]; intros s; simpl.
  - split; [intros _; by exists s | done].
  - destruct s as [|d s]; simpl.
    + split; [done|]. by intros [r ?].
    + rewrite andb_true_iff, Ascii.eqb_eq, IH. split.
      * intros [-> [r ->]]. by exists r.
      * intros [r ?]. simplify_eq. eauto.
Qed.

Lemma strip_prefix_Some p s r : strip_prefix p s = Some r <-> s = p +:+ r.
Proof.
  unfold strip_prefix. destruct (str_prefix p s) eqn:E.
  - apply prefix_iff in E as [r' ->]. rewrite drop_app_str. split; [congruence|].
    intros H. f_equal. revert H. clear. induction p; simpl; [done|]. intros; simplify_eq. auto.
  - split; [done|]. intros ->. assert (str_prefix p (p +:+ r) = true) by (apply prefix_iff; eauto).
    congruence.
Qed.

Lemma app_inj_l_str a b c : a +:+ b = a +:+ c -> b = c.
Proof. induction a; simpl; [done|]. intros; simplify_eq; auto. Qed.

Lemma app_eq_nil_str a b : a +:+ b = "" -> a = "" /\ b = "".
Proof. destruct a, b; simpl; intros; simplify_eq; auto. Qed.

(** Two ways of splitting one string: one left part extends the other. *)
Lemma app_split_str a b c d :
  a +:+ b = c +:+ d ->
  (exists e, c = a +:+ e /\ b = e +:+ d) \/ (exists e, a = c +:+ e /\ d = e +:+ b).
Proof.
  revert c; induction a as [|x a IH]; intros c H; simpl in *.
  - left. exists c. auto.
  - destruct c as [|y c]; simpl in *.
    + right. exists (String x a). auto.
    + simplify_eq. destruct (IH c) as [(e&->&->)|(e&->&->)]; auto; [left|right]; eauto.
Qed.

Lemma str_eqb_spec a b : str_eqb a b = true <-> a = b.
Proof. unfold str_eqb. apply bool_decide_eq_true. Qed.

Lemma str_eqb_refl a : str_eqb a a = true.
Proof. by apply str_eqb_spec. Qed.

Lemma str_eqb_ne a b : a ≠ b -> str_eqb a b = false.
Proof. unfold str_eqb. apply bool_decide_eq_false_2. Qed.

Lemma str_find_Some needle s n :
  str_find needle s = Some n ->
  exists r, s = str_take n s +:+ needle +:+ r /\ String.length (str_take n s) = n.
Proof.
  revert n; induction s as [|c s IH]; intros n; simpl.
  - destruct (str_prefix needle "") eqn:E; [|done].
    apply prefix_iff in E as [r E]. intros [= <-]. exists r. auto.
  - destruct (str_prefix needle (String c s)) eqn:E.
    + apply prefix_iff in E as [r E]. intros [= <-]. exists r. auto.
    + destruct (str_find needle s) as [m|] eqn:F; simpl; [|done].
      intros [= <-]. destruct (IH m) as (r & Hr & Hl); auto.
      exists r. simpl. rewrite Hr at 1. by rewrite Hl.
Qed.

(** No occurrence starts before the offset [str_find] returns. *)
Lemma str_find_before needle s a b :
  s = a +:+ needle +:+ b -> exists n, str_find needle s = Some n /\ (n <= String.length a)%nat.
Proof.
  intros ->. induction a as [|c a IH]; simpl.
  - exists 0%nat. split; [|lia]. destruct (needle +:+ b) eqn:E; simpl.
    + apply app_eq_nil_str in E as [-> ->]. done.
    + assert (str_prefix needle (String a s) = true) as ->; [|done].
      rewrite <- E. apply prefix_iff. eauto.
  - destruct (str_prefix needle (String c (a +:+ needle +:+ b))) eqn:E.
    + exists 0%nat. split; [done|lia].
    + destruct IH as (n & -> & Hn). exists (S n). split; [done|lia].
Qed.

Lemma str_concat_app l1 l2 : str_concat (l1 ++ l2) = str_concat l1 +:+ str_concat l2.
Proof. induction l1; simpl; [done|]. rewrite IHl1. apply app_assoc_str. Qed.

(** *** Reversal and trimming *)

Lemma str_rev_app_spec s acc : str_rev_app s acc = str_rev s +:+ acc.
Proof.
  unfold str_rev. revert acc; induction s as [|c s IH]; intros acc; simpl; [done|].
  rewrite IH, (IH (String c "")), <- app_assoc_str. done.
Qed.

Lemma str_rev_app_distr a b : str_rev (a +:+ b) = str_rev b +:+ str_rev a.
Proof.
  induction a as [|c a IH]; [by rewrite app_nil_r_str|].
  change (str_rev (String c a +:+ b)) with (str_rev_app (a +:+ b) (String c "")).
  change (str_rev (String c a)) with (str_rev_app a (String c "")).
  by rewrite !str_rev_app_spec, IH, <- app_assoc_str.
Qed.

Lemma str_rev_involutive s : str_rev (str_rev s) = s.
Proof.
  induction s as [|c s IH]; [done|].
  change (str_rev (String c s)) with (str_rev_app s (String c "")).
  by rewrite str_rev_app_spec, str_rev_app_distr, IH.
Qed.

Lemma length_str_rev s : String.length (str_rev s) = String.length s.
Proof.
  induction s as [|c s IH]; [done|].
  change (str_rev (String c s)) with (str_rev_app s (String c "")).
  rewrite str_rev_app_spec, length_app_str, IH. simpl. lia.
Qed.

Lemma strip_any_Some ps s r :
  strip_any ps s = Some r -> exists p, p ∈ ps /\ s = p +:+ r.
Proof.
  induction ps as [|p ps IH]; simpl; [done|].
  destruct (strip_prefix p s) eqn:E.
  - intros [= ->]. apply strip_prefix_Some in E. exists p. set_solver.
  - intros H. destruct (IH H) as (q & Hq & Hs). exists q. set_solver.
Qed.

Lemma strip_any_None ps s : strip_any ps s = None <-> forall p r, p ∈ ps -> s ≠ p +:+ r.
Proof.
  induction ps as [|p ps IH]; simpl; [set_solver|].
  destruct (strip_prefix p s) eqn:E; split.
  - done.
  - intros H. apply strip_prefix_Some in E. exfalso. apply (H p s0); [set_solver|done].
  - intros H q r [->|Hq]%elem_of_cons Hs; [|by apply (proj1 IH H q r)].
    apply strip_prefix_Some in Hs. congruence.
  - intros H. apply IH. intros q r Hq. apply H. set_solver.
Qed.

Lemma strip_all_spec fuel ps s :
  Forall (fun p => p ≠ "") ps -> (String.length s <= fuel)%nat ->
  strip_any ps (strip_all fuel ps s) = None /\ exists l, s = l +:+ strip_all fuel ps s.
Proof.
  intros Hne. revert s; induction fuel as [|f IH]; intros s Hl; simpl.
  - split; [|by exists ""]. apply strip_any_None. intros p r Hp ->.
    rewrite Forall_forall in Hne. specialize (Hne p Hp). rewrite length_app_str in Hl.
    destruct p; simpl in Hl; [done|lia].
  - destruct (strip_any ps s) as [r|] eqn:E; [|split; [done|by exists ""]].
    apply strip_any_Some in E as (p & Hp & ->).
    rewrite Forall_forall in Hne. specialize (Hne p Hp). rewrite length_app_str in Hl.
    destruct (IH r) as [H1 [l Hr]]; [destruct p; simpl in Hl; [done|lia]|].
    split; [done|]. exists (p +:+ l). rewrite <- app_assoc_str. by rewrite <- Hr.
Qed.

Lemma strip_all_id fuel ps s : strip_any ps s = None -> strip_all fuel ps s = s.
Proof. intros H. destruct fuel; simpl; [done|]. by rewrite H. Qed.

Lemma ws_nonempty : Forall (fun p => p ≠ "") ws_encodings.
Proof. repeat constructor; done. Qed.
Lemma ws_rev_nonempty : Forall (fun p => p ≠ "") (str_rev <$> ws_encodings).
Proof. repeat constructor; done. Qed.

(** [s.trim().trim()] is [s.trim()]. *)
Lemma trim_idemp s : trim (trim s) = trim s.
Proof.
  unfold trim. set (u := trim_start s).
  destruct (strip_all_spec (String.length s) ws_encodings s ws_nonempty ltac:(lia)) as [Hu _].
  fold (trim_start s) in Hu. fold u in Hu.
  destruct (strip_all_spec (String.length u) (str_rev <$> ws_encodings) (str_rev u) ws_rev_nonempty)
    as [Hv [l Hl]]; [rewrite length_str_rev; lia|].
  set (w := strip_all (String.length u) (str_rev <$> ws_encodings) (str_rev u)) in *.
  assert (trim_end u = str_rev w) as -> by done.
  assert (Hsplit : u = str_rev w +:+ str_rev l).
  { rewrite <- (str_rev_involutive u), Hl. by rewrite str_rev_app_distr. }
  assert (trim_start (str_rev w) = str_rev w) as ->.
  { apply strip_all_id. apply strip_any_None. intros p r Hp Hw.
    apply (proj1 (strip_any_None _ _) Hu p (r +:+ str_rev l) Hp). by rewrite Hsplit, Hw, <- app_assoc_str. }
  unfold trim_end. by rewrite str_rev_involutive, strip_all_id.
Qed.

(* ------------------------------------------------------------------ *)
(** ** Draining lines does not depend on how the bytes arrive *)

Lemma drain_lines_app a b :
  drain_lines (a +:+ b) =
  let '(la, ra) := drain_lines a in
  let '(lb, rb) := drain_lines (ra +:+ b) in (la ++ lb, rb).
Proof.
  induction a as [|c a IH]; simpl.
  - by destruct (drain_lines b).
  - destruct (drain_lines a) as [la ra] eqn:Ea. rewrite IH.
    destruct (Ascii.eqb c LF) eqn:Ec.
    + by destruct (drain_lines (ra +:+ b)).
    + destruct la as [|l la]; simpl.
      * destruct (drain_lines (ra +:+ b)) as [lb rb]. rewrite Ec. by destruct lb.
      * by destruct (drain_lines (ra +:+ b)).
Qed.

Lemma drain_lines_rest s : drain_lines (drain_lines s).2 = ([], (drain_lines s).2).
Proof.
  induction s as [|c s IH]; simpl; [done|].
  destruct (drain_lines s) as [ls rest] eqn:E; simpl in *.
  destruct (Ascii.eqb c LF) eqn:Ec; [done|]. destruct ls; simpl; [|done].
  by rewrite IH, Ec.
Qed.

(** The one-line-at-a-time loop computes the same lines as [drain_lines]. *)
Lemma split_line_drain s :
  match split_line s with
  | None => drain_lines s = ([], s)
  | Some (l, r) => drain_lines s = (l :: (drain_lines r).1, (drain_lines r).2)
                   /\ (String.length r < String.length s)%nat
                   /\ s = l +:+ lf +:+ r
  end.
Proof.
  induction s as [|c s IH]; simpl; [done|].
  destruct (Ascii.eqb c LF) eqn:Ec.
  - apply Ascii.eqb_eq in Ec as ->. destruct (drain_lines s); simpl. split; [done|]. split; [lia|done].
  - destruct (split_line s) as [[l r]|].
    + destruct IH as (-> & ? & Heq). simpl. split; [done|]. split; [lia|]. by rewrite Heq at 1.
    + by rewrite IH.
Qed.

(* ------------------------------------------------------------------ *)
(** ** Lemmas on lists *)

Definition count_if {A} (p : A -> bool) (l : list A) : nat := length (List.filter p l).

(** The last element that satisfies a predicate. *)
Definition find_last {A} (p : A -> bool) (l : list A) : option A := List.find p (rev l).

Lemma find_last_snoc {A} (p : A -> bool) l x :
  find_last p (l ++ [x]) = if p x then Some x else find_last p l.
Proof. unfold find_last. by rewrite rev_app_distr. Qed.

Lemma find_last_cons {A} (p : A -> bool) x l :
  find_last p (x :: l) = match find_last p l with Some y => Some y | None => if p x then Some x else None end.
Proof.
  unfold find_last. simpl. induction (rev l) as [|y l' IH]; simpl; [done|]. by destruct (p y).
Qed.

Lemma find_last_Some {A} (p : A -> bool) l x : find_last p l = Some x -> x ∈ l /\ p x = true.
Proof.
  unfold find_last. intros H. apply find_some in H as [Hin Hp]. split; [|done].
  apply list_elem_of_In. by apply in_rev.
Qed.

Lemma filter_ext_forall {A} (p q : A -> bool) (l : list A) :
  (forall x, x ∈ l -> p x = q x) -> List.filter p l = List.filter q l.
Proof.
  induction l as [|a l IH]; intros H; simpl; [done|].
  rewrite (H a) by set_solver. rewrite IH; [done|]. intros; apply H; set_solver.
Qed.

Lemma elem_filter_bool {A} (p : A -> bool) l (x : A) :
  x ∈ List.filter p l <-> x ∈ l /\ p x = true.
Proof. rewrite !list_elem_of_In. apply filter_In. Qed.

Lemma count_if_pos {A} (p : A -> bool) l :
  (1 <= count_if p l)%nat <-> exists x, x ∈ l /\ p x = true.
Proof.
  unfold count_if. split.
  - destruct (List.filter p l) as [|x l'] eqn:E; simpl; [lia|]. intros _. exists x.
    apply elem_filter_bool. rewrite E. set_solver.
  - intros (x & Hx). apply elem_filter_bool in Hx.
    destruct (List.filter p l); simpl; [set_solver|lia].
Qed.

(* ------------------------------------------------------------------ *)
(** ** DashMap and HashMap

    A [DashMap] or a [HashMap] is a finite map whose iteration order is
    unspecified: code that iterates is modelled over any enumeration
    [dash_iter] of the map. *)

Class DashIter (K V : Type) `{Countable K} := {
  dash_iter : gmap K V -> list (K * V);
  dash_iter_perm : forall m, dash_iter m ≡ₚ map_to_list m
}.

(** The enumeration used by concrete examples. *)
Definition dash_iter_by_key (K V : Type) `{Countable K} : DashIter K V :=
  {| dash_iter := map_to_list; dash_iter_perm := fun m => reflexivity _ |}.

Lemma dash_iter_nodup {K V} `{Countable K} {D : DashIter K V} (m : gmap K V) : NoDup (dash_iter m).*1.
Proof. rewrite dash_iter_perm. apply NoDup_fst_map_to_list. Qed.

(** A check run on every element, stopping at the first error, as a [for] loop
    with early returns does. *)
Fixpoint check_all {A E} (f : A -> Result unit E) (l : list A) : Result unit E :=
  match l with [] => Ok tt | x :: l' => let? _ := f x in check_all f l' end.

Lemma check_all_ok {A E} (f : A -> Result unit E) l :
  is_ok (check_all f l) = true <-> Forall (fun x => is_ok (f x) = true) l.
Proof.
  induction l as [|x l IH]; simpl; [by split|]. rewrite Forall_cons, <- IH.
  destruct (f x); simpl; naive_solver.
Qed.

Lemma dash_iter_elem {K V} `{Countable K} {D : DashIter K V} (m : gmap K V) k v :
  (k, v) ∈ dash_iter m <-> m !! k = Some v.
Proof. rewrite dash_iter_perm. apply elem_of_map_to_list. Qed.

(* ------------------------------------------------------------------ *)
(** ** Floating point

    A finite [f64] is read as the rational it denotes; every operation rounds
    its exact result with [rnd], the rounding of IEEE 754 binary64, which the
    hardware provides. *)

Class F64 := { rnd : Q -> Q }.

Definition f64_of_Z `{F64} (z : Z) : Q := rnd (inject_Z z).
Definition fadd `{F64} (a b : Q) : Q := rnd (a + b).
Definition fsub `{F64} (a b : Q) : Q := rnd (a - b).
Definition fmul `{F64} (a b : Q) : Q := rnd (a * b).
Definition fdiv `{F64} (a b : Q) : Q := rnd (a / b).
Definition fmin (a b : Q) : Q := if Qle_bool a b then a else b.

(** Documented properties of the rounding: it is monotone, and integers up to
    2^53 are representable. *)
Class F64Laws `{F64} : Prop := {
  rnd_mono : forall x y, (x <= y)%Q -> (rnd x <= rnd y)%Q;
  rnd_int : forall n, 0 <= n <= 2 ^ 53 -> (rnd (inject_Z n) == inject_Z n)%Q
}.

(** Exact arithmetic: the reading in which no rounding happens. *)
Definition exact_f64 : F64 := {| rnd := fun x => x |}.
Lemma exact_f64_laws : @F64Laws exact_f64.
Proof. constructor; simpl; [done|]. intros; reflexivity. Qed.

Lemma rnd_nonneg `{F64Laws} x : (0 <= x)%Q -> (0 <= rnd x)%Q.
Proof.
  intros Hx. apply rnd_mono in Hx. pose proof (rnd_int 0 ltac:(lia)) as Hz.
  change (inject_Z 0) with 0%Q in Hz. lra.
Qed.

Lemma fmin_le_l a b : (fmin a b <= a)%Q.
Proof. unfold fmin. destruct (Qle_bool a b) eqn:E; [lra|]. destruct (Qlt_le_dec b a); [lra|].
  apply Qle_bool_iff in q. congruence. Qed.
Lemma fmin_le_r a b : (fmin a b <= b)%Q.
Proof. unfold fmin. destruct (Qle_bool a b) eqn:E; [by apply Qle_bool_iff|lra]. Qed.
Lemma fmin_glb a b c : (c <= a)%Q -> (c <= b)%Q -> (c <= fmin a b)%Q.
Proof. unfold fmin. by destruct (Qle_bool a b). Qed.

(** ** SHA-256, from the sha2 crate: 32 bytes for every input. *)
Class Digest := { sha256 : string -> string }.

(* ------------------------------------------------------------------ *)
(** ** Collecting *)

(** [iter.map(f).collect::<Result<Vec<_>, _>>()] *)
Fixpoint collect {A B E} (f : A -> Result B E) (l : list A) : Result (list B) E :=
  match l with
  | [] => Ok []
  | x :: l' => let? y := f x in let? ys := collect f l' in Ok (y :: ys)
  end.

(** [rows.into_iter().map(f).collect::<HashMap<_, _>>()]: the last row wins. *)
Definition collect_map {A} (l : list (string * A)) : gmap string A :=
  foldl (fun m kv => <[kv.1 := kv.2]> m) ∅ l.

Lemma collect_map_lookup {A} (l : list (string * A)) k v :
  NoDup l.*1 -> (collect_map l !! k = Some v <-> (k, v) ∈ l).
Proof.
  intros Hn. unfold collect_map.
  assert (forall m : gmap string A, (foldl (fun m kv => <[kv.1 := kv.2]> m) m l !! k = Some v)
                    <-> ((k, v) ∈ l \/ ((k ∉ l.*1) /\ m !! k = Some v))) as H.
  { induction l as [|[k' v'] l IH]; intros m; csimpl; [set_solver|]. apply NoDup_cons in Hn as [Hk Hn]. rewrite IH by done.
    rewrite elem_of_cons, not_elem_of_cons. destruct (decide (k = k')) as [->|Hne].
    - rewrite lookup_insert_eq. split; [|naive_solver].
      intros [H|[_ [= ->]]]; [by left; right|by left; left].
    - rewrite lookup_insert_ne by done. naive_solver. }
  rewrite H, lookup_empty. naive_solver.
Qed.

Lemma collect_ok {A B E} (f : A -> Result B E) l :
  is_ok (collect f l) = true <-> Forall (fun x => is_ok (f x) = true) l.
Proof.
  induction l as [|x l IH]; cbn; [by rewrite Forall_nil|]. rewrite Forall_cons, <- IH.
  destruct (f x); cbn; [|naive_solver]. destruct (collect f l); cbn; naive_solver.
Qed.

Lemma collect_map_ok {A B E} (f : A -> Result B E) g l :
  Forall (fun x => f x = Ok (g x)) l -> collect f l = Ok (g <$> l).
Proof. induction 1 as [|x l Hx Hl IH]; cbn; [done|]. by rewrite Hx, IH. Qed.

Lemma collect_yields {A B E} (f : A -> Result B E) P l ys :
  (forall x y, f x = Ok y -> P y) -> collect f l = Ok ys -> Forall P ys.
Proof.
  intros H. revert ys. induction l as [|x l IH]; cbn; intros ys; [intros [= <-]; constructor|].
  destruct (f x) eqn:E1; [|done]. destruct (collect f l); [|done]. intros [= <-]. constructor; eauto.
Qed.

Lemma collect_map_forall {A} (P : A -> Prop) l (m : gmap string A) : Forall (fun kv => P kv.2) l -> map_Forall (fun _ a => P a) m ->
  map_Forall (fun _ a => P a) (foldl (fun m kv => <[kv.1 := kv.2]> m) m l).
Proof. intros Hl. revert m. induction Hl as [|kv l Hk _ IH]; intros m Hm; [done|]. apply IH. by apply map_Forall_insert_2. Qed.

(* ------------------------------------------------------------------ *)
(** ** Automation *)

(** Case analysis on every [match] and [if] of the goal, with the equations
    kept and contradictions closed. *)
Ltac case_all :=
  repeat (case_match; simplify_eq/=; try done).

(** Case analysis on the integer comparisons of the goal. *)
Ltac case_Z :=
  repeat match goal with
  | |- context [?a <=? ?b] => destruct (Z.leb_spec a b)
  | |- context [?a <? ?b] => destruct (Z.ltb_spec a b)
  | |- context [?a =? ?b] => destruct (Z.eqb_spec a b)
  end; simpl in *; try lia.

(** The same in a hypothesis. *)
Ltac case_hyp H :=
  repeat (let E := fresh "E" in
          match type of H with
          | context [match ?x with _ => _ end] => destruct x eqn:E; simplify_eq/=; try done
          end).

Create Rewrite HintDb strs.
#[global] Hint Rewrite app_nil_r_str : strs.
#[global] Hint Rewrite <- app_assoc_str : strs.
#[global] Hint Rewrite length_app_str length_drop_str length_take_str : strs.

Create HintDb gateway discriminated.
#[global] Hint Resolve wrap_range str_eqb_refl : gateway.
