(* ===== verification/Json.v ===== *)
(** * JSON values: [serde_json::Value] and [serde_json::Map]

    The gateway manipulates JSON as [serde_json::Value] trees.  The build has
    no [preserve_order] feature, so [Map] is a [BTreeMap]: an association list
    kept sorted by key, one entry per key.  Parsing and printing are done by
    the serde_json crate: they are the operations of the class [SerdeJson],
    a parameter of every definition that uses them. *)

From stdpp Require Import sorting.
From S2P Require Import Prelude.

(** [serde_json::Number]: an unsigned or negative 64-bit integer, or a float. *)
Inductive number : Type :=
| PosInt (z : Z)
| NegInt (z : Z)
| Float (q : Q).

#[warnings="-register-all"]
Inductive Value : Type :=
| Null
| Bool (b : bool)
| Number (n : number)
| Str (s : string)
| Array (l : list Value)
| Object (m : list (string * Value)).

Abbreviation Map := (list (string * Value)).

(** The JSON number of a Rust integer. *)
Definition json_int (z : Z) : Value := Number (if z <? 0 then NegInt z else PosInt z).

(** ** [Map] operations *)

Fixpoint map_get (k : string) (m : Map) : option Value :=
  match m with
  | [] => None
  | (k', v) :: m' => if bool_decide (k = k') then Some v else map_get k m'
  end.

(** [BTreeMap::insert] *)
Fixpoint map_insert (k : string) (v : Value) (m : Map) : Map :=
  match m with
  | [] => [(k, v)]
  | (k', v') :: m' =>
      match String.compare k k' with
      | Eq => (k, v) :: m'
      | Lt => (k, v) :: (k', v') :: m'
      | Gt => (k', v') :: map_insert k v m'
      end
  end.

(** [BTreeMap::remove] *)
Definition map_remove (k : string) (m : Map) : Map :=
  List.filter (fun kv => negb (bool_decide (k = kv.1))) m.

(** [map.entry(k).or_insert(v)] *)
Definition map_or_insert (k : string) (v : Value) (m : Map) : Map :=
  match map_get k m with Some _ => m | None => map_insert k v m end.

Definition map_of_list (l : list (string * Value)) : Map :=
  foldl (fun m kv => map_insert kv.1 kv.2 m) [] l.

(** [json!({ ... })] with literal keys. *)
Definition obj (l : list (string * Value)) : Value := Object (map_of_list l).

(** ** [Value] accessors *)

Definition get (k : string) (v : Value) : option Value :=
  match v with Object m => map_get k m | _ => None end.

(** [v.pointer("/a/b")] for paths whose tokens are object keys (an array
    step needs a numeric token, which no path of the gateway has). *)
Fixpoint pointer (path : list string) (v : Value) : option Value :=
  match path with
  | [] => Some v
  | k :: path' => match get k v with Some v' => pointer path' v' | None => None end
  end.

Definition as_str (v : Value) : option string := match v with Str s => Some s | _ => None end.
Definition as_bool (v : Value) : option bool := match v with Bool b => Some b | _ => None end.
Definition as_array (v : Value) : option (list Value) := match v with Array l => Some l | _ => None end.
Definition as_object (v : Value) : option Map := match v with Object m => Some m | _ => None end.
Definition is_object (v : Value) : bool := match v with Object _ => true | _ => false end.
Definition is_null (v : Value) : bool := match v with Null => true | _ => false end.

Definition as_u64 (v : Value) : option Z :=
  match v with Number (PosInt n) => Some n | _ => None end.

Definition as_i64 (v : Value) : option Z :=
  match v with
  | Number (PosInt n) => if n <? 2 ^ 63 then Some n else None
  | Number (NegInt n) => Some n
  | _ => None
  end.

Definition as_f64 (v : Value) : option Q :=
  match v with
  | Number (PosInt n) => Some (inject_Z n)
  | Number (NegInt n) => Some (inject_Z n)
  | Number (Float q) => Some q
  | _ => None
  end.

(** [opt.and_then(|v| v.get(k))] chains. *)
Definition get_str (k : string) (v : Value) : option string := get k v ≫= as_str.

(** ** The serde_json crate *)

Class SerdeJson := {
  (** [serde_json::from_str::<Value>]: [None] for any parse error. *)
  from_str : string -> option Value;
  (** [serde_json::to_string] of a [Value]. *)
  to_string : Value -> string
}.

(** ** Laws of [Map] *)

Lemma compare_refl_str (a : string) : String.compare a a = Eq.
Proof. induction a as [|c a IH]; simpl; [done|]. unfold Ascii.compare. by rewrite N.compare_refl. Qed.

Lemma compare_ne_str (a b : string) : String.compare a b ≠ Eq -> a ≠ b.
Proof. intros H ->. by rewrite compare_refl_str in H. Qed.

Lemma map_get_In k v m : map_get k m = Some v -> In (k, v) m.
Proof.
  induction m as [|[k' v'] m IH]; simpl; [done|]. case_bool_decide as E; [|auto].
  intros [= ->]. left. by subst.
Qed.

Lemma map_get_insert_eq k v m : map_get k (map_insert k v m) = Some v.
Proof.
  induction m as [|[k' v'] m IH]; simpl; [by rewrite bool_decide_true|].
  destruct (String.compare k k') eqn:E; simpl.
  1,2: by rewrite bool_decide_true.
  rewrite bool_decide_false; [done|]. apply compare_ne_str. by rewrite E.
Qed.

Lemma map_get_insert_ne k k' v m : k ≠ k' -> map_get k' (map_insert k v m) = map_get k' m.
Proof.
  intros Hne. induction m as [|[k2 v2] m IH]; simpl.
  - rewrite bool_decide_false by congruence. done.
  - destruct (String.compare k k2) eqn:E; simpl.
    + apply String.compare_eq_iff in E as ->. by rewrite !bool_decide_false by congruence.
    + by rewrite (bool_decide_false (k' = k)) by congruence.
    + by rewrite IH.
Qed.

Lemma map_get_remove_eq k m : map_get k (map_remove k m) = None.
Proof.
  induction m as [|[k' v'] m IH]; simpl; [done|].
  destruct (bool_decide (k = k')) eqn:E; simpl; [done|]. by rewrite E.
Qed.

Lemma map_get_remove_ne k k' m : k ≠ k' -> map_get k' (map_remove k m) = map_get k' m.
Proof.
  intros Hne. induction m as [|[k2 v2] m IH]; simpl; [done|].
  destruct (bool_decide (k = k2)) eqn:E; simpl.
  - apply bool_decide_eq_true in E as <-. by rewrite bool_decide_false by congruence.
  - by rewrite IH.
Qed.

Lemma map_get_or_insert k k' v m :
  map_get k' (map_or_insert k v m) =
  match map_get k' m with
  | Some w => Some w
  | None => if bool_decide (k = k') then Some v else None
  end.
Proof.
  unfold map_or_insert. destruct (decide (k = k')) as [<-|Hne].
  - rewrite bool_decide_true by done. destruct (map_get k m) eqn:E; [done|]. apply map_get_insert_eq.
  - rewrite bool_decide_false by done. destruct (map_get k m).
    + by destruct (map_get k' m).
    + rewrite map_get_insert_ne by done. by destruct (map_get k' m).
Qed.

#[global] Hint Rewrite map_get_insert_eq map_get_remove_eq : strs.

Lemma ascii_compare_trans a b c : Ascii.compare a b = Lt -> Ascii.compare b c = Lt -> Ascii.compare a c = Lt.
Proof. unfold Ascii.compare. rewrite !N.compare_lt_iff. lia. Qed.

Lemma str_compare_trans a b c : String.compare a b = Lt -> String.compare b c = Lt -> String.compare a c = Lt.
Proof.
  revert b c; induction a as [|x a IH]; intros [|y b] [|z c]; cbn; try done.
  destruct (Ascii.compare x y) eqn:E1; [|intros _|done]; (destruct (Ascii.compare y z) eqn:E2; [| |done]).
  - apply Ascii.compare_eq_iff in E1, E2. subst. unfold Ascii.compare. rewrite N.compare_refl. apply IH.
  - intros _ _. apply Ascii.compare_eq_iff in E1. subst. by rewrite E2.
  - intros _. apply Ascii.compare_eq_iff in E2. subst. by rewrite E1.
  - intros _. by rewrite (ascii_compare_trans _ _ _ E1 E2).
Qed.

(** ** Sorted maps *)

Definition before (a b : string * Value) : Prop := String.compare a.1 b.1 = Lt.

Lemma map_insert_keys (P : string * Value -> Prop) k v m : P (k, v) -> Forall P m -> Forall P (map_insert k v m).
Proof.
  intros Hk Hm. induction Hm as [|[k' v'] m H' Hm IH]; cbn; [by constructor|].
  destruct (String.compare k k'); constructor; auto.
Qed.
Lemma map_of_list_forall (P : string * Value -> Prop) l : Forall P l -> Forall P (map_of_list l).
Proof.
  unfold map_of_list. intros Hl. assert (forall m, Forall P m -> Forall P (foldl (fun m kv => map_insert kv.1 kv.2 m) m l)) as H; [|by apply H].
  induction Hl as [|[k v] l Hk _ IH]; intros m Hm; [done|]. apply IH. by apply map_insert_keys.
Qed.

Lemma map_insert_sorted k v m : StronglySorted before m -> StronglySorted before (map_insert k v m).
Proof.
  induction 1 as [|[k' v'] m Hs IH Hf]; cbn; [repeat constructor|]. destruct (String.compare k k') eqn:E.
  - apply String.compare_eq_iff in E as ->. by constructor.
  - constructor; [by constructor|]. constructor; [done|]. eapply Forall_impl; [exact Hf|]. intros [k2 v2]. unfold before. cbn. by apply str_compare_trans.
  - constructor; [done|]. apply map_insert_keys; [|done]. unfold before. cbn. rewrite String.compare_antisym, E. done.
Qed.
Lemma map_of_list_sorted l : StronglySorted before (map_of_list l).
Proof.
  unfold map_of_list. assert (forall m, StronglySorted before m -> StronglySorted before (foldl (fun m kv => map_insert kv.1 kv.2 m) m l)) as H.
  - induction l as [|[k v] l IH]; intros m Hm; [done|]. apply IH. by apply map_insert_sorted.
  - apply H. constructor.
Qed.

Lemma map_insert_last k v m : Forall (fun kv => before kv (k, v)) m -> map_insert k v m = m ++ [(k, v)].
Proof.
  induction 1 as [|[k' v'] m H _ IH]; [done|]. cbn. unfold before in H. cbn in H. rewrite String.compare_antisym, H. cbn. by rewrite IH.
Qed.
Lemma map_of_sorted m : StronglySorted before m -> map_of_list m = m.
Proof.
  unfold map_of_list. intros Hs. change m with ([] ++ m) at 2. assert (StronglySorted before ([] ++ m)) as H by done. clear Hs. revert H.
  generalize (@nil (string * Value)) as acc. induction m as [|[k v] m IH]; intros acc H; [by rewrite app_nil_r|]. cbn.
  rewrite map_insert_last.
  - rewrite IH; [by rewrite <- app_assoc|by rewrite <- app_assoc].
  - apply Forall_forall. intros kv Hin. eapply (StronglySorted_app_1_elem_of _ acc); [exact H|done|by left].
Qed.

(** Induction on the values inside a value. *)
Section ValueInd.
Context (P : Value -> Prop) (Hnull : P Null) (Hbool : forall b, P (Bool b)) (Hnum : forall n, P (Number n)) (Hstr : forall s, P (Str s)).
Context (Harr : forall l, Forall P l -> P (Array l)) (Hobj : forall m, Forall (fun kv => P kv.2) m -> P (Object m)).
Fixpoint value_ind (v : Value) : P v :=
  match v with
  | Null => Hnull | Bool b => Hbool b | Number n => Hnum n | Str s => Hstr s
  | Array l => Harr l ((fix go (l : list Value) : Forall P l := match l with [] => Forall_nil_2 _ | x :: l' => Forall_cons_2 _ _ _ (value_ind x) (go l') end) l)
  | Object m => Hobj m ((fix go (m : Map) : Forall (fun kv => P kv.2) m := match m with [] => Forall_nil_2 _ | kv :: m' => Forall_cons_2 (fun kv => P kv.2) _ _ (value_ind kv.2) (go m') end) m)
  end.
End ValueInd.
