(* ===== verification/Serde.v ===== *)
(** * serde: derived decoders and encoders

    The types of the gateway that are read from JSON or YAML carry
    [#[derive(Deserialize)]], those that are written [#[derive(Serialize)]]; what
    the derived code does is fixed by the fields and their attributes.  This file
    has the pieces of such code: serde's data model as the class [Deserializer],
    fields with their attributes and the visitor over the entries of a mapping,
    the instance for JSON trees, and the entries an encoder writes.  The decoders
    of the program's types, in [Wire], [AdminBodies] and [ConfigFile], are put together of
    them, one definition per type.

    The lemmas say what a decoder yields (composed field by field by [fill_struct]),
    when a visitor takes a mapping, that it does not depend on the order of the
    entries, and how a decoder reads back what an encoder wrote. *)

From S2P Require Import Prelude Json.

(** An [f64] that may come from YAML as [.inf] or [.nan]. *)
Inductive yaml_f64 : Type := Finite (q : Q) | Infinite | NaN.

(** ** serde's data model *)

(** What a node of a document can be read as.  The texts of the errors depend on
    the node (its place in the document). *)
Class Deserializer (D : Type) := {
  (** the entries of a mapping read as a struct with these fields, each with
      whether it has a [#[serde(default)]] *)
  de_struct : list (string * bool) -> D -> Result (list (string * D)) string;
  (** the entries of a mapping with string keys *)
  de_map : D -> Result (list (string * D)) string;
  de_seq : D -> Result (list D) string;
  (** null is nothing *)
  de_option : D -> Result (option D) string;
  de_string : D -> Result string string;
  de_bool : D -> Result bool string;
  (** an integer of any width *)
  de_integer : D -> Result Z string;
  de_f64 : D -> Result yaml_f64 string;
  (** an [f64] where the program has finite numbers *)
  de_finite : D -> Result Q string;
  (** the name of a variant without data *)
  de_variant : D -> Result string string;
  (** [serde_json::Value] *)
  de_value : D -> Result Value string;
  missing_field : D -> string -> string;
  duplicate_field : D -> string -> string;
  unknown_variant : D -> string -> list string -> string;
  invalid_integer : D -> Z -> string
}.

(** ** Derived decoders *)

Section Derive.
Context {D : Type} `{DE : Deserializer D}.

Definition entry (k : string) (es : list (string * D)) : option D := snd <$> List.find (fun kv => str_eqb k kv.1) es.

(** A field the visitor knows: its name, whether it has a default, its decoder. *)
Record Known := mkKnown { kn_name : string; kn_default : bool; kn_check : D -> Result unit string }.

(** The derived visitor of a struct: the fields it knows, and the value it makes of
    the entries of a node. *)
Record Fields (A : Type) := mkFields {
  fl_known : list Known;
  fl_build : D -> list (string * D) -> Result A string
}.
Arguments mkFields {A}.
Arguments fl_known {A}.
Arguments fl_build {A}.

Definition tried {A} (f : D -> Result A string) (d : D) : Result unit string := let? _ := f d in Ok tt.

Definition made {A} (a : A) : Fields A := mkFields [] (fun _ _ => Ok a).
Definition with_field {A B} (pf : Fields (A -> B)) (pa : Fields A) : Fields B :=
  mkFields (fl_known pf ++ fl_known pa)
    (fun d es => let? f := fl_build pf d es in let? a := fl_build pa d es in Ok (f a)).

(** A field that must be there. *)
Definition required {A} (k : string) (f : D -> Result A string) : Fields A :=
  mkFields [mkKnown k false (tried f)]
    (fun d es => match entry k es with Some v => f v | None => Err (missing_field d k) end).
(** A field with a value for when it is not there; [attr] says whether that is a
    [#[serde(default)]] or the [None] of an [Option<T>]. *)
Definition absent_is {A} (attr : bool) (k : string) (a : A) (f : D -> Result A string) : Fields A :=
  mkFields [mkKnown k attr (tried f)] (fun d es => match entry k es with Some v => f v | None => Ok a end).
Definition defaulted {A} (k : string) (a : A) (f : D -> Result A string) : Fields A := absent_is true k a f.
(** [Option<T>] *)
Definition nullable {A} (f : D -> Result A string) (d : D) : Result (option A) string :=
  let? o := de_option d in
  match o with None => Ok None | Some d' => let? a := f d' in Ok (Some a) end.
Definition optional {A} (k : string) (f : D -> Result A string) : Fields (option A) := absent_is false k None (nullable f).
(** [#[serde(default)] Option<T>] *)
Definition optional_default {A} (k : string) (f : D -> Result A string) : Fields (option A) := absent_is true k None (nullable f).

Definition find_known (known : list Known) (k : string) : option Known := List.find (fun kn => str_eqb k (kn_name kn)) known.

(** The entries come in the order of the document: a known field is decoded when
    it comes, and only once; what is not known is skipped. *)
Fixpoint visit (d : D) (known : list Known) (seen : list string) (es : list (string * D)) : Result unit string :=
  match es with
  | [] => Ok tt
  | (k, v) :: es' =>
      match find_known known k with
      | None => visit d known seen es'
      | Some kn =>
          if existsb (str_eqb k) seen then Err (duplicate_field d k)
          else let? _ := kn_check kn v in visit d known (k :: seen) es'
      end
  end.

Definition field_names (known : list Known) : list (string * bool) := (fun kn => (kn_name kn, kn_default kn)) <$> known.

Definition struct_of {A} (p : Fields A) (d : D) : Result A string :=
  let? es := de_struct (field_names (fl_known p)) d in
  let? _ := visit d (fl_known p) [] es in
  fl_build p d es.

(** The entries of the fields that are known, and the others. *)
Definition is_known (known : list Known) (k : string) : bool := is_some (find_known known k).
Definition known_entries (known : list Known) (es : list (string * D)) : list (string * D) :=
  List.filter (fun kv => is_known known kv.1) es.
Definition other_entries (known : list Known) (es : list (string * D)) : list (string * D) :=
  List.filter (fun kv => negb (is_known known kv.1)) es.

(** [#[serde(flatten)]] on a last field of type [serde_json::Value]: the entries that
    are not known are collected in an object. *)
Definition flat_struct {A} (p : Fields (Value -> A)) (d : D) : Result A string :=
  let? es := de_map d in
  let? _ := visit d (fl_known p) [] es in
  let? f := fl_build p d es in
  let? rest := collect (fun kv => let? v := de_value kv.2 in Ok (kv.1, v)) (other_entries (fl_known p) es) in
  Ok (f (Object (map_of_list rest))).

(** [Vec<T>] and [HashMap<String, T>], in which the last of two equal keys counts. *)
Definition seq_of {A} (f : D -> Result A string) (d : D) : Result (list A) string :=
  let? l := de_seq d in collect f l.
Definition map_of {A} (f : D -> Result A string) (d : D) : Result (gmap string A) string :=
  let? es := de_map d in
  let? l := collect (fun kv => let? a := f kv.2 in Ok (kv.1, a)) es in
  Ok (collect_map l).

Definition ranged (lo hi : Z) (d : D) : Result Z string :=
  let? z := de_integer d in if (lo <=? z) && (z <? hi) then Ok z else Err (invalid_integer d z).
Definition de_u16 : D -> Result Z string := ranged 0 (2 ^ 16).
Definition de_u32 : D -> Result Z string := ranged 0 (2 ^ 32).
(** [u64] and [usize] *)
Definition de_u64 : D -> Result Z string := ranged 0 (2 ^ 64).
Definition de_i32 : D -> Result Z string := ranged (- 2 ^ 31) (2 ^ 31).
Definition de_i64 : D -> Result Z string := ranged (- 2 ^ 63) (2 ^ 63).
End Derive.
Arguments Known D : clear implicits.
Arguments Fields D A : clear implicits.
Arguments fl_known {D A}.
Arguments fl_build {D A}.

Notation "p <*> q" := (with_field p q) (at level 61, left associativity) : rust_scope.

(** ** JSON trees

    A tree as a text has it: the entries of an object in their order, a name
    perhaps more than once.  [serde_json::Value] keeps the last of them, sorted. *)

Fixpoint normal (v : Value) : Value :=
  match v with
  | Array l => Array (map normal l)
  | Object m => Object (map_of_list (map (fun kv => (kv.1, normal kv.2)) m))
  | v => v
  end.

Lemma normal_idem v : normal (normal v) = normal v.
Proof.
  induction v as [| | | |l Hl|m Hm] using value_ind; try done; cbn [normal].
  - f_equal. rewrite map_map. induction Hl as [|x l Hx _ IH]; [done|]. cbn. by rewrite Hx, IH.
  - f_equal. set (l := map _ m). assert (Forall (fun kv => normal kv.2 = kv.2) (map_of_list l)) as Hf.
    { apply map_of_list_forall. unfold l. clear l. induction Hm as [|kv m Hk _ IH]; constructor; done. }
    replace (map _ (map_of_list l)) with (map_of_list l); [apply map_of_sorted, map_of_list_sorted|].
    induction Hf as [|[k v] m' Hk _ IH]; [done|]. cbn in *. by rewrite Hk, <- IH.
Qed.

(** The texts of serde_json's errors. *)
Class JsonErrors := {
  je_type : Value -> string -> string;
  je_missing : Value -> string -> string;
  je_duplicate : Value -> string -> string;
  je_variant : Value -> string -> list string -> string;
  je_range : Value -> Z -> string
}.

(** An array is read as a struct in the order of the fields: what it does not
    reach must have a default. *)
Definition array_entries (fields : list (string * bool)) (l : list Value) : option (list (string * Value)) :=
  if (length fields <? length l)%nat then None
  else if forallb snd (drop (length l) fields) then Some (zip fields.*1 l) else None.

#[export] Instance json_deserializer `{JE : JsonErrors} `{FL : F64} : Deserializer Value := {|
  de_struct fields v :=
    match v with
    | Object m => Ok m
    | Array l => ok_or (array_entries fields l) (je_type v "a struct")
    | _ => Err (je_type v "a struct")
    end;
  de_map v := match v with Object m => Ok m | _ => Err (je_type v "a map") end;
  de_seq v := match v with Array l => Ok l | _ => Err (je_type v "a sequence") end;
  de_option v := Ok (if is_null v then None else Some v);
  de_string v := ok_or (as_str v) (je_type v "a string");
  de_bool v := ok_or (as_bool v) (je_type v "a boolean");
  de_integer v := match v with Number (PosInt n) | Number (NegInt n) => Ok n | _ => Err (je_type v "an integer") end;
  de_f64 v :=
    match v with
    | Number (Float q) => Ok (Finite q)
    | Number (PosInt n) | Number (NegInt n) => Ok (Finite (f64_of_Z n))
    | _ => Err (je_type v "f64")
    end;
  de_finite v :=
    match v with
    | Number (Float q) => Ok q
    | Number (PosInt n) | Number (NegInt n) => Ok (f64_of_Z n)
    | _ => Err (je_type v "f64")
    end;
  de_variant v :=
    match v with
    | Str s => Ok s
    | Object [(s, Null)] => Ok s
    | _ => Err (je_type v "string or map")
    end;
  de_value v := Ok (normal v);
  missing_field := je_missing;
  duplicate_field := je_duplicate;
  unknown_variant := je_variant;
  invalid_integer := je_range
|}.

(** ** Derived encoders: the entries of a struct, in the order of its fields *)

Definition put (k : string) (v : Value) : list (string * Value) := [(k, v)].
(** [Option<T>]: null when there is nothing. *)
Definition put_option {A} (k : string) (f : A -> Value) (o : option A) : list (string * Value) :=
  [(k, match o with Some a => f a | None => Null end)].
(** [skip_serializing_if = "Option::is_none"] *)
Definition put_some {A} (k : string) (f : A -> Value) (o : option A) : list (string * Value) :=
  match o with Some a => [(k, f a)] | None => [] end.
Definition put_seq {A} (k : string) (f : A -> Value) (l : list A) : list (string * Value) := [(k, Array (f <$> l))].
Definition json_f64 (q : Q) : Value := Number (Float q).

(* ------------------------------------------------------------------ *)
(** ** What a decoder yields *)

Create HintDb decode.
Create Rewrite HintDb entries.

Section Yields.
Context {D : Type} `{DE : Deserializer D}.

Definition yields {A} (f : D -> Result A string) (P : A -> Prop) : Prop := forall d a, f d = Ok a -> P a.
Definition fills {A} (p : Fields D A) (P : A -> Prop) : Prop := forall d es a, fl_build p d es = Ok a -> P a.

Lemma yields_any {A} (f : D -> Result A string) : yields f (fun _ => True).
Proof. done. Qed.
Lemma yields_ranged lo hi : yields (ranged lo hi) (fun z => lo <= z < hi).
Proof.
  intros d z. unfold ranged. destruct (de_integer d) as [z0|]; [|done]. destruct (_ && _) eqn:E; [|done].
  apply andb_true_iff in E as [?%Z.leb_le ?%Z.ltb_lt]. by intros [= <-].
Qed.
Lemma yields_struct {A} (p : Fields D A) P : fills p P -> yields (struct_of p) P.
Proof. intros H d a. unfold struct_of. destruct (de_struct _ d); [|done]. destruct (visit _ _ _ _); [|done]. apply H. Qed.
Lemma yields_flat {A} (p : Fields D (Value -> A)) P : fills p (fun f => forall v, P (f v)) -> yields (flat_struct p) P.
Proof.
  intros H d a. unfold flat_struct. destruct (de_map d); [|done]. destruct (visit _ _ _ _); [|done]. destruct (fl_build p _ _) as [f|] eqn:E; [|done].
  destruct (collect _ _); [|done]. intros [= <-]. by eapply H.
Qed.
Lemma yields_seq {A} (f : D -> Result A string) P : yields f P -> yields (seq_of f) (Forall P).
Proof. intros H d a. unfold seq_of. destruct (de_seq d); [|done]. apply collect_yields, H. Qed.
Lemma yields_map {A} (f : D -> Result A string) P : yields f P -> yields (map_of f) (map_Forall (fun _ a => P a)).
Proof.
  intros H d m. unfold map_of. destruct (de_map d) as [es|]; [|done]. destruct (collect _ es) as [l|] eqn:E; [|done].
  intros [= <-]. apply collect_map_forall; [|apply map_Forall_empty]. eapply collect_yields; [|exact E].
  intros [k v] y. cbn. destruct (f v) eqn:Ef; [|done]. intros [= <-]. by eapply H.
Qed.
Lemma yields_nullable {A} (f : D -> Result A string) P : yields f P -> yields (nullable f) (fun o => forall a, o = Some a -> P a).
Proof.
  intros H d o. unfold nullable. destruct (de_option d) as [[d'|]|]; [| |done].
  - destruct (f d') eqn:E; [|done]. intros [= <-] a0 [= <-]. by eapply H.
  - intros [= <-]. done.
Qed.

Lemma fills_made {A} (a : A) (P : A -> Prop) : P a -> fills (made a) P.
Proof. intros H d es a' [= <-]. done. Qed.
Lemma fills_with {A B} (pf : Fields D (A -> B)) (pa : Fields D A) (P : A -> Prop) (Q : B -> Prop) :
  fills pa P -> fills pf (fun f => forall a, P a -> Q (f a)) -> fills (pf <*> pa) Q.
Proof.
  intros Ha Hf d es b. cbn. destruct (fl_build pf d es) eqn:E1; [|done]. destruct (fl_build pa d es) eqn:E2; [|done].
  intros [= <-]. by eapply Hf, Ha.
Qed.
Lemma fills_required {A} k (f : D -> Result A string) P : yields f P -> fills (required k f) P.
Proof. intros H d es a. cbn. destruct (entry k es); [apply H|done]. Qed.
Lemma fills_absent {A} b k a0 (f : D -> Result A string) (P : A -> Prop) : yields f P -> P a0 -> fills (absent_is b k a0 f) P.
Proof. intros H H0 d es a. cbn. destruct (entry k es); [apply H|]. by intros [= <-]. Qed.
Lemma fills_option {A} b k (f : D -> Result A string) P :
  yields f P -> fills (absent_is b k None (nullable f)) (fun o => forall a, o = Some a -> P a).
Proof. intros H. apply fills_absent; [by apply yields_nullable|done]. Qed.
End Yields.

#[export] Hint Resolve yields_ranged yields_seq yields_map : decode.

(** One field after the other; of a field whose decoder promises nothing, nothing
    is kept. *)
Ltac yield := first [eassumption | solve [eauto 4 with decode] | apply yields_any].
Ltac fill :=
  first [ eapply fills_option; yield
        | eapply fills_absent; [yield|first [exact I | done | solve [repeat constructor; cbn; lia]]]
        | eapply fills_required; yield ].
Ltac fill_struct := apply yields_struct; repeat (eapply fills_with; [fill|]); apply fills_made; intros; repeat first [assumption | split].


(* ------------------------------------------------------------------ *)
(** ** The order of a mapping *)

Section Order.
Context {D : Type} `{DE : Deserializer D}.
Implicit Types (es : list (string * D)) (known : list (Known D)).

Lemma entry_elem k v es : NoDup es.*1 -> entry k es = Some v <-> (k, v) ∈ es.
Proof.
  unfold entry. induction es as [|[k' v'] es IH]; cbn; intros Hn.
  - split; [done|]. intros H. by apply not_elem_of_nil in H.
  - apply NoDup_cons in Hn as [Hk Hn]. destruct (str_eqb k k') eqn:E; cbn.
    + apply str_eqb_spec in E as <-. rewrite elem_of_cons. split; [intros [= ->]; by left|]. intros [[= <-]|H]; [done|].
      destruct Hk. by apply (list_elem_of_fmap_2 fst) in H.
    + rewrite IH by done. rewrite elem_of_cons. split; [by right|]. intros [[= <- <-]|H]; [|done]. by rewrite str_eqb_refl in E.
Qed.
Lemma entry_perm k es es' : NoDup es.*1 -> es ≡ₚ es' -> entry k es = entry k es'.
Proof.
  intros Hn Hp. assert (NoDup es'.*1) as Hn' by by rewrite <- Hp.
  apply option_eq. intros v. rewrite !entry_elem by done. by rewrite Hp.
Qed.

Lemma entry_known known k es : is_known known k = true -> entry k (known_entries known es) = entry k es.
Proof.
  intros Hk. unfold entry, known_entries. induction es as [|[k' v'] es IH]; [done|]. cbn [List.filter List.find fst].
  destruct (str_eqb k k') eqn:E.
  - apply str_eqb_spec in E as <-. rewrite Hk. cbn. by rewrite str_eqb_refl.
  - destruct (is_known known k'); cbn; [by rewrite E|done].
Qed.

Definition decodes known (kv : string * D) : Prop :=
  match find_known known kv.1 with Some kn => kn_check kn kv.2 = Ok tt | None => True end.

(** A mapping is taken when no known field comes twice and every one decodes. *)
Lemma visit_spec d known seen es :
  visit d known seen es = Ok tt <->
  NoDup (known_entries known es).*1 /\ Forall (fun k => k ∉ seen) (known_entries known es).*1 /\ Forall (decodes known) (known_entries known es).
Proof.
  unfold known_entries. revert seen. induction es as [|[k v] es IH]; intros seen; cbn [visit List.filter fst fmap list_fmap].
  - split; [intros _|done]. split_and!; constructor.
  - assert (is_known known k = is_some (find_known known k)) as -> by done.
    destruct (find_known known k) as [kn|] eqn:Ef; cbn [is_some]; [|apply IH].
    cbn [fmap list_fmap fst]. rewrite NoDup_cons, !Forall_cons. unfold decodes at 1. cbn [fst snd]. rewrite Ef.
    destruct (existsb (str_eqb k) seen) eqn:Es.
    + split; [done|]. intros (_ & [Hk _] & _). destruct Hk. apply existsb_exists in Es as (k' & Hin & <-%str_eqb_spec). by apply list_elem_of_In.
    + assert (k ∉ seen) as Hk.
      { intros Hin. apply not_true_iff_false in Es. destruct Es. apply existsb_exists. exists k. split; [by apply list_elem_of_In|apply str_eqb_refl]. }
      destruct (kn_check kn v) as [[]|e] eqn:Efv; [|naive_solver]. rewrite IH. rewrite !Forall_forall. setoid_rewrite not_elem_of_cons.
      split; [intros (Hn & Hs & Hd)|intros ([Hn1 Hn] & [_ Hs] & [_ Hd])]; split_and!; try done.
      * intros H. by destruct (Hs k H).
      * intros x Hx. by apply Hs.
      * intros x Hx. split; [|by apply Hs]. intros ->. done.
Qed.

(** What a struct makes of a mapping depends on the values of its own fields. *)
Definition local {A} (p : Fields D A) : Prop :=
  forall d d' es es' a, (forall k, k ∈ kn_name <$> fl_known p -> entry k es = entry k es') -> fl_build p d es = Ok a -> fl_build p d' es' = Ok a.
Lemma local_made {A} (a : A) : local (made a).
Proof. by intros d d' es es' a' _. Qed.
Lemma local_with {A B} (pf : Fields D (A -> B)) pa : local pf -> local pa -> local (pf <*> pa).
Proof.
  intros Hf Ha d d' es es' b H. cbn [fl_known with_field] in H. setoid_rewrite fmap_app in H. setoid_rewrite elem_of_app in H.
  cbn [fl_build with_field]. destruct (fl_build pf d es) as [f|] eqn:E1; [|done]. destruct (fl_build pa d es) as [a|] eqn:E2; [|done].
  by rewrite (Hf d d' es es' f), (Ha d d' es es' a); auto.
Qed.
Lemma local_required {A} k (f : D -> Result A string) : local (required k f).
Proof. intros d d' es es' a H. cbn. rewrite <- (H k) by by left. by destruct (entry k es). Qed.
Lemma local_absent {A} b k a (f : D -> Result A string) : local (absent_is b k a f).
Proof. intros d d' es es' a' H. cbn. rewrite <- (H k) by by left. done. Qed.

Lemma names_known known k : k ∈ kn_name <$> known -> is_known known k = true.
Proof.
  unfold is_known, find_known. induction known as [|kn known IH]; cbn; [intros H; by apply not_elem_of_nil in H|].
  rewrite elem_of_cons. destruct (str_eqb k (kn_name kn)) eqn:E; [done|]. intros [->|H]; [by rewrite str_eqb_refl in E|auto].
Qed.

Lemma struct_order {A} (p : Fields D A) d d' es es' a : local p ->
  de_struct (field_names (fl_known p)) d = Ok es -> de_struct (field_names (fl_known p)) d' = Ok es' ->
  known_entries (fl_known p) es ≡ₚ known_entries (fl_known p) es' -> struct_of p d = Ok a -> struct_of p d' = Ok a.
Proof.
  intros Hl Hd Hd' Hp. unfold struct_of. rewrite Hd, Hd'. destruct (visit d _ _ es) as [[]|] eqn:Ev; [|done].
  apply visit_spec in Ev as (Hn & Hs & Hf). assert (visit d' (fl_known p) [] es' = Ok tt) as ->.
  { apply visit_spec. by rewrite <- Hp. }
  apply Hl. intros k Hk%names_known. rewrite <- (entry_known _ _ _ Hk), <- (entry_known (fl_known p) k es') by done. by apply entry_perm.
Qed.

(** ** Reading back *)

(** The value a struct makes of entries, whatever the node. *)
Definition makes {A} (p : Fields D A) es (a : A) : Prop := forall d, fl_build p d es = Ok a.

Lemma makes_made {A} (a : A) es : makes (made a) es a.
Proof. done. Qed.
Lemma makes_with {A B} (pf : Fields D (A -> B)) pa es f a : makes pf es f -> makes pa es a -> makes (pf <*> pa) es (f a).
Proof. intros Hf Ha d. cbn. by rewrite Hf, Ha. Qed.
Lemma makes_required {A} k (f : D -> Result A string) es v a : entry k es = Some v -> f v = Ok a -> makes (required k f) es a.
Proof. intros He Hf d. cbn. by rewrite He. Qed.
Lemma makes_present {A} b k a0 (f : D -> Result A string) es v a : entry k es = Some v -> f v = Ok a -> makes (absent_is b k a0 f) es a.
Proof. intros He Hf d. cbn. by rewrite He. Qed.
Lemma makes_option {A} b k (f : D -> Result A string) (enc : A -> D) es o : entry k es = enc <$> o ->
  (forall a, o = Some a -> nullable f (enc a) = Ok (Some a)) -> makes (absent_is b k None (nullable f)) es o.
Proof. intros He Hf d. cbn. rewrite He. destruct o as [a|]; [by apply Hf|done]. Qed.

(** A decoder checks its fields as it makes its value of them. *)
Definition covers {A} (p : Fields D A) : Prop :=
  forall d es a, fl_build p d es = Ok a -> Forall (fun kn => forall v, entry (kn_name kn) es = Some v -> kn_check kn v = Ok tt) (fl_known p).
Lemma covers_made {A} (a : A) : covers (made a).
Proof. intros d es a' _. constructor. Qed.
Lemma covers_with {A B} (pf : Fields D (A -> B)) pa : covers pf -> covers pa -> covers (pf <*> pa).
Proof.
  intros Hf Ha d es b. cbn. destruct (fl_build pf d es) eqn:E1; [|done]. destruct (fl_build pa d es) eqn:E2; [|done]. intros _.
  apply Forall_app. eauto.
Qed.
Lemma covers_required {A} k (f : D -> Result A string) : covers (required k f).
Proof. intros d es a. cbn. intros H. repeat constructor. cbn. intros v Hv. rewrite Hv in H. unfold tried. by rewrite H. Qed.
Lemma covers_absent {A} b k a0 (f : D -> Result A string) : covers (absent_is b k a0 f).
Proof. intros d es a. cbn. intros H. repeat constructor. cbn. intros v Hv. rewrite Hv in H. unfold tried. by rewrite H. Qed.

Lemma find_known_elem known k kn : find_known known k = Some kn -> kn ∈ known /\ kn_name kn = k.
Proof. intros [Hin Hk%str_eqb_spec]%find_some. split; [by apply list_elem_of_In|done]. Qed.

Lemma visit_covered {A} (p : Fields D A) d es a : covers p -> NoDup (known_entries (fl_known p) es).*1 ->
  fl_build p d es = Ok a -> visit d (fl_known p) [] es = Ok tt.
Proof.
  intros Hc Hn Hb. apply visit_spec. split; [done|]. split; [apply Forall_forall; intros k _; apply not_elem_of_nil|].
  apply Forall_forall. intros [k v] Hin. unfold decodes. cbn [fst snd]. destruct (find_known _ k) as [kn|] eqn:Ek; [|done].
  apply find_known_elem in Ek as [Hkn <-]. pose proof (Hc _ _ _ Hb) as Hf. rewrite Forall_forall in Hf. apply (Hf kn Hkn).
  rewrite <- (entry_known (fl_known p)); [by apply entry_elem|]. apply names_known. by apply list_elem_of_fmap_2.
Qed.

Lemma known_nodup known es : NoDup es.*1 -> NoDup (known_entries known es).*1.
Proof.
  intros H. unfold known_entries. induction es as [|[k v] es IH]; [done|]. cbn in *. apply NoDup_cons in H as [Hk H].
  destruct (is_known known k); [|auto]. cbn. constructor; [|auto]. intros Hin. apply Hk. apply list_elem_of_fmap in Hin as (kv & -> & Hin).
  apply list_elem_of_In, filter_In in Hin as [Hin _]. apply list_elem_of_fmap_2. by apply list_elem_of_In.
Qed.

Lemma struct_reads {A} (p : Fields D A) d es a : covers p -> de_struct (field_names (fl_known p)) d = Ok es ->
  NoDup (known_entries (fl_known p) es).*1 -> makes p es a -> struct_of p d = Ok a.
Proof. intros Hc Hd Hn Hr. unfold struct_of. rewrite Hd. rewrite (visit_covered p d es a); [apply Hr|done|done|apply Hr]. Qed.

Lemma seq_reads {A} (f : D -> Result A string) (enc : A -> D) d l : de_seq d = Ok (enc <$> l) ->
  Forall (fun a => f (enc a) = Ok a) l -> seq_of f d = Ok l.
Proof.
  intros Hd Hl. unfold seq_of. rewrite Hd. clear Hd. induction Hl as [|a l Ha _ IH]; [done|]. cbn. by rewrite Ha, IH.
Qed.
End Order.

#[export] Hint Resolve local_made local_with local_required local_absent covers_made covers_with covers_required covers_absent : decode.

(** The entries an encoder wrote. *)
Section Entries.
Implicit Types (es : list (string * Value)).

Lemma entry_app k es es' : entry k (es ++ es') = or_else (entry k es) (entry k es').
Proof. unfold entry. induction es as [|[k' v] es IH]; [done|]. cbn. destruct (str_eqb k k'); [done|]. apply IH. Qed.
Lemma entry_put k k' v : entry k (put k' v) = if str_eqb k k' then Some v else None.
Proof. unfold entry, put. cbn. by destruct (str_eqb k k'). Qed.
Lemma entry_put_option {A} k k' (f : A -> Value) o :
  entry k (put_option k' f o) = if str_eqb k k' then Some (match o with Some a => f a | None => Null end) else None.
Proof. apply entry_put. Qed.
Lemma entry_put_some {A} k k' (f : A -> Value) o : entry k (put_some k' f o) = if str_eqb k k' then f <$> o else None.
Proof. unfold put_some. destruct o as [a|]; [apply entry_put|]. cbn. by destruct (str_eqb k k'). Qed.
Lemma entry_put_seq {A} k k' (f : A -> Value) l : entry k (put_seq k' f l) = if str_eqb k k' then Some (Array (f <$> l)) else None.
Proof. apply entry_put. Qed.

Lemma or_else_none {A} (o : option A) : or_else o None = o.
Proof. by destruct o. Qed.

Lemma put_some_sub {A} k (f : A -> Value) o : (put_some k f o).*1 `sublist_of` [k].
Proof. destruct o; cbn; [done|apply sublist_nil_l]. Qed.
Lemma sublist_nodup {A} (l l' : list A) : l `sublist_of` l' -> NoDup l' -> NoDup l.
Proof. intros Hs Hn. revert l Hs. induction Hn as [|x l' Hx _ IH]; intros l Hs.
  - apply sublist_nil_r in Hs as ->. constructor.
  - apply sublist_cons_r in Hs as [Hs|(l0 & -> & Hs)]; [by apply IH|]. constructor; [|by apply IH].
    intros Hin. apply Hx. by eapply elem_of_submseteq, sublist_submseteq.
Qed.
End Entries.

#[export] Hint Rewrite @entry_app @entry_put @entry_put_option @entry_put_some @entry_put_seq : entries.

(** Comparisons of literal names are computed. *)
Ltac literals :=
  repeat match goal with |- context [str_eqb ?a ?b] =>
    let r := eval vm_compute in (str_eqb a b) in
    lazymatch r with true => change (str_eqb a b) with true | false => change (str_eqb a b) with false end
  end.
Ltac find_entry := autorewrite with entries; literals; cbn [or_else];
  try match goal with H : forall k, _ = true -> entry k _ = None |- _ => rewrite !H by reflexivity end;
  rewrite ?or_else_none; reflexivity.
Ltac read_value := first [reflexivity | assumption | solve [auto with roundtrip]].
Ltac read_field :=
  first [ eapply makes_required; [find_entry|read_value]
        | eapply makes_option; [find_entry|intros; read_value]
        | eapply makes_present; [find_entry|read_value] ].
Ltac distinct_names :=
  apply known_nodup; eapply sublist_nodup;
  [ rewrite ?fmap_app; repeat (apply sublist_app; [first [apply put_some_sub | reflexivity]|]); first [apply put_some_sub | reflexivity]
  | apply (bool_decide_unpack _); vm_compute; exact I ].
Ltac read_struct :=
  eapply struct_reads;
  [ repeat (apply covers_with; [|first [apply covers_required | apply covers_absent]]); apply covers_made
  | reflexivity
  | distinct_names
  | repeat (eapply makes_with; [|read_field]); apply makes_made ].

Create HintDb roundtrip.

(** A [serde_json::Value] that is there: not null, and with its objects in order. *)
Definition present (v : Value) : Prop := v ≠ Null /\ normal v = v.

Section JsonReads.
Context `{JE : JsonErrors} `{FL : F64}.

Lemma ranged_int lo hi z : lo <= z < hi -> ranged lo hi (json_int z) = Ok z.
Proof.
  intros Hz. unfold ranged, json_int. assert ((lo <=? z) && (z <? hi) = true) as Hb by (apply andb_true_iff; split; [apply Z.leb_le|apply Z.ltb_lt]; lia).
  destruct (z <? 0); cbn; by rewrite Hb.
Qed.
Lemma nullable_some {A} (f : Value -> Result A string) v a : f v = Ok a -> v ≠ Null -> nullable f v = Ok (Some a).
Proof. intros Hf Hv. unfold nullable. destruct v; cbn; try done; by rewrite Hf. Qed.
Lemma nullable_option {A} (f : Value -> Result A string) (enc : A -> Value) o :
  (forall a, o = Some a -> nullable f (enc a) = Ok (Some a)) -> nullable f (match o with Some a => enc a | None => Null end) = Ok o.
Proof. intros H. destruct o as [a|]; [by apply H|done]. Qed.
Lemma seq_encoded {A} (f : Value -> Result A string) (enc : A -> Value) l :
  Forall (fun a => f (enc a) = Ok a) l -> seq_of f (Array (enc <$> l)) = Ok l.
Proof. intros H. by apply (seq_reads f enc). Qed.

Lemma normal_reads v : normal v = v -> de_value v = Ok v.
Proof. intros H. cbn. by rewrite H. Qed.
Lemma value_reads v : present v -> nullable de_value v = Ok (Some v).
Proof. intros [Hn Hv]. apply nullable_some; [cbn; by rewrite Hv|done]. Qed.
End JsonReads.
#[export] Hint Resolve ranged_int nullable_option seq_encoded normal_reads value_reads : roundtrip.
