(* ===== verification/Types.v ===== *)
(** * Data transfer objects, errors and audit records

    Models [src/src/types.rs] (the OpenAI-compatible DTOs), [src/src/error.rs]
    (the error type and its HTTP rendering) and [src/src/audit/mod.rs] (the
    audit sidecar).  An [f64] is read as an exact rational [Q]. *)

From S2P Require Import Prelude Json.

(** ** DTOs *)

Record ToolCallFunction := mkToolCallFunction { tcf_name : string; tcf_arguments : string }.

Record ToolCall := mkToolCall {
  tc_id : string;
  tc_type : string;
  tc_function : ToolCallFunction
}.

Record Message := mkMessage {
  msg_role : string;
  msg_content : Value;
  msg_name : option string;
  msg_tool_calls : option (list ToolCall);
  msg_tool_call_id : option string
}.

Record ChatCompletionRequest := mkRequest {
  model : string;
  messages : list Message;
  stream : option bool;
  max_tokens : option Z;
  temperature : option Q;
  top_p : option Q;
  stop : option Value;
  presence_penalty : option Q;
  frequency_penalty : option Q;
  user : option string;
  tools : option Value;
  tool_choice : option Value;
  stream_options : option Value;
  extra : Value
}.

(** Field updates used by the handler. *)
Definition set_model (r : ChatCompletionRequest) (m : string) : ChatCompletionRequest :=
  mkRequest m (messages r) (stream r) (max_tokens r) (temperature r) (top_p r) (stop r)
    (presence_penalty r) (frequency_penalty r) (user r) (tools r) (tool_choice r)
    (stream_options r) (extra r).

Definition set_extra (r : ChatCompletionRequest) (e : Value) : ChatCompletionRequest :=
  mkRequest (model r) (messages r) (stream r) (max_tokens r) (temperature r) (top_p r) (stop r)
    (presence_penalty r) (frequency_penalty r) (user r) (tools r) (tool_choice r)
    (stream_options r) e.

Record Usage := mkUsage {
  prompt_tokens : Z;
  completion_tokens : Z;
  total_tokens : Z
}.

Definition default_usage : Usage := mkUsage 0 0 0.

Record ResponseMessage := mkResponseMessage {
  rm_role : string;
  content : option string;
  tool_calls : option (list ToolCall);
  reasoning_content : option string;
  reasoning : option string;
  reasoning_text : option string;
  thinking : option Value
}.

Record Choice := mkChoice {
  ch_index : Z;
  message : ResponseMessage;
  finish_reason : option string
}.

Record ChatCompletionResponse := mkResponse {
  resp_id : string;
  object : string;
  created : Z;
  resp_model : string;
  choices : list Choice;
  usage : option Usage;
  raw_usage_json : option Value
}.

Definition set_raw_usage (r : ChatCompletionResponse) (raw : option Value) : ChatCompletionResponse :=
  mkResponse (resp_id r) (object r) (created r) (resp_model r) (choices r) (usage r) raw.

(** [serde_json::from_value::<Usage>]: every field defaults to 0; a present
    field must be an integer of [u32] range; unknown fields are ignored. *)
Definition u32_of_value (v : Value) : option Z :=
  match v with
  | Number (PosInt n) => if in_range 32 n then Some n else None
  | _ => None
  end.

Definition usage_field (k : string) (m : Map) : option Z :=
  match map_get k m with
  | None => Some 0
  | Some v => u32_of_value v
  end.

(** A derived [Deserialize] also reads a struct from an array, in field order. *)
Definition usage_of_array (l : list Value) : option Usage :=
  let nth_or k := match l !! k with None => Some 0 | Some v => u32_of_value v end in
  if (3 <? length l)%nat then None
  else match nth_or 0%nat, nth_or 1%nat, nth_or 2%nat with
       | Some p, Some c, Some t => Some (mkUsage p c t)
       | _, _, _ => None
       end.

Definition usage_from_value (v : Value) : option Usage :=
  match v with
  | Object m =>
      match usage_field "prompt_tokens" m, usage_field "completion_tokens" m,
            usage_field "total_tokens" m with
      | Some p, Some c, Some t => Some (mkUsage p c t)
      | _, _, _ => None
      end
  | Array l => usage_of_array l
  | _ => None
  end.

(** [Usage] holds three [u32]s. *)
Definition usage_wf (u : Usage) : Prop :=
  0 <= prompt_tokens u < 2 ^ 32 /\ 0 <= completion_tokens u < 2 ^ 32
  /\ 0 <= total_tokens u < 2 ^ 32.

(** [GET /v1/models] *)
Record Model := mkModel {
  m_id : string; m_object : string; m_created : Z; m_owned_by : string
}.

Record ModelMetadataPricing := mkModelMetadataPricing {
  mp_input : Q; mp_output : Q; mp_cache_read : Q; mp_cache_write : Q
}.

(** The entry of [GET /v1/model-metadata]. *)
Record ModelMetadataDto := mkModelMetadataDto {
  md_id : string;
  md_name : string;
  md_context_window : Z;
  md_max_output_tokens : Z;
  md_input_types : list string;
  md_reasoning : bool;
  md_thinking_levels : list string;
  md_thinking_level_map : option Map;
  md_supports_tools : bool;
  md_supports_vision : bool;
  md_pricing : ModelMetadataPricing
}.

(** ** Errors *)

Inductive AppError : Type :=
| ConfigError (msg : string)
| Auth (msg : string)
| NotFound (msg : string)
| BadRequest (msg : string)
| Upstream (status : option Z) (retryable bad_key_hint : bool) (msg : string)
| Internal (msg : string).

(** The [Display] text derived by thiserror. *)
Definition debug_opt_u16 (o : option Z) : string :=
  match o with
  | None => "None"
  | Some n => "Some(" +:+ string_of_Z n +:+ ")"
  end.

Definition app_error_to_string (e : AppError) : string :=
  match e with
  | ConfigError m => "Configuration error: " +:+ m
  | Auth m => "Authentication failed: " +:+ m
  | NotFound m => "Not found: " +:+ m
  | BadRequest m => "Bad request: " +:+ m
  | Upstream st _ _ m => "Upstream error (status=" +:+ debug_opt_u16 st +:+ "): " +:+ m
  | Internal m => "Internal error: " +:+ m
  end.

(** [StatusCode::from_u16]: 100 to 999 are valid. *)
Definition status_from_u16 (s : Z) : Result Z unit :=
  if (100 <=? s) && (s <? 1000) then Ok s else Err tt.

Record HttpResponse := mkHttp { http_status : Z; http_body : Value }.

Definition into_response (e : AppError) : HttpResponse :=
  let '(status, error_type, message) :=
    match e with
    | ConfigError msg => (500, "config_error", msg)
    | Auth msg => (401, "auth_error", msg)
    | NotFound msg => (404, "not_found", msg)
    | BadRequest msg => (400, "bad_request", msg)
    | Upstream upstream_status _ _ msg =>
        let http_status :=
          match opt_filter (fun s => (400 <=? s) && (s <? 600)) upstream_status with
          | Some s => match status_from_u16 s with Ok c => c | Err _ => 502 end
          | None => 502
          end in
        (http_status, "upstream_error", msg)
    | Internal msg => (500, "internal_error", msg)
    end in
  mkHttp status
    (obj [("error", obj [("message", Str message); ("type", Str error_type);
                         ("code", Number (PosInt status))])]).

(** ** Audit sidecar *)

Inductive ProviderCacheKind : Type :=
| CacheNone | OpenAiPromptCache | DeepSeekPromptCache | GeminiCachedContent
| AnthropicCacheControl.

Definition cache_kind_to_string (k : ProviderCacheKind) : string :=
  match k with
  | CacheNone => "None"
  | OpenAiPromptCache => "OpenAiPromptCache"
  | DeepSeekPromptCache => "DeepSeekPromptCache"
  | GeminiCachedContent => "GeminiCachedContent"
  | AnthropicCacheControl => "AnthropicCacheControl"
  end.

Record CacheReport := mkCacheReport {
  hit_tokens : option Z; creation_tokens : option Z; source : ProviderCacheKind
}.

Definition cache_report_none : CacheReport := mkCacheReport None None CacheNone.

Record AuditFromProvider := mkAuditFromProvider {
  cache : CacheReport;
  reasoning_tokens : option Z;
  audio_tokens : option Z;
  upstream_model : option string;
  system_fingerprint : option string;
  audit_finish_reason : option string
}.

Definition default_audit_from_provider : AuditFromProvider :=
  mkAuditFromProvider cache_report_none None None None None None.

Record AuditFromRouter := mkAuditFromRouter { retry_count : Z; ttft_ms : option Z }.
Record AuditFromAuth := mkAuditFromAuth { audit_tenant_id : string }.

Record AuditDetail := mkAuditDetail {
  from_provider : AuditFromProvider;
  from_router : AuditFromRouter;
  from_auth : AuditFromAuth
}.

Definition audit_detail_none : AuditDetail :=
  mkAuditDetail default_audit_from_provider (mkAuditFromRouter 0 None) (mkAuditFromAuth "default").

Inductive ErrorCode : Type :=
| EcNone | InvalidApiKey | RateLimitExceeded | ModelNotFound | ContentFilter
| UpstreamTimeout | PoolExhaustedCode | Other (s : string).

Definition error_code_to_string (c : ErrorCode) : string :=
  match c with
  | EcNone => "None"
  | InvalidApiKey => "InvalidApiKey"
  | RateLimitExceeded => "RateLimitExceeded"
  | ModelNotFound => "ModelNotFound"
  | ContentFilter => "ContentFilter"
  | UpstreamTimeout => "UpstreamTimeout"
  | PoolExhaustedCode => "PoolExhausted"
  | Other s => s
  end.

Definition from_app_error (err : AppError) : ErrorCode :=
  match err with
  | Auth _ => InvalidApiKey
  | NotFound _ => ModelNotFound
  | Upstream (Some s) _ _ _ =>
      if Z.eqb s 429 then RateLimitExceeded else Other (app_error_to_string err)
  | Upstream None _ _ _ => UpstreamTimeout
  | Internal msg =>
      if starts_with msg "all keys in pool" then PoolExhaustedCode
      else Other (app_error_to_string err)
  | _ => Other (app_error_to_string err)
  end.

(** ** Properties *)

Lemma u32_of_value_range v z : u32_of_value v = Some z -> 0 <= z < 2 ^ 32.
Proof.
  destruct v as [| |[] | | |]; simpl; try done. case_match eqn:E; [|done].
  intros [= <-]. by apply in_range_spec.
Qed.

Lemma u32_opt_range (o : option Value) z :
  match o with None => Some 0 | Some v => u32_of_value v end = Some z -> 0 <= z < 2 ^ 32.
Proof. destruct o; [apply u32_of_value_range|]. intros [= <-]. lia. Qed.

(** Deserialised usage counters are [u32]s. *)
Lemma usage_from_value_wf v u : usage_from_value v = Some u -> usage_wf u.
Proof.
  intros H. unfold usage_wf. destruct v; simpl in H; try done.
  - unfold usage_of_array in H. destruct (3 <? length l)%nat; [done|].
    repeat (case_match; [|done]). simplify_eq/=.
    repeat match goal with E : _ = Some _ |- _ => apply u32_opt_range in E end. auto.
  - unfold usage_field in H. repeat (case_match; [|done]). simplify_eq/=.
    repeat match goal with E : _ = Some _ |- _ => apply u32_opt_range in E end. auto.
Qed.

(** The HTTP status of an error is always a client or server error, and the
    [code] of the body repeats it. *)
Lemma into_response_status e :
  400 <= http_status (into_response e) < 600
  /\ pointer ["error"; "code"] (http_body (into_response e))
     = Some (Number (PosInt (http_status (into_response e)))).
Proof.
  destruct e as [| | | |st rt bk msg|]; simpl; try (split; [lia|reflexivity]).
  destruct st as [s|]; simpl; [|split; [lia|reflexivity]].
  destruct ((400 <=? s) && (s <? 600)) eqn:E; [|split; [lia|reflexivity]].
  apply andb_true_iff in E as [?%Z.leb_le ?%Z.ltb_lt].
  unfold status_from_u16. replace (100 <=? s) with true by lia. replace (s <? 1000) with true by lia.
  split; [simpl; lia|reflexivity].
Qed.
