(* ===== verification/CircuitBreaker.v ===== *)
(** * Circuit breaker

    Models [src/src/circuit_breaker.rs]: the per-(pool, key) failure tracker
    consulted by the chat handler.  [allow], [record_success] and
    [record_failure] hold the DashMap entry of their key from the first to the
    last statement, so each is one atomic step.  Instants are nanoseconds
    ([Z]); every [Instant::now()] of the source is an argument. *)

From S2P Require Import Prelude.

Inductive CircuitState : Type := Closed | Open | HalfOpen.

Record CircuitEntry := mkEntry {
  failures : Z;                       (* AtomicU32 *)
  successes : Z;                      (* AtomicU32 *)
  last_failure_at : option Z;
  opened_at : option Z;
  state : CircuitState
}.

Definition entry_new : CircuitEntry := mkEntry 0 0 None None Closed.

Definition circuit_key : Type := string * string.

Record CircuitBreaker := mkBreaker {
  circuits : gmap (string * string) CircuitEntry;
  failure_threshold : Z;              (* u32 *)
  cooldown_secs : Z;                  (* u64 *)
  half_open_max : Z;                  (* u32 *)
  total_trips : Z                     (* AtomicU64 *)
}.

Definition new (failure_threshold cooldown_secs half_open_max : Z) : CircuitBreaker :=
  mkBreaker ∅ failure_threshold cooldown_secs half_open_max 0.

Definition with_defaults : CircuitBreaker := new 5 60 3.

(** [circuits.entry(key).or_insert_with(CircuitEntry::new)] *)
Definition entry_or_new (cb : CircuitBreaker) (key : string * string) : CircuitEntry :=
  unwrap_or (circuits cb !! key) entry_new.

Definition set_entry (cb : CircuitBreaker) (key : string * string) (e : CircuitEntry) : CircuitBreaker :=
  mkBreaker (<[key := e]> (circuits cb)) (failure_threshold cb) (cooldown_secs cb)
    (half_open_max cb) (total_trips cb).

Definition add_trip (cb : CircuitBreaker) : CircuitBreaker :=
  mkBreaker (circuits cb) (failure_threshold cb) (cooldown_secs cb)
    (half_open_max cb) (wadd 64 (total_trips cb) 1).

(** [at.elapsed()] at instant [now] (saturating). *)
Definition elapsed (now at_ : Z) : Z := saturating_sub now at_.

Definition cooldown_ns (cb : CircuitBreaker) : Z := cooldown_secs cb * 1000000000.

Definition allow (cb : CircuitBreaker) (pool_id key_hash : string) (now : Z) : CircuitBreaker * bool :=
  let key := (pool_id, key_hash) in
  let entry := entry_or_new cb key in
  let cb := set_entry cb key entry in
  match state entry with
  | Closed => (cb, true)
  | Open =>
      match opened_at entry with
      | Some at_ =>
          if cooldown_ns cb <=? elapsed now at_ then
            (set_entry cb key (mkEntry (failures entry) 0 (last_failure_at entry)
                                 (opened_at entry) HalfOpen), true)
          else (cb, false)
      | None => (cb, false)
      end
  | HalfOpen => (cb, successes entry <? half_open_max cb)
  end.

Definition record_success (cb : CircuitBreaker) (pool_id key_hash : string) : CircuitBreaker :=
  let key := (pool_id, key_hash) in
  let entry := entry_or_new cb key in
  let cb := set_entry cb key entry in
  match state entry with
  | Closed =>
      set_entry cb key (mkEntry 0 (successes entry) (last_failure_at entry) (opened_at entry) Closed)
  | HalfOpen =>
      let succ := wadd 32 (successes entry) 1 in
      if half_open_max cb <=? succ then
        set_entry cb key (mkEntry 0 succ (last_failure_at entry) (opened_at entry) Closed)
      else
        set_entry cb key (mkEntry (failures entry) succ (last_failure_at entry) (opened_at entry) HalfOpen)
  | Open => cb
  end.

(** [now] is read for [last_failure_at], [now'] for [opened_at]. *)
Definition record_failure (cb : CircuitBreaker) (pool_id key_hash : string) (now now' : Z)
    : CircuitBreaker * bool :=
  let key := (pool_id, key_hash) in
  let entry := entry_or_new cb key in
  let cb := set_entry cb key entry in
  match state entry with
  | Closed =>
      let failures' := wadd 32 (failures entry) 1 in
      if failure_threshold cb <=? failures' then
        (add_trip (set_entry cb key (mkEntry failures' (successes entry) (Some now) (Some now') Open)), true)
      else
        (set_entry cb key (mkEntry failures' (successes entry) (Some now) (opened_at entry) Closed), false)
  | HalfOpen =>
      (add_trip (set_entry cb key
         (mkEntry (failures entry) (successes entry) (last_failure_at entry) (Some now') Open)), true)
  | Open => (cb, false)
  end.

(** [CircuitBreaker::state] *)
Definition circuit_state (cb : CircuitBreaker) (pool_id key_hash : string) : CircuitState :=
  match circuits cb !! (pool_id, key_hash) with
  | Some entry => state entry
  | None => Closed
  end.

Definition reset (cb : CircuitBreaker) (pool_id key_hash : string) : CircuitBreaker :=
  let key := (pool_id, key_hash) in
  match circuits cb !! key with
  | Some entry => set_entry cb key (mkEntry 0 0 (last_failure_at entry) (opened_at entry) Closed)
  | None => cb
  end.

Record CircuitSnapshot := mkSnapshot {
  snap_pool_id : string; snap_key_hash : string; snap_state : string; snap_failures : Z
}.

Definition state_str (s : CircuitState) : string :=
  match s with Closed => "closed" | Open => "open" | HalfOpen => "half_open" end.

Definition snapshot `{D : !DashIter (string * string) CircuitEntry} (cb : CircuitBreaker)
    : list CircuitSnapshot :=
  (fun kv => mkSnapshot kv.1.1 kv.1.2 (state_str (state kv.2)) (failures kv.2))
  <$> dash_iter (circuits cb).

(* ------------------------------------------------------------------ *)
(** ** Histories

    The operations a breaker is driven by, each on one (pool, key). *)

Inductive Op : Type :=
| OAllow (now : Z)
| OSuccess
| OFailure (now now' : Z)
| OReset.

Definition apply_op (cb : CircuitBreaker) (key : string * string) (o : Op) : CircuitBreaker * option bool :=
  match o with
  | OAllow now => let '(cb', b) := allow cb key.1 key.2 now in (cb', Some b)
  | OSuccess => (record_success cb key.1 key.2, None)
  | OFailure now now' => let '(cb', b) := record_failure cb key.1 key.2 now now' in (cb', Some b)
  | OReset => (reset cb key.1 key.2, None)
  end.

(** Run a history; the result lists each operation with what it returned. *)
Fixpoint run (cb : CircuitBreaker) (h : list ((string * string) * Op))
    : CircuitBreaker * list ((string * string) * option bool) :=
  match h with
  | [] => (cb, [])
  | (k, o) :: h' =>
      let '(cb1, out) := apply_op cb k o in
      let '(cb2, outs) := run cb1 h' in (cb2, (k, out) :: outs)
  end.

(* ------------------------------------------------------------------ *)
(** ** Abstract specification: one three-state machine per key

    Closed with [n] consecutive failures, open since [t], or half-open with
    [m] successful probes; counters are unbounded integers. *)

Inductive spec_state : Type :=
| SClosed (n : Z)
| SOpen (since : Z)
| SHalfOpen (m : Z).

Section Spec.
Variables (threshold cooldown probes : Z).

Definition spec_step (s : spec_state) (o : Op) : spec_state * option bool :=
  match o with
  | OAllow now =>
      match s with
      | SClosed n => (SClosed n, Some true)
      | SOpen t => if cooldown * 1000000000 <=? elapsed now t then (SHalfOpen 0, Some true)
                   else (SOpen t, Some false)
      | SHalfOpen m => (SHalfOpen m, Some (m <? probes))
      end
  | OSuccess =>
      match s with
      | SClosed _ => (SClosed 0, None)
      | SOpen t => (SOpen t, None)
      | SHalfOpen m => (if probes <=? m + 1 then SClosed 0 else SHalfOpen (m + 1), None)
      end
  | OFailure _ now' =>
      match s with
      | SClosed n => if threshold <=? n + 1 then (SOpen now', Some true)
                     else (SClosed (n + 1), Some false)
      | SOpen t => (SOpen t, Some false)
      | SHalfOpen _ => (SOpen now', Some true)
      end
  | OReset => (SClosed 0, None)
  end.

Fixpoint spec_run (s : spec_state) (h : list Op) : spec_state * list (option bool) :=
  match h with
  | [] => (s, [])
  | o :: h' => let '(s1, out) := spec_step s o in
               let '(s2, outs) := spec_run s1 h' in (s2, out :: outs)
  end.
End Spec.

(** The abstract state a concrete entry stands for. *)
Definition abs_entry (e : CircuitEntry) : spec_state :=
  match state e with
  | Closed => SClosed (failures e)
  | Open => SOpen (unwrap_or (opened_at e) 0)
  | HalfOpen => SHalfOpen (successes e)
  end.

Definition abs (cb : CircuitBreaker) (k : string * string) : spec_state :=
  abs_entry (entry_or_new cb k).

(** ** Invariant of the entries *)

Definition entry_inv (threshold probes : Z) (e : CircuitEntry) : Prop :=
  match state e with
  | Closed => 0 <= failures e < Z.max 1 threshold
  | Open => is_Some (opened_at e)
  | HalfOpen => 0 <= successes e < Z.max 1 probes
  end.

Definition inv (cb : CircuitBreaker) : Prop :=
  0 <= failure_threshold cb < 2 ^ 32 /\ 0 <= half_open_max cb < 2 ^ 32
  /\ map_Forall (fun _ e => entry_inv (failure_threshold cb) (half_open_max cb) e) (circuits cb).

(** The operations of one key in a history, and what they returned. *)
Definition project {A} (k : string * string) (h : list ((string * string) * A)) : list A :=
  (List.filter (fun x => bool_decide (x.1 = k)) h).*2.

(* ------------------------------------------------------------------ *)
(** ** Lemmas *)

Definition same_params (cb cb' : CircuitBreaker) : Prop :=
  failure_threshold cb' = failure_threshold cb /\ cooldown_secs cb' = cooldown_secs cb
  /\ half_open_max cb' = half_open_max cb.

Lemma entry_or_new_set cb k e k' :
  entry_or_new (set_entry cb k e) k' = if bool_decide (k = k') then e else entry_or_new cb k'.
Proof.
  unfold entry_or_new, set_entry. simpl. rewrite lookup_insert. by case_decide; case_bool_decide.
Qed.

Lemma entry_or_new_add_trip cb k : entry_or_new (add_trip cb) k = entry_or_new cb k.
Proof. done. Qed.

Lemma inv_entry cb k : inv cb -> entry_inv (failure_threshold cb) (half_open_max cb) (entry_or_new cb k).
Proof.
  intros (_ & _ & H). unfold entry_or_new. destruct (circuits cb !! k) eqn:E; simpl.
  - eapply H; eauto.
  - unfold entry_inv; simpl; lia.
Qed.

Lemma inv_set_entry cb k e :
  inv cb -> entry_inv (failure_threshold cb) (half_open_max cb) e -> inv (set_entry cb k e).
Proof. intros (?&?&H) He. repeat split; simpl; try lia. by apply map_Forall_insert_2. Qed.

Lemma inv_add_trip cb : inv cb -> inv (add_trip cb).
Proof. done. Qed.

#[local] Hint Resolve inv_set_entry inv_add_trip inv_entry : gateway.
#[local] Hint Rewrite entry_or_new_set entry_or_new_add_trip : strs.
Lemma wadd32_succ bound n : 0 <= n < Z.max 1 bound -> bound < 2 ^ 32 -> wadd 32 n 1 = n + 1.
Proof. intros. unfold wadd. apply wrap_small. lia. Qed.

(** Close the goals of [apply_op_sim] for a breaker whose entry for its key
    was replaced by one whose fields are explicit. *)
Ltac sim_entry Ee :=
  split; [repeat first [apply inv_add_trip | apply inv_set_entry]; try done;
          unfold entry_inv; simpl; eauto; lia|];
  split; [done|]; split;
  [ unfold abs; autorewrite with strs; rewrite bool_decide_true by done; rewrite ?Ee; simpl
  | intros; unfold abs; autorewrite with strs; by rewrite !bool_decide_false by congruence ].

(** One operation simulates one step of its key's machine, leaves every
    other key alone and keeps the invariant. *)
Lemma apply_op_sim cb k o cb' out :
  inv cb -> apply_op cb k o = (cb', out) ->
  inv cb' /\ same_params cb cb'
  /\ spec_step (failure_threshold cb) (cooldown_secs cb) (half_open_max cb) (abs cb k) o
     = (abs cb' k, out)
  /\ forall k', k' ≠ k -> abs cb' k' = abs cb k'.
Proof.
  intros Hinv. pose proof (inv_entry cb k Hinv) as He. pose proof Hinv as (Ht & Hp & _).
  destruct k as [p kh], o; simpl; unfold allow, record_success, record_failure;
    destruct (entry_or_new cb (p, kh)) as [f su lf oa st] eqn:Ee;
    unfold entry_inv in He; simpl in *.
  - destruct st; simpl in *.
    + intros [= <- <-]. by sim_entry Ee.
    + destruct He as [t ->]. unfold cooldown_ns; simpl.
      destruct (_ <=? _) eqn:Ec; intros [= <- <-]; sim_entry Ee; by rewrite Ec.
    + intros [= <- <-]. by sim_entry Ee.
  - destruct st; simpl in *.
    + intros [= <- <-]. by sim_entry Ee.
    + destruct He as [t ->]. intros [= <- <-]. by sim_entry Ee.
    + rewrite (wadd32_succ (half_open_max cb)) by lia.
      destruct (_ <=? _) eqn:Ec; intros [= <- <-]; sim_entry Ee; by rewrite Ec.
  - destruct st; simpl in *.
    + rewrite (wadd32_succ (failure_threshold cb)) by lia.
      destruct (_ <=? _) eqn:Ec; intros [= <- <-]; sim_entry Ee; by rewrite Ec.
    + destruct He as [t ->]. intros [= <- <-]. by sim_entry Ee.
    + intros [= <- <-]. by sim_entry Ee.
  - unfold reset. destruct (circuits cb !! (p, kh)) as [e'|] eqn:Ek; intros [= <- <-].
    + by sim_entry Ee.
    + split; [done|]. split; [done|]. split; [|done].
      unfold abs, entry_or_new. by rewrite Ek.
Qed.

Lemma project_cons {A} k k' (a : A) h :
  project k ((k', a) :: h) = if bool_decide (k' = k) then a :: project k h else project k h.
Proof. unfold project. simpl. by destruct (bool_decide (k' = k)). Qed.

Lemma run_sim cb h cb' outs :
  inv cb -> run cb h = (cb', outs) ->
  inv cb' /\ same_params cb cb'
  /\ forall k, spec_run (failure_threshold cb) (cooldown_secs cb) (half_open_max cb)
                 (abs cb k) (project k h)
               = (abs cb' k, project k outs).
Proof.
  revert cb outs. induction h as [|[k0 o] h IH]; intros cb outs Hinv; simpl.
  - intros [= <- <-]. done.
  - destruct (apply_op cb k0 o) as [cb1 out] eqn:E1. destruct (run cb1 h) as [cb2 outs2] eqn:E2.
    intros [= <- <-].
    destruct (apply_op_sim _ _ _ _ _ Hinv E1) as (Hinv1 & (P1 & P2 & P3) & Hstep & Hother).
    destruct (IH _ _ Hinv1 E2) as (Hinv2 & (Q1 & Q2 & Q3) & Hrun).
    split; [done|]. split; [unfold same_params; intuition congruence|].
    rewrite P1, P2, P3 in Hrun. intros k. rewrite !project_cons.
    destruct (bool_decide (k0 = k)) eqn:Ek.
    + apply bool_decide_eq_true in Ek as <-. simpl. rewrite Hstep. by rewrite Hrun.
    + apply bool_decide_eq_false in Ek. rewrite <- (Hother k) by congruence. apply Hrun.
Qed.

Lemma inv_new t c p : 0 <= t < 2 ^ 32 -> 0 <= p < 2 ^ 32 -> inv (new t c p).
Proof. intros. repeat split; simpl; try lia. apply map_Forall_empty. Qed.

(** ** Properties of one machine *)

(** The state of the abstract machine as the source's enum. *)
Definition spec_kind (s : spec_state) : CircuitState :=
  match s with SClosed _ => Closed | SOpen _ => Open | SHalfOpen _ => HalfOpen end.

Lemma circuit_state_abs cb p kh : circuit_state cb p kh = spec_kind (abs cb (p, kh)).
Proof.
  unfold circuit_state, abs, entry_or_new. destruct (circuits cb !! (p, kh)) as [[f su lf oa []]|]; done.
Qed.

(** Failures only: [n] of them take a closed machine to open exactly when the
    threshold is reached. *)
Lemma spec_failures t c p h n0 :
  Forall (fun o => exists a b, o = OFailure a b) h -> 0 <= n0 < Z.max 1 t ->
  spec_kind (spec_run t c p (SClosed n0) h).1
  = if (1 <=? Z.of_nat (length h)) && (t <=? n0 + Z.of_nat (length h)) then Open else Closed.
Proof.
  intros HF. revert n0. induction HF as [|o h (a & b & ->) HF IH]; intros n0 Hn; simpl; [done|].
  assert (Hopen : forall s, (spec_run t c p (SOpen s) h).1 = SOpen s).
  { intros s. clear IH. induction HF as [|o h (a' & b' & ->) HF IH']; simpl; [done|].
    specialize (IH'). destruct (spec_run t c p (SOpen s) h); simpl in *. done. }
  destruct (t <=? n0 + 1) eqn:E.
  - specialize (Hopen b). destruct (spec_run _ _ _ _ h). simpl in *. subst. simpl.
    apply Z.leb_le in E. case_Z; done.
  - apply Z.leb_gt in E. specialize (IH (n0 + 1)). destruct (spec_run _ _ _ _ h). simpl in *.
    rewrite IH by lia. case_Z; done.
Qed.

(** Successes only: [m] half-open successes close the machine after
    [max 1 probes] of them. *)
Lemma spec_successes t c p n m0 :
  0 <= m0 < Z.max 1 p ->
  (spec_run t c p (SHalfOpen m0) (replicate n OSuccess)).1
  = if (1 <=? Z.of_nat n) && (p <=? m0 + Z.of_nat n) then SClosed 0 else SHalfOpen (m0 + Z.of_nat n).
Proof.
  revert m0; induction n as [|n IH]; intros m0 Hm; simpl; [f_equal; lia|].
  assert (Hclosed : (spec_run t c p (SClosed 0) (replicate n OSuccess)).1 = SClosed 0).
  { clear IH. induction n as [|n IH']; simpl; [done|].
    destruct (spec_run t c p (SClosed 0) (replicate n OSuccess)); done. }
  destruct (p <=? m0 + 1) eqn:E.
  - destruct (spec_run _ _ _ _ _). simpl in *. subst. apply Z.leb_le in E. case_Z; done.
  - apply Z.leb_gt in E. specialize (IH (m0 + 1)). destruct (spec_run _ _ _ _ _). simpl in *.
    rewrite IH by lia. case_Z; try done; f_equal; lia.
Qed.

(** While open and before the end of the cooldown, an unreset machine stays
    open and answers every operation with a refusal. *)
Lemma spec_cooldown t c p since h :
  Forall (fun o => match o with
                   | OAllow now => elapsed now since < c * 1000000000
                   | OReset => False
                   | _ => True
                   end) h ->
  (spec_run t c p (SOpen since) h).1 = SOpen since
  /\ Forall (fun out => out ≠ Some true) (spec_run t c p (SOpen since) h).2.
Proof.
  induction 1 as [|o h Ho HF IH]; simpl; [done|].
  destruct o; simpl; try done.
  - apply Z.leb_gt in Ho. rewrite Ho. by destruct (spec_run _ _ _ _ h); simpl in *; destruct IH; auto.
  - by destruct (spec_run _ _ _ _ h); simpl in *; destruct IH; auto.
  - by destruct (spec_run _ _ _ _ h); simpl in *; destruct IH; auto.
Qed.

(** Trips of a history: the failures that answered [true]. *)
Definition trips (h : list ((string * string) * Op)) (outs : list ((string * string) * option bool)) : Z :=
  Z.of_nat (count_if (fun x => match x with ((_, OFailure _ _), (_, Some true)) => true | _ => false end)
              (zip h outs)).

Lemma apply_op_trips cb k o cb' out :
  apply_op cb k o = (cb', out) ->
  total_trips cb' = wadd 64 (total_trips cb) (trips [(k, o)] [(k, out)])
                  \/ (total_trips cb' = total_trips cb /\ trips [(k, o)] [(k, out)] = 0).
Proof.
  destruct k as [p kh], o; simpl; unfold allow, record_success, record_failure, reset, trips, count_if.
  - case_all; intros; simplify_eq/=; auto.
  - case_all; intros; simplify_eq/=; auto.
  - case_all; intros; simplify_eq/=; auto.
  - case_all; intros; simplify_eq/=; auto.
Qed.

Lemma run_trips cb h cb' outs :
  0 <= total_trips cb < 2 ^ 64 -> run cb h = (cb', outs) ->
  total_trips cb' = wadd 64 (total_trips cb) (trips h outs).
Proof.
  revert cb outs. induction h as [|[k o] h IH]; intros cb outs Hr; simpl.
  - intros [= <- <-]. unfold trips, wadd. simpl. rewrite Z.add_0_r. symmetry. by apply wrap_small.
  - destruct (apply_op cb k o) as [cb1 out] eqn:E1. destruct (run cb1 h) as [cb2 outs2] eqn:E2.
    intros [= <- <-].
    assert (Hsum : trips ((k, o) :: h) ((k, out) :: outs2)
                   = trips [(k, o)] [(k, out)] + trips h outs2).
    { unfold trips, count_if. simpl. destruct o; try destruct out as [[]|]; simpl; lia. }
    destruct (apply_op_trips _ _ _ _ _ E1) as [H1|[H1 H0]].
    + rewrite (IH cb1) with (outs := outs2); [|rewrite H1; unfold wadd; apply wrap_range; lia|done].
      rewrite H1, Hsum. unfold wadd, wrap. rewrite Z.add_mod_idemp_l by lia. f_equal. lia.
    + rewrite (IH cb1) with (outs := outs2); [|by rewrite H1|done]. rewrite H1, Hsum, H0. done.
Qed.

(* ------------------------------------------------------------------ *)
(** ** Claims *)

(** Claim C9: the breaker refines its abstract specification.  After any
    history of operations on any keys, each (pool, key) circuit is in the state
    that the three-state machine reaches on the operations of that key alone,
    each operation returned what the machine returns, and no [u32] counter
    wrapped. *)
Theorem breaker_refines t c p h cb' outs :
  0 <= t < 2 ^ 32 -> 0 <= p < 2 ^ 32 -> run (new t c p) h = (cb', outs) ->
  forall k, spec_run t c p (SClosed 0) (project k h) = (abs cb' k, project k outs).
Proof.
  intros Ht Hp Hrun. destruct (run_sim _ _ _ _ (inv_new t c p Ht Hp) Hrun) as (_ & _ & H). exact H.
Qed.

Definition demo_history : list ((string * string) * Op) :=
  [(("p", "a"), OFailure 1 1); (("p", "b"), OSuccess); (("p", "a"), OFailure 2 2);
   (("p", "a"), OAllow 3); (("p", "a"), OAllow 60000000002); (("p", "a"), OSuccess)].

Lemma breaker_refines_witness :
  spec_run 2 60 3 (SClosed 0) (project ("p", "a") demo_history)
  = (SHalfOpen 1, [Some false; Some true; Some false; Some true; None]).
Proof.
  destruct (run (new 2 60 3) demo_history) as [cb outs] eqn:E.
  rewrite (breaker_refines 2 60 3 demo_history cb outs); [|lia|lia|exact E].
  vm_compute in E. injection E as <- <-. vm_compute. reflexivity.
Defined.

(** [n >= 1] failures in a row on a fresh circuit open it exactly
    when [n] reaches the failure threshold; before that it stays closed. *)
Theorem breaker_trips_at_threshold t c p pool kh fails cb' outs :
  0 <= t < 2 ^ 32 -> 0 <= p < 2 ^ 32 ->
  Forall (fun o => exists a b, o = OFailure a b) fails ->
  run (new t c p) ((fun o => ((pool, kh), o)) <$> fails) = (cb', outs) ->
  circuit_state cb' pool kh
  = if (1 <=? Z.of_nat (length fails)) && (t <=? Z.of_nat (length fails)) then Open else Closed.
Proof.
  intros Ht Hp HF Hrun. rewrite circuit_state_abs.
  destruct (run_sim _ _ _ _ (inv_new t c p Ht Hp) Hrun) as (_ & _ & H). specialize (H (pool, kh)).
  assert (Hproj : project (pool, kh) ((fun o => ((pool, kh), o)) <$> fails) = fails).
  { clear. induction fails as [|o l IH]; simpl; [done|].
    rewrite project_cons, bool_decide_true by done. f_equal. exact IH. }
  rewrite Hproj in H. change (abs (new t c p) (pool, kh)) with (SClosed 0) in H. simpl in H.
  pose proof (spec_failures t c p fails 0 HF) as Hs. rewrite H in Hs. simpl in Hs. apply Hs. lia.
Qed.

Lemma breaker_trips_at_threshold_witness :
  circuit_state (run (new 5 60 3) ((fun o => (("p", "k"), o)) <$> replicate 5 (OFailure 1 1))).1 "p" "k"
  = Open.
Proof.
  destruct (run (new 5 60 3) ((fun o => (("p", "k"), o)) <$> replicate 5 (OFailure 1 1)))
    as [cb outs] eqn:E.
  apply (breaker_trips_at_threshold 5 60 3 "p" "k" (replicate 5 (OFailure 1 1)) cb outs);
    [lia | lia | | exact E].
  apply Forall_replicate. eauto.
Defined.

(** An open circuit admits nothing during its cooldown.  From any
    breaker that satisfies the invariant, while the circuit of a key is open
    since [since], a history in which that key is only asked at instants
    before the end of the cooldown (and never reset) leaves it open since
    [since], and no [allow] on it answers true. *)
Theorem breaker_cooldown_blocks cb k since h cb' outs :
  inv cb -> abs cb k = SOpen since -> run cb h = (cb', outs) ->
  Forall (fun o => match o with
                   | OAllow now => elapsed now since < cooldown_ns cb
                   | OReset => False
                   | _ => True
                   end) (project k h) ->
  abs cb' k = SOpen since /\ Forall (fun out => out ≠ Some true) (project k outs).
Proof.
  intros Hinv Habs Hrun HF. destruct (run_sim _ _ _ _ Hinv Hrun) as (_ & _ & H). specialize (H k).
  rewrite Habs in H.
  destruct (spec_cooldown (failure_threshold cb) (cooldown_secs cb) (half_open_max cb) since _ HF)
    as [H1 H2].
  rewrite H in H1, H2. done.
Qed.

Lemma breaker_cooldown_blocks_witness :
  let cb := (run (new 1 60 3) [(("p", "k"), OFailure 7 7)]).1 in
  abs (run cb [(("p", "k"), OAllow 60000000006)]).1 ("p", "k") = SOpen 7.
Proof.
  intros cb. destruct (run cb [(("p", "k"), OAllow 60000000006)]) as [cb' outs] eqn:E.
  apply (breaker_cooldown_blocks cb ("p", "k") 7 [(("p", "k"), OAllow 60000000006)] cb' outs);
    [ | reflexivity | exact E | ].
  - apply (run_sim (new 1 60 3) [(("p", "k"), OFailure 7 7)] cb [(("p", "k"), Some true)]);
      [apply inv_new; lia | reflexivity].
  - change (project ("p", "k") [(("p", "k"), OAllow 60000000006)]) with [OAllow 60000000006].
    apply Forall_singleton. vm_compute. reflexivity.
Defined.

(** Recovery.  A circuit open since [since] admits the first
    request at or after the end of the cooldown, and the [max 1 half_open_max]-th
    success that follows closes it with the failure count back at zero. *)
Theorem breaker_recovers cb k since now n cb' outs :
  inv cb -> abs cb k = SOpen since -> cooldown_ns cb <= elapsed now since ->
  Z.max 1 (half_open_max cb) <= Z.of_nat n ->
  run cb ((k, OAllow now) :: replicate n (k, OSuccess)) = (cb', outs) ->
  abs cb' k = SClosed 0 /\ head (project k outs) = Some (Some true).
Proof.
  intros Hinv Habs Hnow Hn Hrun. destruct (run_sim _ _ _ _ Hinv Hrun) as (_ & _ & H). specialize (H k).
  rewrite project_cons, bool_decide_true, Habs in H by done.
  assert (Hproj : project k (replicate n (k, OSuccess)) = replicate n OSuccess).
  { clear. induction n; simpl; [done|]. rewrite project_cons, bool_decide_true by done. by rewrite IHn. }
  rewrite Hproj in H. simpl in H. unfold cooldown_ns in Hnow.
  rewrite (proj2 (Z.leb_le _ _) Hnow) in H. destruct Hinv as (_ & Hp & _).
  pose proof (spec_successes (failure_threshold cb) (cooldown_secs cb) (half_open_max cb) n 0) as Hs.
  destruct (spec_run _ _ _ (SHalfOpen 0) _) as [s l]. injection H as <- <-. simpl in Hs.
  rewrite Hs by lia. split; [|done]. case_Z; done.
Qed.

Lemma breaker_recovers_witness :
  let cb := (run (new 1 60 3) [(("p", "k"), OFailure 7 7)]).1 in
  abs (run cb ((("p", "k"), OAllow 60000000007) :: replicate 3 (("p", "k"), OSuccess))).1 ("p", "k")
  = SClosed 0.
Proof.
  intros cb.
  destruct (run cb ((("p", "k"), OAllow 60000000007) :: replicate 3 (("p", "k"), OSuccess)))
    as [cb' outs] eqn:E.
  apply (breaker_recovers cb ("p", "k") 7 60000000007 3 cb' outs); [ | reflexivity | | | exact E].
  - apply (run_sim (new 1 60 3) [(("p", "k"), OFailure 7 7)] cb [(("p", "k"), Some true)]);
      [apply inv_new; lia | reflexivity].
  - vm_compute. discriminate.
  - vm_compute. discriminate.
Defined.

(** [total_trips] counts the trips.  Starting from a new breaker
    it is, modulo 2^64, the number of [record_failure] calls that returned
    true, over all keys. *)
Theorem breaker_total_trips t c p h cb' outs :
  run (new t c p) h = (cb', outs) -> total_trips cb' = wrap 64 (trips h outs).
Proof. intros H. rewrite (run_trips (new t c p) h cb' outs); [done|simpl; lia|done]. Qed.

Lemma breaker_total_trips_witness : total_trips (run (new 2 60 3) demo_history).1 = 1.
Proof.
  destruct (run (new 2 60 3) demo_history) as [cb outs] eqn:E.
  simpl. rewrite (breaker_total_trips 2 60 3 demo_history cb outs E).
  vm_compute in E. injection E as <- <-. reflexivity.
Defined.
