(* ===== verification/ThinkTags.v ===== *)
(** * Think-tag extraction

    Models [src/src/response_normalize.rs]: folding of the reasoning aliases
    of a response message, the streaming state machine [ThinkTagAccumulator]
    that separates [<think>...</think>] blocks from the visible answer, and the
    non-streaming entry points built on it.

    The reference definition is [scan], a single pass over the whole text
    that labels every byte that is not part of a tag as visible or hidden.
    The theorems show that the accumulator computes it whatever the way the
    text is cut into chunks. *)

From Stdlib Require Import Sorted.
From S2P Require Import Prelude Json Types.

Inductive ThinkEvent : Type :=
| Reasoning (s : string)
| Text (s : string)
| Pending.

Definition builtin_think_pairs : list (string * string) :=
  [("<think>", "</think>"); ("<thinking>", "</thinking>")].

(** ** Folding reasoning aliases *)

(** [take_nonempty]: the slot is emptied; an empty string counts as absent. *)
Definition take_nonempty (slot : option string) : option string :=
  opt_filter (fun s => negb (str_is_empty s)) slot.

Definition merge_nonempty (left right : option string) : option string :=
  match left, right with
  | None, None => None
  | Some a, None => Some a
  | None, Some a => Some a
  | Some a, Some b =>
      if str_is_empty a then Some b
      else if str_is_empty b then Some a
      else Some (a +:+ lf +:+ b)
  end.

Definition opt_list {A} (o : option A) : list A := match o with Some a => [a] | None => [] end.

Definition fold_message_reasoning (msg : ResponseMessage) : ResponseMessage :=
  let parts := opt_list (take_nonempty (reasoning_content msg))
               ++ opt_list (take_nonempty (reasoning msg))
               ++ opt_list (take_nonempty (reasoning_text msg)) in
  let '(parts, thinking') :=
    match thinking msg with
    | Some (Str s) => if negb (str_is_empty s) then (parts ++ [s], None) else (parts, thinking msg)
    | _ => (parts, thinking msg)
    end in
  mkResponseMessage (rm_role msg) (content msg) (tool_calls msg)
    (foldl (fun acc next => merge_nonempty acc (Some next)) None parts)
    None None thinking'.

(** ** The accumulator *)

Inductive State : Type := InText | InReasoning.
Inductive TagKind : Type := TagOpen | TagClose.

Record ThinkTagAccumulator := mkAcc {
  pairs : list (string * string);
  state : State;
  pending : string;
  longest_tag : nat;
  tag_count : nat
}.

Definition acc_new (pairs : list (string * string)) : ThinkTagAccumulator :=
  mkAcc pairs InText EmptyString
    (foldr Nat.max 0%nat
       ((fun p => (String.length p.1 `max` String.length p.2)%nat) <$> pairs))
    0%nat.

Definition in_reasoning (a : ThinkTagAccumulator) : bool :=
  match state a with InReasoning => true | InText => false end.

Definition pending_len (a : ThinkTagAccumulator) : nat := String.length (pending a).

(** One needle of the inner loop of [find_next_tag]. *)
Definition consider (st : State) (pend : string) (best : option (nat * string * TagKind))
    (nk : string * TagKind) : option (nat * string * TagKind) :=
  let '(needle, kind) := nk in
  if str_is_empty needle then best
  else if match kind, st with TagClose, InText => true | _, _ => false end then best
  else match str_find needle pend with
       | Some idx =>
           let replace :=
             match best with
             | None => true
             | Some (b, best_tag, _) =>
                 (idx <? b)%nat
                 || ((idx =? b)%nat && (String.length best_tag <? String.length needle)%nat)
             end in
           if replace then Some (idx, needle, kind) else best
       | None => best
       end.

Definition find_next_tag (a : ThinkTagAccumulator) : option (nat * string * TagKind) :=
  foldl (fun best p =>
           if str_is_empty p.1 then best
           else foldl (consider (state a) (pending a)) best [(p.1, TagOpen); (p.2, TagClose)])
    None (pairs a).

(** [char_indices().rev()]: decoding backwards stops at every byte that is
    not a UTF-8 continuation byte. *)
Definition is_continuation (c : ascii) : bool :=
  let n := N_of_ascii c in (128 <=? n)%N && (n <? 192)%N.

Fixpoint char_starts (i : nat) (s : string) : list nat :=
  match s with
  | EmptyString => []
  | String c s' => if is_continuation c then char_starts (S i) s' else i :: char_starts (S i) s'
  end.

(** [ch.len_utf8()] of the character with first byte [c]. *)
Definition len_utf8 (c : ascii) : nat :=
  let n := N_of_ascii c in
  if (n <? 128)%N then 1%nat else if (n <? 224)%N then 2%nat
  else if (n <? 240)%N then 3%nat else 4%nat.

(** The values of [end] in [for ch in tail.chars() { end += ch.len_utf8(); .. }]. *)
Fixpoint char_ends (fuel : nat) (end_ : nat) (tail : string) : list nat :=
  match fuel, tail with
  | S f, String c _ =>
      let e := (end_ + len_utf8 c)%nat in e :: char_ends f e (str_drop (len_utf8 c) tail)
  | _, _ => []
  end.

(** Does some prefix of [tail] (cut at a character boundary) begin a tag? *)
Definition tail_matches (prs : list (string * string)) (tail : string) : bool :=
  existsb (fun e =>
    let substr := str_take e tail in
    existsb (fun p =>
      if str_is_empty p.1 then false
      else existsb (fun needle => negb (str_is_empty needle) && starts_with needle substr) [p.1; p.2])
      prs)
    (char_ends (String.length tail) 0 tail).

(** The loop ['pos_loop]. *)
Fixpoint hold_search (prs : list (string * string)) (pend : string) (min_pos : nat)
    (positions : list nat) : option nat :=
  match positions with
  | [] => None
  | pos :: ps =>
      if (pos <? min_pos)%nat then None
      else if tail_matches prs (str_drop pos pend) then Some pos
      else hold_search prs pend min_pos ps
  end.

(** [hold_partial_tail]: what is emitted now and what stays pending. *)
Definition hold_partial_tail (a : ThinkTagAccumulator) : string * string :=
  if str_is_empty (pending a) || (longest_tag a =? 0)%nat then (pending a, EmptyString)
  else
    let max_keep := (longest_tag a - 1)%nat in
    let min_pos := (String.length (pending a) - max_keep)%nat in
    match hold_search (pairs a) (pending a) min_pos (rev (char_starts 0 (pending a))) with
    | None => (pending a, EmptyString)
    | Some O => (EmptyString, pending a)
    | Some pos => (str_take pos (pending a), str_drop pos (pending a))
    end.

Definition event_of (st : State) (s : string) : ThinkEvent :=
  match st with InText => Text s | InReasoning => Reasoning s end.

Definition emit (st : State) (s : string) : list ThinkEvent :=
  if str_is_empty s then [] else [event_of st s].

Definition next_state (k : TagKind) : State :=
  match k with TagOpen => InReasoning | TagClose => InText end.

(** The loop of [drain_resolved]; each turn that finds a tag removes it from
    [pending], so [S (length pending)] turns are enough. *)
Fixpoint drain_loop (fuel : nat) (a : ThinkTagAccumulator)
    : list ThinkEvent * ThinkTagAccumulator :=
  match fuel with
  | O => ([], a)
  | S f =>
      match find_next_tag a with
      | None =>
          let '(flushed, rest) := hold_partial_tail a in
          (emit (state a) flushed ++ (if str_is_empty rest then [] else [Pending]),
           mkAcc (pairs a) (state a) rest (longest_tag a) (tag_count a))
      | Some (pos, tag, kind) =>
          let before := str_take pos (pending a) in
          let rest := str_drop (String.length tag) (str_drop pos (pending a)) in
          let '(events, a') :=
            drain_loop f (mkAcc (pairs a) (next_state kind) rest (longest_tag a) (S (tag_count a))) in
          (emit (state a) before ++ events, a')
      end
  end.

Definition drain_resolved (a : ThinkTagAccumulator) : list ThinkEvent * ThinkTagAccumulator :=
  drain_loop (S (String.length (pending a))) a.

Definition feed (a : ThinkTagAccumulator) (delta : string) : list ThinkEvent * ThinkTagAccumulator :=
  drain_resolved (mkAcc (pairs a) (state a) (pending a +:+ delta) (longest_tag a) (tag_count a)).

Definition flush (a : ThinkTagAccumulator) : string * ThinkTagAccumulator :=
  (pending a, mkAcc (pairs a) (state a) EmptyString (longest_tag a) (tag_count a)).

(** ** Non-streaming entry points *)

Record Extract := mkExtract { ex_reasoning : string; ex_text : string; ex_saw : bool }.

Definition extract_step (x : Extract) (ev : ThinkEvent) : Extract :=
  match ev with
  | Reasoning s =>
      mkExtract (if negb (str_is_empty (ex_reasoning x)) && negb (str_is_empty s)
                 then ex_reasoning x +:+ lf +:+ s else ex_reasoning x +:+ s)
                (ex_text x) true
  | Text s => mkExtract (ex_reasoning x) (ex_text x +:+ s) (ex_saw x)
  | Pending => x
  end.

(** The bytes of the final flush go to the side the machine is on. *)
Definition extract_flush (x : Extract) (in_reasoning : bool) (flushed : string) : Extract :=
  if negb (str_is_empty flushed) then
    if in_reasoning then
      mkExtract (if negb (str_is_empty (ex_reasoning x))
                 then ex_reasoning x +:+ lf +:+ flushed else ex_reasoning x +:+ flushed)
                (ex_text x) true
    else mkExtract (ex_reasoning x) (ex_text x +:+ flushed) (ex_saw x)
  else x.

Definition extract_think_tags (content : string) (prs : list (string * string))
    : option string * string :=
  let '(events, acc) := feed (acc_new prs) content in
  let x := foldl extract_step (mkExtract "" "" false) events in
  let '(flushed, acc) := flush acc in
  let x := extract_flush x (in_reasoning acc) flushed in
  (if ex_saw x || (0 <? tag_count acc)%nat then Some (ex_reasoning x) else None, ex_text x).

Definition normalize_choice (c : Choice) : Choice :=
  let msg := fold_message_reasoning (message c) in
  match content msg with
  | None => mkChoice (ch_index c) msg (finish_reason c)
  | Some text =>
      if str_is_empty text then mkChoice (ch_index c) msg (finish_reason c)
      else
        let '(extracted, cleaned) := extract_think_tags text builtin_think_pairs in
        let rc := match opt_filter (fun s => negb (str_is_empty s)) extracted with
                  | Some e => merge_nonempty (reasoning_content msg) (Some e)
                  | None => reasoning_content msg
                  end in
        mkChoice (ch_index c)
          (mkResponseMessage (rm_role msg) (Some cleaned) (tool_calls msg) rc
             (reasoning msg) (reasoning_text msg) (thinking msg))
          (finish_reason c)
  end.

Definition normalize_chat_response (resp : ChatCompletionResponse) : ChatCompletionResponse :=
  mkResponse (resp_id resp) (object resp) (created resp) (resp_model resp)
    (normalize_choice <$> choices resp) (usage resp) (raw_usage_json resp).

(** Executable checks against the source's unit tests. *)
Example single_closed_block :
  extract_think_tags "<think>chain of thought</think>answer" builtin_think_pairs
  = (Some "chain of thought", "answer").
Proof. reflexivity. Qed.

Example multiple_blocks_joined :
  extract_think_tags "<think>first</think>mid<thinking>second</think>tail" builtin_think_pairs
  = (Some ("first" +:+ lf +:+ "second"), "midtail").
Proof. reflexivity. Qed.

Example trailing_partial_tag_stays_in_text :
  extract_think_tags "hello <th" builtin_think_pairs = (None, "hello <th").
Proof. reflexivity. Qed.

Example embedded_close_tag :
  extract_think_tags "<think>I said </think> in my head</think>real" builtin_think_pairs
  = (Some "I said ", " in my head</think>real").
Proof. reflexivity. Qed.

(* ------------------------------------------------------------------ *)
(** ** Reference definition *)

(** The tags the machine reacts to in a state: opening tags always, closing
    tags only inside a reasoning block; pairs without an opening tag are
    ignored. *)
Definition active_of (st : State) (p : string * string) : list (string * TagKind) :=
  if str_is_empty p.1 then []
  else (p.1, TagOpen)
       :: (if str_is_empty p.2 then [] else match st with InReasoning => [(p.2, TagClose)] | InText => [] end).

Definition active (st : State) (prs : list (string * string)) : list (string * TagKind) :=
  flat_map (active_of st) prs.

Definition tag_at (prs : list (string * string)) (st : State) (s : string) : option (string * TagKind) :=
  List.find (fun nk => str_prefix nk.1 s) (active st prs).

(** One pass over the text: [skip] bytes of a tag are left to drop. *)
Fixpoint scan (prs : list (string * string)) (st : State) (skip : nat) (s : string)
    : list (State * ascii) :=
  match s with
  | EmptyString => []
  | String c s' =>
      match skip with
      | S k => scan prs st k s'
      | O => match tag_at prs st s with
             | Some (n, kind) => scan prs (next_state kind) (String.length n - 1) s'
             | None => (st, c) :: scan prs st 0 s'
             end
      end
  end.

Fixpoint label (st : State) (s : string) : list (State * ascii) :=
  match s with EmptyString => [] | String c s' => (st, c) :: label st s' end.

(** The bytes of a labelled text that carry a given label. *)
Fixpoint select (st : State) (l : list (State * ascii)) : string :=
  match l with
  | [] => EmptyString
  | (st', c) :: l' =>
      match st, st' with
      | InText, InText | InReasoning, InReasoning => String c (select st l')
      | _, _ => select st l'
      end
  end.

Definition visible (prs : list (string * string)) (s : string) : string :=
  select InText (scan prs InText 0 s).
Definition hidden (prs : list (string * string)) (s : string) : string :=
  select InReasoning (scan prs InText 0 s).

(** The bytes of a sequence of events, with their side. *)
Definition labelled (ev : ThinkEvent) : list (State * ascii) :=
  match ev with Text s => label InText s | Reasoning s => label InReasoning s | Pending => [] end.

(** ** Tag vocabularies for which chunking does not matter

    Every tag starts with the ASCII marker [m] and contains it nowhere else,
    and no tag is a prefix of another. *)

Fixpoint str_mem (c : ascii) (s : string) : bool :=
  match s with EmptyString => false | String d s' => Ascii.eqb c d || str_mem c s' end.

Definition marked (m : ascii) (t : string) : bool :=
  match t with EmptyString => false | String c t' => Ascii.eqb c m && negb (str_mem m t') end.

Fixpoint prefix_free (l : list string) : bool :=
  match l with
  | [] => true
  | x :: l' => forallb (fun y => negb (str_prefix x y) && negb (str_prefix y x)) l' && prefix_free l'
  end.

Definition good_tags (m : ascii) (l : list string) : bool := forallb (marked m) l && prefix_free l.

Definition good_pairs (m : ascii) (prs : list (string * string)) : bool :=
  (N_of_ascii m <? 128)%N && good_tags m (active InText prs).*1 && good_tags m (active InReasoning prs).*1.

Example builtin_good : good_pairs "<" builtin_think_pairs = true.
Proof. reflexivity. Qed.

(* ------------------------------------------------------------------ *)
(** ** Lemmas on labels *)

Lemma label_app st a b : label st (a +:+ b) = label st a ++ label st b.
Proof. induction a; simpl; congruence. Qed.

Lemma select_app st a b : select st (a ++ b) = select st a +:+ select st b.
Proof. induction a as [|[st' c] a IH]; simpl; [done|]. destruct st, st'; simpl; by rewrite IH. Qed.

Lemma select_label st st' s :
  select st (label st' s)
  = match st, st' with InText, InText | InReasoning, InReasoning => s | _, _ => EmptyString end.
Proof. destruct st, st'; induction s; simpl; congruence. Qed.

Lemma labelled_emit st s : flat_map labelled (emit st s) = label st s.
Proof. unfold emit. destruct s, st; simpl; rewrite ?app_nil_r; done. Qed.

(** ** Lemmas on vocabularies *)

Lemma prefix_comparable a b s :
  str_prefix a s = true -> str_prefix b s = true -> str_prefix a b = true \/ str_prefix b a = true.
Proof.
  rewrite !prefix_iff. intros [r1 ->] [r2 H].
  destruct (app_split_str _ _ _ _ H) as [(e & -> & _)|(e & -> & _)]; eauto.
Qed.

Lemma find_prefix_free (l : list (string * TagKind)) n k s :
  prefix_free l.*1 = true -> (n, k) ∈ l -> str_prefix n s = true ->
  List.find (fun nk => str_prefix nk.1 s) l = Some (n, k).
Proof.
  induction l as [|[x kx] l IH]; simpl; [set_solver|].
  rewrite andb_true_iff, forallb_forall. intros [Hx Hl] Hin Hn.
  apply elem_of_cons in Hin as [[= <- <-]|Hin]; [by rewrite Hn|].
  destruct (str_prefix x s) eqn:Ex; [|by apply IH].
  exfalso. specialize (Hx n). rewrite <- list_elem_of_In in Hx.
  assert (n ∈ l.*1) as Hin' by (apply (list_elem_of_fmap_2 fst l (n, k)); done).
  apply Hx in Hin'. apply andb_true_iff in Hin' as [H1 H2].
  destruct (prefix_comparable _ _ _ Hn Ex) as [H|H]; rewrite H in *; done.
Qed.

Lemma active_nonempty st prs n k : (n, k) ∈ active st prs -> n ≠ "" /\ ~ (k = TagClose /\ st = InText).
Proof.
  unfold active. rewrite list_elem_of_In, in_flat_map. intros ([o c] & _ & H).
  unfold active_of in H. simpl in H. destruct o; simpl in H; [done|].
  destruct H as [[= <- <-]|H]; [split; [done|naive_solver]|].
  destruct c; simpl in H; [done|]. destruct st; simpl in H; [done|].
  destruct H as [[= <- <-]|[]]. split; [done|naive_solver].
Qed.

Lemma consider_empty st pend best n k : str_is_empty n = true -> consider st pend best (n, k) = best.
Proof. intros H. unfold consider. by rewrite H. Qed.

Lemma consider_close_text pend best n : consider InText pend best (n, TagClose) = best.
Proof. unfold consider. by destruct (str_is_empty n). Qed.

#[local] Arguments consider : simpl never.

Lemma find_next_tag_active a :
  find_next_tag a = foldl (consider (state a) (pending a)) None (active (state a) (pairs a)).
Proof.
  unfold find_next_tag, active. generalize (@None (nat * string * TagKind)).
  induction (pairs a) as [|[o c] l IH]; intros best; simpl; [done|].
  rewrite foldl_app. unfold active_of at 1. simpl.
  destruct (str_is_empty o) eqn:Eo; simpl; [apply IH|].
  rewrite IH. f_equal.
  destruct (str_is_empty c) eqn:Ec; simpl; [by rewrite consider_empty|].
  destruct (state a); simpl; [by rewrite consider_close_text|done].
Qed.

Lemma consider_active st pend best n k :
  n ≠ "" -> ~ (k = TagClose /\ st = InText) ->
  consider st pend best (n, k)
  = match str_find n pend with
    | Some idx =>
        if match best with
           | None => true
           | Some (b, t, _) =>
               (idx <? b)%nat || ((idx =? b)%nat && (String.length t <? String.length n)%nat)
           end
        then Some (idx, n, k) else best
    | None => best
    end.
Proof.
  intros Hn Hk. unfold consider. destruct n; [done|]. simpl str_is_empty. cbn iota.
  destruct k, st; try done. exfalso; apply Hk; done.
Qed.

(** The fold keeps an earliest match. *)
Lemma foldl_consider_spec st pend l best :
  (forall n k, (n, k) ∈ l -> n ≠ "" /\ ~ (k = TagClose /\ st = InText)) ->
  let r := foldl (consider st pend) best l in
  (forall i n k, r = Some (i, n, k) ->
     best = Some (i, n, k) \/ ((n, k) ∈ l /\ str_find n pend = Some i))
  /\ (forall n k i, ((n, k) ∈ l /\ str_find n pend = Some i) \/ best = Some (i, n, k) ->
       exists j n' k', r = Some (j, n', k') /\ (j <= i)%nat).
Proof.
  revert best. induction l as [|[n0 k0] l IH]; intros best Hl; simpl.
  - split; [auto|]. intros n k i [[H _]|H]; [set_solver|]. eauto 10.
  - destruct (Hl n0 k0) as [Hn0 Hk0]; [set_solver|].
    rewrite consider_active by done.
    set (best' := match str_find n0 pend with Some _ => _ | None => _ end).
    destruct (IH best') as [IH1 IH2]; [intros; apply Hl; set_solver|]. clear IH. split.
    + intros i n k Hr. destruct (IH1 _ _ _ Hr) as [Hb|[Hin Hf]]; [|right; split; [set_solver|done]].
      subst best'. destruct (str_find n0 pend) eqn:Ef; [|auto].
      destruct (match best with None => true | Some (b, t, _) => _ end); [|auto].
      right. simplify_eq. split; [set_solver|done].
    + intros n k i H.
      assert ((exists j n' k', best' = Some (j, n', k') /\ (j <= i)%nat)
              \/ ((n, k) ∈ l /\ str_find n pend = Some i)) as [(j & n' & k' & Hj & Hle)|Hj].
      { subst best'. destruct H as [[Hin Hf]| -> ].
        - apply elem_of_cons in Hin as [Hin|Hin]; [injection Hin as Hn Hk; subst n k|eauto 10].
          rewrite Hf. destruct best as [[[b t] kb]|]; [|eauto 10].
          destruct ((i <? b)%nat || _) eqn:E; [eauto 10|].
          left. exists b, t, kb. split; [done|]. apply orb_false_iff in E as [E _].
          apply Nat.ltb_ge in E. lia.
        - destruct (str_find n0 pend) as [i0|]; [|eauto 10].
          destruct ((i0 <? i)%nat || _) eqn:E; [|eauto 10].
          left. exists i0, n0, k0. split; [done|].
          apply orb_true_iff in E as [E|E]; [apply Nat.ltb_lt in E; lia|].
          apply andb_true_iff in E as [E _]. apply Nat.eqb_eq in E. lia. }
      * destruct (IH2 n' k' j) as (j2 & n2 & k2 & -> & ?); [auto|].
        exists j2, n2, k2. split; [done|lia].
      * destruct (IH2 n k i) as (j2 & n2 & k2 & -> & ?); [auto|]. eauto 10.
Qed.

Lemma find_next_tag_None a n k s1 s2 :
  find_next_tag a = None -> (n, k) ∈ active (state a) (pairs a) ->
  pending a ≠ s1 +:+ n +:+ s2.
Proof.
  rewrite find_next_tag_active. intros Hr Hin Hp.
  destruct (str_find_before _ _ _ _ Hp) as (i & Hi & _).
  destruct (foldl_consider_spec (state a) (pending a) (active (state a) (pairs a)) None) as [_ H].
  { intros; by eapply active_nonempty. }
  destruct (H n k i) as (j & n' & k' & Hr' & _); [auto|]. congruence.
Qed.

Lemma find_next_tag_Some a i n k :
  find_next_tag a = Some (i, n, k) ->
  (n, k) ∈ active (state a) (pairs a)
  /\ (exists r, pending a = str_take i (pending a) +:+ n +:+ r
               /\ String.length (str_take i (pending a)) = i
               /\ str_drop (String.length n) (str_drop i (pending a)) = r)
  /\ (forall n' k' s1 s2, (n', k') ∈ active (state a) (pairs a) ->
        pending a = s1 +:+ n' +:+ s2 -> (i <= String.length s1)%nat).
Proof.
  rewrite find_next_tag_active. intros Hr.
  destruct (foldl_consider_spec (state a) (pending a) (active (state a) (pairs a)) None) as [H1 H2].
  { intros; by eapply active_nonempty. }
  destruct (H1 _ _ _ Hr) as [?|[Hin Hf]]; [done|]. split; [done|]. split.
  - destruct (str_find_Some _ _ _ Hf) as (r & Hp & Hl). exists r. split; [done|]. split; [done|].
    rewrite Hp at 1. rewrite <- Hl at 1. by rewrite !drop_app_str.
  - intros n' k' s1 s2 Hin' Hp. destruct (str_find_before _ _ _ _ Hp) as (j & Hj & Hle).
    destruct (H2 n' k' j) as (j' & ? & ? & Hr' & ?); [auto|]. simplify_eq. lia.
Qed.

(** ** The held-back tail *)

Lemma hold_search_Some prs pend mn l pos :
  hold_search prs pend mn l = Some pos ->
  (mn <= pos)%nat /\ tail_matches prs (str_drop pos pend) = true.
Proof.
  induction l as [|p l IH]; simpl; [done|].
  destruct (p <? mn)%nat eqn:E1; [done|]. destruct (tail_matches prs (str_drop p pend)) eqn:E2; [|exact IH].
  intros [= <-]. apply Nat.ltb_ge in E1. done.
Qed.

Lemma hold_search_None prs pend mn l :
  StronglySorted gt l -> hold_search prs pend mn l = None ->
  forall pos, pos ∈ l -> (mn <= pos)%nat -> tail_matches prs (str_drop pos pend) = false.
Proof.
  induction 1 as [|p l HS IH HF]; simpl; [set_solver|].
  destruct (p <? mn)%nat eqn:E1.
  - apply Nat.ltb_lt in E1. intros _ pos Hin Hle. exfalso.
    apply elem_of_cons in Hin as [->|Hin]; [lia|].
    rewrite Forall_forall in HF. specialize (HF pos Hin). lia.
  - destruct (tail_matches prs (str_drop p pend)) eqn:E2; [done|]. intros Hn pos Hin Hle.
    apply elem_of_cons in Hin as [->|Hin]; auto.
Qed.

Lemma char_starts_ge i s pos : pos ∈ char_starts i s -> (i <= pos)%nat.
Proof.
  revert i; induction s as [|c s IH]; intros i; simpl; [set_solver|].
  destruct (is_continuation c).
  - intros H%IH. lia.
  - intros [->|H%IH]%elem_of_cons; lia.
Qed.

Lemma StronglySorted_snoc {A} (R : A -> A -> Prop) l x :
  StronglySorted R l -> Forall (fun y => R y x) l -> StronglySorted R (l ++ [x]).
Proof.
  induction 1 as [|y l HS IH HF]; intros HFx; simpl; [repeat constructor|].
  inversion HFx; subst. constructor; [auto|]. apply Forall_app. auto.
Qed.

Lemma char_starts_desc i s : StronglySorted gt (rev (char_starts i s)).
Proof.
  revert i; induction s as [|c s IH]; intros i; simpl; [constructor|].
  destruct (is_continuation c); [apply IH|]. simpl. apply StronglySorted_snoc; [apply IH|].
  apply Forall_forall. intros y Hy. apply list_elem_of_In, in_rev, list_elem_of_In in Hy.
  apply char_starts_ge in Hy. lia.
Qed.

Lemma char_starts_elem i s1 c s2 :
  is_continuation c = false -> (i + String.length s1)%nat ∈ char_starts i (s1 +:+ String c s2).
Proof.
  intros Hc. revert i; induction s1 as [|d s1 IH]; intros i; simpl.
  - rewrite Hc, Nat.add_0_r. set_solver.
  - specialize (IH (S i)). replace (i + S (String.length s1))%nat with (S i + String.length s1)%nat by lia.
    destruct (is_continuation d); [done|]. set_solver.
Qed.

Lemma char_ends_pos fuel e0 s e : e ∈ char_ends fuel e0 s -> (e0 < e)%nat.
Proof.
  assert (Hl : forall c, (1 <= len_utf8 c)%nat) by (intros c; unfold len_utf8; repeat case_match; lia).
  revert e0 s; induction fuel as [|f IH]; intros e0 [|c s]; simpl; try set_solver.
  intros [->|H%IH]%elem_of_cons; specialize (Hl c); lia.
Qed.

Lemma marked_inv m t : marked m t = true -> exists t', t = String m t' /\ str_mem m t' = false.
Proof.
  destruct t as [|c t]; simpl; [done|]. rewrite andb_true_iff, negb_true_iff.
  intros [->%Ascii.eqb_eq ?]. eauto.
Qed.

Lemma str_mem_app c a b : str_mem c (a +:+ b) = str_mem c a || str_mem c b.
Proof. induction a as [|d a IH]; simpl; [done|]. by rewrite IH, orb_assoc. Qed.

Section Vocabulary.
Variables (m : ascii) (prs : list (string * string)).
Hypothesis Hgood : good_pairs m prs = true.

Lemma good_ascii : (N_of_ascii m < 128)%N.
Proof.
  unfold good_pairs in Hgood. rewrite !andb_true_iff in Hgood.
  destruct Hgood as [[H%N.ltb_lt _] _]. done.
Qed.

Lemma good_active st : good_tags m (active st prs).*1 = true.
Proof.
  unfold good_pairs in Hgood. rewrite !andb_true_iff in Hgood.
  destruct st; tauto.
Qed.

Lemma active_marked st n k :
  (n, k) ∈ active st prs -> exists n', n = String m n' /\ str_mem m n' = false.
Proof.
  intros Hin. pose proof (good_active st) as H. unfold good_tags in H.
  apply andb_true_iff in H as [H _]. rewrite forallb_forall in H.
  apply marked_inv, H, list_elem_of_In. by apply (list_elem_of_fmap_2 fst _ (n, k)).
Qed.

Lemma tag_at_active st n k s : (n, k) ∈ active st prs -> tag_at prs st (n +:+ s) = Some (n, k).
Proof.
  intros Hin. pose proof (good_active st) as H. unfold good_tags in H.
  apply andb_true_iff in H as [_ H]. apply find_prefix_free; auto. apply prefix_iff. eauto.
Qed.

(** Where a tag can begin in a text that continues the pending bytes. *)
Lemma tag_position st n k c s2 X :
  (n, k) ∈ active st prs -> str_prefix n (String c s2 +:+ X) = true ->
  c = m /\ ((exists s3, String c s2 = n +:+ s3)
            \/ (str_mem m s2 = false /\ (String.length (String c s2) < String.length n)%nat)).
Proof.
  intros Hin Hp. destruct (active_marked _ _ _ Hin) as (n' & -> & Hm).
  apply prefix_iff in Hp as [r Hr]. simpl in Hr. injection Hr as -> Hr. split; [done|].
  destruct (app_split_str _ _ _ _ Hr) as [(e & -> & _)|(e & -> & _)].
  - destruct e as [|c e].
    + left. exists "". rewrite !app_nil_r_str. done.
    + right. rewrite str_mem_app in Hm. apply orb_false_iff in Hm as [Hm _].
      split; [done|]. simpl. rewrite length_app_str. simpl. lia.
  - left. eauto.
Qed.

Lemma pair_tags p needle :
  p ∈ prs -> str_is_empty p.1 = false -> needle ∈ [p.1; p.2] -> str_is_empty needle = false ->
  exists k, (needle, k) ∈ active InReasoning prs.
Proof.
  intros Hp Ho Hn He.
  assert (exists k, (needle, k) ∈ active_of InReasoning p) as [k Hk].
  { unfold active_of. rewrite Ho. apply elem_of_cons in Hn as [->|Hn]; [exists TagOpen; set_solver|].
    apply list_elem_of_singleton in Hn as ->. rewrite He. exists TagClose; set_solver. }
  exists k. unfold active. apply list_elem_of_In, in_flat_map. exists p. by rewrite <- !list_elem_of_In.
Qed.

Lemma tail_matches_marker c t : tail_matches prs (String c t) = true -> c = m.
Proof.
  unfold tail_matches. rewrite existsb_exists. intros (e & He & H).
  apply list_elem_of_In, char_ends_pos in He.
  rewrite existsb_exists in H. destruct H as (p & Hp & H).
  destruct (str_is_empty p.1) eqn:Ep; [done|].
  rewrite existsb_exists in H. destruct H as (needle & Hn & H).
  apply andb_true_iff in H as [Hne Hpre]. apply negb_true_iff in Hne.
  destruct (pair_tags p needle) as [k Hk]; rewrite ?list_elem_of_In; auto.
  destruct (active_marked _ _ _ Hk) as (n' & -> & _).
  unfold starts_with in Hpre. destruct e; [lia|]. simpl in Hpre.
  apply andb_true_iff in Hpre as [->%Ascii.eqb_eq _]. done.
Qed.

Lemma marker_matches st n k t : (n, k) ∈ active st prs -> tail_matches prs (String m t) = true.
Proof.
  intros Hin. unfold active in Hin. apply list_elem_of_In, in_flat_map in Hin as (p & Hp & Hin).
  unfold active_of in Hin. destruct (str_is_empty p.1) eqn:Ep; [done|].
  destruct (pair_tags p p.1) as [k' Hk']; rewrite ?list_elem_of_In; auto; [set_solver|].
  destruct (active_marked _ _ _ Hk') as (o' & Ho & _).
  unfold tail_matches. simpl. apply orb_true_iff. left.
  apply existsb_exists. exists p. split; [done|]. rewrite Ep.
  unfold len_utf8. pose proof good_ascii as Ha. apply N.ltb_lt in Ha. rewrite Ha.
  simpl. rewrite Ho. simpl. unfold starts_with; simpl. rewrite Ascii.eqb_refl. by destruct t.
Qed.

Lemma tag_at_Some st s n k :
  tag_at prs st s = Some (n, k) -> (n, k) ∈ active st prs /\ str_prefix n s = true.
Proof. intros H. apply find_some in H as [H1 H2]. by rewrite list_elem_of_In. Qed.

(** ** Lemmas on [scan] *)

Lemma scan_plain st f X :
  (forall s1 c s2, f = s1 +:+ String c s2 -> tag_at prs st (String c s2 +:+ X) = None) ->
  scan prs st 0 (f +:+ X) = label st f ++ scan prs st 0 X.
Proof.
  induction f as [|c f IH]; intros H; [done|].
  cbn [String.append scan label]. change (String c (f +:+ X)) with (String c f +:+ X).
  rewrite (H "" c f eq_refl). cbn. f_equal. apply IH.
  intros s1 d s2 ->. by apply (H (String c s1)).
Qed.

Lemma scan_skip st t X : scan prs st (String.length t) (t +:+ X) = scan prs st 0 X.
Proof. induction t as [|c t IH]; [done|]. exact IH. Qed.

Lemma scan_tag st n k X :
  (n, k) ∈ active st prs -> scan prs st 0 (n +:+ X) = scan prs (next_state k) 0 X.
Proof.
  intros Hin. pose proof (tag_at_active st n k X Hin) as Ht.
  destruct (active_marked _ _ _ Hin) as (n' & -> & _).
  cbn [String.append scan]. cbn [String.append] in Ht. rewrite Ht. cbn [String.length].
  rewrite Nat.sub_succ, Nat.sub_0_r. apply scan_skip.
Qed.

(** ** One call of [drain_resolved] *)

(** The accumulator was created for the vocabulary [prs]. *)
Definition fits (a : ThinkTagAccumulator) : Prop :=
  pairs a = prs /\ forall st n k, (n, k) ∈ active st prs -> (String.length n <= longest_tag a)%nat.

Lemma hold_partial_tail_app a f r :
  hold_partial_tail a = (f, r) ->
  pending a = f +:+ r /\ (String.length r <= longest_tag a - 1)%nat.
Proof.
  unfold hold_partial_tail. destruct (str_is_empty (pending a) || _).
  { intros [= <- <-]. rewrite app_nil_r_str. split; [done|simpl; lia]. }
  destruct (hold_search _ _ _ _) as [[|pos]|] eqn:E; intros [<- <-]%pair_equal_spec.
  - apply hold_search_Some in E as [E _]. split; [done|]. lia.
  - apply hold_search_Some in E as [E _]. rewrite take_drop_str, length_drop_str.
    split; [done|]. lia.
  - rewrite app_nil_r_str. split; [done|simpl; lia].
Qed.

(** A byte of the emitted part where a cut tag could begin would have been
    held. *)
Lemma hold_keeps_marker a f r s1 s2 st n k :
  fits a -> hold_partial_tail a = (f, r) -> f = s1 +:+ String m s2 ->
  (n, k) ∈ active st prs -> (String.length (String m (s2 +:+ r)) < String.length n)%nat ->
  exists r', r = String m r'.
Proof.
  intros [Hprs Hfit] Hh Hf Hin Hlen. specialize (Hfit _ _ _ Hin).
  pose proof (hold_partial_tail_app _ _ _ Hh) as [Hp _].
  unfold hold_partial_tail in Hh.
  assert (Hne : str_is_empty (pending a) || (longest_tag a =? 0)%nat = false).
  { apply orb_false_iff. split; [rewrite Hp, Hf; by destruct s1|]. apply Nat.eqb_neq. lia. }
  rewrite Hne in Hh. rewrite Hprs in Hh.
  assert (Hr : forall pos, tail_matches prs (str_drop pos (pending a)) = true ->
               exists r', str_drop pos (pending a) = String m r').
  { intros pos Hm. destruct (str_drop pos (pending a)) as [|c t] eqn:Ed; [done|].
    apply tail_matches_marker in Hm as ->. eauto. }
  destruct (hold_search _ _ _ _) as [[|pos]|] eqn:E.
  - injection Hh as <- <-. by destruct s1.
  - apply pair_equal_spec in Hh as [<- <-]. apply hold_search_Some in E as [_ E]. by apply Hr.
  - exfalso. injection Hh as <- <-.
    assert (Hpend : pending a = s1 +:+ String m s2) by done.
    pose proof (hold_search_None _ _ _ _ (char_starts_desc 0 (pending a)) E (String.length s1)) as Hn.
    rewrite Hpend in Hn at 3. rewrite drop_app_str in Hn.
    rewrite (marker_matches _ _ _ _ Hin) in Hn. discriminate Hn.
    + apply list_elem_of_In. rewrite <- in_rev. apply list_elem_of_In. rewrite Hpend.
      apply (char_starts_elem 0). unfold is_continuation. pose proof good_ascii.
      apply andb_false_iff. left. apply N.leb_gt. lia.
    + rewrite app_nil_r_str in Hlen. rewrite Hpend, length_app_str. simpl in *. lia.
Qed.

Lemma hold_no_tag a f r X s1 c s2 :
  fits a -> find_next_tag a = None -> hold_partial_tail a = (f, r) -> f = s1 +:+ String c s2 ->
  tag_at prs (state a) (String c s2 +:+ r +:+ X) = None.
Proof.
  intros Hfit Hnone Hh Hf. destruct (tag_at _ _ _) as [[n k]|] eqn:E; [exfalso|done].
  apply tag_at_Some in E as [Hin Hpre]. rewrite app_assoc_str in Hpre.
  pose proof (hold_partial_tail_app _ _ _ Hh) as [Hp _].
  destruct (tag_position _ _ _ _ _ _ Hin Hpre) as [-> [[s3 Hs]|[Hm Hlen]]].
  - destruct Hfit as [Hprs _]. rewrite <- Hprs in Hin.
    apply (find_next_tag_None _ _ _ s1 s3 Hnone Hin).
    rewrite Hp, Hf, <- app_assoc_str. f_equal. exact Hs.
  - destruct (hold_keeps_marker _ _ _ _ _ _ _ _ Hfit Hh Hf Hin Hlen) as [r' ->].
    rewrite str_mem_app in Hm. simpl in Hm. rewrite Ascii.eqb_refl, orb_true_r in Hm. done.
Qed.

Lemma before_no_tag a i n k X s1 c s2 :
  fits a -> find_next_tag a = Some (i, n, k) -> str_take i (pending a) = s1 +:+ String c s2 ->
  tag_at prs (state a)
    (String c s2 +:+ n +:+ str_drop (String.length n) (str_drop i (pending a)) +:+ X) = None.
Proof.
  intros [Hprs _] Hs Hb. destruct (tag_at _ _ _) as [[n' k']|] eqn:E; [exfalso|done].
  apply tag_at_Some in E as [Hin' Hpre].
  apply find_next_tag_Some in Hs as (Hin & (r & Hp & Hl & Hr) & Hfirst). rewrite Hr in Hpre.
  rewrite Hprs in *. rewrite !app_assoc_str in Hpre.
  destruct (tag_position _ _ _ _ _ _ Hin' Hpre) as [-> [[s3 Hs]|[Hm _]]].
  - specialize (Hfirst n' k' s1 s3 Hin'). rewrite <- Hl, Hb, length_app_str in Hfirst.
    assert (Hc : pending a = s1 +:+ n' +:+ s3).
    { rewrite Hp, Hb, <- app_assoc_str. f_equal. rewrite <- Hs.
      simpl. by rewrite <- app_assoc_str. }
    apply Hfirst in Hc. simpl in Hc. lia.
  - destruct (active_marked _ _ _ Hin) as (t & -> & _).
    rewrite !str_mem_app in Hm. simpl in Hm. rewrite Ascii.eqb_refl, ?orb_true_r in Hm. done.
Qed.

Lemma held_no_tag a f r :
  fits a -> find_next_tag a = None -> hold_partial_tail a = (f, r) ->
  scan prs (state a) 0 r = label (state a) r.
Proof.
  intros [Hprs _] Hnone Hh. pose proof (hold_partial_tail_app _ _ _ Hh) as [Hp _].
  rewrite <- (app_nil_r_str r) at 1. rewrite scan_plain; [by rewrite app_nil_r|].
  intros s1 c s2 ->. rewrite app_nil_r_str.
  destruct (tag_at _ _ _) as [[n k]|] eqn:E; [exfalso|done].
  apply tag_at_Some in E as [Hin [s3 Hs]%prefix_iff]. rewrite <- Hprs in Hin.
  apply (find_next_tag_None _ _ _ (f +:+ s1) s3 Hnone Hin).
  by rewrite Hp, Hs, <- !app_assoc_str.
Qed.

(** What a call leaves behind: the bytes emitted and the bytes still to come
    are labelled as a single pass over all of them labels them. *)
Definition resolves (a : ThinkTagAccumulator) (evs : list ThinkEvent) (a' : ThinkTagAccumulator) : Prop :=
  pairs a' = pairs a /\ longest_tag a' = longest_tag a
  /\ (forall X, scan prs (state a) 0 (pending a +:+ X)
                = flat_map labelled evs ++ scan prs (state a') 0 (pending a' +:+ X))
  /\ scan prs (state a') 0 (pending a') = label (state a') (pending a')
  /\ (String.length (pending a') <= longest_tag a' - 1)%nat.

Lemma drain_last a f r :
  fits a -> find_next_tag a = None -> hold_partial_tail a = (f, r) ->
  resolves a (emit (state a) f ++ (if str_is_empty r then [] else [Pending]))
    (mkAcc (pairs a) (state a) r (longest_tag a) (tag_count a)).
Proof.
  intros Hfit Hnone Hh. pose proof (hold_partial_tail_app _ _ _ Hh) as [Hp Hl].
  split; [done|]. split; [done|]. split; [|split; [|done]].
  - intros X. simpl. rewrite Hp, <- app_assoc_str, scan_plain.
    + rewrite flat_map_app, labelled_emit, <- app_assoc. by destruct r.
    + intros s1 c s2 Hf. by eapply hold_no_tag.
  - simpl. by eapply held_no_tag.
Qed.

Lemma drain_tag a i n k evs a' :
  fits a -> find_next_tag a = Some (i, n, k) ->
  resolves (mkAcc (pairs a) (next_state k) (str_drop (String.length n) (str_drop i (pending a)))
              (longest_tag a) (S (tag_count a))) evs a' ->
  resolves a (emit (state a) (str_take i (pending a)) ++ evs) a'.
Proof.
  intros Hfit Hs (H1 & H2 & H3 & H4). split; [done|]. split; [done|]. split; [|done].
  intros X. simpl in H3. rewrite flat_map_app, labelled_emit, <- app_assoc, <- H3.
  pose proof (find_next_tag_Some _ _ _ _ Hs) as (Hin & (r & Hp & _ & Hr) & _).
  rewrite Hp at 1. rewrite <- !app_assoc_str, scan_plain.
  - f_equal. destruct Hfit as [Hprs _]. rewrite Hprs in Hin. by rewrite (scan_tag _ _ _ _ Hin), Hr.
  - intros s1 c s2 Hb. rewrite <- Hr. by eapply before_no_tag.
Qed.

Lemma found_shrinks a i n k :
  find_next_tag a = Some (i, n, k) ->
  (String.length (str_drop (String.length n) (str_drop i (pending a))) < String.length (pending a))%nat.
Proof.
  intros Hs. apply find_next_tag_Some in Hs as (Hin & (r & Hp & _ & ->) & _).
  apply active_nonempty in Hin as [Hn _]. rewrite Hp, !length_app_str.
  destruct n; [done|]. simpl. lia.
Qed.

Lemma drain_loop_spec fuel a evs a' :
  fits a -> (String.length (pending a) < fuel)%nat -> drain_loop fuel a = (evs, a') ->
  resolves a evs a'.
Proof.
  revert a evs a'; induction fuel as [|fuel IH]; intros a evs a' Hfit Hlt; [lia|]. simpl.
  destruct (find_next_tag a) as [[[i n] k]|] eqn:Ef.
  - destruct (drain_loop fuel _) as [evs1 a1] eqn:Ed. intros [= <- <-].
    eapply drain_tag; [done..|]. eapply IH; [| |exact Ed]; [exact Hfit|].
    apply found_shrinks in Ef. simpl. lia.
  - destruct (hold_partial_tail a) as [f r] eqn:Eh. intros [= <- <-]. by apply drain_last.
Qed.

Lemma feed_spec a delta evs a' :
  fits a -> feed a delta = (evs, a') ->
  fits a' /\ longest_tag a' = longest_tag a
  /\ (String.length (pending a') <= longest_tag a' - 1)%nat
  /\ scan prs (state a') 0 (pending a') = label (state a') (pending a')
  /\ forall X, scan prs (state a) 0 (pending a +:+ delta +:+ X)
               = flat_map labelled evs ++ scan prs (state a') 0 (pending a' +:+ X).
Proof.
  unfold feed, drain_resolved. intros Hfit Hd. apply drain_loop_spec in Hd; [|done|lia].
  destruct Hd as (H1 & H2 & H3 & H4 & H5). simpl in *. destruct Hfit as [F1 F2].
  split; [split; [congruence|]|].
  - intros st n k Hin. rewrite H2. by eapply F2.
  - split; [done|]. split; [done|]. split; [done|]. intros X. rewrite app_assoc_str. apply H3.
Qed.
End Vocabulary.

Lemma acc_new_fits prs : fits prs (acc_new prs).
Proof.
  split; [done|]. intros st n k Hin. unfold active in Hin.
  apply list_elem_of_In, in_flat_map in Hin as (p & Hp & Hin).
  assert (Hb : (String.length p.1 `max` String.length p.2 <= longest_tag (acc_new prs))%nat).
  { simpl. apply list_elem_of_In in Hp. clear Hin. induction prs as [|q l IH]; [set_solver|].
    apply elem_of_cons in Hp as [->|Hp]; simpl; [lia|].
    specialize (IH Hp). etrans; [exact IH|]. apply Nat.le_max_r. }
  unfold active_of in Hin. destruct (str_is_empty p.1); [done|].
  destruct Hin as [[= <- <-]|Hin]; [lia|].
  destruct (str_is_empty p.2); [done|]. destruct st; [done|].
  destruct Hin as [[= <- <-]|[]]. lia.
Qed.

(** Feeding a sequence of deltas, as the stream does. *)
Fixpoint feed_all (a : ThinkTagAccumulator) (deltas : list string)
    : list ThinkEvent * ThinkTagAccumulator :=
  match deltas with
  | [] => ([], a)
  | d :: ds =>
      let '(evs, a1) := feed a d in
      let '(evs', a2) := feed_all a1 ds in (evs ++ evs', a2)
  end.

(** Between calls the buffer is short and holds no complete tag. *)
Definition settled (prs : list (string * string)) (a : ThinkTagAccumulator) : Prop :=
  (pending_len a <= longest_tag a - 1)%nat
  /\ scan prs (state a) 0 (pending a) = label (state a) (pending a).

Lemma feed_all_spec m prs deltas : good_pairs m prs = true ->
  forall a evs a', fits prs a -> settled prs a -> feed_all a deltas = (evs, a') ->
  settled prs a' /\ longest_tag a' = longest_tag a
  /\ forall X, scan prs (state a) 0 (pending a +:+ str_concat deltas +:+ X)
               = flat_map labelled evs ++ scan prs (state a') 0 (pending a' +:+ X).
Proof.
  intros Hg. induction deltas as [|d ds IH]; intros a evs a' Hfit Hs; simpl.
  - intros [= <- <-]. done.
  - destruct (feed a d) as [e1 a1] eqn:E1. destruct (feed_all a1 ds) as [e2 a2] eqn:E2.
    intros [= <- <-]. destruct (feed_spec m prs Hg _ _ _ _ Hfit E1) as (F1 & L1 & B1 & N1 & S1).
    destruct (IH _ _ _ F1 (conj B1 N1) E2) as (F2 & L2 & S2). split; [done|]. split; [congruence|].
    intros X. by rewrite <- (app_assoc_str d), S1, S2, flat_map_app, <- app_assoc.
Qed.

Lemma acc_new_settled prs : settled prs (acc_new prs).
Proof. split; [apply Nat.le_0_l|done]. Qed.

(** ** Claims about the stream *)

(** What a client of the accumulator has received after the stream ended:
    the events of every delta, then the flushed bytes on the side the machine
    is on. *)
Definition run_stream (prs : list (string * string)) (deltas : list string) : list ThinkEvent :=
  let '(evs, a) := feed_all (acc_new prs) deltas in
  let '(tail, a) := flush a in evs ++ emit (state a) tail.

(** Claim C10: for every vocabulary whose tags start with one marker byte and
    are prefix-free, and every way of cutting the text into deltas, the events
    the accumulator emits carry exactly the bytes of the single-pass reference
    [scan] of the whole text, in order and with the same visible/reasoning
    label; so the result does not depend on the chunk boundaries. *)
Theorem think_stream_is_scan m prs deltas :
  good_pairs m prs = true ->
  flat_map labelled (run_stream prs deltas) = scan prs InText 0 (str_concat deltas).
Proof.
  intros Hg. unfold run_stream. destruct (feed_all _ _) as [evs a] eqn:E.
  destruct (feed_all_spec m _ _ Hg _ _ _ (acc_new_fits prs) (acc_new_settled prs) E)
    as ([_ Hl] & _ & HS).
  specialize (HS ""). rewrite !app_nil_r_str in HS. simpl. simpl in HS. rewrite HS.
  by rewrite flat_map_app, labelled_emit, Hl.
Qed.

Theorem think_stream_is_scan_witness :
  flat_map labelled (run_stream builtin_think_pairs ["a<thi"; "nk>b</t"; "hink>c<"])
  = label InText "a" ++ label InReasoning "b" ++ label InText "c<".
Proof. rewrite (think_stream_is_scan "<"); reflexivity. Defined.

(** With the built-in tags at most 10 bytes are ever held back,
    however much has been fed. *)
Theorem think_buffer_bound deltas :
  (pending_len (feed_all (acc_new builtin_think_pairs) deltas).2 <= 10)%nat.
Proof.
  destruct (feed_all _ _) as [evs a] eqn:E. simpl.
  destruct (feed_all_spec "<" _ _ builtin_good _ _ _ (acc_new_fits _) (acc_new_settled _) E)
    as ([Hb _] & HL & _). rewrite HL in Hb. exact Hb.
Qed.

(** ** The non-streaming path *)

Fixpoint drop_lf (s : string) : string :=
  match s with
  | EmptyString => EmptyString
  | String c s' => if Ascii.eqb c LF then drop_lf s' else String c (drop_lf s')
  end.

Lemma drop_lf_app a b : drop_lf (a +:+ b) = drop_lf a +:+ drop_lf b.
Proof. induction a as [|c a IH]; simpl; [done|]. rewrite IH. by destruct (Ascii.eqb c LF). Qed.

(** The separator inserted between two reasoning blocks is a line feed. *)
Lemma drop_lf_joined (b : bool) a s :
  drop_lf (if b then a +:+ lf +:+ s else a +:+ s) = drop_lf a +:+ drop_lf s.
Proof. destruct b; by rewrite !drop_lf_app. Qed.

Lemma extract_fold_text evs x :
  ex_text (foldl extract_step x evs) = ex_text x +:+ select InText (flat_map labelled evs).
Proof.
  revert x; induction evs as [|ev evs IH]; intros x; simpl; [by rewrite app_nil_r_str|].
  rewrite IH, select_app. destruct ev; simpl; rewrite ?select_label; simpl; [done| |done].
  by rewrite <- app_assoc_str.
Qed.

Lemma extract_fold_reasoning evs x :
  drop_lf (ex_reasoning (foldl extract_step x evs))
  = drop_lf (ex_reasoning x) +:+ drop_lf (select InReasoning (flat_map labelled evs)).
Proof.
  revert x; induction evs as [|ev evs IH]; intros x; simpl; [by rewrite app_nil_r_str|].
  rewrite IH, select_app, drop_lf_app, app_assoc_str. f_equal.
  destruct ev; cbn -[String.append]; rewrite ?select_label, ?drop_lf_joined; [done|..];
    by rewrite app_nil_r_str.
Qed.

Lemma drain_loop_count fuel a evs a' :
  drain_loop fuel a = (evs, a') -> (tag_count a <= tag_count a')%nat.
Proof.
  revert a evs a'; induction fuel as [|fuel IH]; intros a evs a'; simpl; [by intros [= <- <-]|].
  destruct (find_next_tag a) as [[[i n] k]|].
  - destruct (drain_loop fuel _) as [evs1 a1] eqn:Ed. intros [= <- <-]. apply IH in Ed. simpl in Ed. lia.
  - destruct (hold_partial_tail a). by intros [= <- <-].
Qed.

(** A tag is found exactly when the events and the state of the first call say
    so. *)
Lemma feed_new_count prs content evs a :
  feed (acc_new prs) content = (evs, a) ->
  match find_next_tag (mkAcc prs InText content (longest_tag (acc_new prs)) 0) with
  | Some _ => (0 < tag_count a)%nat
  | None => tag_count a = 0%nat /\ state a = InText
            /\ ex_saw (foldl extract_step (mkExtract "" "" false) evs) = false
            /\ ex_reasoning (foldl extract_step (mkExtract "" "" false) evs) = ""
  end.
Proof.
  unfold feed, drain_resolved. cbn [acc_new pairs state pending longest_tag tag_count].
  change ("" +:+ content) with content. cbn [drain_loop].
  destruct (find_next_tag _) as [[[i n] k]|].
  - destruct (drain_loop _ _) as [evs1 a1] eqn:Ed. intros [= <- <-].
    apply drain_loop_count in Ed. simpl in Ed. lia.
  - destruct (hold_partial_tail _) as [f r]. intros [= <- <-].
    split; [done|]. split; [done|]. simpl. unfold emit. by destruct f, r; split.
Qed.

Definition has_opening (prs : list (string * string)) (content : string) : Prop :=
  exists o k s1 s2, (o, k) ∈ active InText prs /\ content = s1 +:+ o +:+ s2.

Lemma find_next_tag_new prs content L :
  match find_next_tag (mkAcc prs InText content L 0) with
  | Some _ => has_opening prs content
  | None => ~ has_opening prs content
  end.
Proof.
  destruct (find_next_tag _) as [[[i n] k]|] eqn:E.
  - apply find_next_tag_Some in E as (Hin & (r & Hp & _) & _). simpl in *.
    exists n, k, (str_take i content), r. auto.
  - intros (o & k & s1 & s2 & Hin & Hc). by apply (find_next_tag_None _ o k s1 s2 E).
Qed.

Lemma extract_flush_spec x st s :
  let y := extract_flush x (match st with InReasoning => true | InText => false end) s in
  ex_text y = ex_text x +:+ (match st with InText => s | InReasoning => "" end)
  /\ drop_lf (ex_reasoning y)
     = drop_lf (ex_reasoning x) +:+ drop_lf (match st with InText => "" | InReasoning => s end)
  /\ (st = InText -> ex_saw y = ex_saw x).
Proof.
  unfold extract_flush. destruct s as [|c s]; simpl str_is_empty; cbn [negb].
  - by destruct st; simpl; rewrite !app_nil_r_str.
  - destruct st; cbn [ex_text ex_reasoning ex_saw]; rewrite ?drop_lf_joined, ?app_nil_r_str;
      simpl; rewrite ?app_nil_r_str; done.
Qed.

Lemma extract_spec m prs content :
  good_pairs m prs = true ->
  let '(reasoning, text) := extract_think_tags content prs in
  text = visible prs content
  /\ drop_lf (unwrap_or reasoning "") = drop_lf (hidden prs content)
  /\ (reasoning = None <-> ~ has_opening prs content).
Proof.
  intros Hg. unfold extract_think_tags, visible, hidden.
  destruct (feed (acc_new prs) content) as [evs a] eqn:E.
  destruct (feed_spec m prs Hg _ _ _ _ (acc_new_fits prs) E) as (_ & _ & _ & HL & HS).
  specialize (HS ""). simpl in HS. rewrite !app_nil_r_str, HL in HS.
  pose proof (feed_new_count _ _ _ _ E) as Hc.
  pose proof (find_next_tag_new prs content (longest_tag (acc_new prs))) as Ho.
  rewrite HS, !select_app, !select_label, !drop_lf_app. cbn [flush tag_count state].
  set (x := foldl extract_step _ evs) in *.
  pose proof (extract_fold_text evs (mkExtract "" "" false)) as Ht. fold x in Ht. simpl in Ht.
  pose proof (extract_fold_reasoning evs (mkExtract "" "" false)) as Hr. fold x in Hr. simpl in Hr.
  rewrite <- Ht, <- Hr. unfold in_reasoning. cbn [state].
  destruct (extract_flush_spec x (state a) (pending a)) as (Ft & Fr & Fs).
  split; [exact Ft|]. rewrite <- Fr. clear Ft Ht Hr HS.
  destruct (find_next_tag _) as [[[i n] k]|].
  - apply Nat.ltb_lt in Hc. rewrite Hc, orb_true_r. by split.
  - destruct Hc as (-> & Hst & Hsaw & Hrs). rewrite Hst in *. rewrite Fs, Hsaw by done. simpl.
    rewrite Fr, Hrs. by split.
Qed.

(** [extract_think_tags] returns as content exactly the visible
    bytes of the reference scan and as reasoning its hidden bytes (up to the
    line feeds it inserts between pieces); reasoning is absent exactly when no
    opening tag occurs in the content. *)
Theorem extract_think_tags_spec m prs content :
  good_pairs m prs = true ->
  let '(reasoning, text) := extract_think_tags content prs in
  text = visible prs content
  /\ drop_lf (unwrap_or reasoning "") = drop_lf (hidden prs content)
  /\ (reasoning = None <-> ~ has_opening prs content).
Proof. apply extract_spec. Qed.

Theorem extract_think_tags_spec_witness :
  let '(reasoning, text) :=
    extract_think_tags "x<think>a</think>y<thinking>b" builtin_think_pairs in
  text = "xy" /\ drop_lf (unwrap_or reasoning "") = "ab"
  /\ (reasoning = None <-> ~ has_opening builtin_think_pairs "x<think>a</think>y<thinking>b").
Proof.
  exact (extract_think_tags_spec "<" builtin_think_pairs "x<think>a</think>y<thinking>b" builtin_good).
Defined.

(** ** Normalised choices *)

(** The reasoning sources of a message, in the order they are merged. *)
Definition reasoning_sources (msg : ResponseMessage) : list string :=
  List.filter (fun s => negb (str_is_empty s))
    (opt_list (reasoning_content msg) ++ opt_list (reasoning msg) ++ opt_list (reasoning_text msg)
     ++ (match thinking msg with Some (Str s) => [s] | _ => [] end)).

Definition joined (parts : list string) : option string :=
  match parts with [] => None | _ => Some (str_join lf parts) end.

Lemma str_join_snoc x l p : str_join lf ((x :: l) ++ [p]) = str_join lf (x :: l) +:+ lf +:+ p.
Proof.
  revert x; induction l as [|y l IH]; intros x; [done|].
  change (x +:+ lf +:+ str_join lf ((y :: l) ++ [p]) = (x +:+ lf +:+ str_join lf (y :: l)) +:+ lf +:+ p).
  by rewrite IH, <- !app_assoc_str.
Qed.

Lemma merge_joined parts p :
  Forall (fun s => str_is_empty s = false) parts -> str_is_empty p = false ->
  merge_nonempty (joined parts) (Some p) = joined (parts ++ [p]).
Proof.
  intros Hf Hp. destruct parts as [|x l]; [done|].
  change (joined ((x :: l) ++ [p])) with (Some (str_join lf ((x :: l) ++ [p]))).
  rewrite str_join_snoc. cbn [joined merge_nonempty]. rewrite Hp.
  apply Forall_cons in Hf as [Hx _].
  assert (str_is_empty (str_join lf (x :: l)) = false) as ->; [|done].
  destruct x; [done|]. by destruct l.
Qed.

Lemma merge_all_joined parts : Forall (fun s => str_is_empty s = false) parts ->
  foldl (fun acc next => merge_nonempty acc (Some next)) None parts = joined parts.
Proof.
  induction parts as [|p parts IH] using rev_ind; intros Hf; [done|].
  apply Forall_app in Hf as [Hf Hp]. apply Forall_cons in Hp as [Hp _].
  rewrite foldl_app, IH by done. simpl. by apply merge_joined.
Qed.

Lemma take_nonempty_filter o :
  opt_list (take_nonempty o) = List.filter (fun s => negb (str_is_empty s)) (opt_list o).
Proof. by destruct o as [[|c s]|]. Qed.

Lemma filter_nonempty l :
  Forall (fun s => str_is_empty s = false) (List.filter (fun s => negb (str_is_empty s)) l).
Proof. apply Forall_forall. intros s Hs. apply elem_filter_bool in Hs as [_ ?%negb_true_iff]. done. Qed.

Lemma fold_message_reasoning_sources msg :
  reasoning_content (fold_message_reasoning msg) = joined (reasoning_sources msg).
Proof.
  unfold fold_message_reasoning, reasoning_sources. rewrite !take_nonempty_filter, <- !List.filter_app.
  set (l := opt_list (reasoning_content msg) ++ _).
  rewrite !app_assoc. rewrite <- (app_assoc (opt_list (reasoning_content msg))). fold l.
  rewrite List.filter_app.
  assert (Hn := merge_all_joined _ (filter_nonempty l)).
  destruct (thinking msg) as [[]|]; simpl; rewrite ?app_nil_r; try exact Hn.
  destruct (str_is_empty s) eqn:Es; simpl; rewrite ?app_nil_r; [exact Hn|].
  apply merge_all_joined, Forall_app. split; [apply filter_nonempty|]. by repeat constructor.
Qed.

(** A normalised choice keeps its index, finish reason, role and
    tool calls; every non-empty reasoning alias is merged, in order and
    separated by line feeds, into [reasoning_content], followed by what the
    think tags of the content held; the string aliases are gone; and the
    content that remains is the visible part of the original content. *)
Theorem normalize_choice_spec c :
  let c' := normalize_choice c in
  let msg := message c in
  let msg' := message c' in
  ch_index c' = ch_index c /\ finish_reason c' = finish_reason c
  /\ rm_role msg' = rm_role msg /\ tool_calls msg' = tool_calls msg
  /\ reasoning msg' = None /\ reasoning_text msg' = None
  /\ content msg' = visible builtin_think_pairs <$> content msg
  /\ reasoning_content msg'
     = joined (reasoning_sources msg
               ++ match content msg with
                  | Some t =>
                      List.filter (fun s => negb (str_is_empty s))
                        (opt_list (extract_think_tags t builtin_think_pairs).1)
                  | None => []
                  end).
Proof.
  pose proof (fold_message_reasoning_sources (message c)) as Hs.
  assert (Hc : content (fold_message_reasoning (message c)) = content (message c)
    /\ rm_role (fold_message_reasoning (message c)) = rm_role (message c)
    /\ tool_calls (fold_message_reasoning (message c)) = tool_calls (message c)
    /\ reasoning (fold_message_reasoning (message c)) = None
    /\ reasoning_text (fold_message_reasoning (message c)) = None).
  { unfold fold_message_reasoning. by destruct (match thinking (message c) with Some _ => _ | None => _ end). }
  destruct Hc as (Hc & Hr & Ht & H1 & H2). unfold normalize_choice. rewrite Hc.
  destruct (content (message c)) as [[|x t]|] eqn:E; simpl; rewrite ?Hc, ?app_nil_r.
  - done.
  - pose proof (extract_spec "<" _ (String x t) builtin_good) as Hx.
    destruct (extract_think_tags (String x t) builtin_think_pairs) as [ex cleaned]. simpl in *.
    destruct Hx as [-> _]. repeat (split; [done|]). rewrite Hs.
    destruct ex as [[|y e]|]; simpl; rewrite ?app_nil_r; [done| |done].
    apply merge_joined; [apply filter_nonempty|done].
  - done.
Qed.
