(* ===== verification/Alerts.v ===== *)
(** * Alert events, the background consumer and the delivery channels

    Models [src/src/alerts/mod.rs] (the event type, the consumer loop with its
    in-memory snapshot, the per-channel delivery loop with its back-off, the
    request signature), [src/src/alerts/channel.rs] (what each channel sends
    and how it reads the answer) and the accessors and the inserted row of
    [src/src/alerts/db.rs].  HMAC-SHA256, the HTTP client and SQLite are
    parameters. *)

From S2P Require Import Prelude Json Types.

Inductive AlertEvent : Type :=
| UpstreamError (ts : Z) (pool_id key_hash error_code : string) (status : option Z) (msg : string)
| LatencySpike (ts : Z) (model : string) (latency_ms threshold_ms : Z)
| RateLimited (ts : Z) (tenant_id : string)
| PoolExhausted (ts : Z) (pool_id : string).

(** ** Accessors *)

Definition alert_ts (e : AlertEvent) : Z :=
  match e with
  | UpstreamError ts _ _ _ _ _ => ts | LatencySpike ts _ _ _ => ts
  | RateLimited ts _ => ts | PoolExhausted ts _ => ts
  end.

Definition event_type (e : AlertEvent) : string :=
  match e with
  | UpstreamError _ _ _ _ _ _ => "UpstreamError" | LatencySpike _ _ _ _ => "LatencySpike"
  | RateLimited _ _ => "RateLimited" | PoolExhausted _ _ => "PoolExhausted"
  end.

Definition pool_id_str (e : AlertEvent) : option string :=
  match e with UpstreamError _ p _ _ _ _ => Some p | PoolExhausted _ p => Some p | _ => None end.
Definition tenant_id_str (e : AlertEvent) : option string :=
  match e with RateLimited _ t => Some t | _ => None end.
Definition key_hash_str (e : AlertEvent) : option string :=
  match e with UpstreamError _ _ k _ _ _ => Some k | _ => None end.
Definition model_str (e : AlertEvent) : option string :=
  match e with LatencySpike _ m _ _ => Some m | _ => None end.
Definition error_code_str (e : AlertEvent) : option string :=
  match e with UpstreamError _ _ _ c _ _ => Some c | _ => None end.
Definition status_code (e : AlertEvent) : option Z :=
  match e with UpstreamError _ _ _ _ s _ => s | _ => None end.
Definition msg_str (e : AlertEvent) : option string :=
  match e with
  | UpstreamError _ _ _ _ _ m => Some m
  | LatencySpike _ _ _ _ => Some "latency threshold exceeded"
  | RateLimited _ _ => Some "rate limited"
  | PoolExhausted _ _ => Some "all keys exhausted"
  end.

(** [#[serde(tag = "type")]]: an object with the tag and the fields. *)
Definition alert_to_value (e : AlertEvent) : Value :=
  match e with
  | UpstreamError ts p k c s m =>
      obj [("type", Str "UpstreamError"); ("ts", json_int ts); ("pool_id", Str p); ("key_hash", Str k);
           ("error_code", Str c); ("status", match s with Some s => json_int s | None => Null end);
           ("msg", Str m)]
  | LatencySpike ts m l t =>
      obj [("type", Str "LatencySpike"); ("ts", json_int ts); ("model", Str m);
           ("latency_ms", json_int l); ("threshold_ms", json_int t)]
  | RateLimited ts t => obj [("type", Str "RateLimited"); ("ts", json_int ts); ("tenant_id", Str t)]
  | PoolExhausted ts p => obj [("type", Str "PoolExhausted"); ("ts", json_int ts); ("pool_id", Str p)]
  end.

(** ** The row [insert_alert_event] binds

    [event.ts() / 1000] is Rust's division, which truncates towards zero. *)
Record AlertRow := mkAlertRow {
  row_ts : Z; row_type : string; row_pool_id : option string; row_tenant_id : option string;
  row_key_hash : option string; row_model : option string; row_error_code : option string;
  row_status : option Z; row_msg : option string; row_payload : string
}.

Definition insert_alert_event `{SerdeJson} (e : AlertEvent) : AlertRow :=
  mkAlertRow (Z.quot (alert_ts e) 1000) (event_type e) (pool_id_str e) (tenant_id_str e)
    (key_hash_str e) (model_str e) (error_code_str e) (status_code e) (msg_str e)
    (to_string (alert_to_value e)).

(** ** Channels *)

(** The MAC of a message under a key, as bytes. *)
Class Hmac := { hmac_sha256 : string -> string -> string }.

Definition sign_body `{Hmac} (secret : string) (ts : Z) (body : string) : string :=
  hex_encode (hmac_sha256 secret (string_of_Z ts +:+ "." +:+ body)).

Record ChannelError := mkChannelError { ce_channel : string; ce_msg : string }.

Inductive AlertChannel : Type :=
| WebhookChannel (url secret : string)
| SlackChannel (url : string)
| DiscordChannel (url : string).

Definition channel_id (c : AlertChannel) : string :=
  match c with
  | WebhookChannel _ _ => "webhook" | SlackChannel _ => "slack" | DiscordChannel _ => "discord"
  end.

(** The request a channel posts. *)
Record AlertRequest := mkAlertRequest {
  areq_url : string; areq_headers : list (string * string); areq_body : string
}.

(** The UTF-8 bytes of the dash in the notification text. *)
Definition em_dash : string := String (chr 0xE2) (String (chr 0x80) (String (chr 0x94) "")).

Definition notification (e : AlertEvent) : string :=
  "[llm_proxy] " +:+ event_type e +:+ " " +:+ em_dash +:+ " " +:+ unwrap_or (msg_str e) "-".

Definition channel_request `{SerdeJson} `{Hmac} (c : AlertChannel) (e : AlertEvent) (ts : Z) : AlertRequest :=
  let json_header := ("content-type", "application/json") in
  match c with
  | WebhookChannel url secret =>
      let body := to_string (alert_to_value e) in
      mkAlertRequest url
        (json_header :: if str_is_empty secret then []
                        else [("x-llm-proxy-signature",
                               "t=" +:+ string_of_Z ts +:+ ",v1=" +:+ sign_body secret ts body)])
        body
  | SlackChannel url =>
      mkAlertRequest url [json_header] (to_string (obj [("text", Str (notification e))]))
  | DiscordChannel url =>
      mkAlertRequest url [json_header] (to_string (obj [("content", Str (notification e))]))
  end.

(** The answer of the HTTP client: a transport error or a status. *)
Definition deliver (c : AlertChannel) (answer : Result Z string) : Result unit ChannelError :=
  match answer with
  | Err e => Err (mkChannelError (channel_id c) e)
  | Ok status =>
      if (200 <=? status) && (status <? 300) then Ok tt
      else Err (mkChannelError (channel_id c) ("HTTP " +:+ string_of_Z status))
  end.

(** ** The delivery loop of one channel

    [answers n] is what the client answers to attempt [n]; the result is the
    number of attempts, whether the event was delivered and the seconds slept
    before each retry.  The loop stops at the third attempt, so three turns
    are enough. *)
Record Delivery := mkDelivery { dl_attempts : Z; dl_ok : bool; dl_backoff : list Z }.

Definition backoff (attempts : Z) : Z :=
  if attempts =? 1 then 1 else if attempts =? 2 then 2 else 4.

Fixpoint delivery_loop (fuel : nat) (c : AlertChannel) (answers : Z -> Result Z string) (attempts : Z)
    : option Delivery :=
  match fuel with
  | O => None
  | S f =>
      let attempts := attempts + 1 in
      match deliver c (answers attempts) with
      | Ok _ => Some (mkDelivery attempts true [])
      | Err _ =>
          if 3 <=? attempts then Some (mkDelivery attempts false [])
          else match delivery_loop f c answers attempts with
               | Some d => Some (mkDelivery (dl_attempts d) (dl_ok d) (backoff attempts :: dl_backoff d))
               | None => None
               end
      end
  end.

Definition dispatch (c : AlertChannel) (answers : Z -> Result Z string) : option Delivery :=
  delivery_loop 3 c answers 0.

(** ** The consumer loop *)

(** What one turn of [tokio::select!] yields. *)
Inductive Recv : Type :=
| Shutdown
| RecvEvent (e : AlertEvent) (db_ok : bool)
| Lagged (skipped : Z)
| RecvClosed.

Record AlertTask := mkAlertTask {
  snap : list AlertEvent;
  inserted : list AlertEvent;
  dispatched : list (string * AlertEvent);
  running : bool
}.

Definition push_snapshot (s : list AlertEvent) (e : AlertEvent) : list AlertEvent :=
  let s := s ++ [e] in
  if (1024 <? length s)%nat then List.tl s else s.

Definition alert_step (channels : list AlertChannel) (t : AlertTask) (r : Recv) : AlertTask :=
  if negb (running t) then t
  else match r with
       | Shutdown | RecvClosed => mkAlertTask (snap t) (inserted t) (dispatched t) false
       | Lagged _ => t
       | RecvEvent e db_ok =>
           mkAlertTask (push_snapshot (snap t) e)
             (if db_ok then inserted t ++ [e] else inserted t)
             (dispatched t ++ ((fun c => (channel_id c, e)) <$> channels)) true
       end.

Definition alert_loop (channels : list AlertChannel) (t : AlertTask) (rs : list Recv) : AlertTask :=
  foldl (alert_step channels) t rs.

(* ------------------------------------------------------------------ *)
(** ** Properties *)

(** The events the loop handles before it exits. *)
Fixpoint handled (rs : list Recv) : list AlertEvent :=
  match rs with
  | [] => []
  | Shutdown :: _ | RecvClosed :: _ => []
  | Lagged _ :: rs' => handled rs'
  | RecvEvent e _ :: rs' => e :: handled rs'
  end.

Definition last_n {A} (n : nat) (l : list A) : list A := drop (length l - n) l.

Lemma push_snapshot_last pre e : push_snapshot (last_n 1024 pre) e = last_n 1024 (pre ++ [e]).
Proof.
  unfold push_snapshot, last_n. rewrite !length_app, length_drop. cbn [length].
  replace (length pre - (length pre - 1024) + 1)%nat with (S (length pre `min` 1024)) by lia.
  destruct (1024 <? _)%nat eqn:E.
  - apply Nat.ltb_lt in E. rewrite <- (drop_app_le pre [e]) by lia.
    change (List.tl ?x) with (drop 1 x). rewrite drop_drop. f_equal. lia.
  - apply Nat.ltb_ge in E. replace (length pre - 1024)%nat with 0%nat by lia.
    by replace (length pre + 1 - 1024)%nat with 0%nat by lia.
Qed.

Lemma stopped_stays channels t rs : running t = false -> alert_loop channels t rs = t.
Proof.
  intros Hr. induction rs as [|r rs IH]; simpl; [done|].
  assert (alert_step channels t r = t) as -> by (unfold alert_step; by rewrite Hr). done.
Qed.

(** The dashboard snapshot always holds exactly the most recent 1024
    events handled so far (fewer when fewer were handled), whatever mixture of
    events, lag notices and shutdown the task receives and whether or not the
    database accepted them; every handled event is dispatched once to each
    channel, in order. *)
Theorem alert_snapshot_recent channels rs :
  let t := alert_loop channels (mkAlertTask [] [] [] true) rs in
  snap t = last_n 1024 (handled rs)
  /\ dispatched t = flat_map (fun e => (fun c => (channel_id c, e)) <$> channels) (handled rs).
Proof.
  enough (H : forall pre ins disp,
    let t := alert_loop channels (mkAlertTask (last_n 1024 pre) ins disp true) rs in
    snap t = last_n 1024 (pre ++ handled rs)
    /\ dispatched t = disp ++ flat_map (fun e => (fun c => (channel_id c, e)) <$> channels) (handled rs))
    by (apply (H [] [] [])).
  induction rs as [|r rs IH]; intros pre ins disp; simpl; [by rewrite !app_nil_r|].
  destruct r as [|e ok|n|]; simpl.
  - rewrite stopped_stays by done. simpl. by rewrite !app_nil_r.
  - unfold alert_step. simpl. rewrite push_snapshot_last.
    destruct (IH (pre ++ [e]) (if ok then ins ++ [e] else ins)
                (disp ++ ((fun c => (channel_id c, e)) <$> channels))) as [-> ->].
    by rewrite <- !app_assoc.
  - apply IH.
  - rewrite stopped_stays by done. simpl. by rewrite !app_nil_r.
Qed.

Lemma deliver_ok c a : is_ok (deliver c a) = true <-> exists s, a = Ok s /\ 200 <= s < 300.
Proof.
  unfold deliver. destruct a as [s|e]; simpl; [|split; [done|by intros (? & ? & ?)]].
  destruct ((200 <=? s) && (s <? 300)) eqn:E; simpl.
  - apply andb_true_iff in E as [?%Z.leb_le ?%Z.ltb_lt]. split; eauto.
  - split; [done|]. intros (s' & [= <-] & H). apply andb_false_iff in E as [?%Z.leb_gt|?%Z.ltb_ge]; lia.
Qed.

(** The delivery loop of a channel always ends, after at most three
    attempts and at most three seconds of back-off; the event counts as
    delivered exactly when one of the first three answers is a 2xx status, and
    no attempt is made after the first success. *)
Theorem delivery_bounded c answers :
  exists d, dispatch c answers = Some d
  /\ 1 <= dl_attempts d <= 3
  /\ foldr Z.add 0 (dl_backoff d) <= 3
  /\ (dl_ok d = true <-> exists n, 1 <= n <= 3 /\ is_ok (deliver c (answers n)) = true)
  /\ (forall n, 1 <= n < dl_attempts d -> is_ok (deliver c (answers n)) = false).
Proof.
  unfold dispatch. cbn -[deliver].
  change (0 + 1) with 1. change (1 + 1) with 2. change (2 + 1) with 3.
  destruct (deliver c (answers 1)) as [|] eqn:E1; cbn -[deliver].
  { eexists; split; [done|]. simpl. split; [lia|]. split; [lia|]. split; [|lia].
    split; [|done]. intros _. exists 1. by rewrite E1. }
  destruct (deliver c (answers 2)) as [|] eqn:E2; cbn -[deliver].
  { eexists; split; [done|]. simpl. split; [lia|]. split; [lia|]. split.
    - split; [|done]. intros _. exists 2. by rewrite E2.
    - intros n Hn. assert (n = 1) as -> by lia. by rewrite E1. }
  assert (Hrest : forall n, 1 <= n < 3 -> is_ok (deliver c (answers n)) = false).
  { intros n Hn. assert (n = 1 \/ n = 2) as [-> | -> ] by lia; [by rewrite E1|by rewrite E2]. }
  destruct (deliver c (answers 3)) as [|] eqn:E3; cbn -[deliver];
    (eexists; split; [done|]); simpl; (split; [lia|]); (split; [lia|]); (split; [|exact Hrest]).
  - split; [|done]. intros _. exists 3. by rewrite E3.
  - split; [done|]. intros (n & Hn & H). exfalso.
    assert (n = 3 \/ 1 <= n < 3) as [-> |H'] by lia; [by rewrite E3 in H|].
    by rewrite (Hrest n H') in H.
Qed.
