(* ===== verification/RateLimit.v ===== *)
(** * The token-bucket rate limiter

    Models [src/src/ratelimit/mod.rs]: one bucket per tenant in a [DashMap],
    refilled from the monotonic clock and consumed by the middleware.  Instants
    are nanoseconds, [f64] values are rationals rounded by the [F64] class of
    the prelude. *)

From Stdlib Require Import Lqa.
From S2P Require Import Prelude Json Types Alerts.

Record TokenBucket := mkBucket { tokens : Q; last_refill : Z; bucket_capacity : Q }.

Record RateLimiter := mkLimiter { buckets : gmap string TokenBucket; capacity : Q }.

(** What the middleware does with a request: run the inner service, or answer. *)
Inductive Decision : Type := Next | Reply (r : HttpResponse).

(** A request as the middleware sees it: the tenant of [AuthedClient], if the
    extension is present, and the readings of the clocks it makes. *)
Record RlRequest := mkRlRequest { rl_client : option string; rl_t_new : Z; rl_now : Z; rl_ts : Z }.

Section Model.
Context `{F64}.

Definition bucket_new (capacity : Q) (now : Z) : TokenBucket := mkBucket capacity now capacity.

(** [now.duration_since(last).as_secs_f64()]; [duration_since] saturates at zero, and
    the seconds are the whole ones plus the nanoseconds divided. *)
Definition elapsed_secs (now last : Z) : Q :=
  let d := saturating_sub now last in
  fadd (f64_of_Z (d / 1000000000)) (fdiv (f64_of_Z (d mod 1000000000)) 1000000000).

Definition refill (b : TokenBucket) (now : Z) : TokenBucket :=
  let elapsed := elapsed_secs now (last_refill b) in
  if negb (Qle_bool elapsed 0) then
    mkBucket (fmin (fadd (tokens b) (fmul elapsed (fdiv (bucket_capacity b) 60))) (bucket_capacity b))
      now (bucket_capacity b)
  else b.

Definition consume (b : TokenBucket) (now : Z) : TokenBucket * bool :=
  let b := refill b now in
  if Qle_bool 1 (tokens b) then (mkBucket (fsub (tokens b) 1) (last_refill b) (bucket_capacity b), true)
  else (b, false).

Definition limiter_new (requests_per_minute : Z) : RateLimiter :=
  mkLimiter ∅ (f64_of_Z requests_per_minute).

Definition rate_limited_body : Value :=
  obj [("error", obj [("message", Str "rate limited"); ("type", Str "rate_limit"); ("code", json_int 429)])].

Definition rate_limit_middleware (l : RateLimiter) (req : RlRequest)
    : RateLimiter * Decision * list AlertEvent :=
  let tenant_id := unwrap_or (rl_client req) "" in
  if str_is_empty tenant_id then (l, Next, [])
  else
    let bucket := unwrap_or (buckets l !! tenant_id) (bucket_new (capacity l) (rl_t_new req)) in
    let '(bucket', ok) := consume bucket (rl_now req) in
    let l' := mkLimiter (<[tenant_id := bucket']> (buckets l)) (capacity l) in
    if negb ok then (l', Reply (mkHttp 429 rate_limited_body), [RateLimited (rl_ts req) tenant_id])
    else (l', Next, []).

(** A sequence of requests; the decisions are in order. *)
Fixpoint rl_run (l : RateLimiter) (reqs : list RlRequest) : RateLimiter * list Decision :=
  match reqs with
  | [] => (l, [])
  | r :: rs =>
      let '(l1, d, _) := rate_limit_middleware l r in
      let '(l2, ds) := rl_run l1 rs in (l2, d :: ds)
  end.

End Model.

Definition is_next (d : Decision) : bool := match d with Next => true | Reply _ => false end.
Definition admitted (ds : list Decision) : Z := Z.of_nat (count_if is_next ds).

(** The bucket a tenant is served from. *)
Definition bucket_of (l : RateLimiter) (t : string) (r : RlRequest) : TokenBucket :=
  unwrap_or (buckets l !! t) (bucket_new (capacity l) (rl_t_new r)).

Definition for_tenant (t : string) (r : RlRequest) : bool := str_eqb (unwrap_or (rl_client r) "") t.

(* ------------------------------------------------------------------ *)
(** ** The bucket *)

Section Buckets.
Context `{F64Laws}.

Lemma rnd_le_int x n : 0 <= n <= 2 ^ 53 -> (x <= inject_Z n)%Q -> (rnd x <= inject_Z n)%Q.
Proof. intros Hn Hx. apply rnd_mono in Hx. pose proof (rnd_int n Hn). lra. Qed.

Lemma rnd_zero x : (x == 0)%Q -> (rnd x == 0)%Q.
Proof.
  intros Hx. apply Qle_antisym.
  - assert (x <= inject_Z 0)%Q as Hx0 by (change (inject_Z 0) with 0%Q; lra). apply (rnd_le_int _ 0) in Hx0; [|lia].
    change (inject_Z 0) with 0%Q in Hx0. lra.
  - apply rnd_nonneg. lra.
Qed.

Lemma frozen_elapsed now last : now <= last -> Qle_bool (elapsed_secs now last) 0 = true.
Proof.
  intros Hle. apply Qle_bool_iff. unfold elapsed_secs, saturating_sub. rewrite Z.max_l by lia. cbn -[rnd].
  assert (f64_of_Z 0 == 0)%Q as Hz by (apply (rnd_int 0); lia).
  assert (fdiv (f64_of_Z 0) 1000000000 == 0)%Q as H1 by (apply rnd_zero; rewrite Hz; reflexivity).
  unfold fadd. rewrite rnd_zero; [lra|]. rewrite Hz, H1. reflexivity.
Qed.

(** The bucket invariant of a limiter created for [rpm] requests per minute. *)
Definition bucket_ok (rpm : Z) (b : TokenBucket) : Prop :=
  (0 <= tokens b <= bucket_capacity b)%Q /\ (bucket_capacity b == inject_Z rpm)%Q.

Definition limiter_ok (rpm : Z) (l : RateLimiter) : Prop :=
  (capacity l == inject_Z rpm)%Q /\ map_Forall (fun _ b => bucket_ok rpm b) (buckets l).

Lemma elapsed_nonneg now last : (0 <= elapsed_secs now last)%Q.
Proof.
  unfold elapsed_secs. assert (forall n, 0 <= n -> (0 <= f64_of_Z n)%Q) as Hf by (intros n Hn; apply rnd_nonneg; unfold Qle; simpl; lia).
  assert (0 <= saturating_sub now last) as Hd by (unfold saturating_sub; lia).
  apply rnd_nonneg. pose proof (Hf (saturating_sub now last / 1000000000) ltac:(apply Z.div_pos; lia)) as H1.
  assert (0 <= fdiv (f64_of_Z (saturating_sub now last mod 1000000000)) 1000000000)%Q as H2; [|lra].
  apply rnd_nonneg. apply Qle_shift_div_l; [lra|]. pose proof (Z.mod_pos_bound (saturating_sub now last) 1000000000 ltac:(lia)).
  specialize (Hf (saturating_sub now last mod 1000000000) ltac:(lia)). lra.
Qed.

Lemma refill_ok rpm b now : 0 <= rpm -> bucket_ok rpm b -> bucket_ok rpm (refill b now).
Proof.
  intros Hr [Ht Hc]. unfold refill. destruct (negb _); [|done].
  assert (0 <= inject_Z rpm)%Q as Hq by (change 0%Q with (inject_Z 0); by rewrite <- Zle_Qle).
  assert (0 <= fdiv (bucket_capacity b) 60)%Q as Hd.
  { apply rnd_nonneg. apply Qle_shift_div_l; lra. }
  assert (0 <= fmul (elapsed_secs now (last_refill b)) (fdiv (bucket_capacity b) 60))%Q as Hm.
  { apply rnd_nonneg, Qmult_le_0_compat; [apply elapsed_nonneg|done]. }
  split; [split|exact Hc]; simpl.
  - apply fmin_glb; [apply rnd_nonneg|]; lra.
  - apply fmin_le_r.
Qed.

Lemma consume_ok rpm b now : 0 <= rpm <= 2 ^ 53 -> bucket_ok rpm b -> bucket_ok rpm (consume b now).1.
Proof.
  intros Hr Hb. apply (refill_ok rpm b now) in Hb as [Ht Hc]; [|lia]. unfold consume.
  destruct (Qle_bool 1 _) eqn:E; [|done]. apply Qle_bool_iff in E. split; [|exact Hc]. simpl. split.
  - apply rnd_nonneg. lra.
  - assert (tokens (refill b now) - 1 <= inject_Z rpm)%Q as Hs by lra.
    apply (rnd_le_int _ rpm Hr) in Hs. unfold fsub. lra.
Qed.

Lemma bucket_of_ok rpm l t r : 0 <= rpm -> limiter_ok rpm l -> bucket_ok rpm (bucket_of l t r).
Proof.
  intros Hr [Hc Hb]. unfold bucket_of. destruct (buckets l !! t) as [b|] eqn:E; [by apply (Hb t)|].
  assert (0 <= inject_Z rpm)%Q by (change 0%Q with (inject_Z 0); by rewrite <- Zle_Qle).
  simpl. split; simpl; [|done]. lra.
Qed.

Lemma limiter_new_ok rpm : 0 <= rpm <= 2 ^ 53 -> limiter_ok rpm (limiter_new rpm).
Proof. intros Hr. split; [by apply rnd_int|]. apply map_Forall_empty. Qed.

Lemma middleware_ok rpm l r : 0 <= rpm <= 2 ^ 53 ->
  limiter_ok rpm l -> limiter_ok rpm (rate_limit_middleware l r).1.1.
Proof.
  intros Hr Hl. unfold rate_limit_middleware. destruct (str_is_empty _); [done|].
  pose proof (bucket_of_ok rpm l (unwrap_or (rl_client r) "") r ltac:(lia) Hl) as Hb.
  apply (consume_ok rpm _ (rl_now r) Hr) in Hb. unfold bucket_of in Hb.
  destruct (consume _ _) as [b' ok]. destruct Hl as [Hc Hm].
  destruct ok; simpl in *; (split; [done|]); simpl; by apply map_Forall_insert_2.
Qed.

Lemma rl_run_ok rpm l rs : 0 <= rpm <= 2 ^ 53 -> limiter_ok rpm l -> limiter_ok rpm (rl_run l rs).1.
Proof.
  intros Hr. revert l. induction rs as [|r rs IH]; intros l Hl; simpl; [done|].
  pose proof (middleware_ok rpm l r Hr Hl) as H1.
  destruct (rate_limit_middleware l r) as [[l1 d] al]. simpl in H1.
  specialize (IH l1 H1). by destruct (rl_run l1 rs).
Qed.
End Buckets.

(* ------------------------------------------------------------------ *)
(** ** Tenants do not influence each other *)

(** The decisions on the requests of one tenant. *)
Definition decisions_of (t : string) (reqs : list RlRequest) (ds : list Decision) : list Decision :=
  snd <$> List.filter (fun p => for_tenant t p.1) (zip reqs ds).

Definition agree (t : string) (l l' : RateLimiter) : Prop :=
  buckets l !! t = buckets l' !! t /\ capacity l = capacity l'.

Section Isolation.
Context `{F64}.

Lemma middleware_same t l l' r :
  t ≠ "" -> for_tenant t r = true -> agree t l l' ->
  (rate_limit_middleware l r).1.2 = (rate_limit_middleware l' r).1.2
  /\ agree t (rate_limit_middleware l r).1.1 (rate_limit_middleware l' r).1.1.
Proof.
  unfold for_tenant, rate_limit_middleware. intros Hne Ht%str_eqb_spec [Hb Hc]. rewrite Ht, Hb, Hc.
  destruct t as [|c t]; [done|]. simpl str_is_empty. cbn iota.
  destruct (consume _ _) as [b' []]; simpl; (split; [done|]); split; simpl; by rewrite ?lookup_insert_eq.
Qed.

Lemma middleware_other t l r :
  for_tenant t r = false -> agree t (rate_limit_middleware l r).1.1 l.
Proof.
  unfold for_tenant, rate_limit_middleware. intros Ht.
  assert (unwrap_or (rl_client r) "" ≠ t) as Hne by (intros E; by rewrite E, str_eqb_refl in Ht).
  destruct (str_is_empty _); [done|].
  destruct (consume _ _) as [b' []]; simpl; split; simpl; by rewrite ?lookup_insert_ne by done.
Qed.

Lemma rl_run_isolated t reqs l l' :
  t ≠ "" -> agree t l l' ->
  decisions_of t reqs (rl_run l reqs).2 = (rl_run l' (List.filter (for_tenant t) reqs)).2.
Proof.
  intros Hne. revert l l'. induction reqs as [|r rs IH]; intros l l' Ha; simpl; [done|].
  destruct (for_tenant t r) eqn:Et; simpl.
  - destruct (middleware_same t l l' r Hne Et Ha) as [Hd Hl].
    destruct (rate_limit_middleware l r) as [[l1 d1] a1].
    destruct (rate_limit_middleware l' r) as [[l2 d2] a2]. simpl in *. subst d2.
    specialize (IH l1 l2 Hl). destruct (rl_run l1 rs) as [l1' ds1]. destruct (rl_run l2 _) as [l2' ds2].
    unfold decisions_of in *. simpl in *. rewrite Et. simpl. f_equal. exact IH.
  - pose proof (middleware_other t l r Et) as Hl.
    destruct (rate_limit_middleware l r) as [[l1 d1] a1]. simpl in Hl.
    assert (agree t l1 l') as Hl' by (destruct Hl, Ha; split; congruence).
    specialize (IH l1 l' Hl'). destruct (rl_run l1 rs) as [l1' ds1].
    unfold decisions_of in *. simpl in *. by rewrite Et.
Qed.
End Isolation.

(* ------------------------------------------------------------------ *)
(** ** How many requests get through *)

Section Admission.
Context `{F64Laws}.
Variable rpm : Z.
Hypothesis Hrpm : 0 <= rpm <= 2 ^ 53.

Lemma consume_frozen b now n :
  0 <= n <= 2 ^ 53 -> bucket_ok rpm b -> (tokens b <= inject_Z n)%Q -> now <= last_refill b ->
  let '(b', ok) := consume b now in
  last_refill b' = last_refill b /\ (tokens b' <= inject_Z (if ok then n - 1 else n))%Q
  /\ (ok = true -> 1 <= n).
Proof.
  intros Hn Hb Ht Hnow. unfold consume, refill.
  rewrite (frozen_elapsed _ _ Hnow).
  cbn [negb]. destruct (Qle_bool 1 (tokens b)) eqn:E; simpl; [|done].
  apply Qle_bool_iff in E. assert (1 <= n) as H1.
  { rewrite Zle_Qle. change (inject_Z 1) with 1%Q. lra. }
  split; [done|]. split; [|done].
  apply rnd_le_int; [lia|]. unfold Z.sub. rewrite inject_Z_plus, inject_Z_opp. change (inject_Z 1) with 1%Q. lra.
Qed.

Lemma middleware_for t l r : t ≠ "" -> for_tenant t r = true ->
  let '(b', ok) := consume (bucket_of l t r) (rl_now r) in
  is_next (rate_limit_middleware l r).1.2 = ok
  /\ buckets (rate_limit_middleware l r).1.1 !! t = Some b'
  /\ capacity (rate_limit_middleware l r).1.1 = capacity l.
Proof.
  unfold for_tenant, rate_limit_middleware, bucket_of. intros Hne Ht%str_eqb_spec. rewrite Ht.
  destruct t as [|c t]; [done|]. simpl str_is_empty. cbn iota.
  destruct (consume _ _) as [b' []]; simpl; by rewrite lookup_insert_eq.
Qed.

Lemma admitted_cons d ds : admitted (d :: ds) = (if is_next d then 1 else 0) + admitted ds.
Proof. unfold admitted, count_if. simpl. destruct (is_next d); simpl; lia. Qed.

(** A bucket that is never refilled admits at most its tokens. *)
Lemma burst_bound t rs : t ≠ "" -> forall l n t0,
  limiter_ok rpm l -> 0 <= n <= 2 ^ 53 ->
  Forall (fun r => for_tenant t r = true /\ rl_now r <= t0 /\ rl_t_new r = t0) rs ->
  (match buckets l !! t with
   | Some b => (tokens b <= inject_Z n)%Q /\ t0 <= last_refill b
   | None => rpm <= n
   end) ->
  admitted (rl_run l rs).2 <= n.
Proof.
  intros Hne. induction rs as [|r rs IH]; intros l n t0 Hl Hn Hrs Hb; [change (0 <= n); lia|].
  apply Forall_cons in Hrs as [(Hr & Hnow & Hnew) Hrs].
  pose proof (bucket_of_ok rpm l t r ltac:(lia) Hl) as Hok.
  assert ((tokens (bucket_of l t r) <= inject_Z n)%Q /\ t0 <= last_refill (bucket_of l t r)) as [Ht Hlast].
  { unfold bucket_of. destruct (buckets l !! t) as [b|]; [done|]. simpl. split; [|lia].
    destruct Hl as [Hc _]. rewrite Hc. by rewrite <- Zle_Qle. }
  pose proof (consume_frozen _ (rl_now r) n Hn Hok Ht ltac:(lia)) as Hc.
  pose proof (middleware_for t l r Hne Hr) as Hm.
  pose proof (middleware_ok rpm l r Hrpm Hl) as Hl1. simpl.
  destruct (consume (bucket_of l t r) (rl_now r)) as [b' ok].
  destruct (rate_limit_middleware l r) as [[l1 d] al]. simpl in *.
  destruct Hc as (Hc1 & Hc2 & Hc3), Hm as (Hd & Hb1 & _).
  specialize (IH l1 (if ok then n - 1 else n) t0 Hl1). rewrite Hb1 in IH.
  destruct (rl_run l1 rs) as [l2 ds]. simpl in *. rewrite admitted_cons, Hd.
  assert (0 <= (if ok then n - 1 else n) <= 2 ^ 53) as Hn' by (destruct ok; [specialize (Hc3 eq_refl)|]; lia).
  rewrite Hc1 in IH. specialize (IH Hn' Hrs (conj Hc2 Hlast)). destruct ok; lia.
Qed.
End Admission.

(** *** The rate over a window

    The rounding of binary64 to nearest is off by at most half a unit in the last
    place: [2^-53] of the value, for every value in the normal range.  Here it is
    used from [2^-64] up. *)

Definition half_ulp : Q := 1 # 9007199254740992.
Definition tiny : Q := 1 # 18446744073709551616.

Class F64Within `{F64} : Prop :=
  rnd_within : forall x, (tiny <= x)%Q -> (x - x * half_ulp <= rnd x <= x + x * half_ulp)%Q.

#[global] Instance exact_f64_within : @F64Within exact_f64.
Proof.
  intros x Hx. cbn. assert (0 <= x * half_ulp)%Q as Hh by (apply Qmult_le_0_compat; [unfold tiny in Hx; lra|unfold half_ulp; lra]). lra.
Qed.

(** What four roundings can make of a product. *)
Definition slack : Q := ((1 + half_ulp) * (1 + half_ulp) * ((1 + half_ulp) * (1 + half_ulp)))%Q.

(** Tokens earned in [ns] nanoseconds. *)
Definition earned (rpm ns : Z) : Q := (inject_Z ns * (1 # 1000000000) * (inject_Z rpm / 60) * slack)%Q.

Lemma inject_Z_le a b : a <= b -> (inject_Z a <= inject_Z b)%Q.
Proof. by rewrite Zle_Qle. Qed.

Lemma Qmake_split z p : (z # p == inject_Z z * (1 # p))%Q.
Proof. unfold Qeq. simpl. lia. Qed.

Section Earned.
Variable rpm : Z.
Hypothesis Hrpm : 0 <= rpm.

Lemma earned_sub a b : (earned rpm (a - b) == earned rpm a - earned rpm b)%Q.
Proof. unfold earned, Z.sub. rewrite inject_Z_plus, inject_Z_opp. ring. Qed.

Lemma earned_nonneg ns : 0 <= ns -> (0 <= earned rpm ns)%Q.
Proof.
  intros Hns. pose proof (inject_Z_le 0 rpm Hrpm) as Hr. pose proof (inject_Z_le 0 ns Hns) as Hn. change (inject_Z 0) with 0%Q in *.
  unfold earned. apply Qmult_le_0_compat; [|unfold slack, half_ulp; discriminate].
  apply Qmult_le_0_compat; [apply Qmult_le_0_compat; lra|apply Qle_shift_div_l; lra].
Qed.

Lemma earned_mono a b : a <= b -> (earned rpm a <= earned rpm b)%Q.
Proof.
  intros Hab. pose proof (earned_nonneg (b - a) ltac:(lia)) as Hn. rewrite earned_sub in Hn. lra.
Qed.
End Earned.

Section Rounding.
Context `{FL : F64Laws} `{FW : !F64Within}.

Lemma rnd_above x : (x == 0 \/ tiny <= x)%Q -> (rnd x <= x * (1 + half_ulp))%Q.
Proof. intros [Hx|Hx]; [rewrite (rnd_zero x Hx), Hx; lra|]. destruct (rnd_within x Hx). lra. Qed.

Lemma rnd_below x : (tiny <= x)%Q -> (x * (1 - half_ulp) <= rnd x)%Q.
Proof. intros Hx. destruct (rnd_within x Hx). lra. Qed.

(** The time that passed, when it did. *)
Lemma elapsed_bounds now last : last < now ->
  (1 # 4294967296 <= elapsed_secs now last)%Q
  /\ (elapsed_secs now last <= inject_Z (now - last) * (1 # 1000000000) * ((1 + half_ulp) * (1 + half_ulp)))%Q.
Proof.
  intros Hlt. unfold elapsed_secs, saturating_sub. rewrite Z.max_r by lia. set (d := now - last). assert (1 <= d) as Hd by (unfold d; lia). clearbody d.
  pose proof (Z.div_mod d 1000000000 ltac:(lia)) as Hdm. pose proof (Z.mod_pos_bound d 1000000000 ltac:(lia)) as Hm.
  set (sec := d / 1000000000) in *. set (ns := d mod 1000000000) in *. assert (0 <= sec) as Hs by lia. clearbody sec ns.
  assert (inject_Z d * (1 # 1000000000) == inject_Z sec + inject_Z ns * (1 # 1000000000))%Q as Hsum.
  { rewrite Hdm, inject_Z_plus, inject_Z_mult. change (inject_Z 1000000000) with (1000000000 # 1)%Q. field. }
  assert (f64_of_Z ns == inject_Z ns)%Q as Hns by (apply rnd_int; lia).
  assert (inject_Z 0 <= inject_Z sec /\ inject_Z 0 <= inject_Z ns)%Q as [Hs0 Hn0] by (split; apply inject_Z_le; lia). change (inject_Z 0) with 0%Q in *.
  assert (0 <= f64_of_Z sec /\ f64_of_Z sec <= inject_Z sec * (1 + half_ulp))%Q as [Ha0 Ha].
  { split; [by apply rnd_nonneg|]. apply rnd_above. destruct (Z.eq_dec sec 0) as [->|]; [by left|]. right.
    pose proof (inject_Z_le 1 sec ltac:(lia)) as H1. change (inject_Z 1) with 1%Q in H1. unfold tiny. lra. }
  assert (f64_of_Z ns / 1000000000 == inject_Z ns * (1 # 1000000000))%Q as Hq by (rewrite Hns; field).
  assert (0 <= fdiv (f64_of_Z ns) 1000000000 /\ fdiv (f64_of_Z ns) 1000000000 <= inject_Z ns * (1 # 1000000000) * (1 + half_ulp))%Q as [Hb0 Hb].
  { split; [apply rnd_nonneg; lra|]. unfold fdiv. rewrite <- Hq. apply rnd_above. rewrite Hq. destruct (Z.eq_dec ns 0) as [->|]; [left; change (inject_Z 0) with 0%Q; lra|]. right.
    pose proof (inject_Z_le 1 ns ltac:(lia)) as H1. change (inject_Z 1) with 1%Q in H1. unfold tiny. lra. }
  assert (1 # 2147483648 <= f64_of_Z sec + fdiv (f64_of_Z ns) 1000000000)%Q as Hlow.
  { destruct (Z.eq_dec sec 0) as [E|].
    - pose proof (inject_Z_le 1 ns ltac:(lia)) as H1. change (inject_Z 1) with 1%Q in H1.
      assert (tiny <= f64_of_Z ns / 1000000000)%Q as Ht by (unfold tiny; lra).
      pose proof (rnd_below _ Ht) as Hrb. fold (fdiv (f64_of_Z ns) 1000000000) in Hrb. unfold half_ulp in Hrb. lra.
    - pose proof (inject_Z_le 1 sec ltac:(lia)) as H1. apply rnd_mono in H1. fold (f64_of_Z sec) in H1. pose proof (rnd_int 1 ltac:(lia)) as Hone.
      change (inject_Z 1) with 1%Q in *. lra. }
  assert (tiny <= f64_of_Z sec + fdiv (f64_of_Z ns) 1000000000)%Q as Ht by (unfold tiny; lra). unfold fadd. split.
  - pose proof (rnd_below _ Ht) as Hrb. unfold half_ulp in Hrb. lra.
  - destruct (rnd_within _ Ht) as [_ Hup]. eapply Qle_trans; [exact Hup|].
    set (a := f64_of_Z sec) in *. set (b := fdiv _ _) in *. unfold half_ulp in *. lra.
Qed.

(** The tokens a refill adds, before they are added. *)
Lemma gain_bounds rpm cap now last : 1 <= rpm -> (cap == inject_Z rpm)%Q -> last < now ->
  (tiny <= fmul (elapsed_secs now last) (fdiv cap 60))%Q /\ (fmul (elapsed_secs now last) (fdiv cap 60) <= earned rpm (now - last))%Q.
Proof.
  intros Hr Hc Hlt. destruct (elapsed_bounds now last Hlt) as [Hlo Hhi]. set (e := elapsed_secs now last) in *.
  pose proof (inject_Z_le 1 rpm Hr) as Hr1. change (inject_Z 1) with 1%Q in Hr1.
  assert (cap / 60 == inject_Z rpm / 60)%Q as Hc60 by (by rewrite Hc).
  assert (1 # 60 <= cap / 60)%Q as H60 by (rewrite Hc60; apply Qle_shift_div_l; lra).
  assert (tiny <= cap / 60)%Q as Ht by (unfold tiny; lra). pose proof (rnd_within _ Ht) as [Hl Hu]. fold (fdiv cap 60) in Hl, Hu.
  assert (1 # 64 <= fdiv cap 60)%Q as Hr64 by (unfold half_ulp in Hl; lra).
  assert ((1 # 4294967296) * (1 # 64) <= e * fdiv cap 60)%Q as Hprod by (apply Qmult_le_compat_nonneg; split; lra || done).
  assert (tiny <= e * fdiv cap 60)%Q as Htp by (unfold tiny; lra). pose proof (rnd_within _ Htp) as [Hl2 Hu2]. unfold fmul. split.
  - unfold half_ulp, tiny in *. lra.
  - eapply Qle_trans; [exact Hu2|]. unfold earned, slack. set (D := (inject_Z (now - last) * (1 # 1000000000))%Q) in *.
    assert (e * fdiv cap 60 <= D * ((1 + half_ulp) * (1 + half_ulp)) * (inject_Z rpm / 60 * (1 + half_ulp)))%Q as Hm.
    { apply Qmult_le_compat_nonneg; split; [lra|done|lra|]. rewrite <- Hc60. lra. }
    assert (forall x, x + x * half_ulp == x * (1 + half_ulp))%Q as E by (intros; ring). rewrite E.
    eapply Qle_trans; [apply Qmult_le_compat_r; [exact Hm|unfold half_ulp; discriminate]|]. apply Qle_lteq. right. ring.
Qed.
End Rounding.

Section Window.
Context `{FL : F64Laws} `{FW : !F64Within}.
Variables rpm start stop : Z.
Hypothesis Hrpm : 0 <= rpm <= 2 ^ 53.
Hypothesis Hss : start <= stop.

Abbreviation cap := (inject_Z rpm).
Abbreviation half := (inject_Z rpm * half_ulp)%Q.

(** A bucket with [beta] tokens to give from [start] on: one not refilled since holds
    at most a full load, one refilled since at most [beta] and what was earned. *)
Definition budget (b : TokenBucket) (beta : Q) : Prop :=
  bucket_ok rpm b
  /\ (last_refill b < start /\ (cap <= beta)%Q
      \/ start <= last_refill b /\ (tokens b <= beta + earned rpm (Z.min (last_refill b) stop - start))%Q).

Lemma half_nonneg : (0 <= half)%Q.
Proof. apply Qmult_le_0_compat; [apply (inject_Z_le 0); lia|unfold half_ulp; discriminate]. Qed.

Lemma refill_budget b beta now : start <= now <= stop -> budget b beta ->
  start <= last_refill (refill b now)
  /\ (tokens (refill b now) <= beta + half + earned rpm (Z.min (last_refill (refill b now)) stop - start))%Q.
Proof.
  intros Hnow [[Ht Hc] Hb]. pose proof half_nonneg as Hh. pose proof (fun z => earned_nonneg rpm (proj1 Hrpm) z) as He. unfold refill.
  destruct (Z.le_gt_cases now (last_refill b)) as [Hle|Hlt].
  { rewrite (frozen_elapsed _ _ Hle). cbn [negb]. destruct Hb as [[? _]|[? Hb]]; [lia|]. split; [done|]. lra. }
  destruct (elapsed_bounds now (last_refill b) Hlt) as [Hpos _].
  destruct (Qle_bool (elapsed_secs now (last_refill b)) 0) eqn:E; cbn [negb]; [apply Qle_bool_iff in E; lra|]. cbn [tokens last_refill].
  split; [lia|]. rewrite Z.min_l by lia. set (g := fmul _ _).
  pose proof (fmin_le_r (fadd (tokens b) g) (bucket_capacity b)) as Hcap. pose proof (fmin_le_l (fadd (tokens b) g) (bucket_capacity b)) as Hsum.
  destruct Hb as [[_ Hb]|[Hl Hb]]; [specialize (He (now - start) ltac:(lia)); lra|].
  rewrite Z.min_l in Hb by lia. pose proof (earned_sub rpm (now - start) (last_refill b - start)) as Hsub.
  replace (now - start - (last_refill b - start)) with (now - last_refill b) in Hsub by lia.
  pose proof (He (now - last_refill b) ltac:(lia)) as Hgain.
  destruct (Z.eq_dec rpm 0) as [E0|Hne0]; [rewrite E0 in Hc; change (inject_Z 0) with 0%Q in Hc; lra|].
  destruct (gain_bounds rpm (bucket_capacity b) now (last_refill b) ltac:(lia) Hc Hlt) as [Hg1 Hg2]. fold g in Hg1, Hg2.
  destruct (Qlt_le_dec (tokens b + g) (bucket_capacity b)) as [Hlt2|Hge]; [|lra].
  assert (tiny <= tokens b + g)%Q as Htg by lra. pose proof (rnd_within _ Htg) as [_ Hu]. fold (fadd (tokens b) g) in Hu.
  assert ((tokens b + g) * half_ulp <= cap * half_ulp)%Q as Hhalf by (apply Qmult_le_compat_r; [lra|unfold half_ulp; discriminate]). lra.
Qed.

Lemma consume_budget b beta now : start <= now <= stop -> budget b beta ->
  budget (consume b now).1 (beta + half + half - (if (consume b now).2 then 1 else 0)).
Proof.
  intros Hnow Hb. pose proof (proj1 Hb) as Hok. pose proof half_nonneg as Hh. destruct (refill_budget b beta now Hnow Hb) as [Hl Ht].
  split; [by apply consume_ok|]. right. apply (refill_ok rpm b now (proj1 Hrpm)) in Hok as [Hlev Hc]. unfold consume.
  destruct (Qle_bool 1 (tokens (refill b now))) eqn:E; cbn [fst snd tokens last_refill]; (split; [done|]); [|lra].
  apply Qle_bool_iff in E. assert (fsub (tokens (refill b now)) 1 <= tokens (refill b now) - 1 + half)%Q as Hs; [|lra].
  unfold fsub. set (x := (tokens (refill b now) - 1)%Q). assert (0 <= x /\ x + 1 <= cap)%Q as [Hx0 Hx1] by (unfold x; lra).
  destruct (Qlt_le_dec x tiny) as [Hsm|Hbig].
  - assert (rnd x <= rnd tiny)%Q as Hm by (apply rnd_mono; lra). pose proof (rnd_within tiny (Qle_refl _)) as [_ Hu].
    assert (1 * half_ulp <= cap * half_ulp)%Q as Hone by (apply Qmult_le_compat_r; [lra|unfold half_ulp; discriminate]).
    unfold tiny, half_ulp in *. lra.
  - destruct (rnd_within x Hbig) as [_ Hu].
    assert (x * half_ulp <= cap * half_ulp)%Q as Hhx by (apply Qmult_le_compat_r; [lra|unfold half_ulp; discriminate]). lra.
Qed.

(** The bucket a tenant has, or will get. *)
Definition funded (l : RateLimiter) (t : string) (beta : Q) : Prop :=
  match buckets l !! t with Some b => budget b beta | None => (cap <= beta)%Q end.

Lemma bucket_of_budget l t r beta : limiter_ok rpm l -> funded l t beta -> start <= rl_t_new r -> budget (bucket_of l t r) beta.
Proof.
  intros Hl Hf Hnew. split; [apply bucket_of_ok; [lia|done]|]. unfold funded in Hf. unfold bucket_of.
  destruct (buckets l !! t) as [b|]; [apply Hf|]. cbn. right. split; [done|]. destruct Hl as [Hc _].
  pose proof (earned_nonneg rpm (proj1 Hrpm) (Z.min (rl_t_new r) stop - start) ltac:(lia)). lra.
Qed.

(** At any moment, a tenant has a full load to give. *)
Lemma funded_full l t : limiter_ok rpm l -> funded l t cap.
Proof.
  intros [_ Hm]. unfold funded. destruct (buckets l !! t) as [b|] eqn:E; [|lra]. pose proof (Hm t b E) as Hb. split; [done|].
  destruct (Z.lt_ge_cases (last_refill b) start) as [|Hge]; [by left; split; [|lra]|]. right. split; [done|]. destruct Hb as [[_ Hb] Hc].
  pose proof (earned_nonneg rpm (proj1 Hrpm) (Z.min (last_refill b) stop - start) ltac:(lia)). lra.
Qed.

Lemma funded_nonneg l t beta : limiter_ok rpm l -> funded l t beta -> (0 <= beta + earned rpm (stop - start))%Q.
Proof.
  intros [_ Hm] Hf. pose proof (earned_nonneg rpm (proj1 Hrpm) (stop - start) ltac:(lia)) as He. pose proof (inject_Z_le 0 rpm (proj1 Hrpm)) as Hr.
  change (inject_Z 0) with 0%Q in Hr. unfold funded in Hf. destruct (buckets l !! t) as [b|]; [|lra].
  destruct Hf as [[Ht _] [[_ Hb]|[Hl Hb]]]; [lra|].
  pose proof (earned_mono rpm (proj1 Hrpm) (Z.min (last_refill b) stop - start) (stop - start) ltac:(lia)). lra.
Qed.

Lemma window_bound t rs : t ≠ "" -> forall l beta, limiter_ok rpm l -> funded l t beta ->
  Forall (fun r => for_tenant t r = true /\ start <= rl_t_new r /\ start <= rl_now r <= stop) rs ->
  (inject_Z (admitted (rl_run l rs).2) <= beta + earned rpm (stop - start) + inject_Z (Z.of_nat (length rs)) * (half + half))%Q.
Proof.
  intros Hne. induction rs as [|r rs IH]; intros l beta Hl Hf Hrs.
  { pose proof (funded_nonneg l t beta Hl Hf). change (inject_Z (admitted (rl_run l []).2)) with 0%Q. change (inject_Z (Z.of_nat (length []))) with 0%Q. lra. }
  apply Forall_cons in Hrs as [(Hr & Hnew & Hnow) Hrs]. pose proof (bucket_of_budget l t r beta Hl Hf Hnew) as Hb.
  pose proof (consume_budget _ beta (rl_now r) Hnow Hb) as Hc. pose proof (middleware_for t l r Hne Hr) as Hm. pose proof (middleware_ok rpm l r Hrpm Hl) as Hl1.
  simpl. destruct (consume (bucket_of l t r) (rl_now r)) as [b' ok]. destruct (rate_limit_middleware l r) as [[l1 d] al]. cbn [fst snd] in *.
  destruct Hm as (Hd & Hb1 & _). specialize (IH l1 _ Hl1 ltac:(unfold funded; rewrite Hb1; exact Hc) Hrs).
  destruct (rl_run l1 rs) as [l2 ds]. cbn [fst snd] in *. rewrite admitted_cons, Hd, inject_Z_plus.
  change (length (r :: rs)) with (S (length rs)). rewrite Nat2Z.inj_succ. unfold Z.succ. rewrite inject_Z_plus. change (inject_Z 1) with 1%Q.
  destruct ok; [change (inject_Z 1) with 1%Q in *|change (inject_Z 0) with 0%Q]; lra.
Qed.
End Window.

(* ------------------------------------------------------------------ *)
(** ** Claims *)

(** The requests of a tenant within a time window. *)
Definition in_window (t : string) (start stop : Z) (r : RlRequest) : Prop :=
  for_tenant t r = true -> start <= rl_t_new r <= stop /\ rl_now r <= stop.

Lemma window_filter t start stop reqs :
  Forall (in_window t start stop) reqs ->
  Forall (fun r => for_tenant t r = true /\ start <= rl_t_new r <= stop /\ rl_now r <= stop)
    (List.filter (for_tenant t) reqs).
Proof.
  rewrite !Forall_forall. intros H r Hr. apply elem_filter_bool in Hr as [Hr Ht]. split; [done|].
  by apply H.
Qed.

(** Whatever the rounding of floating-point arithmetic, in any
    interleaving of requests of any tenants every bucket keeps its level
    between 0 and the configured requests per minute. *)
Theorem ratelimit_levels `{F64Laws} rpm reqs t b :
  0 <= rpm <= 2 ^ 53 ->
  buckets (rl_run (limiter_new rpm) reqs).1 !! t = Some b ->
  (0 <= tokens b <= inject_Z rpm)%Q.
Proof.
  intros Hr Hb. pose proof (rl_run_ok rpm _ reqs Hr (limiter_new_ok rpm Hr)) as [_ Hm].
  destruct (Hm t b Hb) as [Ht Hc]. lra.
Qed.

Definition demo_reqs : list RlRequest :=
  [mkRlRequest (Some "a") 0 0 0; mkRlRequest (Some "b") 5 5 0; mkRlRequest (Some "a") 9 9 0;
   mkRlRequest (Some "a") 10 10 0; mkRlRequest None 11 11 0].

Definition demo_bucket : TokenBucket :=
  Eval vm_compute in unwrap_or (buckets (@rl_run exact_f64 (@limiter_new exact_f64 2) demo_reqs).1 !! "a")
    (mkBucket 0 0 0).

Theorem ratelimit_levels_witness : (0 <= tokens demo_bucket <= inject_Z 2)%Q.
Proof.
  apply (@ratelimit_levels exact_f64 exact_f64_laws 2 demo_reqs "a"); [lia|].
  vm_compute. reflexivity.
Defined.

(** The decisions taken on a tenant's requests are those the limiter
    would take if no other tenant sent anything. *)
Theorem ratelimit_isolation `{F64} rpm t reqs :
  t ≠ "" ->
  decisions_of t reqs (rl_run (limiter_new rpm) reqs).2
  = (rl_run (limiter_new rpm) (List.filter (for_tenant t) reqs)).2.
Proof. intros Hne. by apply rl_run_isolated. Qed.

Theorem ratelimit_isolation_witness :
  decisions_of "a" demo_reqs (@rl_run exact_f64 (@limiter_new exact_f64 2) demo_reqs).2
  = [Next; Next; Reply (mkHttp 429 rate_limited_body)].
Proof. rewrite (@ratelimit_isolation exact_f64 2 "a" demo_reqs); [vm_compute; reflexivity|done]. Defined.

(** Whatever the rounding, a burst within one clock tick gets at most
    the configured number of requests per minute through, per tenant. *)
Theorem ratelimit_burst `{F64Laws} rpm t t0 reqs :
  0 <= rpm <= 2 ^ 53 -> t ≠ "" -> Forall (in_window t t0 t0) reqs ->
  admitted (decisions_of t reqs (rl_run (limiter_new rpm) reqs).2) <= rpm.
Proof.
  intros Hr Hne Hw. rewrite (rl_run_isolated t reqs _ (limiter_new rpm)) by done.
  apply (burst_bound rpm Hr t _ Hne _ rpm t0); [by apply limiter_new_ok|done| |simpl; rewrite lookup_empty; lia].
  eapply Forall_impl; [by apply (window_filter t t0 t0)|]. intros r (? & ? & ?). simpl. split; [done|lia].
Qed.

Definition burst_reqs : list RlRequest :=
  [mkRlRequest (Some "a") 7 7 0; mkRlRequest (Some "b") 9 9 0; mkRlRequest (Some "a") 7 7 0;
   mkRlRequest (Some "a") 7 7 0].

Theorem ratelimit_burst_witness :
  admitted (decisions_of "a" burst_reqs (@rl_run exact_f64 (@limiter_new exact_f64 2) burst_reqs).2) <= 2.
Proof.
  apply (@ratelimit_burst exact_f64 exact_f64_laws 2 "a" 7 burst_reqs); [lia|done|].
  repeat constructor; simpl; try lia; done.
Defined.
