(* ===== verification/Concurrency.v ===== *)
(** * The concurrency limiter

    Models [src/src/concurrency.rs].  A tokio [Semaphore] is the number of its
    available permits (the semaphores are never closed, and the configured
    sizes stay below tokio's limit); a permit is returned when its owner is
    dropped.  Requests run concurrently, so the operations are given twice:
    as the functions a single caller sees, and as the atomic steps of the
    semaphores ([step]), over which the invariant is proved for every
    interleaving. *)

From S2P Require Import Prelude.

Record ConcurrencyLimiter := mkConc {
  semaphores : gmap string Z;
  max_per_tenant : Z;
  total_max : Z;
  global : Z
}.

Definition conc_new (max_per_tenant total_max : Z) : ConcurrencyLimiter :=
  mkConc ∅ max_per_tenant total_max total_max.

(** The permits of a tenant's semaphore once [or_insert_with] has run. *)
Definition tenant_permits (c : ConcurrencyLimiter) (t : string) : Z :=
  unwrap_or (semaphores c !! t) (max_per_tenant c).

Definition set_tenant (c : ConcurrencyLimiter) (t : string) (n : Z) : ConcurrencyLimiter :=
  mkConc (<[t := n]> (semaphores c)) (max_per_tenant c) (total_max c) (global c).

Definition set_global (c : ConcurrencyLimiter) (n : Z) : ConcurrencyLimiter :=
  mkConc (semaphores c) (max_per_tenant c) (total_max c) n.

(** A guard owns one permit of its tenant's semaphore and one global permit. *)
Record ConcurrencyGuard := mkGuard { guard_tenant : string }.

(** [acquire]: when the global permit is refused, the early return drops the
    tenant permit. *)
Definition acquire (c : ConcurrencyLimiter) (t : string) : ConcurrencyLimiter * option ConcurrencyGuard :=
  let n := tenant_permits c t in
  let c := set_tenant c t n in
  if n <=? 0 then (c, None)
  else
    let c := set_tenant c t (n - 1) in
    if global c <=? 0 then (set_tenant c t n, None)
    else (set_global c (global c - 1), Some (mkGuard t)).

(** Dropping a guard: the fields are dropped in declaration order. *)
Definition drop_guard (c : ConcurrencyLimiter) (g : ConcurrencyGuard) : ConcurrencyLimiter :=
  let c := set_tenant c (guard_tenant g) (tenant_permits c (guard_tenant g) + 1) in
  set_global c (global c + 1).

(** [try_acquire]: both permits are temporaries, returned at the end of their
    own statement; only the answers remain. *)
Definition try_acquire (c : ConcurrencyLimiter) (t : string) : ConcurrencyLimiter * bool :=
  let n := tenant_permits c t in
  let c := set_tenant c t n in
  let tenant_ok := 0 <? n in
  let global_ok := 0 <? global c in
  if tenant_ok && global_ok then (c, true)
  else if tenant_ok then (set_tenant c t (n + 1), false)
  else (c, false).

Definition available (c : ConcurrencyLimiter) (t : string) : Z :=
  unwrap_or (semaphores c !! t) (max_per_tenant c).

Definition global_available (c : ConcurrencyLimiter) : Z := global c.

Definition conc_usage (c : ConcurrencyLimiter) (t : string) : Z :=
  saturating_sub (max_per_tenant c) (available c t).

(* ------------------------------------------------------------------ *)
(** ** Interleavings *)

(** Where a request is: it holds its tenant permit only, both permits, or
    (while its guard is dropped) the global permit only. *)
Inductive Phase : Type := HoldTenant | HoldBoth | HoldGlobal.

(** The limiter and the requests in flight. *)
Record Conf := mkConf { lim : ConcurrencyLimiter; flight : list (string * Phase) }.

Inductive step : Conf -> Conf -> Prop :=
| step_refused c fl t :
    tenant_permits c t <= 0 ->
    step (mkConf c fl) (mkConf (set_tenant c t (tenant_permits c t)) fl)
| step_tenant c fl t :
    0 < tenant_permits c t ->
    step (mkConf c fl) (mkConf (set_tenant c t (tenant_permits c t - 1)) ((t, HoldTenant) :: fl))
| step_global c f1 f2 t :
    0 < global c ->
    step (mkConf c (f1 ++ (t, HoldTenant) :: f2))
         (mkConf (set_global c (global c - 1)) (f1 ++ (t, HoldBoth) :: f2))
| step_rollback c f1 f2 t :
    global c <= 0 ->
    step (mkConf c (f1 ++ (t, HoldTenant) :: f2))
         (mkConf (set_tenant c t (tenant_permits c t + 1)) (f1 ++ f2))
| step_release_tenant c f1 f2 t :
    step (mkConf c (f1 ++ (t, HoldBoth) :: f2))
         (mkConf (set_tenant c t (tenant_permits c t + 1)) (f1 ++ (t, HoldGlobal) :: f2))
| step_release_global c f1 f2 t :
    step (mkConf c (f1 ++ (t, HoldGlobal) :: f2))
         (mkConf (set_global c (global c + 1)) (f1 ++ f2)).

Definition holds_tenant (t : string) (r : string * Phase) : bool :=
  str_eqb r.1 t && match r.2 with HoldGlobal => false | _ => true end.
Definition holds_global (r : string * Phase) : bool :=
  match r.2 with HoldTenant => false | _ => true end.
Definition serving (t : string) (r : string * Phase) : bool :=
  str_eqb r.1 t && match r.2 with HoldBoth => true | _ => false end.
Definition serving_any (r : string * Phase) : bool := match r.2 with HoldBoth => true | _ => false end.

Definition count {A} (p : A -> bool) (l : list A) : Z := Z.of_nat (count_if p l).

(** Conservation: no permit is lost or made up. *)
Definition conserved (mx tot : Z) (k : Conf) : Prop :=
  max_per_tenant (lim k) = mx
  /\ global (lim k) + count holds_global (flight k) = tot
  /\ 0 <= global (lim k)
  /\ forall t, tenant_permits (lim k) t + count (holds_tenant t) (flight k) = mx
               /\ 0 <= tenant_permits (lim k) t.

Lemma count_app {A} (p : A -> bool) l1 l2 : count p (l1 ++ l2) = count p l1 + count p l2.
Proof. unfold count, count_if. rewrite List.filter_app, length_app. lia. Qed.

Lemma count_cons {A} (p : A -> bool) x l : count p (x :: l) = (if p x then 1 else 0) + count p l.
Proof. unfold count, count_if. simpl. destruct (p x); simpl; lia. Qed.

Lemma count_nonneg {A} (p : A -> bool) l : 0 <= count p l.
Proof. unfold count. lia. Qed.

Lemma count_le {A} (p q : A -> bool) l : (forall x, p x = true -> q x = true) -> count p l <= count q l.
Proof.
  intros Hpq. induction l as [|x l IH]; [done|]. rewrite !count_cons.
  specialize (Hpq x). destruct (p x), (q x); lia.
Qed.

Lemma tenant_permits_set c t n t' :
  tenant_permits (set_tenant c t n) t' = if str_eqb t t' then n else tenant_permits c t'.
Proof.
  unfold tenant_permits, str_eqb. simpl. case_bool_decide.
  - subst. by rewrite lookup_insert_eq.
  - by rewrite lookup_insert_ne.
Qed.

Lemma tenant_permits_global c n t : tenant_permits (set_global c n) t = tenant_permits c t.
Proof. done. Qed.

Lemma holds_tenant_at t t' ph :
  holds_tenant t' (t, ph) = str_eqb t t' && match ph with HoldGlobal => false | _ => true end.
Proof. done. Qed.

Lemma step_conserved mx tot k k' : conserved mx tot k -> step k k' -> conserved mx tot k'.
Proof.
  intros (Hm & Hg & Hg0 & Ht) Hs.
  destruct Hs; (split; [done|]); cbn [lim flight] in *;
    rewrite ?count_app, ?count_cons in *; cbn [holds_global snd] in *;
    (split; [simpl; lia|]); (split; [simpl; lia|]); intros t'; specialize (Ht t');
    rewrite ?count_app, ?count_cons, ?holds_tenant_at, ?tenant_permits_set, ?tenant_permits_global in *;
    destruct (str_eqb t t') eqn:E; cbn [andb] in *;
    try (apply str_eqb_spec in E; subst t'); lia.
Qed.

Lemma rtc_step_conserved mx tot k k' : conserved mx tot k -> rtc step k k' -> conserved mx tot k'.
Proof. intros Hc Hs. induction Hs; [done|]. eauto using step_conserved. Qed.

Lemma conc_new_conserved mx tot : 0 <= mx -> 0 <= tot -> conserved mx tot (mkConf (conc_new mx tot) []).
Proof. intros. split; [done|]. simpl. split; [unfold count, count_if; simpl; lia|]. split; [done|].
  intros t. unfold tenant_permits, count, count_if. simpl. rewrite lookup_empty. simpl. lia. Qed.

(** The functions of a single caller are sequences of steps. *)
Lemma set_tenant_twice c t n n' : set_tenant (set_tenant c t n) t n' = set_tenant c t n'.
Proof. unfold set_tenant. simpl. by rewrite insert_insert_eq. Qed.

Lemma acquire_steps c fl t :
  rtc step (mkConf c fl)
    (mkConf (acquire c t).1
       (match (acquire c t).2 with Some g => (guard_tenant g, HoldBoth) :: fl | None => fl end)).
Proof.
  unfold acquire. destruct (Z.leb_spec (tenant_permits c t) 0); simpl.
  { apply rtc_once. by constructor. }
  rewrite !set_tenant_twice. destruct (Z.leb_spec (global c) 0); simpl.
  - eapply rtc_l; [by apply (step_tenant c fl t)|]. apply rtc_once.
    pose proof (step_rollback (set_tenant c t (tenant_permits c t - 1)) [] fl t) as Hr. simpl in Hr.
    rewrite set_tenant_twice, tenant_permits_set, str_eqb_refl in Hr.
    replace (tenant_permits c t - 1 + 1) with (tenant_permits c t) in Hr by lia. by apply Hr.
  - eapply rtc_l; [by apply (step_tenant c fl t)|]. apply rtc_once.
    by apply (step_global (set_tenant c t (tenant_permits c t - 1)) [] fl t).
Qed.

Lemma drop_steps c f1 f2 g :
  rtc step (mkConf c (f1 ++ (guard_tenant g, HoldBoth) :: f2)) (mkConf (drop_guard c g) (f1 ++ f2)).
Proof.
  eapply rtc_l; [apply (step_release_tenant c f1 f2)|]. apply rtc_once.
  apply (step_release_global _ f1 f2).
Qed.

(* ------------------------------------------------------------------ *)
(** ** Claims *)

(** A history of the sequential operations, which other requests may
    interleave with at the level of [step]. *)
Inductive conc_reachable (mx tot : Z) : Conf -> Prop :=
| reach_new : conc_reachable mx tot (mkConf (conc_new mx tot) [])
| reach_steps k k' : conc_reachable mx tot k -> rtc step k k' -> conc_reachable mx tot k'
| reach_acquire c fl t :
    conc_reachable mx tot (mkConf c fl) ->
    conc_reachable mx tot
      (mkConf (acquire c t).1
         (match (acquire c t).2 with Some g => (guard_tenant g, HoldBoth) :: fl | None => fl end))
| reach_drop c f1 f2 g :
    conc_reachable mx tot (mkConf c (f1 ++ (guard_tenant g, HoldBoth) :: f2)) ->
    conc_reachable mx tot (mkConf (drop_guard c g) (f1 ++ f2)).

Lemma reachable_conserved mx tot k :
  0 <= mx -> 0 <= tot -> conc_reachable mx tot k -> conserved mx tot k.
Proof.
  intros Hm Ht Hr. induction Hr; eauto using conc_new_conserved, rtc_step_conserved, acquire_steps, drop_steps.
Qed.

(** Claim C15: in every interleaving of concurrent requests, the requests being
    served never exceed the tenant's limit nor the global limit, and the
    permits shown as available plus the permits held are exactly the
    configured numbers, so once nothing is in flight every permit is back. *)
Theorem concurrency_limits mx tot k t :
  0 <= mx -> 0 <= tot -> conc_reachable mx tot k ->
  count (serving t) (flight k) <= mx
  /\ count serving_any (flight k) <= tot
  /\ available (lim k) t = mx - count (holds_tenant t) (flight k)
  /\ conc_usage (lim k) t = count (holds_tenant t) (flight k)
  /\ global_available (lim k) = tot - count holds_global (flight k).
Proof.
  intros Hm Ht Hr. destruct (reachable_conserved _ _ _ Hm Ht Hr) as (Hmax & Hg & Hg0 & Hten).
  specialize (Hten t). unfold conc_usage, saturating_sub. change (available (lim k) t) with (tenant_permits (lim k) t).
  assert (count (serving t) (flight k) <= count (holds_tenant t) (flight k)).
  { apply count_le. intros [t' ph]. unfold serving, holds_tenant. simpl.
    rewrite !andb_true_iff. intros [? ?]. by destruct ph. }
  assert (count serving_any (flight k) <= count holds_global (flight k)).
  { apply count_le. intros [t' ph]. by destruct ph. }
  pose proof (count_nonneg (holds_tenant t) (flight k)). unfold global_available. rewrite Hmax. lia.
Qed.

Definition demo_conf : Conf :=
  Eval vm_compute in
    let c := conc_new 2 5 in
    let '(c, g1) := acquire c "t1" in
    let '(c, g2) := acquire c "t1" in
    mkConf c [("t1", HoldBoth); ("t1", HoldBoth)].

Theorem concurrency_limits_witness :
  count (serving "t1") (flight demo_conf) <= 2
  /\ count serving_any (flight demo_conf) <= 5
  /\ available (lim demo_conf) "t1" = 0
  /\ conc_usage (lim demo_conf) "t1" = 2
  /\ global_available (lim demo_conf) = 3.
Proof.
  apply (concurrency_limits 2 5 demo_conf "t1"); [lia|lia|].
  pose proof (reach_acquire 2 5 _ _ "t1" (reach_acquire 2 5 _ _ "t1" (reach_new 2 5))) as H.
  vm_compute in H. exact H.
Defined.

(** A request is admitted exactly when its tenant and the gateway
    both have a permit; a refused request leaves the number of available
    permits of every tenant and of the gateway unchanged, and dropping the
    guard of an admitted one restores them. *)
Theorem acquire_release c t t' :
  let '(c', r) := acquire c t in
  (is_some r = true <-> 0 < available c t /\ 0 < global_available c)
  /\ match r with
     | None => available c' t' = available c t' /\ global_available c' = global_available c
     | Some g => available (drop_guard c' g) t' = available c t'
                 /\ global_available (drop_guard c' g) = global_available c
     end.
Proof.
  unfold acquire, drop_guard, global_available, available.
  fold (tenant_permits c t) (tenant_permits c t').
  destruct (Z.leb_spec (tenant_permits c t) 0); [|destruct (Z.leb_spec (global c) 0) as [Hg|Hg]; simpl in Hg |- *].
  - split; [split; [done|lia]|]. split; [|done]. fold (tenant_permits (set_tenant c t (tenant_permits c t)) t').
    rewrite tenant_permits_set. destruct (str_eqb t t') eqn:E; [|done]. by apply str_eqb_spec in E as ->.
  - destruct (Z.leb_spec (global c) 0); [|lia]. simpl.
    split; [split; [done|lia]|]. split; [|done].
    destruct (decide (t = t')) as [->|Hne]; [by rewrite lookup_insert_eq|].
    by rewrite !lookup_insert_ne.
  - destruct (Z.leb_spec (global c) 0); [lia|]. simpl.
    split; [split; [lia|done]|].
    unfold tenant_permits at 1. simpl.
    destruct (decide (t = t')) as [->|Hne].
    + rewrite !lookup_insert_eq. simpl. split; lia.
    + rewrite !lookup_insert_ne by done. split; [done|lia].
Qed.

(** [try_acquire] does not reserve anything: a positive answer leaves
    the permits as they were, so it can be repeated; and when the tenant has a
    permit but the gateway has none, the tenant's semaphore grows by one permit
    beyond what it had. *)
Theorem try_acquire_leaks c t :
  (0 < available c t -> 0 < global_available c ->
   (try_acquire c t).2 = true /\ available (try_acquire c t).1 t = available c t
   /\ global_available (try_acquire c t).1 = global_available c)
  /\ (0 < available c t -> global_available c <= 0 ->
      (try_acquire c t).2 = false /\ available (try_acquire c t).1 t = available c t + 1).
Proof.
  unfold try_acquire, global_available, available. fold (tenant_permits c t). simpl.
  destruct (Z.ltb_spec 0 (tenant_permits c t)), (Z.ltb_spec 0 (global c)); simpl;
    rewrite ?insert_insert_eq, ?lookup_insert_eq; simpl; split; intros; try lia; done.
Qed.

Theorem try_acquire_leaks_witness :
  let c := (acquire (conc_new 1 1) "a").1 in
  (try_acquire c "b").2 = false /\ available (try_acquire c "b").1 "b" = 2.
Proof. apply (proj2 (try_acquire_leaks (acquire (conc_new 1 1) "a").1 "b")); vm_compute; done. Defined.
