(* ===== verification/Cache.v ===== *)
(** * The prompt-response cache

    Models [src/src/cache/mod.rs]: the key derivation, the TTL cache with its
    eviction, and the in-memory [CacheBackend].  SHA-256, the decimal rendering
    of an [f64] and JSON printing are parameters; instants are nanoseconds. *)

From S2P Require Import Prelude Json Types.

Class F64Display := { f64_to_string : Q -> string }.

Definition DEFAULT_MAX_ENTRIES : Z := 256.

Record CacheEntry := mkCacheEntry { ce_response : ChatCompletionResponse; ce_created_at : Z }.

Record PromptCache := mkCache {
  inner : gmap string CacheEntry;
  max_entries : Z;
  ttl : Z;
  system_prompt_shard : bool
}.

Definition cache_new (max_entries : Z) : PromptCache :=
  mkCache ∅ (if max_entries =? 0 then DEFAULT_MAX_ENTRIES else max_entries) (300 * 1000000000) false.

Definition with_ttl (c : PromptCache) (ttl_secs : Z) : PromptCache :=
  mkCache (inner c) (max_entries c) (ttl_secs * 1000000000) (system_prompt_shard c).

Definition with_system_prompt_shard (c : PromptCache) (enabled : bool) : PromptCache :=
  mkCache (inner c) (max_entries c) (ttl c) enabled.

Definition set_inner (c : PromptCache) (m : gmap string CacheEntry) : PromptCache :=
  mkCache m (max_entries c) (ttl c) (system_prompt_shard c).

Definition cache_len (c : PromptCache) : Z := Z.of_nat (size (inner c)).
Definition cache_is_empty (c : PromptCache) : bool := cache_len c =? 0.

(** The field separator, a byte that occurs in no UTF-8 text. *)
Definition FF : ascii := chr 255.
Definition ff : string := String FF EmptyString.

Section Key.
Context `{SJ : SerdeJson} `{DG : Digest} `{FD : F64Display}.

(** [serde_json::to_vec(&req.tools)]: an absent value prints as [null]. *)
Definition tools_json (req : ChatCompletionRequest) : string :=
  to_string (unwrap_or (tools req) Null).

Definition temperature_text (req : ChatCompletionRequest) : string :=
  match temperature req with Some t => f64_to_string t | None => "" end.

(** The bytes fed to the hasher, in order. *)
Definition key_bytes (req : ChatCompletionRequest) : string :=
  model req +:+ ff
  +:+ str_concat ((fun m => msg_role m +:+ ff +:+ to_string (msg_content m) +:+ ff) <$> messages req)
  +:+ ff +:+ temperature_text req +:+ ff +:+ tools_json req.

(** The first six bytes of the digest, in hexadecimal. *)
Definition cache_key (req : ChatCompletionRequest) : string :=
  hex_encode (str_take 6 (sha256 (key_bytes req))).

(** Whether an entry outlived the TTL: [created_at.elapsed() > ttl]. *)
Definition stale (c : PromptCache) (now : Z) (e : CacheEntry) : bool :=
  ttl c <? saturating_sub now (ce_created_at e).

Definition cache_get (c : PromptCache) (now : Z) (req : ChatCompletionRequest)
    : PromptCache * option ChatCompletionResponse :=
  let key := cache_key req in
  match inner c !! key with
  | Some e => if stale c now e then (set_inner c (delete key (inner c)), None) else (c, Some (ce_response e))
  | None => (c, None)
  end.

Context `{!DashIter string CacheEntry}.

(** The scan for the oldest entry: the first one of the iteration that no later
    one undercuts. *)
Definition oldest_step (oldest : option (string * Z)) (kv : string * CacheEntry) : option (string * Z) :=
  let t := ce_created_at kv.2 in
  if match oldest with None => true | Some o => t <? o.2 end then Some (kv.1, t) else oldest.

Definition evict_oldest_if_needed (c : PromptCache) : PromptCache :=
  if cache_len c <? max_entries c then c
  else match foldl oldest_step None (dash_iter (inner c)) with
       | Some o => set_inner c (delete o.1 (inner c))
       | None => c
       end.

Definition put (c : PromptCache) (now : Z) (req : ChatCompletionRequest) (resp : ChatCompletionResponse)
    : PromptCache :=
  let key := cache_key req in
  let c := evict_oldest_if_needed c in
  set_inner c (<[key := mkCacheEntry resp now]> (inner c)).

Definition warm := put.

Definition prune (c : PromptCache) (now : Z) : PromptCache * Z :=
  let before := cache_len c in
  let stale_keys := fst <$> List.filter (fun kv => stale c now kv.2) (dash_iter (inner c)) in
  let c' := set_inner c (foldl (fun m k => delete k m) (inner c) stale_keys) in
  (c', before - cache_len c').

End Key.

(** ** The in-memory backend *)

Module Backend.
Record MemoryBackend := mkBackend { store : gmap string (string * Z * Z) }.
Definition new : MemoryBackend := mkBackend ∅.

(** [created.elapsed().as_secs() > ttl]: whole seconds. *)
Definition backend_get (b : MemoryBackend) (now : Z) (key : string)
    : MemoryBackend * Result (option string) AppError :=
  match store b !! key with
  | Some (data, created, ttl) =>
      if ttl <? saturating_sub now created / 1000000000
      then (mkBackend (delete key (store b)), Ok None) else (b, Ok (Some data))
  | None => (b, Ok None)
  end.

Definition backend_set (b : MemoryBackend) (now : Z) (key value : string) (ttl_secs : Z)
    : MemoryBackend * Result unit AppError :=
  (mkBackend (<[key := (value, now, ttl_secs)]> (store b)), Ok tt).

Definition backend_delete (b : MemoryBackend) (key : string) : MemoryBackend * Result unit AppError :=
  (mkBackend (delete key (store b)), Ok tt).

Definition backend_exists (b : MemoryBackend) (key : string) : Result bool AppError :=
  Ok (is_some (store b !! key)).
End Backend.

(* ------------------------------------------------------------------ *)
(** ** The hashed bytes determine the fields they come from *)

Definition no_ff (s : string) : Prop := forall a b, s ≠ a +:+ String FF b.

Lemma no_ff_cons c s : no_ff (String c s) -> c ≠ FF /\ no_ff s.
Proof.
  intros H. split.
  - intros ->. by apply (H "" s).
  - intros a b ->. by apply (H (String c a) b).
Qed.

Fixpoint has_ff (s : string) : bool :=
  match s with EmptyString => false | String c s' => Ascii.eqb c FF || has_ff s' end.

Lemma has_ff_false s : has_ff s = false -> no_ff s.
Proof.
  intros Hs a b ->. revert Hs. induction a as [|c a IH]; simpl; [done|].
  rewrite orb_false_iff. intros [_ Ha]. by apply IH.
Qed.

Lemma split_ff a b r1 r2 :
  no_ff a -> no_ff b -> a +:+ String FF r1 = b +:+ String FF r2 -> a = b /\ r1 = r2.
Proof.
  revert b; induction a as [|c a IH]; intros [|d b] Ha Hb Heq; simpl in Heq; simplify_eq; [done|..].
  - by apply no_ff_cons in Hb as [? _].
  - by apply no_ff_cons in Ha as [? _].
  - apply no_ff_cons in Ha as [_ Ha], Hb as [_ Hb].
    destruct (IH b Ha Hb) as [-> ->]; done.
Qed.

(** Segments followed each by a separator, then a last segment. *)
Fixpoint segments (l : list string) (last : string) : string :=
  match l with [] => last | x :: l' => x +:+ String FF (segments l' last) end.

Lemma segments_inj l1 l2 x1 x2 :
  Forall no_ff l1 -> Forall no_ff l2 -> no_ff x1 -> no_ff x2 ->
  segments l1 x1 = segments l2 x2 -> l1 = l2 /\ x1 = x2.
Proof.
  intros H1. revert l2; induction H1 as [|a l1 Ha H1 IH]; intros l2 H2 Hx1 Hx2 Heq; simpl in Heq.
  - destruct l2 as [|b l2]; [done|]. simpl in Heq. subst x1. exfalso. by apply (Hx1 b (segments l2 x2)).
  - destruct H2 as [|b l2 Hb H2]; simpl in Heq.
    + exfalso. by apply (Hx2 a (segments l1 x1)).
    + apply split_ff in Heq as [-> Heq]; [|done..].
      destruct (IH l2 H2 Hx1 Hx2 Heq) as [-> ->]. done.
Qed.

Section KeyBytes.
Context `{SJ : SerdeJson} `{DG : Digest} `{FD : F64Display}.

Definition key_segments (req : ChatCompletionRequest) : list string :=
  model req :: flat_map (fun m => [msg_role m; to_string (msg_content m)]) (messages req)
  ++ [""; temperature_text req].

Lemma key_bytes_segments req : key_bytes req = segments (key_segments req) (tools_json req).
Proof.
  unfold key_bytes, key_segments. simpl. f_equal. f_equal.
  induction (messages req) as [|m ms IH]; simpl; [done|].
  rewrite <- IH, <- !app_assoc_str. simpl. by rewrite <- !app_assoc_str.
Qed.

(** What a request contributes to its key. *)
Definition key_fields (req : ChatCompletionRequest) : string * list (string * string) * string * string :=
  (model req, (fun m => (msg_role m, to_string (msg_content m))) <$> messages req,
   temperature_text req, tools_json req).

(** The texts of the request and their JSON encodings are UTF-8. *)
Definition utf8_request (req : ChatCompletionRequest) : Prop :=
  no_ff (model req) /\ Forall (fun m => no_ff (msg_role m) /\ no_ff (to_string (msg_content m))) (messages req)
  /\ no_ff (temperature_text req) /\ no_ff (tools_json req).

Lemma flat_pairs_inj (l1 l2 : list Message) t1 t2 :
  flat_map (fun m => [msg_role m; to_string (msg_content m)]) l1 ++ [""; t1]
  = flat_map (fun m => [msg_role m; to_string (msg_content m)]) l2 ++ [""; t2] ->
  ((fun m => (msg_role m, to_string (msg_content m))) <$> l1)
  = ((fun m => (msg_role m, to_string (msg_content m))) <$> l2) /\ t1 = t2.
Proof.
  revert l2; induction l1 as [|m1 l1 IH]; intros [|m2 l2] Heq; simpl in *.
  - injection Heq as ->. done.
  - injection Heq as _ _ Heq. by destruct l2.
  - injection Heq as _ _ Heq. by destruct l1.
  - injection Heq as Hr Hc Heq. destruct (IH l2 Heq) as [Hl ->]. split; [|done].
    rewrite Hr, Hc. f_equal. exact Hl.
Qed.

Lemma utf8_segments req : utf8_request req -> Forall no_ff (key_segments req).
Proof.
  intros (Hm & Hms & Ht & _). constructor; [done|]. apply Forall_app. split.
  - induction Hms as [|m ms [? ?] _ IH]; simpl; repeat constructor; auto.
  - repeat constructor; [|done]. intros a b Heq. by destruct a.
Qed.

Lemma key_bytes_inj r1 r2 :
  utf8_request r1 -> utf8_request r2 -> key_bytes r1 = key_bytes r2 -> key_fields r1 = key_fields r2.
Proof.
  intros H1 H2. rewrite !key_bytes_segments. intros Heq.
  apply segments_inj in Heq as [Hs Ht]; [|by apply utf8_segments..|apply H1|apply H2].
  unfold key_segments in Hs. injection Hs as Hm Hs. apply flat_pairs_inj in Hs as [Hp Hq].
  unfold key_fields. by rewrite Hm, Hp, Hq, Ht.
Qed.
End KeyBytes.

(* ------------------------------------------------------------------ *)
(** ** Histories of the cache *)

Inductive CacheOp : Type :=
| OpGet (now : Z) (req : ChatCompletionRequest)
| OpPut (now : Z) (req : ChatCompletionRequest) (resp : ChatCompletionResponse)
| OpPrune (now : Z).

Section Histories.
Context `{SJ : SerdeJson} `{DG : Digest} `{FD : F64Display} `{!DashIter string CacheEntry}.

Definition cache_op (c : PromptCache) (o : CacheOp) : PromptCache :=
  match o with
  | OpGet now req => (cache_get c now req).1
  | OpPut now req resp => put c now req resp
  | OpPrune now => (prune c now).1
  end.

Definition cache_run (c : PromptCache) (ops : list CacheOp) : PromptCache := foldl cache_op c ops.

(** The most recent response stored under a key. *)
Definition last_put (key : string) (ops : list CacheOp) : option CacheEntry :=
  foldl (fun acc o => match o with
                      | OpPut now req resp =>
                          if str_eqb (cache_key req) key then Some (mkCacheEntry resp now) else acc
                      | _ => acc
                      end) None ops.

Lemma foldl_delete_subseteq (m : gmap string CacheEntry) ks : foldl (fun m k => delete k m) m ks ⊆ m.
Proof.
  revert m; induction ks as [|k ks IH]; intros m; simpl; [done|].
  etrans; [apply IH|]. apply delete_subseteq.
Qed.

Lemma evict_subseteq c : inner (evict_oldest_if_needed c) ⊆ inner c.
Proof.
  unfold evict_oldest_if_needed. destruct (cache_len c <? max_entries c); [done|].
  destruct (foldl _ _ _); [|done]. simpl. apply delete_subseteq.
Qed.

Lemma cache_op_params c o : max_entries (cache_op c o) = max_entries c /\ ttl (cache_op c o) = ttl c.
Proof.
  destruct o; simpl.
  - unfold cache_get. case_all.
  - unfold put, evict_oldest_if_needed. case_all.
  - done.
Qed.

Lemma cache_run_params c ops : max_entries (cache_run c ops) = max_entries c /\ ttl (cache_run c ops) = ttl c.
Proof.
  unfold cache_run. revert c; induction ops as [|o ops IH]; intros c; simpl; [done|].
  destruct (IH (cache_op c o)) as [-> ->]. apply cache_op_params.
Qed.

Lemma cache_run_last_put c ops key e :
  inner c = ∅ -> inner (cache_run c ops) !! key = Some e -> last_put key ops = Some e.
Proof.
  intros Hc. unfold cache_run, last_put. induction ops as [|o ops IH] using rev_ind.
  - simpl. by rewrite Hc, lookup_empty.
  - rewrite !foldl_app. simpl. set (c1 := foldl cache_op c ops) in *. destruct o as [now req|now req resp|now]; simpl.
    + unfold cache_get. destruct (inner c1 !! cache_key req) as [e1|]; [|done].
      destruct (stale _ _ _); [|done]. simpl. intros Hk. apply lookup_delete_Some in Hk as [_ Hk]. by apply IH.
    + destruct (str_eqb (cache_key req) key) eqn:E.
      * apply str_eqb_spec in E. rewrite E. by rewrite lookup_insert_eq.
      * rewrite lookup_insert_ne by (intros Heq; by rewrite Heq, str_eqb_refl in E).
        intros Hk. apply IH. eapply lookup_weaken; [exact Hk|apply evict_subseteq].
    + intros Hk. apply IH. eapply lookup_weaken; [exact Hk|apply foldl_delete_subseteq].
Qed.

Lemma oldest_fold l acc :
  (exists kv, foldl oldest_step acc l = Some kv) \/ (l = [] /\ acc = None).
Proof.
  revert acc; induction l as [|x l IH]; intros acc; simpl; [destruct acc; eauto|].
  destruct (IH (oldest_step acc x)) as [|[_ H2]]; [by left|].
  unfold oldest_step in H2. destruct acc as [o|]; [|done]. by destruct (_ <? _).
Qed.

(** The entry found is one of the iteration and is not younger than any. *)
Lemma oldest_min l acc k t :
  foldl oldest_step acc l = Some (k, t) ->
  (acc = Some (k, t) \/ exists e, (k, e) ∈ l /\ ce_created_at e = t)
  /\ (forall o, acc = Some o -> t <= o.2)
  /\ (forall k' e, (k', e) ∈ l -> t <= ce_created_at e).
Proof.
  revert acc; induction l as [|[k1 e1] l IH]; intros acc; simpl.
  - intros ->. split; [by left|]. split; [by intros o [= <-]|]. intros; set_solver.
  - intros Hf. destruct (IH _ Hf) as (H1 & H2 & H3). unfold oldest_step in H1, H2. simpl in *.
    destruct acc as [[ko to]|].
    + simpl in *. destruct (Z.ltb_spec (ce_created_at e1) to).
      * split; [right; destruct H1 as [[= <- <-]|(e & ? & ?)]; [exists e1|exists e]; set_solver|].
        specialize (H2 _ eq_refl). simpl in H2. split; [intros o [= <-]; simpl; lia|].
        intros k' e [[= -> ->]|Hin]%elem_of_cons; [lia|eauto].
      * split; [destruct H1 as [?|(e & ? & ?)]; [by left|right; exists e; set_solver]|].
        split; [done|]. specialize (H2 _ eq_refl). simpl in H2.
        intros k' e [[= -> ->]|Hin]%elem_of_cons; [lia|eauto].
    + split; [right; destruct H1 as [[= <- <-]|(e & ? & ?)]; [exists e1|exists e]; set_solver|].
      specialize (H2 _ eq_refl). simpl in H2. split; [done|].
      intros k' e [[= -> ->]|Hin]%elem_of_cons; [lia|eauto].
Qed.

(** Eviction makes room by dropping an entry that is not younger than any other. *)
Lemma evict_spec c : 0 < max_entries c -> cache_len c <= max_entries c ->
  let c' := evict_oldest_if_needed c in
  cache_len c' < max_entries c
  /\ (cache_len c < max_entries c -> c' = c)
  /\ (max_entries c <= cache_len c ->
      exists k e, inner c !! k = Some e /\ inner c' = delete k (inner c)
                  /\ forall k' e', inner c !! k' = Some e' -> ce_created_at e <= ce_created_at e').
Proof.
  intros Hpos Hle c'. unfold c', evict_oldest_if_needed.
  destruct (Z.ltb_spec (cache_len c) (max_entries c)) as [Hlt|Hge].
  { split; [done|]. split; [done|lia]. }
  assert (exists k t, foldl oldest_step None (dash_iter (inner c)) = Some (k, t)) as (k & t & Hf).
  { destruct (oldest_fold (dash_iter (inner c)) None) as [[[k t] ?]|[Hnil _]]; [eauto|].
    exfalso. unfold cache_len in *. assert (inner c = ∅) as He.
    { apply map_empty. intros i. destruct (inner c !! i) eqn:E; [|done].
      apply dash_iter_elem in E. rewrite Hnil in E. set_solver. }
    rewrite He, map_size_empty in Hge. lia. }
  rewrite Hf. cbn [fst]. destruct (oldest_min _ _ _ _ Hf) as ([?|(e & Hin & Ht)] & _ & Hmin); [done|].
  apply dash_iter_elem in Hin. split; [|split; [lia|]].
  - unfold cache_len in *. simpl. rewrite map_size_delete_Some by eauto. lia.
  - intros _. exists k, e. split; [done|]. split; [done|]. intros k' e' Hk'.
    rewrite Ht. apply (Hmin k'). by apply dash_iter_elem.
Qed.

Lemma cache_op_size c o : 0 < max_entries c -> cache_len c <= max_entries c ->
  cache_len (cache_op c o) <= max_entries c.
Proof.
  intros Hpos Hle. destruct o as [now req|now req resp|now]; simpl.
  - unfold cache_get. case_all. unfold cache_len in *. simpl.
    pose proof (map_subseteq_size _ _ (delete_subseteq (inner c) (cache_key req))). lia.
  - destruct (evict_spec c Hpos Hle) as (Hlt & _). unfold put, cache_len in *. simpl.
    rewrite map_size_insert. destruct (_ !! _); simpl; lia.
  - unfold cache_len in *. simpl. pose proof (map_subseteq_size _ _ (foldl_delete_subseteq (inner c)
      (fst <$> List.filter (fun kv => stale c now kv.2) (dash_iter (inner c))))). lia.
Qed.
End Histories.

Lemma cache_run_size `{SJ : SerdeJson} `{DG : Digest} `{FD : F64Display} `{!DashIter string CacheEntry} c ops :
  0 < max_entries c -> cache_len c <= max_entries c -> cache_len (cache_run c ops) <= max_entries c.
Proof.
  intros Hpos. unfold cache_run. revert c Hpos; induction ops as [|o ops IH]; intros c Hpos Hle; simpl; [done|].
  destruct (cache_op_params c o) as [Hm _]. rewrite <- Hm. apply IH; rewrite Hm; [done|].
  by apply cache_op_size.
Qed.

(* ------------------------------------------------------------------ *)
(** ** Claims *)

(** A concrete environment for the witnesses: a toy digest, iteration by key. *)
Module Demo.
Definition serde : SerdeJson := {| from_str := fun _ => None; to_string := fun v => unwrap_or (as_str v) "null" |}.
Definition digest : Digest := {| sha256 := fun s => s |}.
Definition display : F64Display := {| f64_to_string := fun q => string_of_Z (Qnum q) |}.
Definition iter : DashIter string CacheEntry := dash_iter_by_key string CacheEntry.
Definition request (m text : string) : ChatCompletionRequest :=
  mkRequest m [mkMessage "user" (Str text) None None None] None None None None None None None None None None
    None Null.
Definition response (id : string) : ChatCompletionResponse := mkResponse id "chat.completion" 0 "m" [] None None.
End Demo.

Section Claims.
Context `{SJ : SerdeJson} `{DG : Digest} `{FD : F64Display} `{!DashIter string CacheEntry}.

(** Claim C12: after any sequence of lookups, insertions and prunings on a new
    cache, a hit returns the response of the most recent insertion under the
    request's key, made no longer than the TTL ago: never an overwritten,
    expired or foreign-key response. *)
Theorem cache_hit_sound n secs ops now req resp :
  (cache_get (cache_run (with_ttl (cache_new n) secs) ops) now req).2 = Some resp ->
  exists e, last_put (cache_key req) ops = Some e /\ ce_response e = resp
            /\ saturating_sub now (ce_created_at e) <= secs * 1000000000.
Proof.
  unfold cache_get. destruct (inner _ !! _) as [e|] eqn:E; [|done].
  destruct (stale _ _ _) eqn:Es; simpl; [done|]. intros [= <-].
  exists e. split; [by apply cache_run_last_put in E|]. split; [done|].
  unfold stale in Es. apply Z.ltb_ge in Es.
  destruct (cache_run_params (with_ttl (cache_new n) secs) ops) as [_ Ht]. rewrite Ht in Es. exact Es.
Qed.

(** Whatever the operations and whatever the iteration order of the
    map, the cache never holds more than its configured number of entries (256
    when configured with 0). *)
Theorem cache_bounded n ops :
  0 <= n -> cache_len (cache_run (cache_new n) ops) <= (if n =? 0 then 256 else n).
Proof.
  intros Hn. change (if n =? 0 then 256 else n) with (max_entries (cache_new n)).
  assert (0 < max_entries (cache_new n)) by (simpl; unfold DEFAULT_MAX_ENTRIES; case_Z).
  apply cache_run_size; [done|]. unfold cache_len. simpl in *. rewrite map_size_empty. lia.
Qed.

(** A response just stored is found again by every request with the
    same key until the TTL has passed; storing it drops nothing from a cache
    that is not full, and from a full one only one entry, which is not younger
    than any other. *)
Theorem cache_put_get c now now' req req' resp :
  0 < max_entries c -> cache_len c <= max_entries c -> cache_key req' = cache_key req ->
  let c' := put c now req resp in
  (cache_get c' now' req').2 = (if ttl c <? saturating_sub now' now then None else Some resp)
  /\ exists dropped,
      inner c' = <[cache_key req := mkCacheEntry resp now]> (foldr delete (inner c) dropped)
      /\ (length dropped <= 1)%nat
      /\ (cache_len c < max_entries c -> dropped = [])
      /\ Forall (fun k => exists e, inner c !! k = Some e
                  /\ forall k' e', inner c !! k' = Some e' -> ce_created_at e <= ce_created_at e') dropped.
Proof.
  intros Hpos Hle Hk c'. destruct (evict_spec c Hpos Hle) as (_ & Hroom & Hfull).
  assert (ttl (evict_oldest_if_needed c) = ttl c) as Ht.
  { unfold evict_oldest_if_needed. case_all. }
  split.
  - unfold cache_get, c', put. rewrite Hk. simpl. rewrite lookup_insert_eq. unfold stale. simpl. rewrite Ht.
    by destruct (_ <? _).
  - destruct (Z.lt_ge_cases (cache_len c) (max_entries c)) as [Hlt|Hge].
    + exists []. unfold c', put. rewrite (Hroom Hlt). simpl. split; [done|]. split; [lia|]. done.
    + destruct (Hfull Hge) as (k & e & He & Hd & Hmin). exists [k]. unfold c', put. simpl. rewrite Hd.
      split; [done|]. split; [lia|]. split; [lia|]. repeat constructor. eauto.
Qed.

(** The bytes hashed into the key determine, and are determined by,
    the model, the sequence of (role, JSON content) of all the messages, the
    temperature and the tools.  Different prompts never share the hashed bytes,
    even with empty roles; but nothing else of the request takes part, so
    requests that differ in [max_tokens], [top_p], [stop], [tool_choice] or
    extra parameters share a cached answer. *)
Theorem cache_key_fields r1 r2 :
  utf8_request r1 -> utf8_request r2 ->
  (key_bytes r1 = key_bytes r2 <-> key_fields r1 = key_fields r2).
Proof.
  intros U1 U2. split; [by apply key_bytes_inj|].
  unfold key_fields. intros [= Hm Hms Ht Hl]. unfold key_bytes. rewrite Hm, Ht, Hl.
  do 2 f_equal. f_equal. clear - Hms. revert Hms. generalize (messages r2).
  induction (messages r1) as [|x l IH]; intros [|y l'] Heq; try done.
  injection Heq as Hr Hc Heq. simpl. rewrite Hr, Hc. f_equal. by apply IH.
Qed.
End Claims.

Theorem cache_hit_sound_witness :
  let hist := [OpPut 0 (Demo.request "m" "a") (Demo.response "1"); OpPrune 5;
               OpPut 10 (Demo.request "m" "a") (Demo.response "2")] in
  exists e, @last_put Demo.serde Demo.digest Demo.display (@cache_key Demo.serde Demo.digest Demo.display (Demo.request "m" "a")) hist = Some e
            /\ ce_response e = Demo.response "2" /\ saturating_sub 20 (ce_created_at e) <= 1 * 1000000000.
Proof.
  intros hist.
  apply (@cache_hit_sound Demo.serde Demo.digest Demo.display Demo.iter 4 1 hist 20 (Demo.request "m" "a")
           (Demo.response "2")).
  vm_compute. reflexivity.
Defined.

Theorem cache_bounded_witness :
  cache_len (@cache_run Demo.serde Demo.digest Demo.display Demo.iter (cache_new 1)
    [OpPut 0 (Demo.request "m" "a") (Demo.response "1"); OpPut 10 (Demo.request "n" "b") (Demo.response "2")]) <= 1.
Proof.
  apply (@cache_bounded Demo.serde Demo.digest Demo.display Demo.iter 1). lia.
Defined.

Theorem cache_put_get_witness :
  (@cache_get Demo.serde Demo.digest Demo.display
     (@put Demo.serde Demo.digest Demo.display Demo.iter (cache_new 1) 7 (Demo.request "m" "a") (Demo.response "1"))
     9 (Demo.request "m" "a")).2 = Some (Demo.response "1").
Proof.
  apply (@cache_put_get Demo.serde Demo.digest Demo.display Demo.iter (cache_new 1) 7 9); [done| |done].
  vm_compute. done.
Defined.

Theorem cache_key_fields_witness :
  @key_bytes Demo.serde Demo.display (Demo.request "m" "a") = @key_bytes Demo.serde Demo.display (Demo.request "m" "b")
  <-> @key_fields Demo.serde Demo.display (Demo.request "m" "a") = @key_fields Demo.serde Demo.display (Demo.request "m" "b").
Proof.
  apply (@cache_key_fields Demo.serde Demo.display); repeat split; repeat constructor; by apply has_ff_false.
Defined.
