(* ===== verification/Config.v ===== *)
(** * Configuration

    Models [src/src/config/mod.rs]: the YAML configuration types, the upstream
    key entries with their identity, model routing, metadata merging and
    [Config::validate].  Reading and parsing the YAML file is serde_yaml's. *)

From S2P Require Import Prelude Json Serde Types.

(** ** Keys *)

(** [db::compute_key_hash]: the first 12 hexadecimal digits of the digest. *)
Definition compute_key_hash `{Digest} (key : string) : string := hex_encode (str_take 6 (sha256 key)).

Inductive CredentialType : Type := ApiKey | Oauth.

#[global] Instance CredentialType_eq_dec : EqDecision CredentialType.
Proof. solve_decision. Defined.

Record KeyEntry := mkKeyEntry {
  key : string;
  weight : Z;
  cred_type : CredentialType;
  refresh : option string;
  expires : option Z;
  issuer : option string;
  identity : option string
}.

#[global] Instance KeyEntry_eq_dec : EqDecision KeyEntry.
Proof. solve_decision. Defined.

Definition api_key (k : string) (w : Z) : KeyEntry := mkKeyEntry k w ApiKey None None None None.

Definition oauth (access refresh issuer : string) (w : Z) (expires : option Z) : KeyEntry :=
  mkKeyEntry access w Oauth (Some refresh) expires (Some issuer) None.

Definition is_oauth (k : KeyEntry) : bool := bool_decide (cred_type k = Oauth).

Definition cred_type_str (k : KeyEntry) : string :=
  match cred_type k with ApiKey => "api_key" | Oauth => "oauth" end.

Definition non_empty (o : option string) : option string := opt_filter (fun s => negb (str_is_empty s)) o.

Definition identity_secret (k : KeyEntry) : string :=
  if is_oauth k then unwrap_or (non_empty (refresh k)) (key k) else key k.

Definition identity_hash `{Digest} (k : KeyEntry) : string :=
  match non_empty (identity k) with
  | Some id => id
  | None => compute_key_hash (identity_secret k)
  end.

Record PoolConfig := mkPool { keys : list KeyEntry }.

(** ** Providers and routing *)

Inductive ProviderKind : Type := OpenAi | Anthropic | Gemini.

Record ProviderConfig := mkProviderConfig {
  prov_id : string;
  prov_pool_id : string;
  base_url : string;
  prov_kind : ProviderKind;
  metadata : Value
}.

Inductive ModelRouting : Type :=
| Simple (pool : string)
| WithParams (pool : string) (default_params : Value) (upstream_model : option string).

Definition pool_id (r : ModelRouting) : string :=
  match r with Simple s => s | WithParams p _ _ => p end.

Definition default_params (r : ModelRouting) : option Value :=
  match r with
  | Simple _ => None
  | WithParams _ p _ => if is_object p then Some p else None
  end.

Definition upstream_model (r : ModelRouting) : option string :=
  match r with
  | Simple _ => None
  | WithParams _ _ u => non_empty (trim <$> u)
  end.

Definition to_export_value (r : ModelRouting) : Value :=
  match r with
  | Simple pool => Str pool
  | WithParams pool dp um =>
      let upstream := non_empty (trim <$> um) in
      let params := if is_object dp then Some dp else None in
      match upstream, params with
      | None, None => Str pool
      | _, _ =>
          let object := map_insert "pool" (Str pool) [] in
          let object := match params with Some p => map_insert "default_params" p object | None => object end in
          let object := match upstream with Some u => map_insert "upstream_model" (Str u) object | None => object end in
          Object object
      end
  end.

(** [#[serde(untagged)]]: a string is [Simple]; an object with a string
    [pool] is [WithParams], its other fields defaulting to null and [None]. *)
Definition routing_of_value (v : Value) : option ModelRouting :=
  match v with
  | Str s => Some (Simple s)
  | Object m =>
      match map_get "pool" m with
      | Some (Str p) =>
          match map_get "upstream_model" m with
          | None | Some Null => Some (WithParams p (unwrap_or (map_get "default_params" m) Null) None)
          | Some (Str u) => Some (WithParams p (unwrap_or (map_get "default_params" m) Null) (Some u))
          | Some _ => None
          end
      | _ => None
      end
  | _ => None
  end.

(** ** Model registry rows and metadata *)

Definition price_ok (p : yaml_f64) : bool :=
  match p with Finite q => Qle_bool 0 q | Infinite | NaN => false end.

Record ModelRegistryConfig := mkRegistryConfig {
  reg_id : string;
  reg_display_name : string;
  reg_provider_kind : string;
  reg_provider_config_id : option string;
  reg_supports_vision : bool;
  reg_supports_tool_calling : bool;
  reg_supports_json_mode : bool;
  reg_max_context_tokens : Z;
  reg_max_output_tokens : Z;
  reg_input_price : option yaml_f64;
  reg_output_price : option yaml_f64;
  reg_capabilities : Value;
  reg_enabled : bool
}.

Record MetadataPricingPartial := mkPricingPartial {
  pp_input : option Q; pp_output : option Q; pp_cache_read : option Q; pp_cache_write : option Q
}.

Record ModelMetadataPartial := mkMetaPartial {
  mp_name : option string;
  mp_context_window : option Z;
  mp_max_output_tokens : option Z;
  mp_input_types : option (list string);
  mp_reasoning : option bool;
  mp_thinking_levels : option (list string);
  mp_supports_tools : option bool;
  mp_supports_vision : option bool;
  mp_pricing : MetadataPricingPartial
}.

Definition empty_partial : ModelMetadataPartial :=
  mkMetaPartial None None None None None None None None (mkPricingPartial None None None None).

Record ModelMetadataConfig := mkMetaConfig {
  defaults : ModelMetadataPartial;
  meta_pools : gmap string ModelMetadataPartial;
  meta_models : gmap string ModelMetadataPartial
}.

Record MetadataPricing := mkMetaPricing {
  mpr_input : Q; mpr_output : Q; mpr_cache_read : Q; mpr_cache_write : Q
}.

Record ModelMetadata := mkMetadata {
  meta_name : string;
  context_window : Z;
  max_output_tokens : Z;
  input_types : list string;
  meta_reasoning : bool;
  thinking_levels : list string;
  supports_tools : bool;
  supports_vision : bool;
  meta_pricing : MetadataPricing
}.

(** One turn of the merging loop: every present field overwrites. *)
Definition merge_partial (out : ModelMetadata) (p : ModelMetadataPartial) : ModelMetadata :=
  mkMetadata
    (unwrap_or (mp_name p) (meta_name out))
    (unwrap_or (mp_context_window p) (context_window out))
    (unwrap_or (mp_max_output_tokens p) (max_output_tokens out))
    (unwrap_or (mp_input_types p) (input_types out))
    (unwrap_or (mp_reasoning p) (meta_reasoning out))
    (unwrap_or (mp_thinking_levels p) (thinking_levels out))
    (unwrap_or (mp_supports_tools p) (supports_tools out))
    (unwrap_or (mp_supports_vision p) (supports_vision out))
    (mkMetaPricing
       (unwrap_or (pp_input (mp_pricing p)) (mpr_input (meta_pricing out)))
       (unwrap_or (pp_output (mp_pricing p)) (mpr_output (meta_pricing out)))
       (unwrap_or (pp_cache_read (mp_pricing p)) (mpr_cache_read (meta_pricing out)))
       (unwrap_or (pp_cache_write (mp_pricing p)) (mpr_cache_write (meta_pricing out)))).

Definition for_model (c : ModelMetadataConfig) (model pool : string) : ModelMetadata :=
  let out := mkMetadata model 128000 16384 ["text"] false [] false false (mkMetaPricing 0 0 0 0) in
  let pool_partial := unwrap_or (meta_pools c !! pool) empty_partial in
  let model_partial := unwrap_or (meta_models c !! model) empty_partial in
  foldl merge_partial out [defaults c; pool_partial; model_partial].

(** ** Operational settings *)

Record FailoverConfig := mkFailover {
  fo_enabled : bool;
  bad_status_codes : list Z;
  max_retries : Z;
  probe_interval_secs : Z;
  probe_timeout_secs : Z;
  max_probe_retries : Z
}.

(** The values of [default_*] used when a field is absent. *)
Definition default_failover : FailoverConfig := mkFailover true [401; 402; 403; 429] 1 60 10 3.

Record ChannelDef := mkChannelDef { cd_enabled : bool; cd_url : string }.
Record ChannelsConfig := mkChannels { ch_webhook : ChannelDef; ch_slack : ChannelDef; ch_discord : ChannelDef }.

Record AlertConfig := mkAlertConfig {
  al_enabled : bool;
  webhook_url : string;
  webhook_secret : string;
  min_error_burst : Z;
  min_latency_ms : Z;
  al_channels : ChannelsConfig
}.

(** [AlertConfig::default()], derived: every number is 0. *)
Definition alert_config_default : AlertConfig :=
  mkAlertConfig false "" "" 0 0
    (mkChannels (mkChannelDef false "") (mkChannelDef false "") (mkChannelDef false "")).

(** An [alerts:] section that is present but empty: the fields' own defaults. *)
Definition alert_config_empty_section : AlertConfig :=
  mkAlertConfig false "" "" 3 30000
    (mkChannels (mkChannelDef false "") (mkChannelDef false "") (mkChannelDef false "")).

Record ConcurrencyConfig := mkConcConfig { cc_max_per_tenant : Z; cc_total_max : Z }.
Definition concurrency_config_default : ConcurrencyConfig := mkConcConfig 50 500.

Record RateLimitConfig := mkRateConfig { rl_enabled : bool; requests_per_minute : Z }.
Record AdminConfig := mkAdmin { admin_enabled : bool; allowed_ips : list string }.

Record ResponseNormalization := mkNormalization { strip_think_tags : bool }.

(** ** Validation *)

(** The sections of [Config] that [validate] reads. *)
Record Config := mkConfig {
  pools : gmap string PoolConfig;
  providers : list ProviderConfig;
  model_to_pool : gmap string ModelRouting;
  model_registry : list ModelRegistryConfig
}.

Section Validate.
Context `{!DashIter string ModelRouting} `{!DashIter string PoolConfig}.

Definition validate_route (c : Config) (mr : string * ModelRouting) : Result unit AppError :=
  let '(model, routing) := mr in
  if negb (is_some (pools c !! pool_id routing)) then
    Err (ConfigError ("Model '" +:+ model +:+ "' references pool '" +:+ pool_id routing
                      +:+ "' which does not exist"))
  else Ok tt.

Definition validate_provider (c : Config) (p : ProviderConfig) : Result unit AppError :=
  if negb (is_some (pools c !! prov_pool_id p)) then
    Err (ConfigError ("Provider '" +:+ prov_id p +:+ "' references pool '" +:+ prov_pool_id p
                      +:+ "' which does not exist"))
  else Ok tt.

Definition validate_key (pool : string) (ik : nat * KeyEntry) : Result unit AppError :=
  let '(i, k) := ik in
  let here := "Pool '" +:+ pool +:+ "' key " +:+ string_of_N (N.of_nat i) in
  if is_oauth k then
    if negb (is_some (non_empty (refresh k)))
    then Err (ConfigError (here +:+ " oauth credential is missing refresh"))
    else if negb (is_some (non_empty (issuer k)))
    then Err (ConfigError (here +:+ " oauth credential is missing issuer"))
    else Ok tt
  else if str_is_empty (key k) then Err (ConfigError (here +:+ " has empty key"))
  else Ok tt.

Definition validate_pool (pp : string * PoolConfig) : Result unit AppError :=
  check_all (validate_key pp.1) (zip (seq 0 (length (keys pp.2))) (keys pp.2)).

Definition registry_err (e : ModelRegistryConfig) (what : string) : Result unit AppError :=
  Err (ConfigError ("model_registry entry '" +:+ reg_id e +:+ "' " +:+ what)).

Definition validate_entry (c : Config) (e : ModelRegistryConfig) : Result unit AppError :=
  if str_is_empty (trim (reg_id e)) then Err (ConfigError "model_registry entry id must be non-empty")
  else if str_is_empty (trim (reg_display_name e)) then registry_err e "display_name must be non-empty"
  else if str_is_empty (trim (reg_provider_kind e)) then registry_err e "provider_kind must be non-empty"
  else if (reg_max_context_tokens e <=? 0) || (reg_max_output_tokens e <=? 0)
  then registry_err e "token limits must be positive"
  else
    let? _ := check_all (fun p => if price_ok p then Ok tt
                                  else registry_err e "prices must be finite and non-negative")
                (option_list (reg_input_price e) ++ option_list (reg_output_price e)) in
    if negb (is_null (reg_capabilities e)) && negb (is_object (reg_capabilities e))
    then registry_err e "capabilities_json must be an object"
    else match reg_provider_config_id e with
         | None => Ok tt
         | Some p =>
             if str_is_empty (trim p) then registry_err e "provider_config_id cannot be empty"
             else if negb (existsb (fun q => str_eqb (prov_id q) p) (providers c))
             then registry_err e ("references unknown provider '" +:+ p +:+ "'")
             else Ok tt
         end.

Fixpoint validate_registry (c : Config) (seen : list string) (l : list ModelRegistryConfig)
    : Result unit AppError :=
  match l with
  | [] => Ok tt
  | e :: l' =>
      let? _ := validate_entry c e in
      if existsb (str_eqb (reg_id e)) seen
      then Err (ConfigError ("duplicate model_registry id '" +:+ reg_id e +:+ "'"))
      else validate_registry c (reg_id e :: seen) l'
  end.

Definition validate (c : Config) : Result unit AppError :=
  let? _ := check_all (validate_route c) (dash_iter (model_to_pool c)) in
  let? _ := check_all (validate_provider c) (providers c) in
  let? _ := check_all validate_pool (dash_iter (pools c)) in
  validate_registry c [] (model_registry c).
End Validate.

(* ------------------------------------------------------------------ *)
(** ** What validation promises *)

(** A credential the gateway can use. *)
Definition key_valid (k : KeyEntry) : Prop :=
  match cred_type k with
  | Oauth => (exists r, refresh k = Some r /\ r ≠ "") /\ (exists i, issuer k = Some i /\ i ≠ "")
  | ApiKey => key k ≠ ""
  end.

Definition entry_valid (c : Config) (e : ModelRegistryConfig) : Prop :=
  trim (reg_id e) ≠ "" /\ trim (reg_display_name e) ≠ "" /\ trim (reg_provider_kind e) ≠ ""
  /\ 0 < reg_max_context_tokens e /\ 0 < reg_max_output_tokens e
  /\ (forall p, reg_input_price e = Some p \/ reg_output_price e = Some p -> price_ok p = true)
  /\ (reg_capabilities e = Null \/ is_object (reg_capabilities e) = true)
  /\ (forall p, reg_provider_config_id e = Some p ->
        trim p ≠ "" /\ exists q, q ∈ providers c /\ prov_id q = p).

Definition config_valid (c : Config) : Prop :=
  map_Forall (fun _ r => is_Some (pools c !! pool_id r)) (model_to_pool c)
  /\ Forall (fun p => is_Some (pools c !! prov_pool_id p)) (providers c)
  /\ map_Forall (fun _ p => Forall key_valid (keys p)) (pools c)
  /\ Forall (entry_valid c) (model_registry c)
  /\ NoDup (reg_id <$> model_registry c).

Lemma is_some_true {A} (o : option A) : is_some o = true <-> is_Some o.
Proof. destruct o; simpl; split; intros H; done. Qed.

Lemma non_empty_some o : is_some (non_empty o) = true <-> exists s, o = Some s /\ s ≠ "".
Proof.
  destruct o as [[|c s]|]; simpl; split; try done; [by intros (? & [= <-] & ?)|eauto|by intros (? & ? & _)].
Qed.

Lemma str_is_empty_false s : str_is_empty s = false <-> s ≠ "".
Proof. by destruct s. Qed.

Lemma validate_key_ok pool i k : is_ok (validate_key pool (i, k)) = true <-> key_valid k.
Proof.
  unfold validate_key, key_valid, is_oauth. destruct (cred_type k); simpl.
  - destruct (str_is_empty (key k)) eqn:E; simpl; rewrite <- str_is_empty_false, E; done.
  - rewrite <- !non_empty_some. destruct (is_some (non_empty (refresh k))); simpl; [|split; [done|by intros []]].
    destruct (is_some (non_empty (issuer k))); simpl; [done|split; [done|by intros []]].
Qed.

Lemma zip_seq_forall {A} (P : A -> Prop) (l : list A) n :
  Forall (fun ik : nat * A => P ik.2) (zip (seq n (length l)) l) <-> Forall P l.
Proof.
  revert n; induction l as [|x l IH]; intros n; simpl; [by rewrite !Forall_nil|].
  by rewrite !Forall_cons, IH.
Qed.

Lemma validate_pool_ok pp : is_ok (validate_pool pp) = true <-> Forall key_valid (keys pp.2).
Proof.
  unfold validate_pool. rewrite check_all_ok, <- (zip_seq_forall key_valid (keys pp.2) 0).
  apply Forall_iff. intros [i k]. apply validate_key_ok.
Qed.

Lemma is_ok_bind {A E} (r : Result A E) (k : Result unit E) :
  is_ok (match r with Ok _ => k | Err e => Err e end) = is_ok r && is_ok k.
Proof. by destruct r. Qed.

(** One guard of a chain of early returns. *)
Lemma is_ok_guard {A E} (b : bool) (e : E) (k : Result A E) :
  is_ok (if b then Err e else k) = negb b && is_ok k.
Proof. by destruct b. Qed.

Lemma prices_ok e l :
  is_ok (check_all (fun p => if price_ok p then Ok tt
                             else registry_err e "prices must be finite and non-negative") l) = true
  <-> Forall (fun p => price_ok p = true) l.
Proof. rewrite check_all_ok. apply Forall_iff. intros p. by destruct (price_ok p). Qed.

Lemma provider_known c p :
  existsb (fun q => str_eqb (prov_id q) p) (providers c) = true <-> exists q, q ∈ providers c /\ prov_id q = p.
Proof.
  rewrite existsb_exists. split; intros (q & H1 & H2); exists q;
    rewrite ?list_elem_of_In in *; [by apply str_eqb_spec in H2|]. by rewrite str_eqb_spec.
Qed.

Lemma validate_entry_ok c e : is_ok (validate_entry c e) = true <-> entry_valid c e.
Proof.
  unfold validate_entry, entry_valid, registry_err.
  rewrite !is_ok_guard, is_ok_bind, !is_ok_guard, !andb_true_iff, !negb_true_iff.
  rewrite !str_is_empty_false. fold (registry_err e "prices must be finite and non-negative"). rewrite prices_ok.
  rewrite orb_false_iff, !Z.leb_gt.
  assert (Hp : Forall (fun p => price_ok p = true) (option_list (reg_input_price e) ++ option_list (reg_output_price e))
    <-> (forall p, reg_input_price e = Some p \/ reg_output_price e = Some p -> price_ok p = true)).
  { rewrite Forall_app. destruct (reg_input_price e), (reg_output_price e); simpl;
      rewrite ?Forall_cons, ?Forall_nil; naive_solver. }
  rewrite Hp.
  assert (Hc : negb (is_null (reg_capabilities e)) && negb (is_object (reg_capabilities e)) = false
    <-> (reg_capabilities e = Null \/ is_object (reg_capabilities e) = true)).
  { destruct (reg_capabilities e); simpl; naive_solver. }
  rewrite Hc.
  assert (Hq : is_ok (match reg_provider_config_id e with
         | None => Ok tt
         | Some p =>
             if str_is_empty (trim p) then
               Err (ConfigError ("model_registry entry '" +:+ reg_id e +:+ "' " +:+ "provider_config_id cannot be empty"))
             else if negb (existsb (fun q => str_eqb (prov_id q) p) (providers c))
             then Err (ConfigError ("model_registry entry '" +:+ reg_id e +:+ "' "
                                    +:+ ("references unknown provider '" +:+ p +:+ "'")))
             else Ok tt
         end) = true
    <-> (forall p, reg_provider_config_id e = Some p ->
        trim p ≠ "" /\ exists q, q ∈ providers c /\ prov_id q = p)).
  { destruct (reg_provider_config_id e) as [p|]; [|naive_solver].
    rewrite !is_ok_guard, !andb_true_iff, negb_true_iff, str_is_empty_false, negb_involutive, provider_known.
    naive_solver. }
  rewrite Hq. naive_solver.
Qed.

Lemma validate_registry_ok c seen l :
  is_ok (validate_registry c seen l) = true
  <-> Forall (entry_valid c) l /\ NoDup (reg_id <$> l) /\ Forall (fun e => reg_id e ∉ seen) l.
Proof.
  revert seen; induction l as [|e l IH]; intros seen; simpl.
  { split; [|done]. intros _. repeat constructor. }
  rewrite is_ok_bind, is_ok_guard, !andb_true_iff, validate_entry_ok, IH, !Forall_cons, NoDup_cons.
  assert (Hs : negb (existsb (str_eqb (reg_id e)) seen) = true <-> reg_id e ∉ seen).
  { rewrite negb_true_iff, <- not_true_iff_false, existsb_exists, list_elem_of_In. split.
    - intros H Hin. apply H. exists (reg_id e). by rewrite str_eqb_refl.
    - intros H (x & Hin & Hx). apply str_eqb_spec in Hx. by rewrite Hx in H. }
  rewrite Hs.
  assert (Hf : Forall (fun e0 => reg_id e0 ∉ reg_id e :: seen) l
    <-> (reg_id e ∉ (reg_id <$> l)) /\ Forall (fun e0 => reg_id e0 ∉ seen) l).
  { rewrite !Forall_forall, list_elem_of_fmap. setoid_rewrite not_elem_of_cons. split.
    - intros H. split; [|intros; by apply H]. intros (x & Hx & Hin). by destruct (H x Hin).
    - intros [H1 H2] x Hx. split; [|by apply H2]. intros Hid. apply H1. eauto. }
  rewrite Hf. naive_solver.
Qed.

Section ValidateSpec.
Context `{!DashIter string ModelRouting} `{!DashIter string PoolConfig}.

Lemma dash_forall {V} `{!DashIter string V} (P : string -> V -> Prop) (m : gmap string V) :
  Forall (fun kv : string * V => P kv.1 kv.2) (dash_iter m) <-> map_Forall P m.
Proof.
  rewrite Forall_forall, map_Forall_lookup. split.
  - intros H k v Hk. apply dash_iter_elem in Hk. apply (H _ Hk).
  - intros H [k v] Hk. apply dash_iter_elem in Hk. by apply H.
Qed.

Lemma validate_ok c : is_ok (validate c) = true <-> config_valid c.
Proof.
  unfold validate, config_valid.
  rewrite !is_ok_bind, !andb_true_iff, !check_all_ok, validate_registry_ok.
  rewrite <- (dash_forall (fun _ r => is_Some (pools c !! pool_id r)) (model_to_pool c)).
  rewrite <- (dash_forall (fun _ p => Forall key_valid (keys p)) (pools c)).
  assert (H1 : Forall (fun x => is_ok (validate_route c x) = true) (dash_iter (model_to_pool c))
    <-> Forall (fun kv => is_Some (pools c !! pool_id kv.2)) (dash_iter (model_to_pool c))).
  { apply Forall_iff. intros [m r]. unfold validate_route.
    rewrite is_ok_guard, negb_involutive, andb_true_r. apply is_some_true. }
  assert (H2 : Forall (fun x => is_ok (validate_provider c x) = true) (providers c)
    <-> Forall (fun p => is_Some (pools c !! prov_pool_id p)) (providers c)).
  { apply Forall_iff. intros p. unfold validate_provider.
    rewrite is_ok_guard, negb_involutive, andb_true_r. apply is_some_true. }
  assert (H3 : Forall (fun x => is_ok (validate_pool x) = true) (dash_iter (pools c))
    <-> Forall (fun kv => Forall key_valid (keys kv.2)) (dash_iter (pools c))).
  { apply Forall_iff. intros pp. apply validate_pool_ok. }
  assert (H4 : Forall (fun e => reg_id e ∉ @nil string) (model_registry c)).
  { apply Forall_forall. intros; set_solver. }
  rewrite H1, H2, H3. naive_solver.
Qed.

(** Claim C22: [Config::validate] accepts a configuration exactly when every
    model and every provider points at an existing pool, every key of every
    pool is usable (an API key is non-empty; an OAuth entry has a refresh token
    and an issuer) and the registry rows are well-formed, reference known
    providers and have distinct ids; whatever the iteration order of the maps. *)
Theorem validate_iff c : is_ok (validate c) = true <-> config_valid c.
Proof. apply validate_ok. Qed.
End ValidateSpec.

(** Exporting a routing entry and reading it back gives an entry that
    routes the same way: same pool, same default parameters, same upstream
    model name. *)
Theorem routing_export_roundtrip r :
  exists r', routing_of_value (to_export_value r) = Some r'
  /\ pool_id r' = pool_id r /\ default_params r' = default_params r /\ upstream_model r' = upstream_model r.
Proof.
  destruct r as [p|p dp um]; simpl; [by exists (Simple p)|].
  destruct (non_empty (trim <$> um)) as [u|] eqn:Eu.
  - assert (Hu : non_empty (Some (trim u)) = Some u).
    { destruct um as [u0|]; simpl in Eu; [|done].
      destruct (str_is_empty (trim u0)) eqn:E0; simpl in Eu; [done|]. injection Eu as <-.
      simpl. rewrite trim_idemp, E0. done. }
    simpl in Hu. destruct (is_object dp) eqn:Ed; simpl.
    + exists (WithParams p dp (Some u)). simpl. rewrite Ed. by rewrite Hu.
    + exists (WithParams p Null (Some u)). simpl. by rewrite Hu.
  - destruct (is_object dp) eqn:Ed; simpl.
    + exists (WithParams p dp None). simpl. by rewrite Ed.
    + by exists (Simple p).
Qed.
