(* ===== verification/Pricing.v ===== *)
(** * Accounting prices

    Models [src/src/config/pricing.rs] (the price table, its lookup and the cost
    of a request) and the composition of the four price layers in
    [src/src/config_store.rs] ([PricingOverride], [compose_pricing]). *)

From Stdlib Require Import Lqa.
From S2P Require Import Prelude Json Types Config.

Record PriceEntry := mkPrice { price_prompt : Q; price_completion : Q }.
Definition zero_price : PriceEntry := mkPrice 0 0.

Record ModelPricing := mkModelPricing { mp_default : PriceEntry; mp_tenants : gmap string PriceEntry }.

Record PricingConfig := mkPricing { priced_models : gmap string ModelPricing }.

(** The two YAML shapes. *)
Inductive RawPricing : Type :=
| V2 (models : gmap string ModelPricing)
| V1 (flat : gmap string PriceEntry).

Definition pricing_of_raw (raw : RawPricing) : PricingConfig :=
  match raw with
  | V2 models => mkPricing models
  | V1 flat => mkPricing ((fun p => mkModelPricing p ∅) <$> flat)
  end.

Definition lookup_price (c : PricingConfig) (model : string) (tenant : option string) : PriceEntry :=
  match priced_models c !! model with
  | None => zero_price
  | Some mp =>
      match tenant with
      | Some t => match mp_tenants mp !! t with Some pe => pe | None => mp_default mp end
      | None => mp_default mp
      end
  end.

(** [prompt_tokens as f64 * price / 1_000_000.0 + ..], every operation rounded. *)
Definition cost_usd `{F64} (c : PricingConfig) (model : string) (tenant : option string)
    (prompt_tokens completion_tokens : Z) : option Q :=
  let price := lookup_price c model tenant in
  if Qeq_bool (price_prompt price) 0 && Qeq_bool (price_completion price) 0 then None
  else Some (fadd (fdiv (fmul (f64_of_Z prompt_tokens) (price_prompt price)) 1000000)
                  (fdiv (fmul (f64_of_Z completion_tokens) (price_completion price)) 1000000)).

(** ** The catalog and the overrides *)

Record ModelRegistryEntry := mkRegistryEntry {
  mre_id : string;
  mre_display_name : string;
  mre_provider_kind : string;
  mre_provider_config_id : option string;
  mre_supports_vision : bool;
  mre_supports_tool_calling : bool;
  mre_supports_json_mode : bool;
  mre_max_context_tokens : Z;
  mre_max_output_tokens : Z;
  mre_input_price : option Q;
  mre_output_price : option Q;
  mre_capabilities_json : option string;
  mre_enabled : bool
}.

Record PricingOverride := mkOverride {
  ov_model_id : string;
  ov_tenant_id : option string;
  ov_input : Q;
  ov_output : Q;
  effective_from : Z;
  effective_until : option Z
}.

Definition is_effective_at (o : PricingOverride) (now_ms : Z) : bool :=
  if now_ms <? effective_from o then false
  else match effective_until o with None => true | Some until => now_ms <? until end.

Definition override_price (o : PricingOverride) : PriceEntry := mkPrice (ov_input o) (ov_output o).

Definition empty_slot : ModelPricing := mkModelPricing zero_price ∅.

(** [models.entry(m).or_insert_with(..)] followed by an update of the slot. *)
Definition update_slot (models : gmap string ModelPricing) (m : string) (f : ModelPricing -> ModelPricing)
    : gmap string ModelPricing :=
  <[m := f (unwrap_or (models !! m) empty_slot)]> models.

Definition catalog_layer (models : gmap string ModelPricing) (e : ModelRegistryEntry)
    : gmap string ModelPricing :=
  <[mre_id e := mkModelPricing
      (mkPrice (unwrap_or (mre_input_price e) 0%Q) (unwrap_or (mre_output_price e) 0%Q)) ∅]> models.

Definition is_positive (q : Q) : bool := negb (Qle_bool q 0).

Section Compose.
Context `{!DashIter string ModelPricing} `{!DashIter string PriceEntry}.

Definition yaml_layer (models : gmap string ModelPricing) (my : string * ModelPricing)
    : gmap string ModelPricing :=
  let '(model, y) := my in
  update_slot models model (fun slot =>
    mkModelPricing
      (if is_positive (price_prompt (mp_default y)) || is_positive (price_completion (mp_default y))
       then mp_default y else mp_default slot)
      (foldl (fun ts tp => <[tp.1 := tp.2]> ts) (mp_tenants slot) (dash_iter (mp_tenants y)))).

Definition global_layer (now_ms : Z) (models : gmap string ModelPricing) (ov : PricingOverride)
    : gmap string ModelPricing :=
  if negb (is_effective_at ov now_ms) then models
  else match ov_tenant_id ov with
       | Some _ => models
       | None => update_slot models (ov_model_id ov) (fun slot =>
                   mkModelPricing (override_price ov) (mp_tenants slot))
       end.

Definition tenant_layer (now_ms : Z) (models : gmap string ModelPricing) (ov : PricingOverride)
    : gmap string ModelPricing :=
  if negb (is_effective_at ov now_ms) then models
  else match ov_tenant_id ov with
       | None => models
       | Some tenant => update_slot models (ov_model_id ov) (fun slot =>
                          mkModelPricing (mp_default slot) (<[tenant := override_price ov]> (mp_tenants slot)))
       end.

Definition compose_pricing (bootstrap : PricingConfig) (catalog : list ModelRegistryEntry)
    (overrides : list PricingOverride) (now_ms : Z) : PricingConfig :=
  let models := foldl catalog_layer ∅ catalog in
  let models := foldl yaml_layer models (dash_iter (priced_models bootstrap)) in
  let models := foldl (global_layer now_ms) models overrides in
  let models := foldl (tenant_layer now_ms) models overrides in
  mkPricing models.
End Compose.

(* ------------------------------------------------------------------ *)
(** ** Reference: the price a request is charged, layer by layer *)

Definition matches_global (model : string) (now_ms : Z) (o : PricingOverride) : bool :=
  is_effective_at o now_ms && negb (is_some (ov_tenant_id o)) && str_eqb (ov_model_id o) model.

Definition matches_tenant (model tenant : string) (now_ms : Z) (o : PricingOverride) : bool :=
  is_effective_at o now_ms && bool_decide (ov_tenant_id o = Some tenant) && str_eqb (ov_model_id o) model.

Definition catalog_price (catalog : list ModelRegistryEntry) (model : string) : PriceEntry :=
  match find_last (fun e => str_eqb (mre_id e) model) catalog with
  | Some e => mkPrice (unwrap_or (mre_input_price e) 0%Q) (unwrap_or (mre_output_price e) 0%Q)
  | None => zero_price
  end.

Definition yaml_default (bootstrap : PricingConfig) (model : string) : option PriceEntry :=
  match priced_models bootstrap !! model with
  | Some y => if is_positive (price_prompt (mp_default y)) || is_positive (price_completion (mp_default y))
              then Some (mp_default y) else None
  | None => None
  end.

Definition yaml_tenant (bootstrap : PricingConfig) (model tenant : string) : option PriceEntry :=
  match priced_models bootstrap !! model with Some y => mp_tenants y !! tenant | None => None end.

Definition reference_default (bootstrap : PricingConfig) (catalog : list ModelRegistryEntry)
    (overrides : list PricingOverride) (now_ms : Z) (model : string) : PriceEntry :=
  match find_last (matches_global model now_ms) overrides with
  | Some o => override_price o
  | None => unwrap_or (yaml_default bootstrap model) (catalog_price catalog model)
  end.

(** The tenant's own rows first: the database row, then the YAML entry; then the
    price for every tenant: the database row, the YAML default, the catalog. *)
Definition reference_price (bootstrap : PricingConfig) (catalog : list ModelRegistryEntry)
    (overrides : list PricingOverride) (now_ms : Z) (model : string) (tenant : option string) : PriceEntry :=
  let dflt := reference_default bootstrap catalog overrides now_ms model in
  match tenant with
  | None => dflt
  | Some t =>
      match find_last (matches_tenant model t now_ms) overrides with
      | Some o => override_price o
      | None => unwrap_or (yaml_tenant bootstrap model t) dflt
      end
  end.

(* ------------------------------------------------------------------ *)
(** ** Lemmas *)

(** The slot a model is charged from: absent models charge zero. *)
Definition slot_of (models : gmap string ModelPricing) (m : string) : ModelPricing :=
  unwrap_or (models !! m) empty_slot.

Lemma slot_of_update models m f m' :
  slot_of (update_slot models m f) m' = if str_eqb m m' then f (slot_of models m') else slot_of models m'.
Proof.
  unfold slot_of, update_slot, str_eqb. case_bool_decide as E; simpl.
  - subst. by rewrite lookup_insert_eq.
  - by rewrite lookup_insert_ne.
Qed.

Lemma lookup_slot models model tenant :
  lookup_price (mkPricing models) model tenant
  = match tenant with
    | Some t => match mp_tenants (slot_of models model) !! t with
                | Some pe => pe | None => mp_default (slot_of models model) end
    | None => mp_default (slot_of models model)
    end.
Proof.
  unfold lookup_price, slot_of. simpl. destruct (models !! model); [done|]. simpl.
  destruct tenant; [|done]. by rewrite lookup_empty.
Qed.

Lemma catalog_slot l model :
  slot_of (foldl catalog_layer ∅ l) model = mkModelPricing (catalog_price l model) ∅.
Proof.
  unfold catalog_price. induction l as [|e l IH] using rev_ind.
  - unfold slot_of. simpl. by rewrite lookup_empty.
  - rewrite foldl_app, find_last_snoc. cbn [foldl]. unfold catalog_layer at 1, slot_of, str_eqb.
    case_bool_decide as E; [subst; by rewrite lookup_insert_eq|]. rewrite lookup_insert_ne by done. exact IH.
Qed.

Lemma global_slot now l models model :
  slot_of (foldl (global_layer now) models l) model
  = match find_last (matches_global model now) l with
    | Some o => mkModelPricing (override_price o) (mp_tenants (slot_of models model))
    | None => slot_of models model
    end.
Proof.
  induction l as [|o l IH] using rev_ind; [done|].
  rewrite foldl_app, find_last_snoc. cbn [foldl]. unfold global_layer at 1, matches_global.
  destruct (is_effective_at o now); cbn [negb andb]; [|exact IH].
  destruct (ov_tenant_id o); cbn [is_some negb andb]; [exact IH|].
  rewrite slot_of_update, IH. destruct (str_eqb (ov_model_id o) model); [|done].
  by destruct (find_last _ l).
Qed.

Lemma tenant_slot now l models model :
  mp_default (slot_of (foldl (tenant_layer now) models l) model) = mp_default (slot_of models model)
  /\ forall t, mp_tenants (slot_of (foldl (tenant_layer now) models l) model) !! t
     = match find_last (matches_tenant model t now) l with
       | Some o => Some (override_price o)
       | None => mp_tenants (slot_of models model) !! t
       end.
Proof.
  induction l as [|o l [IH1 IH2]] using rev_ind; [done|].
  rewrite foldl_app. cbn [foldl]. unfold tenant_layer at 1 3. setoid_rewrite find_last_snoc.
  unfold matches_tenant.
  destruct (is_effective_at o now); cbn [negb andb]; [|split; [exact IH1|exact IH2]].
  destruct (ov_tenant_id o) as [t0|]; [|split; [exact IH1|exact IH2]].
  rewrite slot_of_update. destruct (str_eqb (ov_model_id o) model).
  - split; [exact IH1|]. intros t. simpl. destruct (decide (t0 = t)) as [->|Hne].
    + by rewrite lookup_insert_eq, bool_decide_true.
    + rewrite lookup_insert_ne by done. rewrite bool_decide_false by congruence. apply IH2.
  - split; [exact IH1|]. intros t. rewrite andb_false_r. apply IH2.
Qed.

Section Layers.
Context `{!DashIter string ModelPricing} `{!DashIter string PriceEntry}.

Lemma foldl_insert_lookup (l : list (string * PriceEntry)) (ts : gmap string PriceEntry) t :
  NoDup l.*1 ->
  (forall p, (t, p) ∈ l -> foldl (fun ts tp => <[tp.1 := tp.2]> ts) ts l !! t = Some p)
  /\ (t ∉ l.*1 -> foldl (fun ts tp => <[tp.1 := tp.2]> ts) ts l !! t = ts !! t).
Proof.
  revert ts; induction l as [|[k v] l IH]; intros ts Hnd; [split; [set_solver|done]|].
  apply NoDup_cons in Hnd as [Hk Hnd]. simpl in Hk.
  destruct (IH (<[k := v]> ts) Hnd) as [H1 H2]. cbn [foldl fst snd]. split.
  - intros p [[= -> ->]|Hin]%elem_of_cons; [|by apply H1]. rewrite H2 by done. by rewrite lookup_insert_eq.
  - intros Ht. rewrite fmap_cons, not_elem_of_cons in Ht. destruct Ht as [Hne Ht].
    rewrite H2 by done. by rewrite lookup_insert_ne.
Qed.

Lemma tenants_merge (y ts : gmap string PriceEntry) t :
  foldl (fun ts tp => <[tp.1 := tp.2]> ts) ts (dash_iter y) !! t = or_else (y !! t) (ts !! t).
Proof.
  destruct (foldl_insert_lookup (dash_iter y) ts t (dash_iter_nodup y)) as [H1 H2].
  destruct (y !! t) as [p|] eqn:E; simpl.
  - apply H1. by apply dash_iter_elem.
  - apply H2. rewrite list_elem_of_fmap. intros ([k v] & -> & Hin).
    apply dash_iter_elem in Hin. simpl in E. congruence.
Qed.

(** What the YAML layer makes of a slot. *)
Definition yaml_slot (y slot : ModelPricing) : ModelPricing :=
  mkModelPricing
    (if is_positive (price_prompt (mp_default y)) || is_positive (price_completion (mp_default y))
     then mp_default y else mp_default slot)
    (foldl (fun ts tp => <[tp.1 := tp.2]> ts) (mp_tenants slot) (dash_iter (mp_tenants y))).

Lemma yaml_fold l models model : NoDup l.*1 ->
  (forall y, (model, y) ∈ l -> slot_of (foldl yaml_layer models l) model = yaml_slot y (slot_of models model))
  /\ (model ∉ l.*1 -> slot_of (foldl yaml_layer models l) model = slot_of models model).
Proof.
  revert models; induction l as [|[m y0] l IH]; intros models Hnd; [split; [set_solver|done]|].
  apply NoDup_cons in Hnd as [Hm Hnd]. simpl in Hm.
  destruct (IH (yaml_layer models (m, y0)) Hnd) as [H1 H2]. cbn [foldl]. split.
  - intros y [[= -> ->]|Hin]%elem_of_cons.
    + rewrite H2 by done. unfold yaml_layer. by rewrite slot_of_update, str_eqb_refl.
    + rewrite (H1 y Hin). unfold yaml_layer. rewrite slot_of_update.
      destruct (str_eqb m model) eqn:E; [|done]. apply str_eqb_spec in E as ->.
      exfalso. apply Hm. apply list_elem_of_fmap. by exists (model, y).
  - intros Ht. rewrite fmap_cons, not_elem_of_cons in Ht. destruct Ht as [Hne Ht]. simpl in Hne.
    rewrite H2 by done. unfold yaml_layer. rewrite slot_of_update.
    destruct (str_eqb m model) eqn:E; [apply str_eqb_spec in E; congruence|done].
Qed.

Lemma yaml_slot_of b models model :
  let s := slot_of (foldl yaml_layer models (dash_iter (priced_models b))) model in
  mp_default s = unwrap_or (yaml_default b model) (mp_default (slot_of models model))
  /\ forall t, mp_tenants s !! t = or_else (yaml_tenant b model t) (mp_tenants (slot_of models model) !! t).
Proof.
  destruct (yaml_fold (dash_iter (priced_models b)) models model (dash_iter_nodup _)) as [H1 H2].
  unfold yaml_default, yaml_tenant. destruct (priced_models b !! model) as [y|] eqn:E; simpl.
  - apply dash_iter_elem in E. rewrite (H1 y E). simpl. split; [by destruct (_ || _)|].
    intros t. apply tenants_merge.
  - rewrite H2; [done|]. rewrite list_elem_of_fmap. intros ([m y] & -> & Hin).
    apply dash_iter_elem in Hin. simpl in E. congruence.
Qed.

Lemma compose_reference bootstrap catalog overrides now_ms model tenant :
  lookup_price (compose_pricing bootstrap catalog overrides now_ms) model tenant
  = reference_price bootstrap catalog overrides now_ms model tenant.
Proof.
  unfold compose_pricing, reference_price, reference_default. rewrite lookup_slot.
  set (m1 := foldl catalog_layer ∅ catalog).
  set (m2 := foldl yaml_layer m1 _). set (m3 := foldl (global_layer now_ms) m2 overrides).
  destruct (tenant_slot now_ms overrides m3 model) as [Hd Ht]. rewrite Hd.
  pose proof (global_slot now_ms overrides m2 model) as Hg. fold m3 in Hg. rewrite Hg.
  destruct (yaml_slot_of bootstrap m1 model) as [Yd Yt]. fold m2 in Yd, Yt.
  assert (Hdef : mp_default (match find_last (matches_global model now_ms) overrides with
      | Some o => mkModelPricing (override_price o) (mp_tenants (slot_of m2 model))
      | None => slot_of m2 model end)
    = match find_last (matches_global model now_ms) overrides with
      | Some o => override_price o
      | None => unwrap_or (yaml_default bootstrap model) (catalog_price catalog model) end).
  { destruct (find_last _ _); [done|]. rewrite Yd. unfold m1. by rewrite catalog_slot. }
  rewrite Hdef. destruct tenant as [t|]; [|done]. rewrite Ht, Hg.
  destruct (find_last (matches_tenant model t now_ms) overrides); [done|].
  assert (mp_tenants (match find_last (matches_global model now_ms) overrides with
      | Some o => mkModelPricing (override_price o) (mp_tenants (slot_of m2 model))
      | None => slot_of m2 model end) !! t = yaml_tenant bootstrap model t) as ->.
  { transitivity (mp_tenants (slot_of m2 model) !! t); [by destruct (find_last _ _)|].
    rewrite Yt. unfold m1. rewrite catalog_slot. simpl. rewrite lookup_empty.
    by destruct (yaml_tenant bootstrap model t). }
  by destruct (yaml_tenant bootstrap model t).
Qed.
(** Looking a (model, tenant) pair up in the composed table gives the
    price of the reference layering: an effective database row for this tenant,
    else the YAML entry for this tenant, else an effective database row for all
    tenants, else a positive YAML default, else the catalog price, else zero;
    where several rows of a layer match, the last one counts, and the iteration
    order of the maps does not matter. *)
Theorem compose_pricing_spec bootstrap catalog overrides now_ms model tenant :
  lookup_price (compose_pricing bootstrap catalog overrides now_ms) model tenant
  = reference_price bootstrap catalog overrides now_ms model tenant.
Proof. apply compose_reference. Qed.

(** A YAML price for a tenant is charged to that tenant even when the database
    holds an effective override for all tenants. *)
Lemma yaml_tenant_outranks_global bootstrap catalog overrides now_ms model t p :
  yaml_tenant bootstrap model t = Some p ->
  find_last (matches_tenant model t now_ms) overrides = None ->
  lookup_price (compose_pricing bootstrap catalog overrides now_ms) model (Some t) = p.
Proof.
  intros Hy Hn. rewrite compose_reference. unfold reference_price. by rewrite Hn, Hy.
Qed.
End Layers.

(** ** Costs *)

Section Cost.
Context `{F64Laws}.

Lemma fdiv_million_mono x y : (x <= y)%Q -> (fdiv x 1000000 <= fdiv y 1000000)%Q.
Proof.
  intros Hxy. apply rnd_mono. unfold Qdiv. apply Qmult_le_compat_r; [done|]. unfold Qle. simpl. lia.
Qed.

Lemma token_cost_mono n n' p : (0 <= p)%Q -> n <= n' ->
  (fdiv (fmul (f64_of_Z n) p) 1000000 <= fdiv (fmul (f64_of_Z n') p) 1000000)%Q.
Proof.
  intros Hp Hn. apply fdiv_million_mono. apply rnd_mono. apply Qmult_le_compat_r; [|done].
  apply rnd_mono. by rewrite <- Zle_Qle.
Qed.

Lemma token_cost_nonneg n p : (0 <= p)%Q -> 0 <= n -> (0 <= fdiv (fmul (f64_of_Z n) p) 1000000)%Q.
Proof.
  intros Hp Hn. apply rnd_nonneg. unfold Qdiv. apply Qmult_le_0_compat; [|unfold Qle; simpl; lia].
  apply rnd_nonneg. apply Qmult_le_0_compat; [|done]. apply rnd_nonneg.
  change 0%Q with (inject_Z 0). by rewrite <- Zle_Qle.
Qed.

(** A request is left without a cost exactly when the price of its
    model and tenant is zero in both directions; with non-negative prices the
    cost is non-negative and does not decrease when more tokens are used,
    whatever the floating-point rounding. *)
Theorem cost_usd_spec c model tenant p1 c1 p2 c2 :
  (0 <= price_prompt (lookup_price c model tenant))%Q ->
  (0 <= price_completion (lookup_price c model tenant))%Q ->
  0 <= p1 <= p2 -> 0 <= c1 <= c2 ->
  (cost_usd c model tenant p1 c1 = None
   <-> (price_prompt (lookup_price c model tenant) == 0)%Q
       /\ (price_completion (lookup_price c model tenant) == 0)%Q)
  /\ (forall x y, cost_usd c model tenant p1 c1 = Some x -> cost_usd c model tenant p2 c2 = Some y ->
        (0 <= x <= y)%Q).
Proof.
  intros Hpp Hpc Hp Hc. unfold cost_usd. set (pr := lookup_price c model tenant) in *.
  destruct (Qeq_bool (price_prompt pr) 0 && Qeq_bool (price_completion pr) 0) eqn:E.
  - apply andb_true_iff in E as [?%Qeq_bool_iff ?%Qeq_bool_iff]. done.
  - split.
    + split; [done|]. intros [H1%Qeq_bool_iff H2%Qeq_bool_iff]. by rewrite H1, H2 in E.
    + intros x y [= <-] [= <-].
      pose proof (token_cost_nonneg p1 _ Hpp ltac:(lia)). pose proof (token_cost_nonneg c1 _ Hpc ltac:(lia)).
      pose proof (token_cost_mono p1 p2 _ Hpp ltac:(lia)). pose proof (token_cost_mono c1 c2 _ Hpc ltac:(lia)).
      split; [apply rnd_nonneg; lra|apply rnd_mono; lra].
Qed.
End Cost.

Definition demo_pricing : PricingConfig :=
  pricing_of_raw (V1 {["m" := mkPrice 3 (15 # 2)]}).

Theorem cost_usd_spec_witness :
  (@cost_usd exact_f64 demo_pricing "m" None 10 1 = None
   <-> (price_prompt (lookup_price demo_pricing "m" None) == 0)%Q
       /\ (price_completion (lookup_price demo_pricing "m" None) == 0)%Q)
  /\ (forall x y, @cost_usd exact_f64 demo_pricing "m" None 10 1 = Some x ->
                  @cost_usd exact_f64 demo_pricing "m" None 20 1 = Some y -> (0 <= x <= y)%Q).
Proof.
  apply (@cost_usd_spec exact_f64 exact_f64_laws demo_pricing "m" None 10 1 20 1); [| |lia|lia];
    vm_compute; discriminate.
Defined.
