(* ===== verification/Db.v ===== *)
(** * The database

    The tables of SQLite that hold the managed configuration, as the migrations
    under [src/migrations/] declare them (0008, 0014, 0015, 0018, 0019), and the
    SQL statements that [config_store.rs], [dashboard/admin_api.rs],
    [model_import.rs] and [cli.rs] run on them.  A table is the list of its rows;
    columns no code reads (timestamps, [priority], [weight] of a provider) are
    left out.  What the statements promise is stated by the tables' keys:
    primary keys, the reference of [key_entry] (cascading) and of
    [routing_config] to [key_pool]. *)

From S2P Require Import Prelude Json Types Config Pricing.

(** ** The driver *)

(** A failure of a statement: a constraint of the schema, or anything else
    (I/O, a locked file, a value that does not decode). *)
Inductive DbError : Type :=
| Driver (msg : string)
| UniqueViolation
| ForeignKeyViolation.

(** sqlx and SQLite: a query without [ORDER BY] returns its rows in any order; an
    [INTEGER] read as an [i32] is the integer when it is in range; errors have
    a text. *)
Class Sqlx := {
  scan : forall {A : Type}, list A -> list A;
  scan_perm : forall (A : Type) (l : list A), scan l ≡ₚ l;
  decode_i32 : Z -> Result Z DbError;
  decode_i32_ok : forall z, - 2 ^ 31 <= z < 2 ^ 31 -> decode_i32 z = Ok z;
  db_display : DbError -> string
}.

(** ** Rows *)

Record KeyPoolRow := mkPoolRow { kp_id : string; kp_strategy : string; kp_enabled : Z }.

Record KeyEntryRow := mkKeyRow {
  ke_pool_id : string; ke_key_hash : string; ke_key_plain : string; ke_weight : Z; ke_enabled : Z;
  ke_cred_type : string; ke_refresh_token : option string; ke_expires_at : option Z; ke_issuer : option string
}.

Record ProviderRow := mkProviderRow {
  pc_id : string; pc_kind : string; pc_base_url : string; pc_pool_id : string; pc_enabled : Z;
  pc_metadata : option string
}.

Record RoutingRow := mkRoutingRow {
  rc_logical_model : string; rc_pool_id : string; rc_default_params : option string;
  rc_upstream_model : option string; rc_enabled : Z
}.

Record RegistryRow := mkRegistryRow {
  mr_id : string; mr_display_name : string; mr_provider_kind : string; mr_provider_config_id : option string;
  mr_supports_vision : Z; mr_supports_tool_calling : Z; mr_supports_json_mode : Z;
  mr_max_context_tokens : Z; mr_max_output_tokens : Z; mr_input_price : option Q; mr_output_price : option Q;
  mr_capabilities_json : option string; mr_enabled : Z
}.

Record OverrideRow := mkOverrideRow {
  po_id : Z; po_model_id : string; po_tenant_id : option string; po_input : Q; po_output : Q;
  po_from : Z; po_until : option Z
}.

Record Database := mkDatabase {
  key_pool_tbl : list KeyPoolRow;
  key_entry_tbl : list KeyEntryRow;
  provider_config_tbl : list ProviderRow;
  routing_config_tbl : list RoutingRow;
  model_registry_tbl : list RegistryRow;
  pricing_override_tbl : list OverrideRow;
  override_seq : Z                     (* the AUTOINCREMENT counter of pricing_override *)
}.

Definition empty_db : Database := mkDatabase [] [] [] [] [] [] 0.

Definition set_key_pool (d : Database) x : Database :=
  mkDatabase x (key_entry_tbl d) (provider_config_tbl d) (routing_config_tbl d) (model_registry_tbl d) (pricing_override_tbl d) (override_seq d).
Definition set_key_entry (d : Database) x : Database :=
  mkDatabase (key_pool_tbl d) x (provider_config_tbl d) (routing_config_tbl d) (model_registry_tbl d) (pricing_override_tbl d) (override_seq d).
Definition set_provider_config (d : Database) x : Database :=
  mkDatabase (key_pool_tbl d) (key_entry_tbl d) x (routing_config_tbl d) (model_registry_tbl d) (pricing_override_tbl d) (override_seq d).
Definition set_routing_config (d : Database) x : Database :=
  mkDatabase (key_pool_tbl d) (key_entry_tbl d) (provider_config_tbl d) x (model_registry_tbl d) (pricing_override_tbl d) (override_seq d).
Definition set_model_registry (d : Database) x : Database :=
  mkDatabase (key_pool_tbl d) (key_entry_tbl d) (provider_config_tbl d) (routing_config_tbl d) x (pricing_override_tbl d) (override_seq d).
Definition set_overrides (d : Database) x n : Database :=
  mkDatabase (key_pool_tbl d) (key_entry_tbl d) (provider_config_tbl d) (routing_config_tbl d) (model_registry_tbl d) x n.

(** ** Statements *)

Definition Stmt (A : Type) : Type := Database -> Result (Database * A) DbError.

Definition read {A} (f : Database -> A) : Stmt A := fun d => Ok (d, f d).
Definition write (f : Database -> Database) : Stmt unit := fun d => Ok (f d, tt).

Definition pool_known (d : Database) (id : string) : bool := existsb (fun r => str_eqb (kp_id r) id) (key_pool_tbl d).
Definition provider_known_db (d : Database) (id : string) : bool :=
  existsb (fun r => str_eqb (pc_id r) id) (provider_config_tbl d).
Definition registry_known (d : Database) (id : string) : bool :=
  existsb (fun r => str_eqb (mr_id r) id) (model_registry_tbl d).

(** [INSERT INTO key_pool]: [id] is the primary key. *)
Definition insert_pool_row (r : KeyPoolRow) : Stmt unit := fun d =>
  if pool_known d (kp_id r) then Err UniqueViolation else Ok (set_key_pool d (key_pool_tbl d ++ [r]), tt).

(** [INSERT OR IGNORE INTO key_pool] *)
Definition insert_or_ignore_pool (r : KeyPoolRow) : Stmt unit := fun d =>
  if pool_known d (kp_id r) then Ok (d, tt) else Ok (set_key_pool d (key_pool_tbl d ++ [r]), tt).

(** [INSERT INTO key_entry]: [pool_id] references [key_pool]. *)
Definition insert_key_row (r : KeyEntryRow) : Stmt unit := fun d =>
  if pool_known d (ke_pool_id r) then Ok (set_key_entry d (key_entry_tbl d ++ [r]), tt) else Err ForeignKeyViolation.

(** [INSERT INTO provider_config]: [id] is the primary key, [pool_id] is free. *)
Definition insert_provider_row (r : ProviderRow) : Stmt unit := fun d =>
  if provider_known_db d (pc_id r) then Err UniqueViolation
  else Ok (set_provider_config d (provider_config_tbl d ++ [r]), tt).

Definition insert_or_ignore_provider (r : ProviderRow) : Stmt unit := fun d =>
  if provider_known_db d (pc_id r) then Ok (d, tt)
  else Ok (set_provider_config d (provider_config_tbl d ++ [r]), tt).

(** [INSERT INTO routing_config]: [pool_id] references [key_pool]; the logical
    model is not a key, so [INSERT OR REPLACE] is the same statement. *)
Definition insert_routing_row (r : RoutingRow) : Stmt unit := fun d =>
  if pool_known d (rc_pool_id r) then Ok (set_routing_config d (routing_config_tbl d ++ [r]), tt)
  else Err ForeignKeyViolation.

(** [INSERT INTO model_registry]: [id] is the primary key. *)
Definition insert_registry_row (r : RegistryRow) : Stmt unit := fun d =>
  if registry_known d (mr_id r) then Err UniqueViolation
  else Ok (set_model_registry d (model_registry_tbl d ++ [r]), tt).

(** [INSERT INTO model_registry .. ON CONFLICT(id) DO UPDATE SET ..] *)
Definition replace_registry (r : RegistryRow) (l : list RegistryRow) : list RegistryRow :=
  (fun q => if str_eqb (mr_id q) (mr_id r) then r else q) <$> l.
Definition upsert_registry (r : RegistryRow) (l : list RegistryRow) : list RegistryRow :=
  if existsb (fun q => str_eqb (mr_id q) (mr_id r)) l then replace_registry r l else l ++ [r].

(** [DELETE FROM key_pool WHERE ..]: refused while a route of the pool exists;
    the pool's keys go with it. *)
Definition delete_pool_rows (p : string -> bool) : Stmt unit := fun d =>
  let gone := List.filter (fun r => p (kp_id r)) (key_pool_tbl d) in
  if existsb (fun r => existsb (fun g => str_eqb (kp_id g) (rc_pool_id r)) gone) (routing_config_tbl d)
  then Err ForeignKeyViolation
  else Ok (set_key_entry
             (set_key_pool d (List.filter (fun r => negb (p (kp_id r))) (key_pool_tbl d)))
             (List.filter (fun k => negb (existsb (fun g => str_eqb (kp_id g) (ke_pool_id k)) gone)) (key_entry_tbl d)), tt).

Definition delete_key_rows (p : KeyEntryRow -> bool) : Stmt unit :=
  write (fun d => set_key_entry d (List.filter (fun r => negb (p r)) (key_entry_tbl d))).
Definition delete_provider_rows (p : ProviderRow -> bool) : Stmt unit :=
  write (fun d => set_provider_config d (List.filter (fun r => negb (p r)) (provider_config_tbl d))).
Definition delete_routing_rows (p : RoutingRow -> bool) : Stmt unit :=
  write (fun d => set_routing_config d (List.filter (fun r => negb (p r)) (routing_config_tbl d))).
Definition delete_registry_rows (p : RegistryRow -> bool) : Stmt unit :=
  write (fun d => set_model_registry d (List.filter (fun r => negb (p r)) (model_registry_tbl d))).

Definition is_one (z : Z) : bool := z =? 1.

(* ------------------------------------------------------------------ *)
(** ** Integrity *)

(** What the schema enforces, whatever is run. *)
Record db_integrity (d : Database) : Prop := {
  pools_unique : NoDup (kp_id <$> key_pool_tbl d);
  providers_unique : NoDup (pc_id <$> provider_config_tbl d);
  registry_unique : NoDup (mr_id <$> model_registry_tbl d);
  keys_have_pool : Forall (fun r => ke_pool_id r ∈ kp_id <$> key_pool_tbl d) (key_entry_tbl d);
  routes_have_pool : Forall (fun r => rc_pool_id r ∈ kp_id <$> key_pool_tbl d) (routing_config_tbl d)
}.

Lemma existsb_id {A} (f : A -> string) l id : existsb (fun r => str_eqb (f r) id) l = true <-> id ∈ f <$> l.
Proof.
  rewrite existsb_exists, list_elem_of_fmap. setoid_rewrite str_eqb_spec. setoid_rewrite <- list_elem_of_In.
  split; intros (x & ? & ?); exists x; auto.
Qed.

Lemma existsb_id_false {A} (f : A -> string) l id : existsb (fun r => str_eqb (f r) id) l = false <-> id ∉ f <$> l.
Proof. rewrite <- existsb_id. destruct (existsb _ l); split; congruence. Qed.

Lemma pool_known_spec d id : pool_known d id = true <-> id ∈ kp_id <$> key_pool_tbl d.
Proof. apply existsb_id. Qed.

(** The ids left after a deletion. *)
Lemma fmap_filter_sub {A B} (f : A -> B) (p : A -> bool) l : f <$> List.filter p l ⊆ f <$> l.
Proof. intros x. rewrite !list_elem_of_fmap. intros (y & -> & [Hy _]%elem_filter_bool). eauto. Qed.

Lemma NoDup_fmap_filter {A B} (f : A -> B) (p : A -> bool) l : NoDup (f <$> l) -> NoDup (f <$> List.filter p l).
Proof.
  induction l as [|x l IH]; csimpl; [done|]. intros [Hx Hl]%NoDup_cons. destruct (p x); csimpl; [|auto].
  apply NoDup_cons. split; [|auto]. intros H. apply Hx. by eapply fmap_filter_sub.
Qed.

Lemma Forall_filter_bool {A} (P : A -> Prop) (p : A -> bool) l : Forall P l -> Forall P (List.filter p l).
Proof. rewrite !Forall_forall. intros H x [Hx _]%elem_filter_bool. auto. Qed.

Lemma NoDup_snoc {A} (l : list A) x : NoDup l -> x ∉ l -> NoDup (l ++ [x]).
Proof.
  intros Hl Hx. apply NoDup_app. split; [done|]. split; [|apply NoDup_singleton].
  intros y Hy ->%list_elem_of_singleton. done.
Qed.

Lemma replace_registry_ids r l : mr_id <$> replace_registry r l = mr_id <$> l.
Proof.
  unfold replace_registry. rewrite <- list_fmap_compose. apply list_fmap_ext. intros i q _. unfold compose. 
  destruct (str_eqb (mr_id q) (mr_id r)) eqn:E; [by apply str_eqb_spec in E|done].
Qed.

Lemma upsert_registry_unique r l : NoDup (mr_id <$> l) -> NoDup (mr_id <$> upsert_registry r l).
Proof.
  unfold upsert_registry. destruct (existsb _ l) eqn:E; [by rewrite replace_registry_ids|].
  apply existsb_id_false in E. rewrite fmap_app. intros H. by apply NoDup_snoc.
Qed.

#[global] Instance filter_bool_perm {A} (p : A -> bool) : Proper ((≡ₚ) ==> (≡ₚ)) (List.filter p).
Proof.
  induction 1 as [|x l l' _ IH|x y l|]; cbn; [done| | |by etrans].
  - destruct (p x); by rewrite IH.
  - destruct (p x), (p y); by try constructor.
Qed.
