(* ===== verification/ConfigStore.v ===== *)
(** * The config store

    Models [src/src/config_store.rs]: the snapshot every reader sees, the loads
    from the tables, [refresh_from_db], [import_yaml] with its transaction, the
    startup setters and the poller.  Effects are explicit: a computation [M A]
    runs on a [World] that holds the database, the snapshot and the failures the
    driver will report (a statement, a [begin] or a [commit] may fail at any
    point), and returns a result or the error of the first failure. *)

From S2P Require Import Prelude Json Serde Types Config Pricing Db.

(** ** The snapshot *)

(** Startup-static policy copied from YAML. *)
Record RuntimePolicy := mkPolicy {
  failover : FailoverConfig;
  alerts : AlertConfig;
  cache_max_entries : Z;
  response_normalization : ResponseNormalization
}.

Definition runtime_default : RuntimePolicy :=
  mkPolicy (mkFailover true [401; 402; 403; 429] 1 60 10 3) alert_config_default 256 (mkNormalization false).

Record ConfigSnapshot := mkSnapshot {
  cs_providers : list ProviderConfig;
  cs_pools : gmap string PoolConfig;
  cs_routing : gmap string ModelRouting;
  cs_registry : list ModelRegistryEntry;
  cs_metadata : ModelMetadataConfig;
  cs_pricing : PricingConfig;
  cs_bootstrap_pricing : PricingConfig;
  cs_runtime : RuntimePolicy;
  cs_version : Z                         (* u64 *)
}.

Definition metadata_default : ModelMetadataConfig := mkMetaConfig empty_partial ∅ ∅.

Definition snapshot_default : ConfigSnapshot :=
  mkSnapshot [] ∅ ∅ [] metadata_default (mkPricing ∅) (mkPricing ∅) runtime_default 0.

(** ** Effects *)

Record World := mkWorld {
  w_faults : list (option string);       (* what the next statements meet; none left: no failure *)
  w_db : Database;
  w_store : ConfigSnapshot
}.

Definition set_db (w : World) (d : Database) : World := mkWorld (w_faults w) d (w_store w).
Definition set_store (w : World) (s : ConfigSnapshot) : World := mkWorld (w_faults w) (w_db w) s.

Definition M (A : Type) : Type := World -> World * Result A AppError.

#[global] Instance M_ret : MRet M := fun A a w => (w, Ok a).
#[global] Instance M_bind : MBind M := fun A B k m w =>
  match m w with (w', Ok a) => k a w' | (w', Err e) => (w', Err e) end.

Definition throw {A} (e : AppError) : M A := fun w => (w, Err e).
Definition lift {A} (r : Result A AppError) : M A := fun w => (w, r).
Definition get_store : M ConfigSnapshot := fun w => (w, Ok (w_store w)).
Definition modify_store (f : ConfigSnapshot -> ConfigSnapshot) : M unit :=
  fun w => (set_store w (f (w_store w)), Ok tt).

(** [for x in l { f(x).await?; }] *)
Fixpoint for_each {A} (f : A -> M unit) (l : list A) : M unit :=
  match l with [] => mret tt | x :: l' => f x ≫= fun _ => for_each f l' end.

Definition take_fault (w : World) : option string * World :=
  match w_faults w with
  | [] => (None, w)
  | f :: fs => (f, mkWorld fs (w_db w) (w_store w))
  end.

(** One statement, with [map_err]. *)
Definition run {A} (on_err : DbError -> AppError) (q : Stmt A) : M A := fun w =>
  match take_fault w with
  | (Some msg, w) => (w, Err (on_err (Driver msg)))
  | (None, w) => match q (w_db w) with
                 | Ok (d, a) => (set_db w d, Ok a)
                 | Err e => (w, Err (on_err e))
                 end
  end.

(** [let mut tx = db.begin().await?; body; tx.commit().await?]: a transaction
    that is dropped, or that fails to commit, leaves the database as it was. *)
Definition transaction {A} (on_begin on_commit : DbError -> AppError) (body : M A) : M A := fun w =>
  match take_fault w with
  | (Some msg, w) => (w, Err (on_begin (Driver msg)))
  | (None, w0) =>
      match body w0 with
      | (w1, Err e) => (set_db w1 (w_db w0), Err e)
      | (w1, Ok a) => match take_fault w1 with
                      | (Some msg, w2) => (set_db w2 (w_db w0), Err (on_commit (Driver msg)))
                      | (None, w2) => (w2, Ok a)
                      end
      end
  end.

Section Store.
Context `{SX : Sqlx} `{SJ : SerdeJson} `{DG : Digest}.
Context `{DP : !DashIter string ModelPricing} `{DE : !DashIter string PriceEntry}.
Context `{DR : !DashIter string ModelRouting} `{DO : !DashIter string PoolConfig}.

(** [AppError::Internal(format!("{what}: {e}"))] *)
Definition internal (what : string) (e : DbError) : AppError := Internal (what +:+ ": " +:+ db_display e).

(** ** Helpers *)

Definition provider_kind_to_str (k : ProviderKind) : string :=
  match k with OpenAi => "openai" | Anthropic => "anthropic" | Gemini => "gemini" end.

Definition str_to_provider_kind (s : string) : Result ProviderKind AppError :=
  if str_eqb s "openai" || str_eqb s "open_ai" then Ok OpenAi
  else if str_eqb s "anthropic" then Ok Anthropic
  else if str_eqb s "gemini" then Ok Gemini
  else Err (ConfigError ("Unsupported provider kind '" +:+ s +:+ "'")).

Definition lower_ascii (c : ascii) : ascii :=
  let n := N_of_ascii c in if (65 <=? n)%N && (n <=? 90)%N then ascii_of_N (n + 32) else c.
Fixpoint to_ascii_lowercase (s : string) : string :=
  match s with EmptyString => EmptyString | String c s' => String (lower_ascii c) (to_ascii_lowercase s') end.
Definition eq_ignore_ascii_case (a b : string) : bool := str_eqb (to_ascii_lowercase a) (to_ascii_lowercase b).

Definition parse_cred_type (raw : option string) : CredentialType :=
  match raw with Some s => if eq_ignore_ascii_case s "oauth" then Oauth else ApiKey | None => ApiKey end.

(** ** Writing keys *)

Definition key_row (pool_id : string) (k : KeyEntry) : KeyEntryRow :=
  mkKeyRow pool_id (identity_hash k) (key k) (weight k) 1 (cred_type_str k) (refresh k) (expires k) (issuer k).

Definition insert_key_entry (pool_id : string) (k : KeyEntry) : M unit :=
  run (internal "ConfigStore import key") (insert_key_row (key_row pool_id k)).

(** ** Loads *)

Definition provider_of_row (r : ProviderRow) : Result ProviderConfig AppError :=
  let metadata := unwrap_or (pc_metadata r ≫= from_str) (obj []) in
  let? kind := str_to_provider_kind (pc_kind r) in
  Ok (mkProviderConfig (pc_id r) (pc_pool_id r) (pc_base_url r) kind metadata).

Definition load_providers_from_db : M (list ProviderConfig) :=
  rows ← run (internal "ConfigStore load providers")
           (read (fun d => scan (List.filter (fun r => is_one (pc_enabled r)) (provider_config_tbl d))));
  lift (collect provider_of_row rows).

Definition key_of_row (r : KeyEntryRow) : KeyEntry :=
  mkKeyEntry (ke_key_plain r) (wrap 32 (ke_weight r)) (parse_cred_type (Some (ke_cred_type r)))
    (ke_refresh_token r) (ke_expires_at r) (ke_issuer r) (Some (ke_key_hash r)).

Definition push_key (m : gmap string (list KeyEntry)) (r : KeyEntryRow) : gmap string (list KeyEntry) :=
  <[ke_pool_id r := unwrap_or (m !! ke_pool_id r) [] ++ [key_of_row r]]> m.

(** The two maps of the loop over the pools: keys not yet claimed, pools built. *)
Definition take_pool (st : gmap string (list KeyEntry) * gmap string PoolConfig) (id : string)
    : gmap string (list KeyEntry) * gmap string PoolConfig :=
  (delete id st.1, <[id := mkPool (unwrap_or (st.1 !! id) [])]> st.2).

Definition load_pools_from_db : M (gmap string PoolConfig) :=
  db_pools ← run (internal "ConfigStore load pools")
               (read (fun d => scan (kp_id <$> List.filter (fun r => is_one (kp_enabled r)) (key_pool_tbl d))));
  db_keys ← run (internal "ConfigStore load keys")
              (read (fun d => scan (List.filter (fun r => is_one (ke_enabled r)) (key_entry_tbl d))));
  mret (foldl take_pool (foldl push_key ∅ db_keys, ∅) db_pools).2.

Definition routing_of_row (r : RoutingRow) : string * ModelRouting :=
  let default_params := unwrap_or (rc_default_params r ≫= from_str) Null in
  let upstream_model := non_empty (trim <$> rc_upstream_model r) in
  (rc_logical_model r,
   if is_object default_params || is_some upstream_model
   then WithParams (rc_pool_id r) default_params upstream_model
   else Simple (rc_pool_id r)).

Definition load_routing_from_db : M (gmap string ModelRouting) :=
  rows ← run (internal "ConfigStore load routing")
           (read (fun d => scan (List.filter (fun r => is_one (rc_enabled r)) (routing_config_tbl d))));
  mret (collect_map (routing_of_row <$> rows)).

Definition non_zero (z : Z) : bool := negb (z =? 0).

Definition registry_of_row (r : RegistryRow) : Result ModelRegistryEntry DbError :=
  let? ctx := decode_i32 (mr_max_context_tokens r) in
  let? out := decode_i32 (mr_max_output_tokens r) in
  Ok (mkRegistryEntry (mr_id r) (mr_display_name r) (mr_provider_kind r) (mr_provider_config_id r)
        (non_zero (mr_supports_vision r)) (non_zero (mr_supports_tool_calling r)) (non_zero (mr_supports_json_mode r))
        ctx out (mr_input_price r) (mr_output_price r) (mr_capabilities_json r) (non_zero (mr_enabled r))).

Definition load_model_registry_from_db : M (list ModelRegistryEntry) :=
  run (internal "ConfigStore load model_registry")
    (fun d => let? l := collect registry_of_row (scan (model_registry_tbl d)) in Ok (d, l)).

Definition override_of_row (r : OverrideRow) : PricingOverride :=
  mkOverride (po_model_id r) (po_tenant_id r) (po_input r) (po_output r) (po_from r) (po_until r).

Definition load_pricing_overrides_from_db : M (list PricingOverride) :=
  run (internal "ConfigStore load pricing_override") (read (fun d => override_of_row <$> scan (pricing_override_tbl d))).

(** ** Refreshing *)

Definition install (providers : list ProviderConfig) (pools : gmap string PoolConfig)
    (routing : gmap string ModelRouting) (registry : list ModelRegistryEntry)
    (overrides : list PricingOverride) (now_ms : Z) (s : ConfigSnapshot) : ConfigSnapshot :=
  mkSnapshot providers pools routing registry (cs_metadata s)
    (compose_pricing (cs_bootstrap_pricing s) registry overrides now_ms)
    (cs_bootstrap_pricing s) (cs_runtime s) (wadd 64 (cs_version s) 1).

Definition refresh_from_db (now_ms : Z) : M unit :=
  providers ← load_providers_from_db;
  pool_configs ← load_pools_from_db;
  model_routing ← load_routing_from_db;
  model_registry ← load_model_registry_from_db;
  pricing_overrides ← load_pricing_overrides_from_db;
  modify_store (install providers pool_configs model_routing model_registry pricing_overrides now_ms).

Definition refresh_pricing (now_ms : Z) : M unit :=
  registry ← load_model_registry_from_db;
  overrides ← load_pricing_overrides_from_db;
  modify_store (fun s =>
    mkSnapshot (cs_providers s) (cs_pools s) (cs_routing s) registry (cs_metadata s)
      (compose_pricing (cs_bootstrap_pricing s) registry overrides now_ms)
      (cs_bootstrap_pricing s) (cs_runtime s) (cs_version s)).

(** [load]: a new store, filled from the database. *)
Definition load (now_ms : Z) : M unit :=
  _ ← modify_store (fun _ => snapshot_default); refresh_from_db now_ms.

Definition set_bootstrap_pricing (pricing : PricingConfig) (now_ms : Z) : M unit := fun w =>
  let s := w_store w in
  let w := set_store w (mkSnapshot (cs_providers s) (cs_pools s) (cs_routing s) (cs_registry s) (cs_metadata s)
                          (cs_pricing s) pricing (cs_runtime s) (cs_version s)) in
  ((refresh_pricing now_ms w).1, Ok tt).

Definition set_bootstrap_model_metadata (m : ModelMetadataConfig) : M unit :=
  modify_store (fun s => mkSnapshot (cs_providers s) (cs_pools s) (cs_routing s) (cs_registry s) m
                           (cs_pricing s) (cs_bootstrap_pricing s) (cs_runtime s) (cs_version s)).

Definition update_model_metadata := set_bootstrap_model_metadata.

Definition set_bootstrap_runtime (r : RuntimePolicy) : M unit :=
  modify_store (fun s => mkSnapshot (cs_providers s) (cs_pools s) (cs_routing s) (cs_registry s) (cs_metadata s)
                           (cs_pricing s) (cs_bootstrap_pricing s) r (cs_version s)).

(** One tick of [spawn_config_poller]: a failed refresh is logged. *)
Definition poll_tick (now_ms : Z) (w : World) : World := (refresh_from_db now_ms w).1.

(** ** Importing a document *)

(** [serde_yaml::from_str::<Config>], with the text of its error. *)
Context (yaml_config : string -> Result Config string).

Definition validate_yaml (yaml : string) : Result Config AppError :=
  match yaml_config yaml with
  | Err e => Err (ConfigError ("Failed to parse import document: " +:+ e))
  | Ok c => let? _ := validate c in Ok c
  end.

Definition import_pool (pp : string * PoolConfig) : M unit :=
  _ ← run (internal "ConfigStore import pool") (insert_pool_row (mkPoolRow pp.1 "weighted_random" 1));
  for_each (insert_key_entry pp.1) (keys pp.2).

Definition provider_row (p : ProviderConfig) : ProviderRow :=
  mkProviderRow (prov_id p) (provider_kind_to_str (prov_kind p)) (base_url p) (prov_pool_id p) 1
    (Some (to_string (if is_object (metadata p) then metadata p else obj []))).

Definition routing_row (mr : string * ModelRouting) : RoutingRow :=
  mkRoutingRow mr.1 (pool_id mr.2) (to_string <$> default_params mr.2) (upstream_model mr.2) 1.

Definition z_of_bool (b : bool) : Z := if b then 1 else 0.

(** Validation has refused the prices that are not finite. *)
Definition finite_price (p : option yaml_f64) : option Q :=
  match p with Some (Finite q) => Some q | _ => None end.

Definition registry_row (e : ModelRegistryConfig) : RegistryRow :=
  mkRegistryRow (reg_id e) (reg_display_name e) (reg_provider_kind e) (reg_provider_config_id e)
    (z_of_bool (reg_supports_vision e)) (z_of_bool (reg_supports_tool_calling e)) (z_of_bool (reg_supports_json_mode e))
    (reg_max_context_tokens e) (reg_max_output_tokens e)
    (finite_price (reg_input_price e)) (finite_price (reg_output_price e))
    (if is_null (reg_capabilities e) then None else Some (to_string (reg_capabilities e)))
    (z_of_bool (reg_enabled e)).

Definition import_config (c : Config) : M unit :=
  _ ← run (internal "ConfigStore clear routing") (delete_routing_rows (fun _ => true));
  _ ← run (internal "ConfigStore clear keys") (delete_key_rows (fun _ => true));
  _ ← run (internal "ConfigStore clear pools") (delete_pool_rows (fun _ => true));
  _ ← run (internal "ConfigStore clear providers") (delete_provider_rows (fun _ => true));
  _ ← for_each import_pool (dash_iter (pools c));
  _ ← for_each (fun p => run (internal "ConfigStore import provider") (insert_provider_row (provider_row p))) (providers c);
  _ ← for_each (fun mr => run (internal "ConfigStore import routing") (insert_routing_row (routing_row mr)))
        (dash_iter (model_to_pool c));
  for_each (fun e => run (internal "ConfigStore import model_registry")
                       (write (fun d => set_model_registry d (upsert_registry (registry_row e) (model_registry_tbl d)))))
    (model_registry c).

Definition import_yaml (yaml : string) (now_ms : Z) : M unit :=
  config ← lift (validate_yaml yaml);
  _ ← transaction (internal "ConfigStore begin import transaction") (internal "ConfigStore commit import")
        (import_config config);
  refresh_from_db now_ms.
End Store.

(* ------------------------------------------------------------------ *)
(** ** Reasoning about effects *)

(** Nothing fails any more. *)
Definition quiet (w : World) : Prop := w_faults w = [].

(** A property of the database and one of the snapshot. *)
Definition holds (P : Database -> Prop) (S : ConfigSnapshot -> Prop) (w : World) : Prop := P (w_db w) /\ S (w_store w).
(** [m] preserves them, whatever fails on the way. *)
Definition keeps (P : Database -> Prop) (S : ConfigSnapshot -> Prop) {A} (m : M A) : Prop :=
  forall w, holds P S w -> holds P S (m w).1.
(** [m] leaves the snapshot alone. *)
Definition store_frame {A} (m : M A) : Prop := forall w, w_store (m w).1 = w_store w.
(** A statement preserves a property. *)
Definition stmt_keeps (P : Database -> Prop) {A} (q : Stmt A) : Prop :=
  forall d d' a, P d -> q d = Ok (d', a) -> P d'.

Lemma take_fault_frame w : w_db (take_fault w).2 = w_db w /\ w_store (take_fault w).2 = w_store w.
Proof. unfold take_fault. by destruct (w_faults w). Qed.

Lemma take_fault_cases w f w' : take_fault w = (f, w') -> w_db w' = w_db w /\ w_store w' = w_store w.
Proof. intros E. pose proof (take_fault_frame w) as H. by rewrite E in H. Qed.

Lemma take_fault_quiet w : quiet w -> take_fault w = (None, w).
Proof. unfold quiet, take_fault. by intros ->. Qed.

(** What a statement does: nothing, or its effect. *)
Lemma run_cases {A} e (q : Stmt A) w :
  match run e q w with
  | (w', Ok a) => q (w_db w) = Ok (w_db w', a) /\ w_store w' = w_store w
  | (w', Err _) => w_db w' = w_db w /\ w_store w' = w_store w
  end.
Proof.
  unfold run. destruct (take_fault w) as [[msg|] w1] eqn:E; apply take_fault_cases in E as [Hd Hs]; [done|].
  rewrite Hd. destruct (q (w_db w)) as [[d a]|]; cbn; by rewrite ?Hs.
Qed.

Lemma run_quiet {A} e (q : Stmt A) w : quiet w ->
  run e q w = match q (w_db w) with Ok (d, a) => (set_db w d, Ok a) | Err er => (w, Err (e er)) end.
Proof. intros H. unfold run. by rewrite take_fault_quiet. Qed.

Lemma keeps_run P S {A} e (q : Stmt A) : stmt_keeps P q -> keeps P S (run e q).
Proof.
  intros Hq w [Hw Hs]. pose proof (run_cases e q w) as H. unfold holds. destruct (run e q w) as [w' [a|er]]; cbn.
  - destruct H as [H ->]. split; [by eapply Hq|done].
  - by destruct H as [-> ->].
Qed.

Lemma keeps_ret P S {A} (a : A) : keeps P S (mret a).
Proof. by intros w. Qed.
Lemma keeps_throw P S {A} e : keeps P S (throw e : M A).
Proof. by intros w. Qed.
Lemma keeps_lift P S {A} (r : Result A AppError) : keeps P S (lift r).
Proof. by intros w. Qed.
Lemma keeps_get P S : keeps P S get_store.
Proof. by intros w. Qed.
Lemma keeps_modify P (S : ConfigSnapshot -> Prop) f : (forall s, S s -> S (f s)) -> keeps P S (modify_store f).
Proof. intros Hf w [Hd Hs]. split; [done|]. by apply Hf. Qed.

Lemma keeps_bind P S {A B} (m : M A) (k : A -> M B) :
  keeps P S m -> (forall a, keeps P S (k a)) -> keeps P S (m ≫= k).
Proof.
  intros Hm Hk w Hw. unfold mbind, M_bind. specialize (Hm w Hw).
  destruct (m w) as [w' [a|e]]; cbn in *; [by apply Hk|done].
Qed.

Lemma keeps_for_each P S {A} (f : A -> M unit) l : Forall (fun x => keeps P S (f x)) l -> keeps P S (for_each f l).
Proof. induction 1 as [|x l Hx Hl IH]; cbn; [apply keeps_ret|]. by apply keeps_bind. Qed.

Lemma keeps_transaction P S {A} b c (m : M A) : keeps P S m -> keeps P S (transaction b c m).
Proof.
  intros Hm w [Hw Hs]. unfold transaction.
  destruct (take_fault w) as [[msg|] w0] eqn:E; apply take_fault_cases in E as [Hd Hs0]; cbn.
  { unfold holds. by rewrite Hd, Hs0. }
  rewrite <- Hd in Hw. rewrite <- Hs0 in Hs. destruct (Hm w0 (conj Hw Hs)) as [H1 H2]. unfold holds.
  destruct (m w0) as [w1 [a|e]]; cbn in *; [|done].
  destruct (take_fault w1) as [[msg|] w2] eqn:E1; apply take_fault_cases in E1 as [Hd1 Hs1]; cbn; rewrite ?Hd1, ?Hs1; done.
Qed.

Lemma frame_run {A} e (q : Stmt A) : store_frame (run e q).
Proof. intros w. pose proof (run_cases e q w). destruct (run e q w) as [w' []]; by destruct H. Qed.
Lemma frame_ret {A} (a : A) : store_frame (mret a).
Proof. done. Qed.
Lemma frame_lift {A} (r : Result A AppError) : store_frame (lift r).
Proof. done. Qed.
Lemma frame_bind {A B} (m : M A) (k : A -> M B) :
  store_frame m -> (forall a, store_frame (k a)) -> store_frame (m ≫= k).
Proof.
  intros Hm Hk w. unfold mbind, M_bind. specialize (Hm w). destruct (m w) as [w' [a|e]]; cbn in *; [|done].
  by rewrite Hk.
Qed.
Lemma frame_for_each {A} (f : A -> M unit) l : (forall x, store_frame (f x)) -> store_frame (for_each f l).
Proof. intros Hf. induction l as [|x l IH]; [apply frame_ret|]. cbn. by apply frame_bind. Qed.

(** No failure appears by itself. *)
Definition calm {A} (m : M A) : Prop := forall w, quiet w -> quiet (m w).1.

Lemma calm_run {A} e (q : Stmt A) : calm (run e q).
Proof. intros w Hq. rewrite run_quiet by done. by destruct (q (w_db w)) as [[]|]. Qed.
Lemma calm_ret {A} (a : A) : calm (mret a).
Proof. by intros w. Qed.
Lemma calm_throw {A} e : calm (throw e : M A).
Proof. by intros w. Qed.
Lemma calm_lift {A} (r : Result A AppError) : calm (lift r).
Proof. by intros w. Qed.
Lemma calm_modify f : calm (modify_store f).
Proof. by intros w. Qed.
Lemma calm_get : calm get_store.
Proof. by intros w. Qed.
Lemma calm_bind {A B} (m : M A) (k : A -> M B) : calm m -> (forall a, calm (k a)) -> calm (m ≫= k).
Proof.
  intros Hm Hk w Hw. unfold mbind, M_bind. specialize (Hm w Hw). destruct (m w) as [w' [a|e]]; cbn in *; [by apply Hk|done].
Qed.
Lemma calm_for_each {A} (f : A -> M unit) l : (forall x, calm (f x)) -> calm (for_each f l).
Proof. intros Hf. induction l as [|x l IH]; [apply calm_ret|]. cbn. by apply calm_bind. Qed.
Lemma calm_transaction {A} b c (m : M A) : calm m -> calm (transaction b c m).
Proof.
  intros Hm w Hw. unfold transaction. rewrite take_fault_quiet by done. specialize (Hm w Hw).
  destruct (m w) as [w1 [a|e]]; cbn in Hm; [|done]. by rewrite take_fault_quiet.
Qed.

Create HintDb dbm discriminated.
#[global] Hint Resolve calm_run calm_ret calm_throw calm_lift calm_modify calm_get calm_bind calm_for_each calm_transaction : dbm.
#[global] Hint Resolve keeps_ret keeps_throw keeps_lift keeps_modify keeps_get keeps_bind keeps_for_each keeps_transaction keeps_run : dbm.
#[global] Hint Resolve frame_run frame_ret frame_lift frame_bind frame_for_each : dbm.

Lemma frame_transaction {A} b c (m : M A) : store_frame m -> store_frame (transaction b c m).
Proof.
  intros Hm w. unfold transaction. destruct (take_fault w) as [[msg|] w0] eqn:E; apply take_fault_cases in E as [_ Hs]; [done|].
  specialize (Hm w0). destruct (m w0) as [w1 [a|e]]; cbn in *; [|congruence].
  destruct (take_fault w1) as [[msg|] w2] eqn:E1; apply take_fault_cases in E1 as [_ Hs1]; cbn; congruence.
Qed.
#[global] Hint Resolve frame_transaction : dbm.

(** A transaction is all or nothing. *)
Lemma transaction_cases {A} b c (m : M A) w :
  match transaction b c m w with
  | (w', Ok a) => exists w0 w1, w_db w0 = w_db w /\ w_store w0 = w_store w
                    /\ m w0 = (w1, Ok a) /\ w_db w' = w_db w1 /\ w_store w' = w_store w1
  | (w', Err _) => w_db w' = w_db w
  end.
Proof.
  unfold transaction. destruct (take_fault w) as [[msg|] w0] eqn:E; apply take_fault_cases in E as [Hd Hs]; [done|].
  destruct (m w0) as [w1 [a|e]] eqn:Em; [|done].
  destruct (take_fault w1) as [[msg|] w2] eqn:E1; apply take_fault_cases in E1 as [Hd1 Hs1]; [done|].
  by exists w0, w1.
Qed.

Lemma transaction_quiet {A} b c (m : M A) w : quiet w -> quiet (m w).1 ->
  transaction b c m w = match m w with (w', Ok a) => (w', Ok a) | (w', Err e) => (set_db w' (w_db w), Err e) end.
Proof.
  intros Hw Hm. unfold transaction. rewrite take_fault_quiet by done.
  destruct (m w) as [w' [a|e]]; [|done]. cbn in Hm. by rewrite take_fault_quiet.
Qed.

(** [m] only reads: it returns what [f] computes from the database, or fails. *)
Definition reads {A} (m : M A) (f : Database -> Result A AppError) : Prop := forall w,
  w_db (m w).1 = w_db w /\ w_store (m w).1 = w_store w
  /\ (forall a, (m w).2 = Ok a -> f (w_db w) = Ok a)
  /\ (quiet w -> m w = (w, f (w_db w))).

Lemma reads_lift {A} (r : Result A AppError) : reads (lift r) (fun _ => r).
Proof. done. Qed.

Lemma reads_run {A} e (q : Stmt A) f :
  (forall d, match f d with
             | Ok a => q d = Ok (d, a)
             | Err er => exists de, q d = Err de /\ er = e de end) ->
  reads (run e q) f.
Proof.
  intros Hf w. pose proof (run_cases e q w) as H. specialize (Hf (w_db w)). split; [|split; [|split]].
  - destruct (run e q w) as [w' [a|er]]; [|by destruct H]. destruct H as [H _]. rewrite H in Hf.
    destruct (f (w_db w)); [cbn; congruence|]. by destruct Hf as (? & ? & _).
  - destruct (run e q w) as [w' [a|er]]; by destruct H.
  - intros a Ha. destruct (run e q w) as [w' [a'|er]]; simplify_eq/=. destruct H as [H _]. rewrite H in Hf.
    destruct (f (w_db w)); [congruence|]. by destruct Hf as (? & ? & _).
  - intros Hq. rewrite run_quiet by done. destruct (f (w_db w)); [rewrite Hf|destruct Hf as (? & -> & ->); done].
    by destruct w.
Qed.

Lemma reads_bind {A B} (m : M A) f (k : A -> M B) g :
  reads m f -> (forall a, reads (k a) (g a)) -> reads (m ≫= k) (fun d => let? a := f d in g a d).
Proof.
  intros Hm Hk w. unfold mbind, M_bind. destruct (Hm w) as (Hd & Hs & Ha & Hq).
  destruct (m w) as [w' [a|e]] eqn:Em; cbn in *.
  - destruct (Hk a w') as (Hd' & Hs' & Ha' & Hq'). rewrite Hd', Hs', Hd, Hs. split; [done|]. split; [done|]. split.
    + intros b Hb. rewrite (Ha a eq_refl). rewrite <- Hd. by apply Ha'.
    + intros Hw. specialize (Hq Hw). injection Hq as -> Hf. rewrite <- Hf. by apply Hq'.
  - split; [done|]. split; [done|]. split; [done|]. intros Hw. specialize (Hq Hw). injection Hq as -> Hf. by rewrite <- Hf.
Qed.

(* ------------------------------------------------------------------ *)
(** ** What a refresh installs *)

Section Refresh.
Context `{SX : Sqlx} `{SJ : SerdeJson} `{DG : Digest}.
Context `{DP : !DashIter string ModelPricing} `{DE : !DashIter string PriceEntry}.

Definition enabled_pools (d : Database) : list string :=
  scan (kp_id <$> List.filter (fun r => is_one (kp_enabled r)) (key_pool_tbl d)).
Definition enabled_keys (d : Database) : list KeyEntryRow :=
  scan (List.filter (fun r => is_one (ke_enabled r)) (key_entry_tbl d)).
Definition enabled_providers (d : Database) : list ProviderRow :=
  scan (List.filter (fun r => is_one (pc_enabled r)) (provider_config_tbl d)).
Definition enabled_routes (d : Database) : list RoutingRow :=
  scan (List.filter (fun r => is_one (rc_enabled r)) (routing_config_tbl d)).

Definition db_pools (d : Database) : gmap string PoolConfig :=
  (foldl take_pool (foldl push_key ∅ (enabled_keys d), ∅) (enabled_pools d)).2.
Definition db_routing (d : Database) : gmap string ModelRouting :=
  collect_map (routing_of_row <$> enabled_routes d).
Definition db_overrides (d : Database) : list PricingOverride := override_of_row <$> scan (pricing_override_tbl d).

Lemma reads_providers : reads load_providers_from_db (fun d => collect provider_of_row (enabled_providers d)).
Proof.
  apply (reads_bind _ (fun d => Ok (enabled_providers d)) _ (fun rows _ => collect provider_of_row rows)).
  - apply (reads_run _ _ (fun d => Ok (enabled_providers d))). done.
  - intros rows. apply reads_lift.
Qed.

Lemma reads_pools : reads load_pools_from_db (fun d => Ok (db_pools d)).
Proof.
  apply (reads_bind _ (fun d => Ok (enabled_pools d)) _
           (fun ps d => Ok (foldl take_pool (foldl push_key ∅ (enabled_keys d), ∅) ps).2)).
  - apply (reads_run _ _ (fun d => Ok (enabled_pools d))). done.
  - intros ps. apply (reads_bind _ (fun d => Ok (enabled_keys d)) _
                        (fun ks _ => Ok (foldl take_pool (foldl push_key ∅ ks, ∅) ps).2)).
    + apply (reads_run _ _ (fun d => Ok (enabled_keys d))). done.
    + intros ks. apply reads_lift.
Qed.

Lemma reads_routing : reads load_routing_from_db (fun d => Ok (db_routing d)).
Proof.
  apply (reads_bind _ (fun d => Ok (enabled_routes d)) _ (fun rows _ => Ok (collect_map (routing_of_row <$> rows)))).
  - apply (reads_run _ _ (fun d => Ok (enabled_routes d))). done.
  - intros rows. apply reads_lift.
Qed.

Definition db_registry (d : Database) : Result (list ModelRegistryEntry) AppError :=
  match collect registry_of_row (scan (model_registry_tbl d)) with
  | Err e => Err (internal "ConfigStore load model_registry" e)
  | Ok registry => Ok registry
  end.

Lemma reads_registry : reads load_model_registry_from_db db_registry.
Proof. apply reads_run. intros d. unfold db_registry. destruct (collect _ _); eauto. Qed.

Lemma reads_overrides : reads load_pricing_overrides_from_db (fun d => Ok (db_overrides d)).
Proof. by apply reads_run. Qed.

(** The snapshot that follows [s] when the database is [d]. *)
Definition snapshot_of (now_ms : Z) (s : ConfigSnapshot) (d : Database) : Result ConfigSnapshot AppError :=
  let? providers := collect provider_of_row (enabled_providers d) in
  let? registry := db_registry d in
  Ok (install providers (db_pools d) (db_routing d) registry (db_overrides d) now_ms s).

(** The reads of a refresh, as one reader of the update to make. *)
Definition refresh_update (now_ms : Z) : M (ConfigSnapshot -> ConfigSnapshot) :=
  providers ← load_providers_from_db;
  pool_configs ← load_pools_from_db;
  model_routing ← load_routing_from_db;
  model_registry ← load_model_registry_from_db;
  pricing_overrides ← load_pricing_overrides_from_db;
  mret (install providers pool_configs model_routing model_registry pricing_overrides now_ms).

Lemma reads_update now : reads (refresh_update now) (fun d =>
  let? providers := collect provider_of_row (enabled_providers d) in
  let? registry := db_registry d in
  Ok (install providers (db_pools d) (db_routing d) registry (db_overrides d) now)).
Proof.
  apply (reads_bind _ _ _ (fun ps d => let? registry := db_registry d in
          Ok (install ps (db_pools d) (db_routing d) registry (db_overrides d) now)) reads_providers). intros ps.
  apply (reads_bind _ _ _ (fun po d => let? registry := db_registry d in
          Ok (install ps po (db_routing d) registry (db_overrides d) now)) reads_pools). intros po.
  apply (reads_bind _ _ _ (fun ro d => let? registry := db_registry d in
          Ok (install ps po ro registry (db_overrides d) now)) reads_routing). intros ro.
  apply (reads_bind _ _ _ (fun re d => Ok (install ps po ro re (db_overrides d) now)) reads_registry). intros re.
  apply (reads_bind _ _ _ (fun ov _ => Ok (install ps po ro re ov now)) reads_overrides). intros ov. apply reads_lift.
Qed.

Lemma bind_assoc_w {A B C} (m : M A) (k : A -> M B) (h : B -> M C) w :
  (m ≫= fun a => k a ≫= h) w = ((m ≫= k) ≫= h) w.
Proof. unfold mbind, M_bind. by destruct (m w) as [? []]. Qed.

Lemma refresh_as_update now w : refresh_from_db now w = (refresh_update now ≫= modify_store) w.
Proof.
  unfold refresh_from_db, refresh_update, mbind, M_bind.
  repeat (match goal with |- context [match ?x with (_, _) => _ end] => destruct x as [? []] end; try done).
Qed.

(** Whatever fails: the database is only read, the snapshot changes at once or
    not at all. *)
Lemma refresh_cases now w :
  match refresh_from_db now w with
  | (w', Ok _) => w_db w' = w_db w /\ snapshot_of now (w_store w) (w_db w) = Ok (w_store w')
  | (w', Err _) => w_db w' = w_db w /\ w_store w' = w_store w
  end.
Proof.
  rewrite refresh_as_update. unfold mbind, M_bind. destruct (reads_update now w) as (Hd & Hs & Ha & _).
  destruct (refresh_update now w) as [w' [f|e]]; cbn in *; [|done]. specialize (Ha f eq_refl).
  split; [done|]. unfold snapshot_of. rewrite Hs. do 2 (case_match; simplify_eq). done.
Qed.

Lemma refresh_quiet now w : quiet w ->
  refresh_from_db now w = match snapshot_of now (w_store w) (w_db w) with
                          | Ok s => (set_store w s, Ok tt) | Err e => (w, Err e) end.
Proof.
  intros Hq. rewrite refresh_as_update. unfold mbind, M_bind. destruct (reads_update now w) as (_ & _ & _ & Hu).
  rewrite Hu by done. unfold snapshot_of. destruct (collect _ _); [|done]. by destruct (db_registry _).
Qed.

(** A snapshot property that every good database gives. *)
Definition snapshot_keeps (P : Database -> Prop) (S : ConfigSnapshot -> Prop) : Prop :=
  forall now s d s', P d -> S s -> snapshot_of now s d = Ok s' -> S s'.

Lemma keeps_refresh P S now : snapshot_keeps P S -> keeps P S (refresh_from_db now).
Proof.
  intros Hk w [Hw Hs]. pose proof (refresh_cases now w) as H. unfold holds.
  destruct (refresh_from_db now w) as [w' []]; cbn; destruct H as [-> H]; [|by rewrite H].
  split; [done|]. by eapply Hk.
Qed.
End Refresh.

(** ** Writers *)

(** [m] does to the database what [f] computes, or fails. *)
Definition writes (m : M unit) (f : Database -> Result Database AppError) : Prop := forall w,
  w_store (m w).1 = w_store w
  /\ ((m w).2 = Ok tt -> f (w_db w) = Ok (w_db (m w).1))
  /\ (quiet w -> match f (w_db w) with
                 | Ok d => m w = (set_db w d, Ok tt)
                 | Err e => (m w).2 = Err e /\ quiet (m w).1 end).

Fixpoint fold_result {A D E} (f : A -> D -> Result D E) (l : list A) (d : D) : Result D E :=
  match l with [] => Ok d | x :: l' => let? d := f x d in fold_result f l' d end.

Definition effect_of (e : DbError -> AppError) (q : Stmt unit) (d : Database) : Result Database AppError :=
  match q d with Ok (d', _) => Ok d' | Err er => Err (e er) end.

Lemma writes_run e (q : Stmt unit) : writes (run e q) (effect_of e q).
Proof.
  intros w. pose proof (run_cases e q w) as H. unfold effect_of. split; [apply frame_run|]. split.
  - destruct (run e q w) as [w' [a|er]]; [|done]. intros _. by destruct H as [-> _].
  - intros Hq. rewrite run_quiet by done. destruct (q (w_db w)) as [[d []]|]; done.
Qed.

Lemma writes_ret : writes (mret tt) Ok.
Proof. intros w. split; [done|]. split; [done|]. intros _. by destruct w. Qed.

Lemma writes_seq m f k g : writes m f -> writes k g ->
  writes (m ≫= fun _ => k) (fun d => let? d := f d in g d).
Proof.
  intros Hm Hk w. unfold mbind, M_bind. destruct (Hm w) as (Hs & Hr & Hq).
  destruct (m w) as [w' [[]|e]] eqn:Em; cbn in *.
  - destruct (Hk w') as (Hs' & Hr' & Hq'). rewrite (Hr eq_refl). split; [congruence|]. split; [done|].
    intros Hw. specialize (Hq Hw). rewrite (Hr eq_refl) in Hq. injection Hq as Hq.
    assert (quiet w') as Hw' by (rewrite Hq; exact Hw). specialize (Hq' Hw'). destruct (g (w_db w')); [|done].
    rewrite Hq'. by rewrite Hq.
  - split; [done|]. split; [done|]. intros Hw. specialize (Hq Hw). destruct (f (w_db w)); [done|].
    destruct Hq as [[= <-] Hq]. done.
Qed.

Lemma writes_for_each {A} (f : A -> M unit) g l : (forall x, writes (f x) (g x)) -> writes (for_each f l) (fold_result g l).
Proof. intros Hf. induction l as [|x l IH]; [apply writes_ret|]. cbn. by apply writes_seq. Qed.

Lemma fold_result_app {A D E} (f : A -> D -> Result D E) l1 l2 d :
  fold_result f (l1 ++ l2) d = let? d := fold_result f l1 d in fold_result f l2 d.
Proof. revert d; induction l1 as [|x l1 IH]; intros d; [done|]. cbn. destruct (f x d); [apply IH|done]. Qed.

(** Rows appended one by one. *)
Lemma fold_result_append {A R D E} (f : A -> D -> Result D E) (row : A -> R) (tbl : D -> list R)
    (set : D -> list R -> D) (ok : D -> A -> Prop) :
  (forall x d d', f x d = Ok d' -> d' = set d (tbl d ++ [row x])) ->
  (forall x d, ok d x -> is_ok (f x d) = true) ->
  (forall d x y, tbl (set d x) = x /\ set (set d x) y = set d y) -> (forall d, set d (tbl d) = d) ->
  forall l d,
    (forall d', fold_result f l d = Ok d' -> d' = set d (tbl d ++ (row <$> l)))
    /\ ((forall l1 x l2, l = l1 ++ x :: l2 -> ok (set d (tbl d ++ (row <$> l1))) x) -> is_ok (fold_result f l d) = true).
Proof.
  intros Hf Hok Hset Hid l. induction l as [|x l IH]; intros d; cbn.
  { rewrite app_nil_r, Hid. split; [congruence|done]. }
  split.
  - intros d'. destruct (f x d) as [d1|] eqn:Ef; [|done]. apply Hf in Ef as ->. intros H.
    apply IH in H as ->. destruct (Hset d (tbl d ++ [row x]) (tbl d)) as [-> _].
    rewrite <- app_assoc. by destruct (Hset d (tbl d ++ [row x]) (tbl d ++ [row x] ++ (row <$> l))) as [_ ->].
  - intros H. pose proof (H [] x l eq_refl) as Hx. csimpl in Hx. rewrite app_nil_r, Hid in Hx.
    specialize (Hok x d Hx). destruct (f x d) as [d1|] eqn:Ef; [|done]. apply Hf in Ef as ->.
    apply IH. intros l1 y l2 ->. specialize (H (x :: l1) y l2 eq_refl). csimpl in H.
    destruct (Hset d (tbl d ++ [row x]) (tbl d ++ row x :: (row <$> l1))) as [-> Hss]. rewrite <- app_assoc. cbn.
    by rewrite Hss.
Qed.

(* ------------------------------------------------------------------ *)
(** ** What an import writes *)

Section Importing.
Context `{SX : Sqlx} `{SJ : SerdeJson} `{DG : Digest}.
Context `{DP : !DashIter string ModelPricing} `{DE : !DashIter string PriceEntry}.
Context `{DR : !DashIter string ModelRouting} `{DO : !DashIter string PoolConfig}.

Definition pool_rows (pps : list (string * PoolConfig)) : list KeyPoolRow :=
  (fun pp => mkPoolRow pp.1 "weighted_random" 1) <$> pps.
Definition key_rows (pps : list (string * PoolConfig)) : list KeyEntryRow :=
  pps ≫= fun pp => key_row pp.1 <$> keys pp.2.

(** The managed tables are replaced, the catalog is merged, the prices stay. *)
Definition imported_db (c : Config) (d : Database) : Database :=
  mkDatabase (pool_rows (dash_iter (pools c))) (key_rows (dash_iter (pools c)))
    (provider_row <$> providers c) (routing_row <$> dash_iter (model_to_pool c))
    (foldl (fun l e => upsert_registry (registry_row e) l) (model_registry_tbl d) (model_registry c))
    (pricing_override_tbl d) (override_seq d).

Definition add_key (pool_id : string) (k : KeyEntry) : Database -> Result Database AppError :=
  effect_of (internal "ConfigStore import key") (insert_key_row (key_row pool_id k)).
Definition add_pool (pp : string * PoolConfig) (d : Database) : Result Database AppError :=
  let? d := effect_of (internal "ConfigStore import pool") (insert_pool_row (mkPoolRow pp.1 "weighted_random" 1)) d in
  fold_result (add_key pp.1) (keys pp.2) d.
Definition add_provider (p : ProviderConfig) : Database -> Result Database AppError :=
  effect_of (internal "ConfigStore import provider") (insert_provider_row (provider_row p)).
Definition add_route (mr : string * ModelRouting) : Database -> Result Database AppError :=
  effect_of (internal "ConfigStore import routing") (insert_routing_row (routing_row mr)).
Definition add_entry (e : ModelRegistryConfig) : Database -> Result Database AppError :=
  effect_of (internal "ConfigStore import model_registry")
    (write (fun d => set_model_registry d (upsert_registry (registry_row e) (model_registry_tbl d)))).

Definition cleared (d : Database) : Database :=
  mkDatabase [] [] [] [] (model_registry_tbl d) (pricing_override_tbl d) (override_seq d).

Definition import_pure (c : Config) (d : Database) : Result Database AppError :=
  let? d := fold_result add_pool (dash_iter (pools c)) (cleared d) in
  let? d := fold_result add_provider (providers c) d in
  let? d := fold_result add_route (dash_iter (model_to_pool c)) d in
  fold_result add_entry (model_registry c) d.

Lemma writes_ext m f g : (forall d, f d = g d) -> writes m f -> writes m g.
Proof. intros He Hm w. rewrite <- He. apply Hm. Qed.

Lemma filter_none {A} (l : list A) : List.filter (fun _ => false) l = [].
Proof. by induction l. Qed.

Lemma filter_all {A} (l : list A) : List.filter (fun _ => true) l = l.
Proof. induction l as [|x l IH]; cbn; [done|]. by rewrite IH. Qed.

Lemma clear_effect (e1 e2 e3 e4 : DbError -> AppError) d :
  (let? d := effect_of e1 (delete_routing_rows (fun _ => true)) d in
   let? d := effect_of e2 (delete_key_rows (fun _ => true)) d in
   let? d := effect_of e3 (delete_pool_rows (fun _ => true)) d in
   effect_of e4 (delete_provider_rows (fun _ => true)) d) = Ok (cleared d).
Proof. unfold effect_of, delete_pool_rows. cbn. rewrite !filter_none. cbn. by rewrite !filter_none. Qed.

Lemma writes_import c : writes (import_config c) (import_pure c).
Proof.
  eapply writes_ext; [|unfold import_config;
    repeat first [apply writes_seq; [apply writes_run|] | apply writes_seq]; try apply writes_for_each].
  2: intros pp; apply writes_seq; [apply writes_run|]; apply writes_for_each; intros k; apply writes_run.
  2, 3, 4: intros x; apply writes_run.
  intros d. unfold import_pure. pose proof (clear_effect (internal "ConfigStore clear routing")
    (internal "ConfigStore clear keys") (internal "ConfigStore clear pools") (internal "ConfigStore clear providers") d) as H.
  repeat (case_match; simplify_eq; try done).
Qed.

Lemma add_keys_spec pool ks d :
  (forall d', fold_result (add_key pool) ks d = Ok d' -> d' = set_key_entry d (key_entry_tbl d ++ (key_row pool <$> ks)))
  /\ (pool_known d pool = true -> is_ok (fold_result (add_key pool) ks d) = true).
Proof.
  destruct (fold_result_append (add_key pool) (key_row pool) key_entry_tbl set_key_entry
              (fun d _ => pool_known d pool = true)) with (l := ks) (d := d) as [H1 H2].
  - intros k d1 d2. unfold add_key, effect_of, insert_key_row. cbn. by destruct (pool_known d1 pool); intros [= <-].
  - intros k d1 H. unfold add_key, effect_of, insert_key_row. cbn. by rewrite H.
  - done.
  - by intros [].
  - split; [done|]. intros H. apply H2. by intros.
Qed.

Lemma add_pool_spec pp d :
  (forall d', add_pool pp d = Ok d' ->
     d' = set_key_entry (set_key_pool d (key_pool_tbl d ++ pool_rows [pp])) (key_entry_tbl d ++ key_rows [pp]))
  /\ (pp.1 ∉ kp_id <$> key_pool_tbl d -> is_ok (add_pool pp d) = true).
Proof.
  unfold add_pool, effect_of, insert_pool_row. cbn [kp_id].
  destruct (pool_known d pp.1) eqn:E.
  { split; [done|]. intros H. by apply pool_known_spec in E. }
  set (d1 := set_key_pool d _). destruct (add_keys_spec pp.1 (keys pp.2) d1) as [H1 H2]. split.
  - intros d' H. apply H1 in H as ->. cbn. by rewrite app_nil_r.
  - intros _. apply H2. apply pool_known_spec. cbn. rewrite fmap_app. set_solver.
Qed.

Lemma add_pools_spec pps d :
  (forall d', fold_result add_pool pps d = Ok d' ->
     d' = set_key_entry (set_key_pool d (key_pool_tbl d ++ pool_rows pps)) (key_entry_tbl d ++ key_rows pps))
  /\ (NoDup ((kp_id <$> key_pool_tbl d) ++ pps.*1) -> is_ok (fold_result add_pool pps d) = true).
Proof.
  revert d; induction pps as [|pp pps IH]; intros d; cbn.
  { rewrite !app_nil_r. split; [by intros d' [= <-]; destruct d|done]. }
  destruct (add_pool_spec pp d) as [H1 H2]. split.
  - intros d' H. destruct (add_pool pp d) as [d1|] eqn:E; [|done]. specialize (H1 d1 eq_refl) as ->.
    apply IH in H as ->. cbn. by rewrite app_nil_r, <- !app_assoc.
  - intros (Hn1 & Hn2 & Hn3)%NoDup_app. apply NoDup_cons in Hn3 as [Hx Hn3].
    assert (pp.1 ∉ kp_id <$> key_pool_tbl d) as Hnew by (intros Hin; apply (Hn2 _ Hin); set_solver).
    specialize (H2 Hnew). destruct (add_pool pp d) as [d1|] eqn:E; [|done]. specialize (H1 d1 eq_refl) as ->.
    apply IH. cbn. rewrite fmap_app, <- app_assoc. cbn. apply NoDup_app. split; [done|]. split; [done|].
    by apply NoDup_cons.
Qed.

Lemma add_providers_spec ps d :
  (forall d', fold_result add_provider ps d = Ok d' ->
     d' = set_provider_config d (provider_config_tbl d ++ (provider_row <$> ps)))
  /\ (is_ok (fold_result add_provider ps d) = true
      <-> NoDup (prov_id <$> ps) /\ (forall p, p ∈ ps -> prov_id p ∉ pc_id <$> provider_config_tbl d)).
Proof.
  revert d; induction ps as [|p ps IH]; intros d; cbn.
  { rewrite app_nil_r. split; [by intros d' [= <-]; destruct d|]. split; [|done]. intros _. split; [constructor|set_solver]. }
  unfold add_provider at 1 3, effect_of, insert_provider_row. cbn [pc_id provider_row].
  destruct (provider_known_db d (prov_id p)) eqn:E.
  { split; [done|]. split; [done|]. intros [_ H]. apply existsb_id in E. exfalso. apply (H p); [set_solver|done]. }
  apply existsb_id_false in E. destruct (IH (set_provider_config d (provider_config_tbl d ++ [provider_row p]))) as [H1 H2].
  split; [intros d' H; apply H1 in H as ->; cbn; by rewrite <- app_assoc|].
  rewrite H2, NoDup_cons. cbn. rewrite fmap_app. cbn. split.
  - intros [Hn Hf]. split; [split; [|done]|].
    + rewrite list_elem_of_fmap. intros (q & Hq & Hin). apply (Hf q Hin). rewrite <- Hq. set_solver.
    + intros q [->|Hq]%elem_of_cons; [done|]. specialize (Hf q Hq). set_solver.
  - intros [[Hp Hn] Hf]. split; [done|]. intros q Hq. apply not_elem_of_app. split; [apply Hf; set_solver|].
    intros Heq%list_elem_of_singleton. apply Hp. rewrite <- Heq. by apply list_elem_of_fmap_2.
Qed.

Lemma add_routes_spec rs d :
  (forall d', fold_result add_route rs d = Ok d' ->
     d' = set_routing_config d (routing_config_tbl d ++ (routing_row <$> rs)))
  /\ (Forall (fun mr => pool_id mr.2 ∈ kp_id <$> key_pool_tbl d) rs -> is_ok (fold_result add_route rs d) = true).
Proof.
  destruct (fold_result_append add_route routing_row routing_config_tbl set_routing_config
              (fun d mr => pool_id mr.2 ∈ kp_id <$> key_pool_tbl d)) with (l := rs) (d := d) as [H1 H2].
  - intros mr d1 d2. unfold add_route, effect_of, insert_routing_row. by destruct (pool_known d1 _); intros [= <-].
  - intros mr d1 H%pool_known_spec. unfold add_route, effect_of, insert_routing_row. cbn [rc_pool_id routing_row].
    by rewrite H.
  - done.
  - by intros [].
  - split; [done|]. intros H. apply H2. intros l1 x l2 ->. apply Forall_app in H as [_ H]. by inversion H.
Qed.

Lemma add_entries_spec es d :
  fold_result add_entry es d
  = Ok (set_model_registry d (foldl (fun l e => upsert_registry (registry_row e) l) (model_registry_tbl d) es)).
Proof. revert d; induction es as [|e es IH]; intros d; cbn; [by destruct d|]. by rewrite IH. Qed.

Lemma import_pure_result c d d' : import_pure c d = Ok d' -> d' = imported_db c d.
Proof.
  unfold import_pure. destruct (fold_result add_pool _ _) as [d1|] eqn:E1; [|done].
  apply add_pools_spec in E1 as ->. destruct (fold_result add_provider _ _) as [d2|] eqn:E2; [|done].
  apply add_providers_spec in E2 as ->. destruct (fold_result add_route _ _) as [d3|] eqn:E3; [|done].
  apply add_routes_spec in E3 as ->. rewrite add_entries_spec. by intros [= <-].
Qed.

(** A valid document can be imported exactly when its provider ids differ. *)
Lemma import_pure_ok c d : config_valid c ->
  (NoDup (prov_id <$> providers c) <-> import_pure c d = Ok (imported_db c d)).
Proof.
  intros (Hr & _ & _). destruct (add_pools_spec (dash_iter (pools c)) (cleared d)) as [H1 H2]. unfold import_pure.
  destruct (fold_result add_pool _ _) as [d1|]; [specialize (H1 d1 eq_refl) as -> |].
  2:{ specialize (H2 (dash_iter_nodup _)). done. }
  destruct (add_providers_spec (providers c) (set_key_entry (set_key_pool (cleared d) (pool_rows (dash_iter (pools c))))
     (key_rows (dash_iter (pools c))))) as [H3 H4]. cbn in *.
  destruct (fold_result add_provider _ _) as [d2|]; [specialize (H3 d2 eq_refl) as -> |]; cbn in H4.
  2:{ split; [|done]. intros Hn. assert (false = true); [|done]. apply H4. split; [done|]. set_solver. }
  split; [intros _|by intros _; apply H4]. cbn.
  match goal with |- context [fold_result add_route ?rs ?x] => destruct (add_routes_spec rs x) as [H5 H6] end.
  destruct (fold_result add_route _ _) as [d3|]; [specialize (H5 d3 eq_refl) as -> |]; [by rewrite add_entries_spec|].
  cbn in H6. discriminate H6. apply Forall_forall. intros [m r] Hin. apply dash_iter_elem in Hin.
  destruct (Hr m r Hin) as [p Hp]. unfold pool_rows. rewrite <- list_fmap_compose.
  apply list_elem_of_fmap. exists (pool_id r, p). split; [done|]. by apply dash_iter_elem.
Qed.
End Importing.

(* ------------------------------------------------------------------ *)
(** ** What the loads return *)

Section Loads.
Context `{SX : Sqlx} `{SJ : SerdeJson} `{DG : Digest}.
Context `{DP : !DashIter string ModelPricing} `{DE : !DashIter string PriceEntry}.

Definition of_pool (id : string) (r : KeyEntryRow) : bool := str_eqb (ke_pool_id r) id.

Lemma push_keys_spec l m id :
  unwrap_or (foldl push_key m l !! id) [] = unwrap_or (m !! id) [] ++ (key_of_row <$> List.filter (of_pool id) l).
Proof.
  revert m; induction l as [|r l IH]; intros m; csimpl; [by rewrite app_nil_r|]. rewrite IH. unfold push_key, of_pool at 2.
  destruct (str_eqb (ke_pool_id r) id) eqn:E.
  - apply str_eqb_spec in E as <-. rewrite lookup_insert_eq. csimpl. by rewrite <- app_assoc.
  - rewrite lookup_insert_ne; [done|]. intros Heq. by rewrite Heq, str_eqb_refl in E.
Qed.

Lemma take_pools_spec ids ks acc id : NoDup ids ->
  (foldl take_pool (ks, acc) ids).2 !! id
  = if bool_decide (id ∈ ids) then Some (mkPool (unwrap_or (ks !! id) [])) else acc !! id.
Proof.
  revert ks acc; induction ids as [|i ids IH]; intros ks acc; csimpl; [done|].
  intros [Hi Hn]%NoDup_cons. unfold take_pool at 2. cbn [fst snd]. rewrite IH by done.
  destruct (decide (id = i)) as [->|Hne].
  - rewrite (bool_decide_false (i ∈ ids)) by done. rewrite bool_decide_true by set_solver. by rewrite lookup_insert_eq.
  - rewrite lookup_insert_ne, lookup_delete_ne by done.
    destruct (decide (id ∈ ids)); [rewrite !bool_decide_true by set_solver|rewrite !bool_decide_false by set_solver]; done.
Qed.

(** A pool is loaded with the keys of its rows. *)
Lemma db_pools_spec d id : NoDup (kp_id <$> key_pool_tbl d) ->
  db_pools d !! id
  = if bool_decide (id ∈ enabled_pools d)
    then Some (mkPool (key_of_row <$> List.filter (of_pool id) (enabled_keys d))) else None.
Proof.
  intros Hn. unfold db_pools. rewrite take_pools_spec.
  - rewrite push_keys_spec, lookup_empty. done.
  - unfold enabled_pools. rewrite scan_perm. by apply NoDup_fmap_filter.
Qed.

Lemma kind_roundtrip k : str_to_provider_kind (provider_kind_to_str k) = Ok k.
Proof. by destruct k. Qed.

Lemma cred_type_roundtrip k : parse_cred_type (Some (cred_type_str k)) = cred_type k.
Proof. unfold cred_type_str. by destruct (cred_type k). Qed.

(** *** A key, a route and a provider written and read back *)

Definition stored_key (k : KeyEntry) : KeyEntry :=
  mkKeyEntry (key k) (weight k) (cred_type k) (refresh k) (expires k) (issuer k) (Some (identity_hash k)).

Lemma key_roundtrip pool k : 0 <= weight k < 2 ^ 32 -> key_of_row (key_row pool k) = stored_key k.
Proof. intros Hw. unfold key_of_row, key_row. cbn -[parse_cred_type].
  by rewrite cred_type_roundtrip, wrap_small. Qed.

(** What a route is used for. *)
Definition route_view (r : ModelRouting) : string * option Value * option string :=
  (pool_id r, default_params r, upstream_model r).

(** The JSON values of a document survive printing and parsing. *)
Definition json_faithful (v : Value) : Prop := from_str (to_string v) = Some v.

Lemma upstream_idemp o : non_empty (trim <$> non_empty (trim <$> o)) = non_empty (trim <$> o).
Proof.
  destruct o as [s|]; [|done]. unfold non_empty, opt_filter. cbn -[trim].
  destruct (str_is_empty (trim s)) eqn:E; cbn -[trim]; [done|]. by rewrite trim_idemp, E.
Qed.

Lemma upstream_model_idemp r : non_empty (trim <$> upstream_model r) = upstream_model r.
Proof. destruct r; [done|]. apply upstream_idemp. Qed.

Lemma route_roundtrip model r :
  (forall v, default_params r = Some v -> json_faithful v) ->
  (routing_of_row (routing_row (model, r))).1 = model
  /\ route_view (routing_of_row (routing_row (model, r))).2 = route_view r.
Proof.
  intros Hj. unfold routing_of_row, routing_row. cbn. rewrite upstream_model_idemp. split; [done|].
  assert (forall v, default_params r = Some v -> is_object v = true) as Ho.
  { destruct r; cbn; [done|]. case_match; [|done]. by intros v [= <-]. }
  unfold route_view. destruct (default_params r) as [v|] eqn:Ed; cbn.
  - rewrite (Hj v eq_refl). cbn. rewrite (Ho v eq_refl). cbn. by rewrite (Ho v eq_refl), upstream_model_idemp.
  - destruct (upstream_model r) as [u|] eqn:Eu; [|done].
    pose proof (upstream_model_idemp r) as Hu. rewrite Eu in Hu. cbn -[trim non_empty] in Hu |- *. by rewrite Hu.
Qed.

Definition stored_provider (p : ProviderConfig) : ProviderConfig :=
  mkProviderConfig (prov_id p) (prov_pool_id p) (base_url p) (prov_kind p)
    (if is_object (metadata p) then metadata p else obj []).

Lemma provider_roundtrip p :
  json_faithful (if is_object (metadata p) then metadata p else obj []) ->
  provider_of_row (provider_row p) = Ok (stored_provider p).
Proof. intros Hj. unfold provider_of_row, provider_row. cbn. rewrite Hj. cbn. by rewrite kind_roundtrip. Qed.
End Loads.

(* ------------------------------------------------------------------ *)
(** ** Importing *)

Section ImportClaims.
Context `{SX : Sqlx} `{SJ : SerdeJson} `{DG : Digest}.
Context `{DP : !DashIter string ModelPricing} `{DE : !DashIter string PriceEntry}.
Context `{DR : !DashIter string ModelRouting} `{DO : !DashIter string PoolConfig}.
Context (yaml_config : string -> Result Config string).

Lemma import_transaction c b e w :
  match transaction b e (import_config c) w with
  | (w', Ok _) => w_db w' = imported_db c (w_db w) /\ w_store w' = w_store w
  | (w', Err _) => w_db w' = w_db w /\ w_store w' = w_store w
  end.
Proof.
  pose proof (transaction_cases b e (import_config c) w) as H.
  assert (store_frame (transaction b e (import_config c))) as Hf.
  { apply frame_transaction. intros w0. apply (writes_import c w0). }
  specialize (Hf w). destruct (transaction b e (import_config c) w) as [w' [[]|er]]; cbn in Hf; [|by split].
  destruct H as (w0 & w1 & Hd & _ & Hm & Hd' & _). split; [|done]. destruct (writes_import c w0) as (_ & Hr & _).
  rewrite Hm in Hr. cbn in Hr. apply import_pure_result in Hr as H; [|done]. congruence.
Qed.

Lemma import_yaml_cases yaml now w :
  match import_yaml yaml_config yaml now w with
  | (w', Ok _) => exists c, validate_yaml yaml_config yaml = Ok c /\ w_db w' = imported_db c (w_db w)
                            /\ snapshot_of now (w_store w) (w_db w') = Ok (w_store w')
  | (w', Err _) => w_store w' = w_store w
                   /\ (w_db w' = w_db w
                       \/ exists c, validate_yaml yaml_config yaml = Ok c /\ w_db w' = imported_db c (w_db w))
  end.
Proof.
  unfold import_yaml, mbind, M_bind, lift. destruct (validate_yaml yaml_config yaml) as [c|e]; [|by split; [|left]].
  match goal with |- context [transaction ?b ?e ?m w] => pose proof (import_transaction c b e w) as H;
    destruct (transaction b e m w) as [w1 [[]|er]] end; [|by destruct H; split; [|left]].
  destruct H as [Hd Hs]. pose proof (refresh_cases now w1) as Hr. rewrite Hs, Hd in Hr.
  destruct (refresh_from_db now w1) as [w' [[]|er]]; destruct Hr as [Hd' Hr]; [|split; [done|right]];
    exists c; rewrite Hd'; auto.
Qed.

(** Claim C23: an import is atomic, whatever statement, begin or commit fails and
    at whatever point: a successful one has replaced the managed tables by the
    document's content and the snapshot by what the new tables hold; a failed one
    leaves the snapshot as it was and the database either untouched or, when
    only the refresh after the commit failed, completely replaced.*)
Theorem import_yaml_atomic yaml now w :
  match import_yaml yaml_config yaml now w with
  | (w', Ok _) => exists c, validate_yaml yaml_config yaml = Ok c /\ w_db w' = imported_db c (w_db w)
                            /\ snapshot_of now (w_store w) (w_db w') = Ok (w_store w')
  | (w', Err _) => w_store w' = w_store w
                   /\ (w_db w' = w_db w
                       \/ exists c, validate_yaml yaml_config yaml = Ok c /\ w_db w' = imported_db c (w_db w))
  end.
Proof. apply import_yaml_cases. Qed.

(** Values are in the range of their Rust type ([u32], [i32]), and the JSON values
    of the document survive printing. *)
Record importable (c : Config) : Prop := {
  weights_fit : map_Forall (fun _ p => Forall (fun k => 0 <= weight k < 2 ^ 32) (keys p)) (pools c);
  params_faithful : map_Forall (fun _ r => forall v, default_params r = Some v -> json_faithful v) (model_to_pool c);
  metadata_faithful : Forall (fun p => json_faithful (if is_object (metadata p) then metadata p else obj [])) (providers c);
  tokens_fit : Forall (fun e => - 2 ^ 31 <= reg_max_context_tokens e < 2 ^ 31
                                /\ - 2 ^ 31 <= reg_max_output_tokens e < 2 ^ 31) (model_registry c);
  distinct_providers : NoDup (prov_id <$> providers c)
}.

(** A registry row the loader can decode. *)
Definition row_fits (r : RegistryRow) : Prop :=
  - 2 ^ 31 <= mr_max_context_tokens r < 2 ^ 31 /\ - 2 ^ 31 <= mr_max_output_tokens r < 2 ^ 31.

Lemma registry_loads d : Forall row_fits (model_registry_tbl d) -> is_ok (db_registry d) = true.
Proof.
  intros H. unfold db_registry. assert (is_ok (collect registry_of_row (scan (model_registry_tbl d))) = true) as Hc.
  { apply collect_ok. rewrite scan_perm. eapply Forall_impl; [exact H|]. intros r [H1 H2]. unfold registry_of_row.
    by rewrite !decode_i32_ok. }
  by destruct (collect _ _).
Qed.

Lemma upserts_fit es l : Forall (fun e => row_fits (registry_row e)) es -> Forall row_fits l ->
  Forall row_fits (foldl (fun l e => upsert_registry (registry_row e) l) l es).
Proof.
  intros He. revert l; induction He as [|e es He _ IH]; intros l Hl; cbn; [done|]. apply IH. unfold upsert_registry.
  destruct (existsb _ l); [|by apply Forall_app_2; [|constructor]]. unfold replace_registry.
  apply Forall_fmap. eapply Forall_impl; [exact Hl|]. intros q Hq. cbn. by destruct (str_eqb _ _).
Qed.

(** *** The tables of an import, read back *)

Lemma key_rows_of_pool pps id p : NoDup pps.*1 -> (id, p) ∈ pps ->
  List.filter (of_pool id) (key_rows pps) = key_row id <$> keys p.
Proof.
  assert (forall i l, List.filter (of_pool id) (key_row i <$> l) = if str_eqb i id then key_row i <$> l else []) as Hf.
  { intros i l. unfold of_pool. destruct (str_eqb i id) eqn:E; induction l as [|k l IH]; csimpl; try done; by rewrite E, ?IH. }
  assert (forall pps, id ∉ pps.*1 -> List.filter (of_pool id) (key_rows pps) = []) as Hn.
  { intros l. induction l as [|[i q] l IH]; csimpl; [done|]. intros [Hi Hl]%not_elem_of_cons. unfold key_rows. csimpl.
    rewrite List.filter_app, Hf, str_eqb_ne by done. by apply IH. }
  induction pps as [|[i q] pps IH]; csimpl; [set_solver|]. intros [Hi Hnd]%NoDup_cons. unfold key_rows. csimpl.
  rewrite List.filter_app, Hf. fold (key_rows pps). intros [[= <- <-]|Hin]%elem_of_cons.
  - by rewrite str_eqb_refl, Hn, app_nil_r.
  - rewrite str_eqb_ne; [by apply IH|]. intros ->. apply Hi. by apply (list_elem_of_fmap_2 fst) in Hin.
Qed.

Lemma all_enabled {A} (f : A -> Z) l : Forall (fun r => f r = 1) l -> List.filter (fun r => is_one (f r)) l = l.
Proof. induction 1 as [|r l Hr _ IH]; cbn; [done|]. rewrite IH. unfold is_one. by rewrite Hr. Qed.

Lemma imported_pools c d id : importable c ->
  match pools c !! id with
  | Some p => exists ks, db_pools (imported_db c d) !! id = Some (mkPool ks) /\ ks ≡ₚ stored_key <$> keys p
  | None => db_pools (imported_db c d) !! id = None
  end.
Proof.
  intros Hc. assert ((kp_id <$> pool_rows (dash_iter (pools c))) = (dash_iter (pools c)).*1) as Hids.
  { unfold pool_rows. rewrite <- list_fmap_compose. by apply list_fmap_ext. }
  assert (forall x, x ∈ enabled_pools (imported_db c d) <-> x ∈ (dash_iter (pools c)).*1) as Hen.
  { intros x. unfold enabled_pools. rewrite scan_perm. cbn [imported_db key_pool_tbl].
    rewrite all_enabled by by apply Forall_fmap, Forall_forall. by rewrite Hids. }
  rewrite db_pools_spec by (cbn [imported_db key_pool_tbl]; rewrite Hids; apply dash_iter_nodup).
  destruct (pools c !! id) as [p|] eqn:E.
  - apply dash_iter_elem in E as Hin. rewrite bool_decide_true by (apply Hen; by apply (list_elem_of_fmap_2 fst) in Hin).
    eexists. split; [done|]. unfold enabled_keys. rewrite scan_perm. cbn [imported_db key_entry_tbl].
    rewrite all_enabled, (key_rows_of_pool _ id p); [|apply dash_iter_nodup|done|].
    + rewrite <- list_fmap_compose. erewrite list_fmap_ext; [reflexivity|]. intros i k Hk. unfold compose.
      apply key_roundtrip. pose proof (weights_fit c Hc id p E) as Hw. rewrite Forall_forall in Hw. apply Hw.
      by apply list_elem_of_lookup_2 in Hk.
    + apply Forall_forall. intros r. unfold key_rows. rewrite list_elem_of_bind. intros (pp & Hr & _).
      apply list_elem_of_fmap in Hr as (k & -> & _). done.
  - rewrite bool_decide_false; [done|]. rewrite Hen, list_elem_of_fmap. intros ([i p] & -> & Hin).
    apply dash_iter_elem in Hin. cbn in E. congruence.
Qed.

Lemma imported_routing c d m : importable c ->
  route_view <$> db_routing (imported_db c d) !! m = route_view <$> model_to_pool c !! m.
Proof.
  intros Hc. set (rows := enabled_routes (imported_db c d)).
  assert (rows ≡ₚ routing_row <$> dash_iter (model_to_pool c)) as Hrows.
  { unfold rows, enabled_routes. rewrite scan_perm. cbn [imported_db routing_config_tbl].
    by rewrite all_enabled by by apply Forall_fmap, Forall_forall. }
  assert (Hfst : (routing_of_row <$> rows).*1 ≡ₚ (dash_iter (model_to_pool c)).*1).
  { rewrite Hrows, <- !list_fmap_compose. by erewrite list_fmap_ext. }
  assert (NoDup (routing_of_row <$> rows).*1) as Hn by (rewrite Hfst; apply dash_iter_nodup).
  assert (forall r', db_routing (imported_db c d) !! m = Some r' <->
            exists r, model_to_pool c !! m = Some r /\ r' = (routing_of_row (routing_row (m, r))).2) as Hl.
  { intros r'. unfold db_routing. fold rows. rewrite collect_map_lookup by done. rewrite Hrows, <- list_fmap_compose.
    rewrite list_elem_of_fmap. split.
    - intros ([m' r] & [= <- ->] & Hin). exists r. by apply dash_iter_elem in Hin.
    - intros (r & Hr & ->). exists (m, r). by rewrite dash_iter_elem. }
  destruct (model_to_pool c !! m) as [r|] eqn:E.
  - rewrite (proj2 (Hl _) (ex_intro _ r (conj eq_refl eq_refl))). cbn [fmap option_fmap option_map]. f_equal.
    apply route_roundtrip. by apply (params_faithful c Hc m).
  - destruct (db_routing (imported_db c d) !! m) as [r'|]; [|done]. by destruct (proj1 (Hl r') eq_refl) as (r & ? & _).
Qed.

Lemma imported_providers c d : importable c ->
  exists ps, collect provider_of_row (enabled_providers (imported_db c d)) = Ok ps /\ ps ≡ₚ stored_provider <$> providers c.
Proof.
  intros Hc. assert (enabled_providers (imported_db c d) ≡ₚ provider_row <$> providers c) as Hp.
  { unfold enabled_providers. rewrite scan_perm. cbn [imported_db provider_config_tbl].
    by rewrite all_enabled by by apply Forall_fmap, Forall_forall. }
  set (back := fun r => match provider_of_row r with Ok p => p | Err _ => mkProviderConfig "" "" "" OpenAi Null end).
  exists (back <$> enabled_providers (imported_db c d)). split.
  - apply collect_map_ok. rewrite Hp. apply Forall_fmap. eapply Forall_impl; [apply (metadata_faithful c Hc)|].
    intros p Hj. cbn. unfold back. by rewrite provider_roundtrip.
  - rewrite Hp, <- list_fmap_compose. erewrite list_fmap_ext; [reflexivity|]. intros i p Hi. unfold compose, back.
    rewrite provider_roundtrip; [done|]. pose proof (metadata_faithful c Hc) as Hf. rewrite Forall_forall in Hf.
    apply Hf. by apply list_elem_of_lookup_2 in Hi.
Qed.

Lemma import_yaml_result yaml c now w :
  validate_yaml yaml_config yaml = Ok c -> importable c -> quiet w ->
  Forall row_fits (model_registry_tbl (w_db w)) ->
  exists w', import_yaml yaml_config yaml now w = (w', Ok tt)
  /\ (forall id, match pools c !! id with
                 | Some p => exists ks, cs_pools (w_store w') !! id = Some (mkPool ks) /\ ks ≡ₚ stored_key <$> keys p
                 | None => cs_pools (w_store w') !! id = None
                 end)
  /\ (forall m, route_view <$> cs_routing (w_store w') !! m = route_view <$> model_to_pool c !! m)
  /\ cs_providers (w_store w') ≡ₚ stored_provider <$> providers c
  /\ cs_version (w_store w') = wadd 64 (cs_version (w_store w)) 1
  /\ cs_runtime (w_store w') = cs_runtime (w_store w) /\ cs_metadata (w_store w') = cs_metadata (w_store w)
  /\ cs_bootstrap_pricing (w_store w') = cs_bootstrap_pricing (w_store w).
Proof.
  intros Hv Hc Hq Hfit.
  assert (config_valid c) as Hval.
  { apply validate_ok. unfold validate_yaml in Hv. destruct (yaml_config yaml); [|done].
    destruct (validate a) eqn:E; simplify_eq. by rewrite E. }
  unfold import_yaml, mbind, M_bind, lift. rewrite Hv.
  destruct (writes_import c w) as (_ & _ & Hw). specialize (Hw Hq).
  rewrite (proj1 (import_pure_ok c (w_db w) Hval) (distinct_providers c Hc)) in Hw.
  rewrite transaction_quiet by (rewrite ?Hw; done). rewrite Hw, refresh_quiet by done.
  set (d := imported_db c (w_db w)). destruct (imported_providers c (w_db w) Hc) as (ps & Hps & Hperm). fold d in Hps.
  assert (is_ok (db_registry d) = true) as Hreg.
  { apply registry_loads, upserts_fit; [|done]. eapply Forall_impl; [apply (tokens_fit c Hc)|]. done. }
  cbn [w_db set_db w_store]. unfold snapshot_of. rewrite Hps. destruct (db_registry d) as [reg|]; [|done].
  eexists. split; [reflexivity|]. cbn. split; [|split]; [| |done].
  - intros id. by apply imported_pools.
  - intros m. by apply imported_routing.
Qed.

(** Claim C24: importing a valid document succeeds when nothing fails, its provider
    ids differ and the stored catalog is readable, and what the gateway then
    works with is the document: every pool has exactly its keys, with their
    secrets, weights and stable identities; every model has its pool, default
    parameters and upstream name, and no other model is routed; the providers are
    the document's; the version moves on, and the policy, the metadata and the YAML
    prices are untouched.*)
Theorem import_yaml_roundtrip yaml c now w :
  validate_yaml yaml_config yaml = Ok c -> importable c -> quiet w ->
  Forall row_fits (model_registry_tbl (w_db w)) ->
  exists w', import_yaml yaml_config yaml now w = (w', Ok tt)
  /\ (forall id, match pools c !! id with
                 | Some p => exists ks, cs_pools (w_store w') !! id = Some (mkPool ks) /\ ks ≡ₚ stored_key <$> keys p
                 | None => cs_pools (w_store w') !! id = None
                 end)
  /\ (forall m, route_view <$> cs_routing (w_store w') !! m = route_view <$> model_to_pool c !! m)
  /\ cs_providers (w_store w') ≡ₚ stored_provider <$> providers c
  /\ cs_version (w_store w') = wadd 64 (cs_version (w_store w)) 1
  /\ cs_runtime (w_store w') = cs_runtime (w_store w) /\ cs_metadata (w_store w') = cs_metadata (w_store w)
  /\ cs_bootstrap_pricing (w_store w') = cs_bootstrap_pricing (w_store w).
Proof. apply import_yaml_result. Qed.
End ImportClaims.

(* ------------------------------------------------------------------ *)
(** ** A concrete document *)

Module StoreDemo.
Definition sqlx : Sqlx.
Proof.
  refine {| scan := fun _ l => l; scan_perm := fun _ _ => reflexivity _;
            decode_i32 := fun z => if (- 2 ^ 31 <=? z) && (z <? 2 ^ 31) then Ok z else Err (Driver "integer out of range");
            db_display := fun e => match e with Driver m => m | UniqueViolation => "UNIQUE" | ForeignKeyViolation => "FOREIGN KEY" end |}.
  intros z [H1 H2]. apply Z.leb_le in H1. apply Z.ltb_lt in H2. by rewrite H1, H2.
Defined.
Definition params : Value := obj [("temperature", json_int 1)].
(** Two values with their texts. *)
Definition serde : SerdeJson :=
  {| from_str := fun s => if str_eqb s "{}" then Some (obj []) else if str_eqb s "{temperature:1}" then Some params else None;
     to_string := fun v => match v with Object [] => "{}" | _ => "{temperature:1}" end |}.
Definition digest : Digest := {| sha256 := fun s => str_take 32 (s +:+ "................................") |}.
Definition it_prices : DashIter string ModelPricing := dash_iter_by_key string ModelPricing.
Definition it_entries : DashIter string PriceEntry := dash_iter_by_key string PriceEntry.
Definition it_routes : DashIter string ModelRouting := dash_iter_by_key string ModelRouting.
Definition it_pools : DashIter string PoolConfig := dash_iter_by_key string PoolConfig.

Definition a_key : KeyEntry := mkKeyEntry "sk-one" 2 ApiKey None None None None.
Definition a_provider : ProviderConfig := mkProviderConfig "up" "p" "https://up" OpenAi Null.
Definition doc : Config :=
  mkConfig {["p" := mkPool [a_key]]} [a_provider]
           {["gpt" := WithParams "p" params (Some "gpt-large")]} [].
Definition yaml (s : string) : Result Config string := if str_eqb s "doc" then Ok doc else Err "bad document".
Definition w0 : World := mkWorld [] empty_db snapshot_default.
End StoreDemo.

Section StoreWitnesses.
Import StoreDemo.
#[local] Existing Instances sqlx serde digest it_prices it_entries it_routes it_pools.

Lemma doc_importable : importable doc.
Proof.
  split; cbn [doc pools model_to_pool providers model_registry]; try (by constructor).
  - apply map_Forall_singleton. repeat constructor; vm_compute; done.
  - apply map_Forall_singleton. intros v [= <-]. reflexivity.
  - apply NoDup_singleton.
Qed.

Theorem import_yaml_roundtrip_witness : exists w', import_yaml yaml "doc" 5 w0 = (w', Ok tt)
  /\ cs_version (w_store w') = 1
  /\ cs_providers (w_store w') ≡ₚ [mkProviderConfig "up" "p" "https://up" OpenAi (obj [])]
  /\ (exists ks, cs_pools (w_store w') !! "p" = Some (mkPool ks) /\ ks ≡ₚ [stored_key a_key])
  /\ (exists r, cs_routing (w_store w') !! "gpt" = Some r /\ route_view r = ("p", Some params, Some "gpt-large")).
Proof.
  assert (validate_yaml yaml "doc" = Ok doc) as Hv by (vm_compute; reflexivity).
  destruct (import_yaml_roundtrip yaml "doc" doc 5 w0 Hv doc_importable eq_refl (Forall_nil_2 _))
    as (w' & Hr & Hp & Hm & Hps & Hver & _).
  exists w'. split; [exact Hr|]. split; [exact Hver|]. split; [exact Hps|]. split; [exact (Hp "p")|].
  specialize (Hm "gpt"). destruct (cs_routing (w_store w') !! "gpt") as [r|]; [|discriminate Hm].
  exists r. split; [reflexivity|]. exact (f_equal (fun o => match o with Some x => x | None => route_view r end) Hm).
Defined.

(** A unique violation is found by the database, not by the validation. *)
Example duplicate_providers_fail_late :
  let twice := mkConfig (pools doc) [a_provider; a_provider] (model_to_pool doc) [] in
  let two (s : string) : Result Config string := Ok twice in
  validate_yaml two "any" = Ok twice
  /\ (import_yaml two "any" 5 w0).2 = Err (Internal "ConfigStore import provider: UNIQUE").
Proof. split; vm_compute; reflexivity. Qed.
End StoreWitnesses.
