(* ===== verification/Router.v ===== *)
(** * Routing: bad keys, key selection, the live router

    Models [src/src/router.rs] (the registry of bad keys, model resolution,
    weighted selection, demotion, the dashboard snapshot, the swappable handle),
    [src/src/chat_service.rs], [src/src/provider/registry.rs] (building the
    providers) and [src/src/runtime.rs] (building a router from a configuration
    snapshot).  A provider is a trait object: a type parameter.  The registry of
    bad keys is shared by routers and the health task, so it is a state of its
    own, passed to the operations that read or write it.  The weighted choice of
    the rand crate is a parameter with its documented law. *)

From stdpp Require Import sorting.
From S2P Require Import Prelude Json Types Config.

(** ** Bad keys *)

Record BadKeyRegistry := mkBad { bad : gmap string (list string) }.

Definition bad_new : BadKeyRegistry := mkBad ∅.

Definition mark_bad_hash (b : BadKeyRegistry) (pool_id key_hash : string) : BadKeyRegistry :=
  mkBad (<[pool_id := unwrap_or (bad b !! pool_id) [] ++ [key_hash]]> (bad b)).

Definition is_bad (b : BadKeyRegistry) (pool_id key_hash : string) : bool :=
  match bad b !! pool_id with
  | Some l => existsb (fun k => str_eqb k key_hash) l
  | None => false
  end.

Definition all_bad (b : BadKeyRegistry) (pool_id : string) (total_keys : nat) : bool :=
  match bad b !! pool_id with
  | Some l => (total_keys <=? length l)%nat
  | None => false
  end.

Definition bad_snapshot `{!DashIter string (list string)} (b : BadKeyRegistry) : list (string * string) :=
  flat_map (fun entry => (fun kh => (entry.1, kh)) <$> entry.2) (dash_iter (bad b)).

Definition remove_bad (b : BadKeyRegistry) (pool_id key_hash : string) : BadKeyRegistry :=
  match bad b !! pool_id with
  | None => b
  | Some l =>
      let l' := List.filter (fun k => negb (str_eqb k key_hash)) l in
      match l' with
      | [] => mkBad (delete pool_id (bad b))
      | _ => mkBad (<[pool_id := l']> (bad b))
      end
  end.

(** ** rand's [WeightedIndex]: an index for a list of [u32] weights and a source
    of randomness, or an error. *)

Class WeightedIndex := { wi_sample : list Z -> Z -> option nat }.

Definition total_weight (ws : list Z) : Z := foldr Z.add 0 ws.

(** Documented: with non-negative weights, not all zero, whose sum fits the
    type, an index of a non-zero weight is sampled. *)
Class WeightedIndexLaws `{WeightedIndex} : Prop := {
  wi_sample_spec : forall ws r,
    Forall (fun w => 0 <= w) ws -> 0 < total_weight ws < 2 ^ 32 ->
    exists i w, wi_sample ws r = Some i /\ ws !! i = Some w /\ 0 < w
}.

(** ** The router *)

Record RouteEntry := mkRouteEntry {
  re_pool_id : string;
  re_pool : PoolConfig;
  re_default_params : option Value;
  re_upstream_model : option string
}.

Record Router (P : Type) := mkRouter {
  model_map : gmap string RouteEntry;
  router_providers : gmap string P
}.
Arguments mkRouter {P}.
Arguments model_map {P}.
Arguments router_providers {P}.

Definition resolve {P} (r : Router P) (model : string) : Result (P * RouteEntry) AppError :=
  let? entry := ok_or (model_map r !! model) (NotFound ("model '" +:+ model +:+ "' not found")) in
  let? provider := ok_or (router_providers r !! re_pool_id entry)
                     (ConfigError ("pool '" +:+ re_pool_id entry +:+ "' not found")) in
  Ok (provider, entry).

Section Selection.
Context `{Digest}.

(** The filter shared by [healthy_key_count] and [pick_key]. *)
Definition healthy (b : BadKeyRegistry) (pool_id : string) (k : KeyEntry) : bool :=
  (0 <? weight k) && negb (is_bad b pool_id (identity_hash k)).

Definition healthy_key_count (b : BadKeyRegistry) (pool : PoolConfig) (pool_id : string) : nat :=
  count_if (healthy b pool_id) (keys pool).

Definition pick_key `{WeightedIndex} (b : BadKeyRegistry) (pool : PoolConfig) (pool_id : string) (rng : Z)
    : option KeyEntry :=
  let candidates := List.filter (healthy b pool_id) (keys pool) in
  match candidates with
  | [] => None
  | _ =>
      let weights := weight <$> candidates in
      match wi_sample weights rng with
      | Some idx => candidates !! idx
      | None => None
      end
  end.

Definition mark_bad (b : BadKeyRegistry) (pool_id : string) (k : KeyEntry) : BadKeyRegistry :=
  mark_bad_hash b pool_id (identity_hash k).

(** The count and the mark are separate accesses to the shared map: [others] is what
    other requests and the health task do to it in between. *)
Definition try_demote (others : BadKeyRegistry -> BadKeyRegistry) (b : BadKeyRegistry) (pool : PoolConfig)
    (pool_id : string) (k : KeyEntry) : BadKeyRegistry * bool :=
  if (healthy_key_count b pool pool_id <=? 1)%nat then (b, false)
  else (mark_bad (others b) pool_id k, true).

Definition pool_exhausted (pool_id : string) : AppError :=
  Internal ("all keys in pool '" +:+ pool_id +:+ "' exhausted").

Record KeySnapshot := mkKeySnapshot { ks_key_hash : string; ks_weight : Z; ks_healthy : bool }.
Record PoolSnapshot := mkPoolSnapshot { ps_pool_id : string; ps_keys : list KeySnapshot }.

(** The loop of [pool_snapshot]: the first route of a pool is shown. *)
Fixpoint pool_snapshot_loop (b : BadKeyRegistry) (seen : list string) (l : list RouteEntry)
    : list PoolSnapshot :=
  match l with
  | [] => []
  | e :: l' =>
      if existsb (str_eqb (re_pool_id e)) seen then pool_snapshot_loop b seen l'
      else mkPoolSnapshot (re_pool_id e)
             ((fun k => mkKeySnapshot (identity_hash k) (weight k)
                          (negb (is_bad b (re_pool_id e) (identity_hash k)))) <$> keys (re_pool e))
           :: pool_snapshot_loop b (re_pool_id e :: seen) l'
  end.

Definition pool_snapshot {P} `{!DashIter string RouteEntry} (b : BadKeyRegistry) (r : Router P)
    : list PoolSnapshot :=
  pool_snapshot_loop b [] (snd <$> dash_iter (model_map r)).
End Selection.

Definition model_list {P} `{!DashIter string RouteEntry} (r : Router P) : list string :=
  merge_sort String.le (fst <$> dash_iter (model_map r)).

Definition model_pool_list {P} `{!DashIter string RouteEntry} (r : Router P) : list (string * string) :=
  merge_sort (fun a b => String.le a.1 b.1)
    ((fun me => (me.1, re_pool_id me.2)) <$> dash_iter (model_map r)).

(** ** The handle and the service *)

Record RouterHandle (P : Type) := mkHandle { current : Router P }.
Arguments mkHandle {P}.
Arguments current {P}.

Definition swap {P} (h : RouterHandle P) (r : Router P) : RouterHandle P := mkHandle r.

Record ChatCompletionService (P : Type) := mkService { service_router : RouterHandle P }.
Arguments mkService {P}.
Arguments service_router {P}.

Definition service_snapshot {P} (s : ChatCompletionService P) : Router P := current (service_router s).

(** ** Building providers and routers *)

Record ProviderFactory (P : Type) := mkFactory {
  kind_name : string;
  supports : ProviderKind -> bool;
  create : ProviderConfig -> list Z -> Result P AppError
}.
Arguments mkFactory {P}.
Arguments kind_name {P}.
Arguments supports {P}.
Arguments create {P}.

Definition kind_debug (k : ProviderKind) : string :=
  match k with OpenAi => "OpenAi" | Anthropic => "Anthropic" | Gemini => "Gemini" end.

Fixpoint build_one {P} (factories : list (ProviderFactory P)) (cfg : ProviderConfig) (codes : list Z)
    : Result P AppError :=
  match factories with
  | [] => Err (ConfigError ("no provider factory found for kind '" +:+ kind_debug (prov_kind cfg) +:+ "'"))
  | f :: fs => if supports f (prov_kind cfg) then create f cfg codes else build_one fs cfg codes
  end.

Fixpoint build_all_loop {P} (factories : list (ProviderFactory P)) (codes : list Z)
    (acc : gmap string P) (cfgs : list ProviderConfig) : Result (gmap string P) AppError :=
  match cfgs with
  | [] => Ok acc
  | cfg :: rest =>
      let? provider := build_one factories cfg codes in
      build_all_loop factories codes (<[prov_pool_id cfg := provider]> acc) rest
  end.

Definition build_all {P} (factories : list (ProviderFactory P)) (cfgs : list ProviderConfig) (codes : list Z)
    : Result (gmap string P) AppError :=
  build_all_loop factories codes ∅ cfgs.

(** The part of a [ConfigSnapshot] that routing is built from. *)
Record RoutingSnapshot := mkRouting {
  rs_providers : list ProviderConfig;
  rs_pools : gmap string PoolConfig;
  rs_routing : gmap string ModelRouting
}.

Section Rebuild.
Context {P : Type} `{!DashIter string ModelRouting}.

Definition check_route (s : RoutingSnapshot) (mr : string * ModelRouting) : Result unit AppError :=
  if negb (is_some (rs_pools s !! pool_id mr.2)) then
    Err (ConfigError ("pool '" +:+ pool_id mr.2 +:+ "' referenced by model '" +:+ mr.1
                      +:+ "' not found in configured pools"))
  else Ok tt.

Fixpoint build_model_map (s : RoutingSnapshot) (acc : gmap string RouteEntry)
    (l : list (string * ModelRouting)) : Result (gmap string RouteEntry) AppError :=
  match l with
  | [] => Ok acc
  | (model, route) :: l' =>
      let? pool := ok_or (rs_pools s !! pool_id route)
                     (ConfigError ("pool '" +:+ pool_id route +:+ "' not found")) in
      build_model_map s
        (<[model := mkRouteEntry (pool_id route) pool (default_params route) (upstream_model route)]> acc) l'
  end.

Definition rebuild_router (factories : list (ProviderFactory P)) (s : RoutingSnapshot) (codes : list Z)
    : Result (Router P) AppError :=
  let? providers := build_all factories (rs_providers s) codes in
  let? _ := check_all (check_route s) (dash_iter (rs_routing s)) in
  let? mm := build_model_map s ∅ (dash_iter (rs_routing s)) in
  Ok (mkRouter mm providers).
End Rebuild.

(* ------------------------------------------------------------------ *)
(** ** The registry is a set of (pool, key) pairs *)

Lemma existsb_str k l : existsb (fun x => str_eqb x k) l = bool_decide (k ∈ l).
Proof.
  induction l as [|x l IH]; simpl; [done|]. rewrite IH. unfold str_eqb.
  repeat case_bool_decide; simpl; set_solver.
Qed.

Definition same_key (p h p' h' : string) : bool := str_eqb p p' && str_eqb h h'.

Lemma is_bad_mark b p h p' h' :
  is_bad (mark_bad_hash b p h) p' h' = is_bad b p' h' || same_key p h p' h'.
Proof.
  unfold is_bad, mark_bad_hash, same_key, str_eqb. simpl. case_bool_decide as E.
  - subst. rewrite lookup_insert_eq, existsb_app. simpl. rewrite orb_false_r.
    destruct (bad b !! p'); simpl; done.
  - rewrite lookup_insert_ne by done. by rewrite orb_false_r.
Qed.

Lemma is_bad_remove b p h p' h' :
  is_bad (remove_bad b p h) p' h' = is_bad b p' h' && negb (same_key p h p' h').
Proof.
  unfold remove_bad, same_key.
  assert (Hfil : forall l, existsb (fun k => str_eqb k h') (List.filter (fun k => negb (str_eqb k h)) l)
    = existsb (fun k => str_eqb k h') l && negb (str_eqb h h')).
  { intros l. apply eq_iff_eq_true.
    rewrite andb_true_iff, negb_true_iff, !existsb_str, !bool_decide_eq_true, elem_filter_bool, negb_true_iff.
    unfold str_eqb. rewrite !bool_decide_eq_false. naive_solver. }
  destruct (bad b !! p) as [l|] eqn:Eb.
  - assert (Hin : is_bad b p h' && negb (str_eqb h h')
                  = existsb (fun k => str_eqb k h') (List.filter (fun k => negb (str_eqb k h)) l)).
    { rewrite Hfil. unfold is_bad. by rewrite Eb. }
    destruct (decide (p = p')) as [<-|Hne].
    + rewrite str_eqb_refl, andb_true_l, Hin. unfold is_bad.
      destruct (List.filter _ l) as [|x l']; simpl.
      * by rewrite lookup_delete_eq.
      * by rewrite lookup_insert_eq.
    + rewrite (str_eqb_ne p p') by done. simpl. rewrite andb_true_r.
      unfold is_bad. destruct (List.filter _ l); simpl; [by rewrite lookup_delete_ne|by rewrite lookup_insert_ne].
  - unfold str_eqb. case_bool_decide as E; simpl; [|by rewrite andb_true_r].
    subst. unfold is_bad. by rewrite Eb.
Qed.

Inductive RegOp : Type := Mark (pool_id key_hash : string) | Unmark (pool_id key_hash : string).

Definition reg_op (b : BadKeyRegistry) (o : RegOp) : BadKeyRegistry :=
  match o with Mark p h => mark_bad_hash b p h | Unmark p h => remove_bad b p h end.

Definition set_op (s : gset (string * string)) (o : RegOp) : gset (string * string) :=
  match o with Mark p h => {[(p, h)]} ∪ s | Unmark p h => s ∖ {[(p, h)]} end.

Lemma same_key_spec p h p' h' : same_key p h p' h' = bool_decide ((p, h) = (p', h')).
Proof. unfold same_key, str_eqb. repeat case_bool_decide; simplify_eq/=; done. Qed.

Lemma bad_snapshot_elem `{!DashIter string (list string)} b p h :
  (p, h) ∈ bad_snapshot b <-> is_bad b p h = true.
Proof.
  unfold bad_snapshot, is_bad. rewrite list_elem_of_In, in_flat_map. split.
  - intros ([p' l] & Hin & Hp). apply list_elem_of_In, dash_iter_elem in Hin.
    apply list_elem_of_In, list_elem_of_fmap in Hp as (h' & [= <- <-] & Hh). simpl in Hh.
    rewrite Hin, existsb_str. by apply bool_decide_eq_true.
  - destruct (bad b !! p) as [l|] eqn:E; [|done]. rewrite existsb_str. intros Hh%bool_decide_eq_true.
    exists (p, l). split; [by apply list_elem_of_In, dash_iter_elem|].
    apply list_elem_of_In. simpl. apply list_elem_of_fmap. eauto.
Qed.

(** After any sequence of demotions and recoveries the registry is the
    set of keys demoted and not recovered since: [is_bad] answers membership,
    and the snapshot the health task works from lists exactly the members,
    however often a key was marked. *)
Theorem bad_keys_refine_set `{!DashIter string (list string)} ops p h :
  let b := foldl reg_op bad_new ops in
  let s := foldl set_op ∅ ops in
  is_bad b p h = bool_decide ((p, h) ∈ s) /\ ((p, h) ∈ bad_snapshot b <-> (p, h) ∈ s).
Proof.
  intros b s. rewrite bad_snapshot_elem. enough (is_bad b p h = bool_decide ((p, h) ∈ s)) as Heq.
  { split; [done|]. by rewrite Heq, bool_decide_eq_true. }
  unfold b, s. clear b s. induction ops as [|o ops IH] using rev_ind; [done|].
  rewrite !foldl_app. simpl. destruct o as [p' h'|p' h']; simpl.
  - rewrite is_bad_mark, IH, same_key_spec. repeat case_bool_decide; simpl; set_solver.
  - rewrite is_bad_remove, IH, same_key_spec. repeat case_bool_decide; simpl; set_solver.
Qed.

(* ------------------------------------------------------------------ *)
(** ** Selection and demotion *)

Section Demotion.
Context `{Digest}.

(** Whatever key the gateway uses for an attempt belongs to the pool,
    has a positive weight and is not marked bad; and a key is found whenever one
    such key exists and the weights of the candidates fit 32 bits. *)
Theorem pick_key_spec `{WeightedIndexLaws} b pool pid rng :
  Forall (fun k => 0 <= weight k) (keys pool) ->
  total_weight (weight <$> List.filter (healthy b pid) (keys pool)) < 2 ^ 32 ->
  match pick_key b pool pid rng with
  | Some k => k ∈ keys pool /\ 0 < weight k /\ is_bad b pid (identity_hash k) = false
  | None => healthy_key_count b pool pid = 0%nat
  end.
Proof.
  intros Hw Ht. unfold pick_key, healthy_key_count, count_if.
  destruct (List.filter (healthy b pid) (keys pool)) as [|k0 ks] eqn:Ef; [done|].
  rewrite <- Ef in *.
  assert (Hall : forall k, k ∈ List.filter (healthy b pid) (keys pool) ->
    k ∈ keys pool /\ 0 < weight k /\ is_bad b pid (identity_hash k) = false).
  { intros k [Hk Hh]%elem_filter_bool. unfold healthy in Hh.
    apply andb_true_iff in Hh as [?%Z.ltb_lt ?%negb_true_iff]. done. }
  destruct (wi_sample_spec (weight <$> List.filter (healthy b pid) (keys pool)) rng) as (i & w & -> & Hi & Hpos).
  - apply Forall_fmap, Forall_forall. intros k Hk. apply Hall in Hk as (_ & ? & _). simpl. lia.
  - split; [|done].
    assert (Hge : forall l, (forall k, k ∈ l -> 0 < weight k) -> 0 <= total_weight (weight <$> l)).
    { induction l as [|k l IHl]; intros Hl; [done|]. specialize (IHl ltac:(intros; apply Hl; set_solver)).
      specialize (Hl k ltac:(set_solver)). change (total_weight (weight <$> k :: l)) with (weight k + total_weight (weight <$> l)). lia. }
    rewrite Ef. change (total_weight (weight <$> k0 :: ks)) with (weight k0 + total_weight (weight <$> ks)).
    assert (0 < weight k0) by (apply Hall; rewrite Ef; set_solver).
    specialize (Hge ks ltac:(intros k Hk; apply Hall; rewrite Ef; set_solver)). lia.
  - rewrite list_lookup_fmap in Hi. destruct (List.filter _ _ !! i) as [k|] eqn:Ek; [|done].
    apply Hall. by eapply list_elem_of_lookup_2.
Qed.

Lemma healthy_mark b p h pid k :
  healthy (mark_bad_hash b p h) pid k
  = healthy b pid k && negb (same_key p h pid (identity_hash k)).
Proof. unfold healthy. rewrite is_bad_mark, negb_orb, andb_assoc. done. Qed.

Lemma count_mono {A} (p q : A -> bool) l :
  (forall x, p x = true -> q x = true) -> (count_if p l <= count_if q l)%nat.
Proof.
  unfold count_if. intros Hpq. induction l as [|x l IH]; simpl; [lia|].
  specialize (Hpq x). destruct (p x), (q x); simpl; lia.
Qed.

(** With distinct hashes, one more bad hash removes at most one candidate. *)
Lemma count_drop_one (l : list KeyEntry) (good : KeyEntry -> bool) (h : string) :
  NoDup (identity_hash <$> List.filter good l) ->
  (count_if good l <= S (count_if (fun k => good k && negb (str_eqb h (identity_hash k))) l))%nat.
Proof.
  unfold count_if. induction l as [|k l IH]; simpl; [lia|].
  destruct (good k) eqn:Eg; simpl; [|exact IH].
  intros [Hk Hnd]%NoDup_cons. specialize (IH Hnd).
  destruct (str_eqb h (identity_hash k)) eqn:Eh; simpl; [|lia].
  apply str_eqb_spec in Eh. apply le_n_S.
  rewrite (filter_ext_forall good (fun k0 => good k0 && negb (str_eqb h (identity_hash k0))) l); [done|].
  intros x Hx. destruct (good x) eqn:Egx; simpl; [|done]. destruct (str_eqb h (identity_hash x)) eqn:Ex; [|done].
  exfalso. apply Hk. apply str_eqb_spec in Ex. apply list_elem_of_fmap. exists x.
  split; [congruence|]. by apply elem_filter_bool.
Qed.

Definition distinct_hashes (pool : PoolConfig) : Prop :=
  NoDup (identity_hash <$> List.filter (fun k => 0 <? weight k) (keys pool)).

Lemma NoDup_filter_fmap (l : list KeyEntry) (p q : KeyEntry -> bool) :
  (forall x, p x = true -> q x = true) ->
  NoDup (identity_hash <$> List.filter q l) -> NoDup (identity_hash <$> List.filter p l).
Proof.
  intros Hpq. induction l as [|x l IH]; simpl; [done|]. pose proof (Hpq x) as Hx.
  destruct (p x), (q x); simpl; try done.
  - intros [Hn Hd]%NoDup_cons. apply NoDup_cons. split; [|by apply IH].
    intros Hin. apply Hn. apply list_elem_of_fmap in Hin as (y & Hxy & Hy).
    apply elem_filter_bool in Hy as [Hy1 Hy2]. apply list_elem_of_fmap. exists y. split; [done|].
    apply elem_filter_bool. split; [done|]. by apply Hpq.
  - by specialize (Hx eq_refl).
  - intros [_ Hd]%NoDup_cons. by apply IH.
Qed.

(** One mark takes at most one selectable key from a pool. *)
Lemma mark_bad_takes_one b pool pid k :
  distinct_hashes pool -> (healthy_key_count b pool pid <= S (healthy_key_count (mark_bad b pid k) pool pid))%nat.
Proof.
  intros Hd. unfold mark_bad, healthy_key_count, count_if.
  rewrite (filter_ext_forall (healthy (mark_bad_hash _ _ _) _) (fun x => healthy b pid x && negb (same_key pid (identity_hash k) pid (identity_hash x))))
    by (intros; apply healthy_mark).
  unfold same_key. rewrite str_eqb_refl. cbn [andb].
  pose proof (count_drop_one (keys pool) (healthy b pid) (identity_hash k)) as Hdrop. unfold count_if in Hdrop.
  assert (NoDup (identity_hash <$> List.filter (healthy b pid) (keys pool))) as Hnd.
  { eapply NoDup_filter_fmap; [|exact Hd]. intros x. unfold healthy. by destruct (0 <? weight x). }
  specialize (Hdrop Hnd). lia.
Qed.

(** A mark in another pool takes none. *)
Lemma mark_bad_elsewhere b pool pid pid' k : pid' ≠ pid -> healthy_key_count (mark_bad b pid' k) pool pid = healthy_key_count b pool pid.
Proof.
  intros Hne. unfold mark_bad, healthy_key_count, count_if. f_equal. apply filter_ext_forall. intros x _.
  rewrite healthy_mark. unfold same_key. by rewrite (str_eqb_ne _ _ Hne), andb_true_r.
Qed.

(** A demotion leaves a selectable key, when the others leave two of the two that
    were counted. *)
Lemma try_demote_leaves_one others b pool pid k :
  distinct_hashes pool -> (1 <= healthy_key_count b pool pid)%nat ->
  ((2 <= healthy_key_count b pool pid)%nat -> (2 <= healthy_key_count (others b) pool pid)%nat) ->
  (1 <= healthy_key_count (try_demote others b pool pid k).1 pool pid)%nat.
Proof.
  intros Hd Hc Ho. unfold try_demote. destruct (Nat.leb_spec (healthy_key_count b pool pid) 1); [done|].
  pose proof (mark_bad_takes_one (others b) pool pid k Hd). cbn [fst]. lia.
Qed.

Lemma try_demote_keeps_one b pool pid pid' pool' k :
  distinct_hashes pool -> (pid' = pid -> pool' = pool) ->
  (1 <= healthy_key_count b pool pid)%nat ->
  (1 <= healthy_key_count (try_demote id b pool' pid' k).1 pool pid)%nat.
Proof.
  intros Hd Hp Hc. destruct (decide (pid' = pid)) as [->|Hne].
  - rewrite (Hp eq_refl). by apply try_demote_leaves_one.
  - unfold try_demote. destruct (_ <=? _)%nat; [done|]. cbn [fst]. by rewrite mark_bad_elsewhere.
Qed.

Lemma remove_bad_keeps_one b pool pid pid' h :
  (1 <= healthy_key_count b pool pid)%nat -> (1 <= healthy_key_count (remove_bad b pid' h) pool pid)%nat.
Proof.
  intros Hc. etrans; [exact Hc|]. apply count_mono. intros k. unfold healthy. rewrite is_bad_remove.
  destruct (0 <? weight k), (is_bad b pid (identity_hash k)); simpl; done.
Qed.

(** What request handlers and the health task do to the registry, one after the
    other. *)
Inductive KeyOp : Type :=
| Demote (pool : PoolConfig) (pool_id : string) (k : KeyEntry)
| Recover (pool_id key_hash : string).

Definition key_op (b : BadKeyRegistry) (o : KeyOp) : BadKeyRegistry :=
  match o with
  | Demote pool pid k => (try_demote id b pool pid k).1
  | Recover pid h => remove_bad b pid h
  end.

(** In a pool whose selectable keys have distinct identities, no
    sequence of demotions (of any keys, in any pools) and recoveries leaves the
    pool without a selectable key, once it has one. *)
Theorem demotion_keeps_a_key pool pid b ops :
  distinct_hashes pool ->
  Forall (fun o => match o with Demote pool' pid' _ => pid' = pid -> pool' = pool | Recover _ _ => True end) ops ->
  (1 <= healthy_key_count b pool pid)%nat ->
  (1 <= healthy_key_count (foldl key_op b ops) pool pid)%nat.
Proof.
  intros Hd Hops. revert b. induction Hops as [|o ops Ho _ IH]; intros b Hc; simpl; [done|].
  apply IH. destruct o; simpl; [by apply try_demote_keeps_one|by apply remove_bad_keeps_one].
Qed.
End Demotion.

(** ** Witnesses and the limits of the demotion guard *)

Module RouterDemo.
(** A digest that keeps the first bytes: enough to tell the demo keys apart. *)
Definition digest : Digest := {| sha256 := fun s => s |}.
Definition wi : WeightedIndex :=
  {| wi_sample := fun ws _ => (fix go l i := match l with
                                             | [] => None
                                             | w :: l' => if 0 <? w then Some i else go l' (S i)
                                             end) ws 0%nat |}.
Definition pool2 : PoolConfig := mkPool [api_key "k-one" 1; api_key "k-two" 3].
Definition pool_dup : PoolConfig := mkPool [api_key "k-one" 1; api_key "k-one" 3].

Lemma wi_go ws i0 :
  Forall (fun w => 0 <= w) ws -> 0 < total_weight ws ->
  exists i w, (fix go l i := match l with
                             | [] => None
                             | w :: l' => if 0 <? w then Some i else go l' (S i)
                             end) ws i0 = Some (i0 + i)%nat /\ ws !! i = Some w /\ 0 < w.
Proof.
  intros Hw. revert i0. induction Hw as [|w ws Hw Hws IH]; intros i0 Ht; [cbn in Ht; lia|].
  change (total_weight (w :: ws)) with (w + total_weight ws) in Ht.
  destruct (Z.ltb_spec 0 w) as [Hpos|Hz].
  - exists 0%nat, w. by rewrite Nat.add_0_r.
  - destruct (IH (S i0)) as (i & v & Hi & Hl & Hv); [lia|]. exists (S i), v.
    split; [|done]. rewrite Hi. f_equal. lia.
Qed.

Lemma wi_laws : @WeightedIndexLaws wi.
Proof.
  constructor. intros ws r Hw [Ht _]. destruct (wi_go ws 0 Hw Ht) as (i & w & Hi & Hl & Hp).
  exists i, w. done.
Qed.
End RouterDemo.

Theorem pick_key_spec_witness :
  exists k, @pick_key RouterDemo.digest RouterDemo.wi bad_new RouterDemo.pool2 "p" 0 = Some k
            /\ k ∈ keys RouterDemo.pool2 /\ 0 < weight k
            /\ is_bad bad_new "p" (@identity_hash RouterDemo.digest k) = false.
Proof.
  pose proof (@pick_key_spec RouterDemo.digest RouterDemo.wi RouterDemo.wi_laws bad_new RouterDemo.pool2 "p" 0) as H.
  exists (api_key "k-one" 1). split; [reflexivity|].
  apply H; [repeat constructor; simpl; lia|vm_compute; reflexivity].
Defined.

Theorem demotion_keeps_a_key_witness :
  (1 <= @healthy_key_count RouterDemo.digest
     (foldl (@key_op RouterDemo.digest) bad_new
        [Demote RouterDemo.pool2 "p" (api_key "k-one" 1); Demote RouterDemo.pool2 "p" (api_key "k-two" 3)])
     RouterDemo.pool2 "p")%nat.
Proof.
  apply (@demotion_keeps_a_key RouterDemo.digest RouterDemo.pool2 "p"); [|repeat constructor|vm_compute; lia].
  unfold distinct_hashes. vm_compute. repeat constructor; set_solver.
Defined.

(** The hypothesis on identities is needed: a key listed twice in a pool counts
    as two healthy keys, and one demotion empties the pool. *)
Example duplicate_key_empties_pool :
  @healthy_key_count RouterDemo.digest bad_new RouterDemo.pool_dup "p" = 2%nat
  /\ (@try_demote RouterDemo.digest id bad_new RouterDemo.pool_dup "p" (api_key "k-one" 1)).2 = true
  /\ @healthy_key_count RouterDemo.digest
       (@try_demote RouterDemo.digest id bad_new RouterDemo.pool_dup "p" (api_key "k-one" 1)).1
       RouterDemo.pool_dup "p" = 0%nat.
Proof. split; [|split]; vm_compute; reflexivity. Qed.

(** Two handlers that both counted before either marked demote both keys of a pool
    of two. *)
Example concurrent_demotions_empty_pool :
  let other b := (@try_demote RouterDemo.digest id b RouterDemo.pool2 "p" (api_key "k-two" 3)).1 in
  @healthy_key_count RouterDemo.digest (other bad_new) RouterDemo.pool2 "p" = 1%nat
  /\ @healthy_key_count RouterDemo.digest
       (@try_demote RouterDemo.digest other bad_new RouterDemo.pool2 "p" (api_key "k-one" 1)).1 RouterDemo.pool2 "p" = 0%nat.
Proof. split; vm_compute; reflexivity. Qed.

(** [all_bad] counts marks, not keys: marking one key of two twice is enough. *)
Example all_bad_counts_duplicates :
  let b := mark_bad_hash (mark_bad_hash bad_new "p" "h1") "p" "h1" in
  all_bad b "p" 2 = true /\ is_bad b "p" "h2" = false.
Proof. split; reflexivity. Qed.

(* ------------------------------------------------------------------ *)
(** ** Rebuilding the router *)

Section RebuildSpec.
Context {P : Type} `{!DashIter string ModelRouting}.
Variables (factories : list (ProviderFactory P)) (codes : list Z).

Definition for_pool (pid : string) (cfg : ProviderConfig) : bool := str_eqb (prov_pool_id cfg) pid.

Lemma build_all_loop_spec cfgs acc :
  match build_all_loop factories codes acc cfgs with
  | Ok m => Forall (fun cfg => is_ok (build_one factories cfg codes) = true) cfgs
            /\ forall pid, match find_last (for_pool pid) cfgs with
                           | Some cfg => exists p, build_one factories cfg codes = Ok p /\ m !! pid = Some p
                           | None => m !! pid = acc !! pid
                           end
  | Err _ => ~ Forall (fun cfg => is_ok (build_one factories cfg codes) = true) cfgs
  end.
Proof.
  revert acc; induction cfgs as [|cfg cfgs IH]; intros acc; simpl; [by split|].
  destruct (build_one factories cfg codes) as [p|e] eqn:Eb; simpl; [|rewrite Forall_cons, Eb; by intros [? _]].
  specialize (IH (<[prov_pool_id cfg := p]> acc)).
  destruct (build_all_loop factories codes _ cfgs) as [m|e].
  - destruct IH as [IH1 IH2]. split; [constructor; [by rewrite Eb|done]|]. intros pid. specialize (IH2 pid).
    rewrite find_last_cons. destruct (find_last _ cfgs) as [cfg'|]; [done|].
    unfold for_pool at 1. destruct (str_eqb (prov_pool_id cfg) pid) eqn:E.
    + apply str_eqb_spec in E as <-. exists p. split; [done|]. by rewrite IH2, lookup_insert_eq.
    + rewrite IH2, lookup_insert_ne; [done|]. intros Heq. by rewrite Heq, str_eqb_refl in E.
  - rewrite Forall_cons. tauto.
Qed.

Definition entry_of (s : RoutingSnapshot) (route : ModelRouting) : option RouteEntry :=
  (fun pool => mkRouteEntry (pool_id route) pool (default_params route) (upstream_model route))
    <$> rs_pools s !! pool_id route.

Lemma build_model_map_spec s l acc :
  Forall (fun mr => is_Some (rs_pools s !! pool_id mr.2)) l -> NoDup l.*1 ->
  exists m, build_model_map s acc l = Ok m
  /\ (forall model route, (model, route) ∈ l -> m !! model = entry_of s route)
  /\ (forall model, model ∉ l.*1 -> m !! model = acc !! model).
Proof.
  revert acc; induction l as [|[model route] l IH]; intros acc Hf Hnd; simpl.
  { exists acc. split; [done|]. split; [set_solver|done]. }
  apply Forall_cons in Hf as [[pool Hpool] Hf]. apply NoDup_cons in Hnd as [Hm Hnd]. simpl in Hpool, Hm.
  rewrite Hpool. simpl. destruct (IH (<[model := mkRouteEntry (pool_id route) pool (default_params route)
    (upstream_model route)]> acc) Hf Hnd) as (m & Hb & H1 & H2).
  exists m. split; [exact Hb|]. split.
  - intros model' route' [[= -> ->]|Hin]%elem_of_cons; [|by apply H1].
    rewrite H2 by done. rewrite lookup_insert_eq. unfold entry_of. by rewrite Hpool.
  - intros model' Hnin. apply not_elem_of_cons in Hnin as [Hne Hnin]. rewrite H2 by done.
    by rewrite lookup_insert_ne.
Qed.

Lemma check_routes_ok s :
  is_ok (check_all (check_route s) (dash_iter (rs_routing s))) = true
  <-> Forall (fun mr => is_Some (rs_pools s !! pool_id mr.2)) (dash_iter (rs_routing s)).
Proof.
  rewrite check_all_ok. apply Forall_iff. intros [m r]. unfold check_route.
  rewrite is_ok_guard, negb_involutive, andb_true_r. apply is_some_true.
Qed.

(** Rebuilding succeeds exactly when every provider can be created and
    every route names an existing pool; the router then resolves exactly the
    configured models, each to the last provider configured for its pool and to
    the pool, default parameters and upstream name of its route; a model whose
    pool has no provider is reported as a configuration error, an unknown model
    as not found. *)
Theorem rebuild_router_spec s :
  (is_ok (rebuild_router factories s codes) = true
   <-> Forall (fun cfg => is_ok (build_one factories cfg codes) = true) (rs_providers s)
       /\ map_Forall (fun _ r => is_Some (rs_pools s !! pool_id r)) (rs_routing s))
  /\ forall r, rebuild_router factories s codes = Ok r -> forall model,
      match rs_routing s !! model with
      | None => resolve r model = Err (NotFound ("model '" +:+ model +:+ "' not found"))
      | Some route =>
          match find_last (for_pool (pool_id route)) (rs_providers s) with
          | None => resolve r model = Err (ConfigError ("pool '" +:+ pool_id route +:+ "' not found"))
          | Some cfg => exists p e, build_one factories cfg codes = Ok p /\ entry_of s route = Some e
                                    /\ resolve r model = Ok (p, e)
          end
      end.
Proof.
  unfold rebuild_router, build_all. pose proof (build_all_loop_spec (rs_providers s) ∅) as Hb.
  rewrite <- (dash_forall (fun _ r => is_Some (rs_pools s !! pool_id r)) (rs_routing s)).
  destruct (build_all_loop factories codes ∅ (rs_providers s)) as [provs|e]; [|split; [naive_solver|done]].
  destruct Hb as [Hb1 Hb2]. pose proof (check_routes_ok s) as Hc.
  destruct (check_all (check_route s) (dash_iter (rs_routing s))) as [u|e]; simpl in Hc;
    [|split; [naive_solver|done]].
  assert (Hf := proj1 Hc eq_refl).
  destruct (build_model_map_spec s (dash_iter (rs_routing s)) ∅ Hf (dash_iter_nodup _)) as (mm & Em & M1 & M2).
  rewrite Em. split; [naive_solver|]. intros r [= <-] model. unfold resolve. simpl.
  destruct (rs_routing s !! model) as [route|] eqn:Er.
  - apply dash_iter_elem in Er. specialize (M1 _ _ Er).
    rewrite Forall_forall in Hf. destruct (Hf _ Er) as [pool Hpool]. simpl in Hpool.
    unfold entry_of in *. rewrite Hpool in *. simpl in M1. rewrite M1. simpl.
    specialize (Hb2 (pool_id route)). destruct (find_last _ _) as [cfg|].
    + destruct Hb2 as (p & Hp & Hl). rewrite Hl. eauto 10.
    + by rewrite Hb2, lookup_empty.
  - rewrite M2; [by rewrite lookup_empty|]. rewrite list_elem_of_fmap. intros ([m' r'] & -> & Hin).
    apply dash_iter_elem in Hin. simpl in Er. congruence.
Qed.
End RebuildSpec.
