(* ===== verification/StreamNormalize.v ===== *)
(** * The SSE stream normaliser

    Models [src/src/server/stream_normalize.rs]: [NormalizingStream] wraps a
    byte stream, cuts it into lines, rewrites the JSON chunks with the think-tag
    accumulator and flushes at the end of the stream.  The inner stream is the
    list of the items it yields before it ends. *)

From S2P Require Import Prelude Json Types ThinkTags.

Record NormalizingStream := mkNorm {
  norm_acc : ThinkTagAccumulator;
  norm_pending : string;
  seen_done : bool;
  inner_eof : bool;
  completed : bool
}.

Definition norm_new : NormalizingStream :=
  mkNorm (acc_new builtin_think_pairs) EmptyString false false false.

(** An item of a byte stream. *)
Abbreviation item := (Result string AppError).

(** ** Rewriting a chunk *)

Definition REASONING_ALIASES : list string := ["reasoning_content"; "reasoning"; "reasoning_text"].

(** One alias of the loop: it is removed whatever its value; a non-empty string
    is collected. *)
Definition fold_alias (st : list string * Map) (k : string) : list string * Map :=
  let '(parts, delta) := st in
  (match map_get k delta with
   | Some (Str s) => if negb (str_is_empty s) then parts ++ [s] else parts
   | _ => parts
   end, map_remove k delta).

Definition fold_reasoning_aliases (delta : Map) : Map :=
  let '(parts, delta) := foldl fold_alias ([], delta) REASONING_ALIASES in
  let '(parts, delta) :=
    match map_get "thinking" delta with
    | Some (Str s) => if negb (str_is_empty s) then (parts ++ [s], map_remove "thinking" delta) else (parts, delta)
    | _ => (parts, delta)
    end in
  match parts with
  | [] => delta
  | _ => map_insert "reasoning_content" (Str (str_concat parts)) delta
  end.

Definition append_reasoning (delta : Map) (extra : string) : Map :=
  if str_is_empty extra then delta
  else match map_get "reasoning_content" delta with
       | Some (Str existing) => map_insert "reasoning_content" (Str (existing +:+ extra)) delta
       | _ => map_insert "reasoning_content" (Str extra) delta
       end.

Definition has_payload (v : Value) : bool :=
  match v with
  | Null => false
  | Str s => negb (str_is_empty s)
  | Array a => match a with [] => false | _ => true end
  | Object o => match o with [] => false | _ => true end
  | _ => true
  end.

Definition delta_has_payload (delta : Map) : bool := existsb (fun kv => has_payload kv.2) delta.

(** The text and the reasoning of the events of one [feed]. *)
Definition event_texts (evs : list ThinkEvent) : string * string :=
  foldl (fun tr ev => match ev with
                      | Text s => (tr.1 +:+ s, tr.2)
                      | Reasoning s => (tr.1, tr.2 +:+ s)
                      | Pending => tr
                      end) ("", "") evs.

(** The content of a delta, when it is a non-empty string. *)
Definition delta_content (delta : Map) : option string :=
  match map_get "content" delta with
  | Some (Str s) => if negb (str_is_empty s) then Some s else None
  | _ => None
  end.

Definition rewrite_delta (acc : ThinkTagAccumulator) (delta : Map) : ThinkTagAccumulator * Map :=
  let delta := fold_reasoning_aliases delta in
  match delta_content delta with
  | None => (acc, delta)
  | Some content =>
      let '(events, acc) := feed acc content in
      let '(text, reasoning) := event_texts events in
      let delta := if str_is_empty text then map_remove "content" delta
                   else map_insert "content" (Str text) delta in
      (acc, append_reasoning delta reasoning)
  end.

(** [choice.get("finish_reason")]: a non-empty string. *)
Definition finished (choice : Value) : bool :=
  match get_str "finish_reason" choice with Some s => negb (str_is_empty s) | None => false end.

(** The body of the loop over the choices. *)
Definition rewrite_choice (acc : ThinkTagAccumulator) (choice : Value)
    : ThinkTagAccumulator * Value * bool :=
  match choice with
  | Object m =>
      match map_get "delta" m with
      | Some (Object delta) =>
          let '(acc, delta) := rewrite_delta acc delta in
          (acc, Object (map_insert "delta" (Object delta) m), finished choice || delta_has_payload delta)
      | _ => (acc, choice, true)
      end
  | _ => (acc, choice, true)
  end.

Fixpoint rewrite_choices (acc : ThinkTagAccumulator) (cs : list Value)
    : ThinkTagAccumulator * list Value * bool :=
  match cs with
  | [] => (acc, [], false)
  | c :: cs' =>
      let '(acc, c', e) := rewrite_choice acc c in
      let '(acc, cs'', es) := rewrite_choices acc cs' in
      (acc, c' :: cs'', e || es)
  end.

Definition rewrite_chunk_value (acc : ThinkTagAccumulator) (chunk : Value)
    : ThinkTagAccumulator * Value * bool :=
  match chunk with
  | Object m =>
      match map_get "choices" m with
      | Some (Array cs) =>
          match cs with
          | [] => (acc, chunk, true)
          | _ =>
              let '(acc, cs', e) := rewrite_choices acc cs in
              (acc, Object (map_insert "choices" (Array cs') m), is_some (map_get "usage" m) || e)
          end
      | _ => (acc, chunk, true)
      end
  | _ => (acc, chunk, true)
  end.

(** ** Lines *)

Definition sse_line (line : string) : string := line +:+ lf +:+ lf.
Definition done_line : string := "data: [DONE]" +:+ lf +:+ lf.

Section Lines.
Context `{SerdeJson}.

(** [transform_line], with the accumulator and [seen_done] as state. *)
Definition transform_line (sd : ThinkTagAccumulator * bool) (line : string)
    : (ThinkTagAccumulator * bool) * option string :=
  if negb (utf8_valid line) then (sd, Some line)
  else
    let line_no_nl := strip_suffix_char LF line in
    let line_no_cr := strip_suffix_char CR line_no_nl in
    if str_is_empty line_no_cr then (sd, None)
    else match strip_prefix "data:" line_no_cr with
         | Some payload =>
             let payload := trim_start payload in
             if str_eqb payload "[DONE]" then ((sd.1, true), Some done_line)
             else match from_str payload with
                  | Some chunk =>
                      if is_object chunk then
                        let '(acc, chunk, emit) := rewrite_chunk_value sd.1 chunk in
                        if emit then
                          let s := to_string chunk in
                          ((acc, sd.2),
                           Some (if negb (str_eqb s payload) then "data: " +:+ s +:+ lf +:+ lf else line))
                        else ((acc, sd.2), None)
                      else (sd, Some (sse_line line_no_cr))
                  | None => (sd, Some (sse_line line_no_cr))
                  end
         | None => (sd, Some (sse_line line_no_cr))
         end.

(** [process_pending]: lines are taken until one yields output; every turn
    removes a line, so [S (length pending)] turns are enough. *)
Fixpoint process_pending_loop (fuel : nat) (sd : ThinkTagAccumulator * bool) (pend : string)
    : (ThinkTagAccumulator * bool) * string * option string :=
  match fuel with
  | O => (sd, pend, None)
  | S f =>
      match split_line pend with
      | None => (sd, pend, None)
      | Some (line, rest) =>
          let '(sd, out) := transform_line sd (line +:+ lf) in
          match out with
          | Some o => (sd, rest, Some o)
          | None => process_pending_loop f sd rest
          end
      end
  end.

Definition process_pending (sd : ThinkTagAccumulator * bool) (pend : string) :=
  process_pending_loop (S (String.length pend)) sd pend.

Definition assemble_drained (flushed_acc : string) (as_reasoning : bool) (seen_done : bool) : option string :=
  let out :=
    if negb (str_is_empty flushed_acc) then
      let field := if as_reasoning then "reasoning_content" else "content" in
      "data: "
      +:+ to_string (obj [("choices", Array [obj [("index", json_int 0);
                                                   ("delta", obj [(field, Str flushed_acc)])]])])
      +:+ lf +:+ lf
    else "" in
  let out := if negb seen_done then out +:+ done_line else out in
  if str_is_empty out then None else Some out.

Definition flush_eof (st : NormalizingStream) : NormalizingStream * option string :=
  let as_reasoning := in_reasoning (norm_acc st) || (0 <? tag_count (norm_acc st))%nat in
  let '(flushed_acc, acc) := flush (norm_acc st) in
  (mkNorm acc (norm_pending st) true (inner_eof st) (completed st),
   assemble_drained flushed_acc as_reasoning (seen_done st)).

(** ** The poll loop *)


(** One turn of the loop of [poll_next]: an answer, or the state of the next
    turn.  The inner stream is what it has left to yield. *)
Inductive Turn : Type :=
| Ready (o : option item) (st : NormalizingStream) (inner : list item)
| Again (st : NormalizingStream) (inner : list item).

Definition poll_turn (st : NormalizingStream) (inner : list item) : Turn :=
  if completed st then Ready None st inner
  else
    let '((acc, done), pend, out) := process_pending (norm_acc st, seen_done st) (norm_pending st) in
    let st := mkNorm acc pend done (inner_eof st) (completed st) in
    match out with
    | Some o => Ready (Some (Ok o)) st inner
    | None =>
        if inner_eof st then
          let st := mkNorm (norm_acc st) (norm_pending st) (seen_done st) (inner_eof st) true in
          let '(st, o) := flush_eof st in
          Ready (match o with Some s => Some (Ok s) | None => None end) st inner
        else match inner with
             | Ok bytes :: inner' =>
                 Again (mkNorm (norm_acc st) (norm_pending st +:+ bytes) (seen_done st) false (completed st)) inner'
             | Err e :: inner' => Ready (Some (Err e)) st inner'
             | [] =>
                 Again (mkNorm (norm_acc st)
                          (if negb (str_is_empty (norm_pending st)) && negb (ends_with (norm_pending st) lf)
                           then norm_pending st +:+ lf else norm_pending st)
                          (seen_done st) true (completed st)) []
             end
    end.

(** A client that polls until the end of the stream: the items it receives.
    [None] when the turns run out. *)
Fixpoint poll_all (fuel : nat) (st : NormalizingStream) (inner : list item) : option (list item) :=
  match fuel with
  | O => None
  | S f =>
      match poll_turn st inner with
      | Ready None _ _ => Some []
      | Ready (Some i) st' inner' => cons i <$> poll_all f st' inner'
      | Again st' inner' => poll_all f st' inner'
      end
  end.
End Lines.

(* ------------------------------------------------------------------ *)
(** ** Reference: the output as a function of the bytes *)

Section Reference.
Context `{SerdeJson}.

(** The complete lines in order, each through [transform_line]. *)
Fixpoint lines_out (sd : ThinkTagAccumulator * bool) (ls : list string)
    : (ThinkTagAccumulator * bool) * list string :=
  match ls with
  | [] => (sd, [])
  | l :: ls' =>
      let '(sd, o) := transform_line sd (l +:+ lf) in
      let '(sd, os) := lines_out sd ls' in
      (sd, match o with Some x => x :: os | None => os end)
  end.

(** The final flush. *)
Definition final_out (sd : ThinkTagAccumulator * bool) : list item :=
  match assemble_drained (pending sd.1) (in_reasoning sd.1 || (0 <? tag_count sd.1)%nat) sd.2 with
  | Some s => [Ok s]
  | None => []
  end.

(** The last, unterminated line counts as a line. *)
Definition close_line (pend : string) : string :=
  if negb (str_is_empty pend) && negb (ends_with pend lf) then pend +:+ lf else pend.

Definition eof_out (sd : ThinkTagAccumulator * bool) (pend : string) : list item :=
  let '(sd, os) := lines_out sd (drain_lines (close_line pend)).1 in (Ok <$> os) ++ final_out sd.

Fixpoint stream_out (sd : ThinkTagAccumulator * bool) (pend : string) (inner : list item) : list item :=
  match inner with
  | [] => eof_out sd pend
  | Err e :: inner' => Err e :: stream_out sd pend inner'
  | Ok b :: inner' =>
      let '(ls, rest) := drain_lines (pend +:+ b) in
      let '(sd, os) := lines_out sd ls in
      (Ok <$> os) ++ stream_out sd rest inner'
  end.

Lemma lines_out_app sd l1 l2 :
  lines_out sd (l1 ++ l2)
  = let '(sd1, o1) := lines_out sd l1 in let '(sd2, o2) := lines_out sd1 l2 in (sd2, o1 ++ o2).
Proof.
  revert sd; induction l1 as [|l l1 IH]; intros sd; simpl; [by destruct (lines_out sd l2)|].
  destruct (transform_line sd (l +:+ lf)) as [sd' o]. rewrite IH.
  destruct (lines_out sd' l1) as [sd1 o1]. destruct (lines_out sd1 l2) as [sd2 o2]. by destruct o.
Qed.

Lemma process_pending_loop_spec fuel sd pend sd' pend' out :
  (String.length pend < fuel)%nat -> process_pending_loop fuel sd pend = (sd', pend', out) ->
  match out with
  | None => lines_out sd (drain_lines pend).1 = (sd', []) /\ pend' = (drain_lines pend).2
            /\ drain_lines pend' = ([], pend') /\ (String.length pend' <= String.length pend)%nat
  | Some o => (String.length pend' < String.length pend)%nat
              /\ (drain_lines pend').2 = (drain_lines pend).2
              /\ lines_out sd (drain_lines pend).1
                 = let '(sd2, os) := lines_out sd' (drain_lines pend').1 in (sd2, o :: os)
  end.
Proof.
  revert sd pend; induction fuel as [|f IH]; intros sd pend Hlt; [lia|]. simpl.
  pose proof (split_line_drain pend) as Hs. destruct (split_line pend) as [[line rest]|].
  - destruct Hs as (Hd & Hl & _). rewrite Hd. simpl.
    destruct (transform_line sd (line +:+ lf)) as [sd1 o]. destruct o as [o|].
    + intros [= <- <- <-]. split; [done|]. split; [done|]. by destruct (lines_out sd1 _).
    + intros Hp. specialize (IH sd1 rest ltac:(lia) Hp). destruct out as [x|].
      * destruct IH as (H1 & H2 & H3). split; [lia|]. split; [done|]. rewrite H3. by destruct (lines_out sd' _).
      * destruct IH as (H1 & H2 & H3 & H4). rewrite H1. split; [done|]. split; [done|]. split; [done|lia].
  - intros [= <- <- <-]. rewrite Hs. done.
Qed.

(** Turns that are certainly enough to finish. *)
Definition need (st : NormalizingStream) (inner : list item) : nat :=
  if completed st then 1%nat
  else (String.length (norm_pending st) + (if inner_eof st then 2 else 4)
        + foldr (fun i n => (S (match i with Ok b => String.length b | Err _ => 0 end) + n)%nat) 0 inner)%nat.

(** What the client is still to receive in a given state. *)
Definition expected (st : NormalizingStream) (inner : list item) : list item :=
  if completed st then []
  else
    let '(ls, rest) := drain_lines (norm_pending st) in
    let '(sd, os) := lines_out (norm_acc st, seen_done st) ls in
    (Ok <$> os) ++ (if inner_eof st then final_out sd else stream_out sd rest inner).

Lemma close_line_length pend : (String.length (close_line pend) <= S (String.length pend))%nat.
Proof. unfold close_line. destruct (_ && _); rewrite ?length_app_str; simpl; lia. Qed.

Lemma poll_all_expected fuel st inner :
  (need st inner <= fuel)%nat -> (inner_eof st = true -> inner = []) ->
  poll_all fuel st inner = Some (expected st inner).
Proof.
  revert st inner; induction fuel as [|f IH]; intros st inner Hn He.
  { unfold need in Hn. destruct (completed st), (inner_eof st); lia. }
  simpl. unfold poll_turn. destruct st as [acc pend done eof comp]. unfold need in Hn. simpl in Hn, He.
  destruct comp; simpl; [done|].
  destruct (process_pending (acc, done) pend) as [[[acc1 done1] pend1] out] eqn:Ep.
  apply process_pending_loop_spec in Ep; [|lia]. unfold expected. simpl.
  destruct (drain_lines pend) as [ls rest] eqn:Ed. simpl in Ep.
  destruct out as [o|].
  - destruct Ep as (Hlt & Hr & Hls). rewrite Hls.
    rewrite IH; [|unfold need; simpl; lia|done]. unfold expected. simpl.
    destruct (drain_lines pend1) as [ls1 rest1]. simpl in *. subst rest1.
    destruct (lines_out (acc1, done1) ls1) as [sd2 os]. done.
  - destruct Ep as (Hls & -> & Hd & Hle). rewrite Hls. simpl.
    destruct eof; simpl.
    + unfold flush_eof, final_out. simpl.
      destruct (assemble_drained _ _ _) as [s|]; [|done]. simpl.
      rewrite IH; [done|unfold need; simpl; lia|done].
    + destruct inner as [|[b|e] inner]; simpl in Hn.
      * pose proof (close_line_length rest).
        rewrite IH; [|unfold need; simpl; fold (close_line rest); lia|done].
        unfold expected. simpl. fold (close_line rest). unfold eof_out.
        destruct (drain_lines (close_line rest)) as [ls2 r2]. simpl. by destruct (lines_out _ ls2).
      * rewrite IH; [|unfold need; simpl; rewrite length_app_str; lia|done].
        unfold expected. simpl. done.
      * rewrite IH; [|unfold need; simpl; lia|done].
        unfold expected. simpl. rewrite Hd. simpl. done.
Qed.

(** The bytes alone decide. *)
Lemma stream_out_chunks sd pend bs :
  drain_lines pend = ([], pend) ->
  stream_out sd pend (Ok <$> bs) = stream_out sd pend [Ok (str_concat bs)].
Proof.
  revert sd pend; induction bs as [|b bs IH]; intros sd pend Hp; csimpl.
  - rewrite app_nil_r_str, Hp. done.
  - destruct (drain_lines (pend +:+ b)) as [l1 r1] eqn:E1. rewrite app_assoc_str, drain_lines_app, E1.
    destruct (lines_out sd l1) as [sd1 o1] eqn:El.
    assert (Hr : drain_lines r1 = ([], r1)).
    { pose proof (drain_lines_rest (pend +:+ b)) as Hr. by rewrite E1 in Hr. }
    rewrite (IH sd1 r1 Hr). csimpl.
    destruct (drain_lines (r1 +:+ str_concat bs)) as [l2 r2]. rewrite lines_out_app, El.
    destruct (lines_out sd1 l2) as [sd2 o2]. by rewrite fmap_app, <- app_assoc.
Qed.
End Reference.

(** The output of the normaliser as a client sees it. *)
Definition normalized `{SerdeJson} (inner : list item) : option (list item) :=
  poll_all (need norm_new inner) norm_new inner.

(** Claim C37: polling the normaliser always reaches the end of the stream, and
    what the client receives does not depend on how the upstream bytes were cut
    into chunks: only on their concatenation. *)
Theorem normalizer_chunk_invariant `{SerdeJson} bs :
  exists out, normalized (Ok <$> bs) = Some out
  /\ forall bs', str_concat bs' = str_concat bs -> normalized (Ok <$> bs') = Some out.
Proof.
  assert (Hall : forall l, normalized (Ok <$> l)
      = Some (stream_out (acc_new builtin_think_pairs, false) "" [Ok (str_concat l)])).
  { intros l. unfold normalized. rewrite poll_all_expected by (done || lia).
    unfold expected. simpl. by rewrite stream_out_chunks. }
  eexists. split; [apply Hall|]. intros bs' Heq. by rewrite Hall, Heq.
Qed.

(** An upstream error is relayed at its place and does not disturb the
    bytes around it: removing the errors from the upstream items removes
    exactly them from the output. *)
Theorem normalizer_errors_transparent `{SerdeJson} inner :
  exists out, normalized inner = Some out
  /\ normalized (List.filter is_ok inner) = Some (List.filter is_ok out)
  /\ List.filter (fun i => negb (is_ok i)) out = List.filter (fun i => negb (is_ok i)) inner.
Proof.
  assert (Hall : forall l, normalized l = Some (stream_out (acc_new builtin_think_pairs, false) "" l)).
  { intros l. unfold normalized. rewrite poll_all_expected by (done || lia). done. }
  assert (Hok : forall os : list string, List.filter is_ok (Ok (E := AppError) <$> os) = (Ok <$> os)
                /\ List.filter (fun i => negb (is_ok i)) (Ok (E := AppError) <$> os) = []).
  { induction os as [|o os [IH1 IH2]]; [done|]. simpl. split; [f_equal; exact IH1|exact IH2]. }
  exists (stream_out (acc_new builtin_think_pairs, false) "" inner). rewrite !Hall. split; [done|].
  generalize (acc_new builtin_think_pairs, false) "". induction inner as [|[b|e] inner IH]; intros sd pend; simpl.
  - unfold eof_out. destruct (lines_out _ _) as [sd1 os]. destruct (Hok os) as [H1 H2].
    rewrite !List.filter_app, H1, H2. unfold final_out.
    destruct (assemble_drained _ _ _); simpl; split; done.
  - destruct (drain_lines (pend +:+ b)) as [ls rest]. destruct (lines_out sd ls) as [sd1 os].
    destruct (Hok os) as [H1 H2]. rewrite !List.filter_app, H1, H2.
    destruct (IH sd1 rest) as [I1 I2]. injection I1 as I1. rewrite I2. split; [by rewrite I1|done].
  - destruct (IH sd pend) as [I1 I2]. split; [done|]. by rewrite I2.
Qed.

(* ------------------------------------------------------------------ *)
(** ** The content that reaches the client *)

(** The content text of a delta, of a choice, of a chunk. *)
Definition delta_text (delta : Map) : string := unwrap_or (delta_content delta) "".

Definition choice_content (c : Value) : string :=
  match c with
  | Object m => match map_get "delta" m with Some (Object delta) => delta_text delta | _ => "" end
  | _ => ""
  end.

Definition chunk_content (chunk : Value) : string :=
  match chunk with
  | Object m => match map_get "choices" m with
                | Some (Array cs) => str_concat (choice_content <$> cs)
                | _ => ""
                end
  | _ => ""
  end.

(** The chunks of a stream in order: those that are forwarded, rewritten. *)
Fixpoint rewrite_chunks (acc : ThinkTagAccumulator) (chunks : list Value)
    : ThinkTagAccumulator * list Value :=
  match chunks with
  | [] => (acc, [])
  | c :: cs =>
      let '(acc, c', emit) := rewrite_chunk_value acc c in
      let '(acc, kept) := rewrite_chunks acc cs in
      (acc, if emit then c' :: kept else kept)
  end.

(** The accumulator took [ins] in some number of deltas and gave [outs] as text. *)
Definition fed (acc : ThinkTagAccumulator) (ins outs : string) (acc' : ThinkTagAccumulator) : Prop :=
  exists ds evs, feed_all acc ds = (evs, acc') /\ str_concat ds = ins
                 /\ select InText (flat_map labelled evs) = outs.

Lemma feed_all_app acc ds1 ds2 :
  feed_all acc (ds1 ++ ds2)
  = let '(e1, a1) := feed_all acc ds1 in let '(e2, a2) := feed_all a1 ds2 in (e1 ++ e2, a2).
Proof.
  revert acc; induction ds1 as [|d ds1 IH]; intros acc; simpl; [by destruct (feed_all acc ds2)|].
  destruct (feed acc d) as [e a]. rewrite IH. destruct (feed_all a ds1) as [e1 a1].
  destruct (feed_all a1 ds2) as [e2 a2]. by rewrite app_assoc.
Qed.

Lemma fed_refl acc : fed acc "" "" acc.
Proof. by exists [], []. Qed.

Lemma fed_trans a i1 o1 b i2 o2 c : fed a i1 o1 b -> fed b i2 o2 c -> fed a (i1 +:+ i2) (o1 +:+ o2) c.
Proof.
  intros (d1 & e1 & F1 & <- & <-) (d2 & e2 & F2 & <- & <-). exists (d1 ++ d2), (e1 ++ e2).
  by rewrite feed_all_app, F1, F2, str_concat_app, flat_map_app, select_app.
Qed.

Lemma event_texts_select evs :
  event_texts evs = (select InText (flat_map labelled evs), select InReasoning (flat_map labelled evs)).
Proof.
  unfold event_texts.
  enough (forall t r, foldl (fun tr ev => match ev with
                      | Text s => (tr.1 +:+ s, tr.2) | Reasoning s => (tr.1, tr.2 +:+ s) | Pending => tr
                      end) (t, r) evs
    = (t +:+ select InText (flat_map labelled evs), r +:+ select InReasoning (flat_map labelled evs))) as He
    by apply He.
  induction evs as [|ev evs IH]; intros t r; simpl; [by rewrite !app_nil_r_str|].
  destruct ev; rewrite IH, ?select_app; simpl; rewrite ?select_label; simpl; rewrite <- ?app_assoc_str; done.
Qed.

Lemma fold_aliases_get k delta :
  k ∉ REASONING_ALIASES -> k ≠ "thinking" -> map_get k (fold_reasoning_aliases delta) = map_get k delta.
Proof.
  intros Hk Ht. unfold fold_reasoning_aliases.
  assert (Hrc : "reasoning_content" ≠ k) by (intros <-; apply Hk; set_solver).
  assert (Hf : forall parts d ks, k ∉ ks -> map_get k (foldl fold_alias (parts, d) ks).2 = map_get k d).
  { intros parts d ks; revert parts d; induction ks as [|x ks IH]; intros parts d Hin; simpl; [done|].
    apply not_elem_of_cons in Hin as [Hne Hin]. rewrite IH by done. by apply map_get_remove_ne. }
  specialize (Hf [] delta REASONING_ALIASES Hk).
  destruct (foldl fold_alias ([], delta) REASONING_ALIASES) as [parts d]. simpl in Hf. rewrite <- Hf.
  destruct (map_get "thinking" d) as [[]|]; try (destruct parts; [done|by rewrite map_get_insert_ne]).
  destruct (negb (str_is_empty s)); [|destruct parts; [done|by rewrite map_get_insert_ne]].
  rewrite <- (map_get_remove_ne "thinking" k d) by congruence.
  destruct (parts ++ [s]); [done|by rewrite map_get_insert_ne].
Qed.

Lemma append_reasoning_content delta extra :
  delta_content (append_reasoning delta extra) = delta_content delta.
Proof.
  unfold delta_content, append_reasoning. destruct (str_is_empty extra); [done|].
  destruct (map_get "reasoning_content" delta) as [[]|]; by rewrite map_get_insert_ne.
Qed.

Lemma rewrite_delta_fed acc delta acc' delta' :
  rewrite_delta acc delta = (acc', delta') -> fed acc (delta_text delta) (delta_text delta') acc'.
Proof.
  unfold rewrite_delta.
  assert (Hc : delta_content (fold_reasoning_aliases delta) = delta_content delta).
  { unfold delta_content. rewrite fold_aliases_get; [done| |done]. unfold REASONING_ALIASES. set_solver. }
  unfold delta_text. rewrite Hc. destruct (delta_content delta) as [c|] eqn:Ec; simpl.
  - destruct (feed acc c) as [evs acc1] eqn:Ef. rewrite event_texts_select. intros [= <- <-].
    rewrite append_reasoning_content.
    exists [c], evs. simpl. rewrite Ef, !app_nil_r, app_nil_r_str. split; [done|]. split; [done|].
    unfold delta_content. destruct (str_is_empty (select InText (flat_map labelled evs))) eqn:Es.
    + rewrite map_get_remove_eq. by destruct (select _ _).
    + by rewrite map_get_insert_eq, Es.
  - intros [= <- <-]. rewrite Hc. simpl. apply fed_refl.
Qed.

Lemma delta_text_payload delta : delta_text delta ≠ "" -> delta_has_payload delta = true.
Proof.
  unfold delta_text, delta_content. destruct (map_get "content" delta) as [[]|] eqn:E; simpl; try done.
  intros Hs. apply existsb_exists. apply map_get_In in E. exists ("content", Str s).
  split; [done|]. simpl. by destruct s.
Qed.

Lemma rewrite_choice_fed acc c acc' c' e :
  rewrite_choice acc c = (acc', c', e) ->
  fed acc (choice_content c) (choice_content c') acc' /\ (choice_content c' ≠ "" -> e = true).
Proof.
  unfold rewrite_choice. destruct c as [| | | | |m]; try (intros [= <- <- <-]; split; [apply fed_refl|done]).
  unfold choice_content at 1. destruct (map_get "delta" m) as [[]|] eqn:E;
    try (intros [= <- <- <-]; unfold choice_content; rewrite E; split; [apply fed_refl|done]).
  destruct (rewrite_delta acc m0) as [acc1 d1] eqn:Ed. intros [= <- <- <-].
  unfold choice_content. rewrite map_get_insert_eq. split; [by apply rewrite_delta_fed|].
  intros Hne. rewrite delta_text_payload by done. apply orb_true_r.
Qed.

Lemma rewrite_choices_fed acc cs acc' cs' e :
  rewrite_choices acc cs = (acc', cs', e) ->
  fed acc (str_concat (choice_content <$> cs)) (str_concat (choice_content <$> cs')) acc'
  /\ (str_concat (choice_content <$> cs') ≠ "" -> e = true).
Proof.
  revert acc acc' cs' e; induction cs as [|c cs IH]; intros acc acc' cs' e; simpl.
  { intros [= <- <- <-]. split; [apply fed_refl|done]. }
  destruct (rewrite_choice acc c) as [[a1 c1] e1] eqn:E1.
  destruct (rewrite_choices a1 cs) as [[a2 c2] e2] eqn:E2. intros [= <- <- <-].
  destruct (rewrite_choice_fed _ _ _ _ _ E1) as [F1 P1]. destruct (IH _ _ _ _ E2) as [F2 P2].
  split; [by apply (fed_trans _ _ _ _ _ _ _ F1 F2)|].
  csimpl. intros Hne. destruct (choice_content c1) eqn:Ec; [rewrite P2 by done; apply orb_true_r|].
  rewrite P1 by done. done.
Qed.

Lemma rewrite_chunk_fed acc c acc' c' e :
  rewrite_chunk_value acc c = (acc', c', e) ->
  fed acc (chunk_content c) (if e then chunk_content c' else "") acc'.
Proof.
  unfold rewrite_chunk_value. destruct c as [| | | | |m]; try (intros [= <- <- <-]; apply fed_refl).
  unfold chunk_content at 1. destruct (map_get "choices" m) as [[]|] eqn:E;
    try (intros [= <- <- <-]; unfold chunk_content; rewrite E; apply fed_refl).
  destruct l as [|c0 cs0]; [intros [= <- <- <-]; unfold chunk_content; rewrite E; apply fed_refl|].
  destruct (rewrite_choices acc (c0 :: cs0)) as [[a1 c1] e1] eqn:E1. intros [= <- <- <-].
  destruct (rewrite_choices_fed _ _ _ _ _ E1) as [F1 P1]. unfold chunk_content. rewrite map_get_insert_eq.
  destruct (is_some (map_get "usage" m) || e1) eqn:Ee; [done|].
  apply orb_false_iff in Ee as [_ ->]. destruct (str_concat (choice_content <$> c1)) eqn:Ec; [done|].
  by specialize (P1 ltac:(done)).
Qed.

Lemma rewrite_chunks_fed acc cs acc' kept :
  rewrite_chunks acc cs = (acc', kept) ->
  fed acc (str_concat (chunk_content <$> cs)) (str_concat (chunk_content <$> kept)) acc'.
Proof.
  revert acc acc' kept; induction cs as [|c cs IH]; intros acc acc' kept; simpl.
  { intros [= <- <-]. apply fed_refl. }
  destruct (rewrite_chunk_value acc c) as [[a1 c1] e1] eqn:E1.
  destruct (rewrite_chunks a1 cs) as [a2 k2] eqn:E2. intros [= <- <-].
  apply rewrite_chunk_fed in E1. apply IH in E2. pose proof (fed_trans _ _ _ _ _ _ _ E1 E2) as Ht.
  csimpl. by destruct e1.
Qed.

(** Claim C11: over a whole stream of chunks the content forwarded to the client,
    with the bytes still held in the accumulator when it is outside a think
    block, is exactly the visible part of the concatenated upstream content; the
    chunks that are not forwarded carry no content. *)
Theorem normalizer_content_visible chunks :
  let '(acc, kept) := rewrite_chunks (acc_new builtin_think_pairs) chunks in
  str_concat (chunk_content <$> kept) +:+ (if in_reasoning acc then "" else pending acc)
  = visible builtin_think_pairs (str_concat (chunk_content <$> chunks)).
Proof.
  destruct (rewrite_chunks _ chunks) as [acc kept] eqn:E.
  apply rewrite_chunks_fed in E as (ds & evs & Hf & <- & <-).
  destruct (feed_all_spec "<" _ _ builtin_good _ _ _ (acc_new_fits _) (acc_new_settled _) Hf)
    as ([_ Hl] & _ & HS).
  specialize (HS ""). rewrite !app_nil_r_str in HS. unfold visible. simpl in HS. rewrite HS, select_app, Hl.
  rewrite select_label. unfold in_reasoning. by destruct (state acc).
Qed.

(** Bytes held back outside a think block are sent as reasoning when some block
    was seen before, although they belong to the visible text; and they are sent
    after the end marker. *)
Example held_text_after_block_sent_as_reasoning `{SerdeJson} :
  let acc := (feed (acc_new builtin_think_pairs) "<think>a</think>1 <").2 in
  in_reasoning acc = false /\ pending acc = "<"
  /\ (flush_eof (mkNorm acc "" true true true)).2
     = Some ("data: " +:+ to_string (obj [("choices", Array [obj [("index", json_int 0);
               ("delta", obj [("reasoning_content", Str "<")])]])]) +:+ lf +:+ lf).
Proof. split; [|split]; reflexivity. Qed.
