(* ===== verification/Metrics.v ===== *)
(** * Metrics counters

    Models [src/src/metrics.rs]: twelve 64-bit atomic counters ([fetch_add] and
    [fetch_sub] wrap around) and their Prometheus rendering. *)

From S2P Require Import Prelude.

Record Metrics := mkMetrics {
  total_requests : Z;
  failed_requests : Z;
  stream_requests : Z;
  cache_hits : Z;
  active_connections : Z;
  total_prompt_tokens : Z;
  total_completion_tokens : Z;
  m_retry_count : Z;
  key_demotions : Z;
  upstream_5xx : Z;
  upstream_4xx : Z;
  request_latency_sum_ms : Z
}.

Definition metrics_default : Metrics := mkMetrics 0 0 0 0 0 0 0 0 0 0 0 0.

(** The counters by name, so that an increment is one definition. *)
Inductive Counter : Type :=
| CTotal | CFailed | CStream | CCacheHits | CActive | CPrompt | CCompletion | CRetry | CDemotions
| C5xx | C4xx | CLatency.

#[global] Instance Counter_eq_dec : EqDecision Counter.
Proof. solve_decision. Defined.

Definition load (m : Metrics) (c : Counter) : Z :=
  match c with
  | CTotal => total_requests m | CFailed => failed_requests m | CStream => stream_requests m
  | CCacheHits => cache_hits m | CActive => active_connections m | CPrompt => total_prompt_tokens m
  | CCompletion => total_completion_tokens m | CRetry => m_retry_count m | CDemotions => key_demotions m
  | C5xx => upstream_5xx m | C4xx => upstream_4xx m | CLatency => request_latency_sum_ms m
  end.

(** [counter.fetch_add(n)] on 64 bits; [fetch_sub(1)] adds [2^64 - 1]. *)
Definition fetch_add (m : Metrics) (c : Counter) (n : Z) : Metrics :=
  let up c' := if bool_decide (c = c') then wadd 64 (load m c') n else load m c' in
  mkMetrics (up CTotal) (up CFailed) (up CStream) (up CCacheHits) (up CActive) (up CPrompt) (up CCompletion)
    (up CRetry) (up CDemotions) (up C5xx) (up C4xx) (up CLatency).

Definition inc_total_requests (m : Metrics) : Metrics := fetch_add m CTotal 1.
Definition inc_failed (m : Metrics) : Metrics := fetch_add m CFailed 1.
Definition inc_stream (m : Metrics) : Metrics := fetch_add m CStream 1.
Definition inc_cache_hit (m : Metrics) : Metrics := fetch_add m CCacheHits 1.
Definition inc_active (m : Metrics) : Metrics := fetch_add m CActive 1.
Definition dec_active (m : Metrics) : Metrics := fetch_add m CActive (2 ^ 64 - 1).
Definition add_prompt_tokens (m : Metrics) (n : Z) : Metrics := fetch_add m CPrompt n.
Definition add_completion_tokens (m : Metrics) (n : Z) : Metrics := fetch_add m CCompletion n.
Definition inc_retry (m : Metrics) : Metrics := fetch_add m CRetry 1.
Definition inc_key_demotion (m : Metrics) : Metrics := fetch_add m CDemotions 1.
Definition inc_upstream_5xx (m : Metrics) : Metrics := fetch_add m C5xx 1.
Definition inc_upstream_4xx (m : Metrics) : Metrics := fetch_add m C4xx 1.
Definition record_latency_ms (m : Metrics) (ms : Z) : Metrics := fetch_add m CLatency ms.

(** One counter of [render]: its help, type and value lines. *)
Definition render_one (name help kind : string) (v : Z) : string :=
  "# HELP " +:+ name +:+ " " +:+ help +:+ lf
  +:+ "# TYPE " +:+ name +:+ " " +:+ kind +:+ lf
  +:+ name +:+ " " +:+ string_of_Z v +:+ lf.

Definition rendered : list (string * string * string * Counter) :=
  [("llm_proxy_requests_total", "Total requests", "counter", CTotal);
   ("llm_proxy_requests_failed_total", "Failed requests", "counter", CFailed);
   ("llm_proxy_stream_requests_total", "Streaming requests", "counter", CStream);
   ("llm_proxy_cache_hits_total", "Cache hits", "counter", CCacheHits);
   ("llm_proxy_active_connections", "Active connections", "gauge", CActive);
   ("llm_proxy_prompt_tokens_total", "Prompt tokens", "counter", CPrompt);
   ("llm_proxy_completion_tokens_total", "Completion tokens", "counter", CCompletion);
   ("llm_proxy_retries_total", "Retry events", "counter", CRetry);
   ("llm_proxy_key_demotions_total", "Key demotion events", "counter", CDemotions);
   ("llm_proxy_upstream_5xx_total", "Upstream 5xx", "counter", C5xx);
   ("llm_proxy_upstream_4xx_total", "Upstream 4xx", "counter", C4xx);
   ("llm_proxy_request_latency_ms_sum", "Total latency ms", "counter", CLatency)].

Definition render (m : Metrics) : string :=
  str_concat ((fun '(name, help, kind, c) => render_one name help kind (load m c)) <$> rendered).

(** ** Lemmas *)

Lemma load_fetch_add m c n c' :
  load (fetch_add m c n) c' = if bool_decide (c = c') then wadd 64 (load m c') n else load m c'.
Proof. by destruct c'. Qed.

(** Additions to one counter over a sequence of updates. *)
Definition added (c : Counter) (us : list (Counter * Z)) : Z :=
  foldr (fun u s => (if bool_decide (u.1 = c) then u.2 else 0) + s) 0 us.

Lemma wadd_wadd a b c : wadd 64 (wadd 64 a b) c = wadd 64 a (b + c).
Proof. unfold wadd, wrap. rewrite Zplus_mod_idemp_l. f_equal. lia. Qed.

(** Updates of the counters commute: after any sequence of updates, in any
    order, a counter holds the sum of what was added to it, modulo 2^64. *)
Lemma metrics_sum us m c :
  0 <= load m c < 2 ^ 64 ->
  load (foldl (fun m u => fetch_add m u.1 u.2) m us) c = wadd 64 (load m c) (added c us).
Proof.
  revert m; induction us as [|[c' n] us IH]; intros m Hr; simpl.
  - unfold wadd. by rewrite Z.add_0_r, wrap_small.
  - rewrite IH; rewrite load_fetch_add; case_bool_decide; [by rewrite wadd_wadd|by rewrite Z.add_0_l| |done].
    unfold wadd. by apply wrap_range.
Qed.
