(* ===== verification/Inspector.v ===== *)
(** * The stream inspector

    Models [src/src/provider/inspector.rs]: usage, finish reason, model and cache
    figures are collected from the SSE lines of a stream that is forwarded
    unchanged; and the line splitting of the inspector task in
    [src/src/server/handler.rs] ([build_stream_response]). *)

From S2P Require Import Prelude Json Types.

Record StreamSummary := mkSummary {
  sum_usage : option Usage;
  sum_finish_reason : option string;
  sum_upstream_model : option string;
  sum_raw_usage_json : option Value
}.

Record StreamInspector := mkInspector {
  accumulated_usage : option Usage;
  insp_finish_reason : option string;
  insp_upstream_model : option string;
  insp_raw_usage_json : option Value;
  first_chunk_at : option Z;
  start_at : Z;
  insp_reasoning_tokens : Z;
  insp_audio_tokens : Z;
  cache_hit_tokens : option Z;
  cache_source : ProviderCacheKind
}.

Definition new_started_at (start : Z) : StreamInspector :=
  mkInspector None None None None None start 0 0 None CacheNone.

(** [at.duration_since(start).as_millis() as i64]; instants are nanoseconds. *)
Definition insp_ttft_ms (i : StreamInspector) : option Z :=
  (fun at_ => saturating_sub at_ (start_at i) / 1000000) <$> first_chunk_at i.

Definition NEEDLES : list string := ["usage"; "finish_reason"; "model"; "[DONE]"].

(** The choices' finish reasons: the last one that is a string other than
    ["null"] is kept. *)
Definition finish_of_choices (acc : option string) (choices : list Value) : option string :=
  foldl (fun acc c => match get_str "finish_reason" c with
                      | Some fr => if negb (str_eqb fr "null") then Some fr else acc
                      | None => acc
                      end) acc choices.

Definition usage_i64 (path : list string) (u : Value) : option Z := pointer path u ≫= as_i64.

(** What a parsed chunk changes. *)
Definition ingest_value (i : StreamInspector) (chunk : Value) : StreamInspector :=
  let model := or_else (get_str "model" chunk) (insp_upstream_model i) in
  let '(usage, raw) :=
    match get "usage" chunk with
    | Some u => match usage_from_value u with
                | Some x => (Some x, Some u)
                | None => (accumulated_usage i, insp_raw_usage_json i)
                end
    | None => (accumulated_usage i, insp_raw_usage_json i)
    end in
  let finish := match get "choices" chunk ≫= as_array with
                | Some cs => finish_of_choices (insp_finish_reason i) cs
                | None => insp_finish_reason i
                end in
  let cached := get "usage" chunk ≫= usage_i64 ["prompt_tokens_details"; "cached_tokens"] in
  let reasoning := get "usage" chunk ≫= usage_i64 ["completion_tokens_details"; "reasoning_tokens"] in
  let audio := get "usage" chunk ≫= usage_i64 ["completion_tokens_details"; "audio_tokens"] in
  mkInspector usage finish model raw (first_chunk_at i) (start_at i)
    (unwrap_or reasoning (insp_reasoning_tokens i)) (unwrap_or audio (insp_audio_tokens i))
    (or_else cached (cache_hit_tokens i))
    (match cached with Some _ => OpenAiPromptCache | None => cache_source i end).

Section Ingest.
Context `{SerdeJson}.

(** The chunk a line carries, if the line gets past the byte filter and parses. *)
Definition chunk_of_line (line : string) : option Value :=
  if negb (existsb (fun n => str_contains n line) NEEDLES) then None
  else if negb (utf8_valid line) then None
  else
    let trimmed := trim (trim line) in
    if str_is_empty trimmed then None
    else if str_eqb trimmed "data: [DONE]" then None
    else if negb (starts_with trimmed "data: ") then None
    else from_str (str_drop 6 trimmed).

Definition ingest_chunk (i : StreamInspector) (line : string) (now : Z) : StreamInspector :=
  let i := mkInspector (accumulated_usage i) (insp_finish_reason i) (insp_upstream_model i)
             (insp_raw_usage_json i) (or_else (first_chunk_at i) (Some now)) (start_at i)
             (insp_reasoning_tokens i) (insp_audio_tokens i) (cache_hit_tokens i) (cache_source i) in
  match chunk_of_line line with
  | Some chunk => ingest_value i chunk
  | None => i
  end.
End Ingest.

Definition into_audit (i : StreamInspector) : AuditFromProvider :=
  mkAuditFromProvider (mkCacheReport (cache_hit_tokens i) None (cache_source i))
    (if 0 <? insp_reasoning_tokens i then Some (insp_reasoning_tokens i) else None)
    (if 0 <? insp_audio_tokens i then Some (insp_audio_tokens i) else None)
    (insp_upstream_model i) None (insp_finish_reason i).

Definition finalize (i : StreamInspector) : StreamSummary :=
  mkSummary (accumulated_usage i) (insp_finish_reason i) (insp_upstream_model i) (insp_raw_usage_json i).

(** ** The inspector task

    Bytes arrive with the time the task sees them; complete lines are ingested
    as they are found, the rest when the channel closes. *)
Section Task.
Context `{SerdeJson}.

(** [while let Some(pos) = buf.iter().position(..)]: one line per turn. *)
Fixpoint take_lines (fuel : nat) (i : StreamInspector) (buf : string) (now : Z) : StreamInspector * string :=
  match fuel with
  | O => (i, buf)
  | S f =>
      match split_line buf with
      | None => (i, buf)
      | Some (line, rest) => take_lines f (ingest_chunk i line now) rest now
      end
  end.

Definition task_recv (st : StreamInspector * string) (msg : string * Z) : StreamInspector * string :=
  let buf := st.2 +:+ msg.1 in
  take_lines (S (String.length buf)) st.1 buf msg.2.

Definition inspector_task (started_at : Z) (msgs : list (string * Z)) (closed_at : Z) : StreamInspector :=
  let '(i, buf) := foldl task_recv (new_started_at started_at, "") msgs in
  if negb (str_is_empty buf) then ingest_chunk i buf closed_at else i.
End Task.

(* ------------------------------------------------------------------ *)
(** ** What the inspector collects *)

(** The last defined value of a function along a list. *)
Definition last_some {A B} (f : A -> option B) (l : list A) : option B :=
  foldl (fun acc x => or_else (f x) acc) None l.

Definition valid_usage (chunk : Value) : option (Usage * Value) :=
  match get "usage" chunk with
  | Some u => match usage_from_value u with Some x => Some (x, u) | None => None end
  | None => None
  end.

(** The finish reasons of a chunk, in order. *)
Definition finish_reasons (chunk : Value) : list string :=
  match get "choices" chunk ≫= as_array with
  | Some cs => List.filter (fun fr => negb (str_eqb fr "null"))
                 (flat_map (fun c => option_list (get_str "finish_reason" c)) cs)
  | None => []
  end.

Definition usage_at (path : list string) (chunk : Value) : option Z := get "usage" chunk ≫= usage_i64 path.

Section Collect.
Context `{SerdeJson}.

(** The chunks of a stream of bytes: one per line, the last line possibly
    unterminated. *)
Definition all_lines (bytes : string) : list string :=
  let '(ls, rest) := drain_lines bytes in if str_is_empty rest then ls else ls ++ [rest].

Definition chunks_of (lines : list string) : list Value := omap chunk_of_line lines.

(** The same inspector, up to the time of the first chunk. *)
Definition same_data (i j : StreamInspector) : Prop :=
  finalize i = finalize j /\ into_audit i = into_audit j.

Definition set_first (i : StreamInspector) (t : option Z) : StreamInspector :=
  mkInspector (accumulated_usage i) (insp_finish_reason i) (insp_upstream_model i)
    (insp_raw_usage_json i) t (start_at i) (insp_reasoning_tokens i) (insp_audio_tokens i)
    (cache_hit_tokens i) (cache_source i).

(** Ingestion without the clock. *)
Definition ingest_line (i : StreamInspector) (line : string) : StreamInspector :=
  match chunk_of_line line with Some c => ingest_value i c | None => i end.

Lemma ingest_value_first i c t : ingest_value (set_first i t) c = set_first (ingest_value i c) t.
Proof.
  unfold ingest_value. simpl. destruct (get "usage" c) as [u|]; simpl; [|done].
  by destruct (usage_from_value u).
Qed.

Lemma ingest_chunk_line i line now :
  ingest_chunk i line now = set_first (ingest_line i line) (or_else (first_chunk_at i) (Some now)).
Proof.
  unfold ingest_chunk, ingest_line.
  change (mkInspector _ _ _ _ (or_else (first_chunk_at i) (Some now)) _ _ _ _ _)
    with (set_first i (or_else (first_chunk_at i) (Some now))).
  destruct (chunk_of_line line); [apply ingest_value_first|done].
Qed.

Lemma ingest_line_first i line t : ingest_line (set_first i t) line = set_first (ingest_line i line) t.
Proof. unfold ingest_line. destruct (chunk_of_line line); [apply ingest_value_first|done]. Qed.

Lemma set_first_twice i t t' : set_first (set_first i t) t' = set_first i t'.
Proof. done. Qed.

Lemma take_lines_spec fuel i buf now : (String.length buf < fuel)%nat ->
  exists t, take_lines fuel i buf now
            = (set_first (foldl ingest_line i (drain_lines buf).1) t, (drain_lines buf).2)
  /\ t = (match (drain_lines buf).1 with [] => first_chunk_at i | _ => or_else (first_chunk_at i) (Some now) end).
Proof.
  revert i buf; induction fuel as [|f IH]; intros i buf Hlt; [lia|]. simpl.
  pose proof (split_line_drain buf) as Hs. destruct (split_line buf) as [[line rest]|].
  - destruct Hs as (Hd & Hl & _). rewrite Hd. simpl. rewrite ingest_chunk_line.
    destruct (IH (set_first (ingest_line i line) (or_else (first_chunk_at i) (Some now))) rest ltac:(lia))
      as (t & -> & Ht). exists t. split.
    + f_equal. generalize (drain_lines rest).1. intros ls.
      assert (Hf : forall ls i t', set_first (foldl ingest_line (set_first i t') ls) t = set_first (foldl ingest_line i ls) t).
      { clear. induction ls as [|l ls IH]; intros i t'; simpl; [done|]. by rewrite ingest_line_first, IH. }
      apply Hf.
    + rewrite Ht. simpl. destruct (drain_lines rest).1; [done|]. by destruct (first_chunk_at i).
  - rewrite Hs. simpl. exists (first_chunk_at i). split; [|done]. by destruct i.
Qed.
End Collect.

(** ** The collected figures as functions of the chunks *)

Lemma last_some_snoc {A B} (f : A -> option B) l x : last_some f (l ++ [x]) = or_else (f x) (last_some f l).
Proof. unfold last_some. by rewrite foldl_app. Qed.

Lemma finish_of_choices_last acc cs :
  finish_of_choices acc cs
  = or_else (last (List.filter (fun fr => negb (str_eqb fr "null"))
               (flat_map (fun c => option_list (get_str "finish_reason" c)) cs))) acc.
Proof.
  unfold finish_of_choices. induction cs as [|c cs IH] using rev_ind; [done|].
  rewrite foldl_app, flat_map_app, List.filter_app. simpl. rewrite IH, app_nil_r.
  destruct (get_str "finish_reason" c) as [fr|]; simpl; [|by rewrite app_nil_r].
  destruct (str_eqb fr "null"); simpl; [by rewrite app_nil_r|]. by rewrite last_snoc.
Qed.

Lemma last_app_or {A} (l1 l2 : list A) : last (l1 ++ l2) = or_else (last l2) (last l1).
Proof. rewrite last_app. by destruct (last l2). Qed.

(** The state after ingesting a list of chunks. *)
Lemma ingest_values_spec start cs :
  let i := foldl ingest_value (new_started_at start) cs in
  accumulated_usage i = fst <$> last_some valid_usage cs
  /\ insp_raw_usage_json i = snd <$> last_some valid_usage cs
  /\ insp_upstream_model i = last_some (get_str "model") cs
  /\ insp_finish_reason i = last (flat_map finish_reasons cs)
  /\ cache_hit_tokens i = last_some (usage_at ["prompt_tokens_details"; "cached_tokens"]) cs
  /\ insp_reasoning_tokens i
     = unwrap_or (last_some (usage_at ["completion_tokens_details"; "reasoning_tokens"]) cs) 0
  /\ insp_audio_tokens i = unwrap_or (last_some (usage_at ["completion_tokens_details"; "audio_tokens"]) cs) 0
  /\ cache_source i = (if is_some (cache_hit_tokens i) then OpenAiPromptCache else CacheNone)
  /\ start_at i = start.
Proof.
  induction cs as [|c cs IH] using rev_ind; [done|]. rewrite foldl_app. simpl.
  destruct IH as (H1 & H2 & H3 & H4 & H5 & H6 & H7 & H8 & H9).
  set (i := foldl ingest_value (new_started_at start) cs) in *.
  rewrite !last_some_snoc, flat_map_app, last_app_or. simpl. rewrite app_nil_r.
  assert (Hu : accumulated_usage (ingest_value i c) = fst <$> or_else (valid_usage c) (last_some valid_usage cs)
    /\ insp_raw_usage_json (ingest_value i c) = snd <$> or_else (valid_usage c) (last_some valid_usage cs)).
  { unfold ingest_value, valid_usage. destruct (get "usage" c) as [u|]; simpl; [|done].
    by destruct (usage_from_value u). }
  destruct Hu as [Hu1 Hu2]. split; [done|]. split; [done|].
  unfold ingest_value, usage_at, finish_reasons.
  destruct (match get "usage" c with Some _ => _ | None => _ end) as [us raw]. simpl.
  rewrite H3, H4, H5, H6, H7, H8, H9. split; [done|]. split.
  { destruct (get "choices" c ≫= as_array) as [l|]; simpl; [apply finish_of_choices_last|done]. }
  split; [done|].
  split; [by destruct (get "usage" c ≫= _)|]. split; [by destruct (get "usage" c ≫= _)|].
  split; [|done]. rewrite H5. by destruct (get "usage" c ≫= usage_i64 ["prompt_tokens_details"; "cached_tokens"]).
Qed.

Section Claims.
Context `{SerdeJson}.

Lemma fold_lines_chunks i ls : foldl ingest_line i ls = foldl ingest_value i (chunks_of ls).
Proof.
  revert i; induction ls as [|l ls IH]; intros i; simpl; [done|]. rewrite IH. unfold ingest_line.
  by destruct (chunk_of_line l).
Qed.

Lemma task_state start msgs :
  exists t, foldl task_recv (new_started_at start, "") msgs
            = (set_first (foldl ingest_line (new_started_at start)
                 (drain_lines (str_concat (fst <$> msgs))).1) t,
               (drain_lines (str_concat (fst <$> msgs))).2).
Proof.
  induction msgs as [|[b now] msgs [t IH]] using rev_ind.
  - by exists None.
  - rewrite foldl_app, fmap_app, str_concat_app. cbn [foldl]. rewrite IH. unfold task_recv.
    cbn [fst snd fmap list_fmap str_concat foldr]. rewrite app_nil_r_str.
    set (whole := str_concat (fst <$> msgs)) in *.
    destruct (take_lines_spec (S (String.length ((drain_lines whole).2 +:+ b)))
      (set_first (foldl ingest_line (new_started_at start) (drain_lines whole).1) t)
      ((drain_lines whole).2 +:+ b) now ltac:(lia)) as (t' & -> & _).
    exists t'. rewrite (drain_lines_app whole b). destruct (drain_lines whole) as [ls rest]. simpl.
    destruct (drain_lines (rest +:+ b)) as [ls' rest']. simpl. f_equal. rewrite foldl_app.
    generalize (foldl ingest_line (new_started_at start) ls). intros i. clear.
    revert i t; induction ls' as [|l ls' IH]; intros i t; simpl; [done|]. by rewrite ingest_line_first, IH.
Qed.

(** Whatever way the bytes of a stream reach the inspector task, the
    usage it reports is the last valid usage object of the stream, the model the
    last model named, the finish reason the last one given that is not the text
    "null", and the cache, reasoning and audio figures the last ones given; the
    last line counts even when it is not terminated. *)
Theorem inspector_collects_last start msgs closed :
  let i := inspector_task start msgs closed in
  let cs := chunks_of (all_lines (str_concat (fst <$> msgs))) in
  finalize i = mkSummary (fst <$> last_some valid_usage cs) (last (flat_map finish_reasons cs))
                 (last_some (get_str "model") cs) (snd <$> last_some valid_usage cs)
  /\ cache_hit_tokens i = last_some (usage_at ["prompt_tokens_details"; "cached_tokens"]) cs
  /\ insp_reasoning_tokens i
     = unwrap_or (last_some (usage_at ["completion_tokens_details"; "reasoning_tokens"]) cs) 0
  /\ insp_audio_tokens i = unwrap_or (last_some (usage_at ["completion_tokens_details"; "audio_tokens"]) cs) 0.
Proof.
  unfold inspector_task. destruct (task_state start msgs) as [t ->].
  set (whole := str_concat (fst <$> msgs)).
  assert (Hd : forall i', (let '(i, buf) := (set_first (foldl ingest_line (new_started_at start) (drain_lines whole).1) t,
        (drain_lines whole).2) in if negb (str_is_empty buf) then ingest_chunk i buf closed else i) = i' ->
    exists t', i' = set_first (foldl ingest_value (new_started_at start) (chunks_of (all_lines whole))) t').
  { intros i' <-. unfold all_lines. destruct (drain_lines whole) as [ls rest]. simpl.
    destruct (str_is_empty rest) eqn:Er; simpl; [exists t; by rewrite fold_lines_chunks|].
    rewrite ingest_chunk_line, ingest_line_first, set_first_twice. eexists. f_equal.
    rewrite <- fold_lines_chunks, foldl_app. done. }
  destruct (Hd _ eq_refl) as (t' & ->).
  destruct (ingest_values_spec start (chunks_of (all_lines whole))) as (H1 & H2 & H3 & H4 & H5 & H6 & H7 & _).
  unfold finalize. simpl. rewrite H1, H2, H3, H4, H5, H6, H7. done.
Qed.
End Claims.
