(* ===== verification/Relay.v ===== *)
(** * SSE relays for Anthropic and Gemini

    Models [src/src/provider/anthropic_stream.rs] and
    [src/src/provider/gemini_stream.rs]: upstream SSE bytes are cut into lines,
    each line is translated into OpenAI chunks, and a poll loop hands the chunks
    out one at a time.  The poll loops of the two files are the same code; it is
    given once, over the translation of a line. *)

From S2P Require Import Prelude Json Types.

(** An item of a byte stream. *)
Abbreviation item := (Result string AppError).

Definition DONE : string := "data: [DONE]" +:+ lf +:+ lf.

(** [RelayState], without the byte buffer and the queue of produced chunks;
    [prompt_tokens] is used by Gemini only. *)
Record RelayData := mkRelay {
  message_id : string;
  relay_model : string;
  relay_created : Z;
  content_idx : Z;
  streamed_tokens : Z;
  relay_prompt_tokens : Z;
  relay_finish : option string;
  done : bool
}.

Definition relay_new (id model : string) (created : Z) : RelayData :=
  mkRelay id model created 0 0 0 None false.

Definition opt_str (o : option string) : Value := match o with Some s => Str s | None => Null end.

Definition sse_data `{SerdeJson} (v : Value) : string := "data: " +:+ to_string v +:+ lf +:+ lf.

(** The delta of [emit_chunk]: the text ["assistant"] stands for the role chunk. *)
Definition chunk_delta (text : string) (reasoning : bool) : Value :=
  if str_eqb text "assistant" then obj [("role", Str "assistant")]
  else if reasoning then obj [("reasoning_content", Str text)]
  else if str_is_empty text then obj []
  else obj [("content", Str text)].

Definition chunk_payload (d : RelayData) (delta : Value) (finish : option string) : list (string * Value) :=
  [("id", Str (message_id d)); ("object", Str "chat.completion.chunk"); ("created", json_int (relay_created d));
   ("model", Str (relay_model d));
   ("choices", Array [obj [("index", json_int (content_idx d)); ("delta", delta);
                           ("finish_reason", opt_str finish)]])].

Definition emit_chunk `{SerdeJson} (d : RelayData) (text : string) (finish : option string) (reasoning : bool)
    : string :=
  sse_data (obj (chunk_payload d (chunk_delta text reasoning) finish)).

(** The closing chunk with the usage. *)
Definition final_chunk `{SerdeJson} (d : RelayData) (prompt completion total : Z) : string :=
  sse_data (obj (chunk_payload d (obj []) (relay_finish d)
                 ++ [("usage", obj [("completion_tokens", json_int completion); ("prompt_tokens", json_int prompt);
                                    ("total_tokens", json_int total)])])).

(** ** The shared buffer and poll loop *)

(** A translation of a line: the new data and the chunks pushed; the flag says
    whether the queue was empty before. *)
Definition translation : Type := RelayData -> bool -> string -> RelayData * list string.

Record RelayState := mkRelayState { rdata : RelayData; rbuffer : string; rpending : list string }.

Section Poll.
Variable process_line : translation.

(** One line of [feed_bytes]; a line that is not UTF-8 counts as empty. *)
Definition relay_line (st : RelayData * list string) (line : string) : RelayData * list string :=
  let trimmed := trim (if utf8_valid line then line else "") in
  if str_is_empty trimmed then st
  else
    let '(d, chunks) := process_line st.1 (match st.2 with [] => true | _ => false end) trimmed in
    (d, st.2 ++ chunks).

(** The loop of [feed_bytes]: one line per turn. *)
Fixpoint feed_loop (fuel : nat) (st : RelayData * list string) (buf : string)
    : (RelayData * list string) * string :=
  match fuel with
  | O => (st, buf)
  | S f => match split_line buf with
           | None => (st, buf)
           | Some (line, rest) => feed_loop f (relay_line st line) rest
           end
  end.

Definition feed_bytes (s : RelayState) (bytes : string) : RelayState :=
  let buf := rbuffer s +:+ bytes in
  let '((d, p), rest) := feed_loop (S (String.length buf)) (rdata s, rpending s) buf in
  mkRelayState d rest p.

Inductive PollTurn : Type :=
| PReady (o : option item) (s : RelayState) (upstream_done : bool) (upstream : list item)
| PAgain (s : RelayState) (upstream_done : bool) (upstream : list item).

(** One call of [poll_next], with the upstream always ready: [PAgain] is the
    [Poll::Pending] after which the task is woken at once. *)
Definition poll_next (s : RelayState) (upstream_done : bool) (upstream : list item) : PollTurn :=
  match rpending s with
  | c :: cs => PReady (Some (Ok c)) (mkRelayState (rdata s) (rbuffer s) cs) upstream_done upstream
  | [] =>
      if done (rdata s) then PReady None s upstream_done upstream
      else if upstream_done then PReady None s upstream_done upstream
      else match upstream with
           | Ok bytes :: up =>
               let s := feed_bytes s bytes in
               match rpending s with
               | c :: cs => PReady (Some (Ok c)) (mkRelayState (rdata s) (rbuffer s) cs) false up
               | [] => PAgain s false up
               end
           | Err e :: up => PReady (Some (Err e)) s true up
           | [] =>
               let d := rdata s in
               PReady (Some (Ok DONE))
                 (mkRelayState (mkRelay (message_id d) (relay_model d) (relay_created d) (content_idx d)
                                  (streamed_tokens d) (relay_prompt_tokens d) (relay_finish d) true)
                    (rbuffer s) [DONE]) true []
           end
  end.

(** Polling until the end. *)
Fixpoint poll_to_end (fuel : nat) (s : RelayState) (upstream_done : bool) (upstream : list item)
    : option (list item) :=
  match fuel with
  | O => None
  | S f =>
      match poll_next s upstream_done upstream with
      | PReady None _ _ _ => Some []
      | PReady (Some i) s ud up => cons i <$> poll_to_end f s ud up
      | PAgain s ud up => poll_to_end f s ud up
      end
  end.

(** ** Reference: the items as a function of the upstream *)

Fixpoint relay_out (d : RelayData) (buf : string) (upstream : list item) : list item :=
  if done d then []
  else match upstream with
       | [] => [Ok DONE; Ok DONE]
       | Err e :: _ => [Err e]
       | Ok b :: up =>
           let '(ls, rest) := drain_lines (buf +:+ b) in
           let '(d', chunks) := foldl relay_line (d, []) ls in
           (Ok <$> chunks) ++ relay_out d' rest up
       end.

Lemma feed_loop_spec fuel st buf : (String.length buf < fuel)%nat ->
  feed_loop fuel st buf = (foldl relay_line st (drain_lines buf).1, (drain_lines buf).2).
Proof.
  revert st buf; induction fuel as [|f IH]; intros st buf Hlt; [lia|]. simpl.
  pose proof (split_line_drain buf) as Hs. destruct (split_line buf) as [[line rest]|].
  - destruct Hs as (-> & Hl & _). simpl. apply IH. lia.
  - by rewrite Hs.
Qed.

(** Handing out a queue takes one poll per chunk. *)
Lemma poll_drains fuel d buf q ud up :
  poll_to_end (length q + fuel) (mkRelayState d buf q) ud up
  = (fun out => (Ok <$> q) ++ out) <$> poll_to_end fuel (mkRelayState d buf []) ud up.
Proof.
  induction q as [|c q IH]; simpl.
  - by destruct (poll_to_end fuel _ ud up).
  - rewrite IH. by destruct (poll_to_end fuel _ ud up).
Qed.

Lemma poll_mono fuel fuel' s ud up out :
  (fuel <= fuel')%nat -> poll_to_end fuel s ud up = Some out -> poll_to_end fuel' s ud up = Some out.
Proof.
  revert fuel' s ud up out; induction fuel as [|f IH]; intros [|f'] s ud up out Hle; try done; [lia|].
  simpl. destruct (poll_next s ud up) as [[i|] s' ud' up'|s' ud' up']; [|done|].
  - destruct (poll_to_end f s' ud' up') as [o|] eqn:E; [|done]. simpl.
    rewrite (IH f' s' ud' up' o); [done|lia|done].
  - apply IH. lia.
Qed.

Lemma relay_reference upstream d buf :
  exists fuel, poll_to_end fuel (mkRelayState d buf []) false upstream = Some (relay_out d buf upstream).
Proof.
  revert d buf; induction upstream as [|i upstream IH]; intros d buf.
  - exists 3%nat. simpl. unfold poll_next. simpl. by destruct (done d).
  - destruct (done d) eqn:Ed.
    { exists 1%nat. simpl. unfold poll_next. simpl. rewrite Ed. done. }
    destruct i as [b|e].
    + destruct (drain_lines (buf +:+ b)) as [ls rest] eqn:El.
      destruct (foldl relay_line (d, []) ls) as [d' chunks] eqn:Ef.
      destruct (IH d' rest) as [fuel Hf].
      assert (Hfeed : feed_bytes (mkRelayState d buf []) b = mkRelayState d' rest chunks).
      { unfold feed_bytes. simpl rbuffer. rewrite feed_loop_spec by lia. rewrite El. simpl. by rewrite Ef. }
      exists (S (length chunks + fuel)). cbn [poll_to_end]. unfold poll_next. cbn [rpending rdata]. rewrite Ed, Hfeed.
      cbn [rpending rdata rbuffer]. simpl relay_out. rewrite Ed, El, Ef. destruct chunks as [|c cs].
      * simpl. rewrite Hf. done.
      * simpl length. cbn [Nat.add].
        rewrite (poll_mono (length cs + fuel) _ _ _ _ ((Ok <$> cs) ++ relay_out d' rest upstream)); [done|lia|].
        rewrite poll_drains, Hf. done.
    + exists 2%nat. simpl. unfold poll_next. simpl. rewrite Ed. simpl. by rewrite Ed.
Qed.
End Poll.

(* ------------------------------------------------------------------ *)
(** ** Anthropic *)

Module AnthropicRelay.
Section Anthropic.
Context `{SerdeJson}.

Definition set_done (d : RelayData) : RelayData :=
  mkRelay (message_id d) (relay_model d) (relay_created d) (content_idx d) (streamed_tokens d)
    (relay_prompt_tokens d) (relay_finish d) true.

Definition stop_reason (s : string) : string :=
  if str_eqb s "end_turn" then "stop" else if str_eqb s "max_tokens" then "length"
  else if str_eqb s "stop_sequence" then "stop" else if str_eqb s "tool_use" then "tool_calls" else "stop".

Definition message_start (d : RelayData) (v : Value) : RelayData :=
  match get "message" v with
  | Some msg =>
      mkRelay (unwrap_or (get_str "id" msg) (message_id d)) (unwrap_or (get_str "model" msg) (relay_model d))
        (relay_created d) (content_idx d) (streamed_tokens d) (relay_prompt_tokens d) (relay_finish d) (done d)
  | None => d
  end.

Definition block_delta (d : RelayData) (v : Value) : RelayData * string * bool :=
  let delta := get "delta" v in
  let delta_type := unwrap_or (delta ≫= get_str "type") "" in
  let thinking := str_eqb delta_type "thinking_delta" in
  let text := unwrap_or (delta ≫= get_str (if thinking then "thinking" else "text")) "" in
  (mkRelay (message_id d) (relay_model d) (relay_created d) (unwrap_or (get "index" v ≫= as_u64) 0)
     (streamed_tokens d) (relay_prompt_tokens d) (relay_finish d) (done d), text, thinking).

Definition message_delta (d : RelayData) (v : Value) : RelayData :=
  let finish := stop_reason <$> (get "delta" v ≫= get_str "stop_reason") in
  let tokens := match (get "usage" v ≫= get "output_tokens") ≫= as_u64 with
                | Some ot => wrap 32 ot | None => streamed_tokens d end in
  mkRelay (message_id d) (relay_model d) (relay_created d) (content_idx d) tokens
    (relay_prompt_tokens d) finish (done d).

Definition process_line : translation := fun d _ line =>
  match strip_prefix "data: " line with
  | None => (d, [])
  | Some data =>
      if str_is_empty data then (d, [])
      else match from_str data with
           | None => (d, [])
           | Some v =>
               let ev_type := unwrap_or (get_str "type" v) "" in
               if str_eqb ev_type "message_start" then
                 let d := message_start d v in (d, [emit_chunk d "assistant" None false])
               else if str_eqb ev_type "content_block_delta" then
                 let '(d, text, thinking) := block_delta d v in (d, [emit_chunk d text None thinking])
               else if str_eqb ev_type "message_delta" then
                 let d := message_delta d v in (d, [emit_chunk d "" (relay_finish d) false])
               else if str_eqb ev_type "message_stop" then
                 (set_done d, [final_chunk d 0 (streamed_tokens d) (streamed_tokens d)])
               else (d, [])
           end
  end.

Definition relay_anthropic_stream (fuel : nat) (id : string) (created : Z) (upstream : list item) (model : string)
    : option (list item) :=
  poll_to_end process_line fuel (mkRelayState (relay_new id model created) "" []) false upstream.
End Anthropic.
End AnthropicRelay.

(** ** Gemini *)

Module GeminiRelay.
Section Gemini.
Context `{SerdeJson}.

Definition finish_reason_of (s : string) : string :=
  if str_eqb s "STOP" then "stop" else if str_eqb s "MAX_TOKENS" then "length"
  else if str_eqb s "SAFETY" || str_eqb s "RECITATION" then "content_filter" else "stop".

Definition update_usage (d : RelayData) (v : Value) : RelayData :=
  match get "usageMetadata" v with
  | None => d
  | Some u =>
      mkRelay (message_id d) (relay_model d) (relay_created d) (content_idx d)
        (match get "candidatesTokenCount" u ≫= as_u64 with Some c => wrap 32 c | None => streamed_tokens d end)
        (match get "promptTokenCount" u ≫= as_u64 with Some p => wrap 32 p | None => relay_prompt_tokens d end)
        (relay_finish d) (done d)
  end.

(** The text of the parts, and whether any of them is a thought. *)
Definition parts_text (parts : list Value) : string * bool :=
  foldl (fun tr p => (match get_str "text" p with Some t => tr.1 +:+ t | None => tr.1 end,
                      tr.2 || unwrap_or (get "thought" p ≫= as_bool) false)) ("", false) parts.

(** One candidate of the loop; [queue_empty] is [self.pending.is_empty()]. *)
Definition process_candidate (d : RelayData) (queue_empty : bool) (c : Value) : RelayData * list string :=
  match (get "content" c ≫= get "parts") ≫= as_array with
  | None => (d, [])
  | Some parts =>
      let '(text, reasoning) := parts_text parts in
      let fr := finish_reason_of <$> opt_filter (fun s => negb (str_eqb s "null")) (get_str "finishReason" c) in
      let d := mkRelay (message_id d) (relay_model d) (relay_created d) (content_idx d) (streamed_tokens d)
                 (relay_prompt_tokens d) (or_else fr (relay_finish d)) (done d) in
      let role := if queue_empty then [emit_chunk d "assistant" None false] else [] in
      let body := if negb (str_is_empty text) then [emit_chunk d text (relay_finish d) reasoning]
                  else match relay_finish d with
                       | Some _ => [emit_chunk d "" (relay_finish d) false]
                       | None => []
                       end in
      match relay_finish d with
      | Some _ =>
          (AnthropicRelay.set_done d,
           role ++ body ++ [final_chunk d (relay_prompt_tokens d) (streamed_tokens d)
                              (wadd 32 (relay_prompt_tokens d) (streamed_tokens d))])
      | None => (d, role ++ body)
      end
  end.

Fixpoint process_candidates (d : RelayData) (queue_empty : bool) (cs : list Value) : RelayData * list string :=
  match cs with
  | [] => (d, [])
  | c :: cs' =>
      let '(d, out) := process_candidate d queue_empty c in
      let '(d, out') := process_candidates d (queue_empty && match out with [] => true | _ => false end) cs' in
      (d, out ++ out')
  end.

Definition process_line : translation := fun d queue_empty line =>
  match from_str line with
  | None => (d, [])
  | Some v =>
      let d := update_usage d v in
      match get "candidates" v ≫= as_array with
      | Some cs => process_candidates d queue_empty cs
      | None => (d, [])
      end
  end.

Definition relay_gemini_stream (fuel : nat) (id : string) (created : Z) (upstream : list item) (model : string)
    : option (list item) :=
  poll_to_end process_line fuel (mkRelayState (relay_new id model created) "" []) false upstream.
End Gemini.
End GeminiRelay.

(* ------------------------------------------------------------------ *)
(** ** Claims *)

(** A line does not end the message. *)
Definition keeps_open `{SerdeJson} (line : string) : Prop :=
  forall d q, done d = false -> done (AnthropicRelay.process_line d q line).1 = false.

Section Claims.
Context `{SerdeJson}.

(** Polling the Anthropic relay always reaches the end, and the items
    received are those of the reference: for each upstream chunk the OpenAI
    chunks of the lines it completes, an upstream error relayed and ending the
    stream, nothing after a completed message, and otherwise an end marker. *)
Theorem anthropic_relay_reference id created upstream model :
  exists fuel, AnthropicRelay.relay_anthropic_stream fuel id created upstream model
               = Some (relay_out AnthropicRelay.process_line (relay_new id model created) "" upstream).
Proof. apply relay_reference. Qed.

(** The same for the Gemini relay. *)
Theorem gemini_relay_reference id created upstream model :
  exists fuel, GeminiRelay.relay_gemini_stream fuel id created upstream model
               = Some (relay_out GeminiRelay.process_line (relay_new id model created) "" upstream).
Proof. apply relay_reference. Qed.

Lemma relay_line_anthropic d q line :
  relay_line AnthropicRelay.process_line (d, q) line
  = ((relay_line AnthropicRelay.process_line (d, []) line).1,
     q ++ (relay_line AnthropicRelay.process_line (d, []) line).2).
Proof.
  unfold relay_line. simpl. destruct (str_is_empty (trim _)); simpl; [by rewrite app_nil_r|].
  unfold AnthropicRelay.process_line.
  destruct (strip_prefix _ _) as [data|]; simpl; [|done].
  destruct (str_is_empty data); [done|]. destruct (from_str data) as [v|]; [|done].
  destruct (AnthropicRelay.block_delta d v) as [[d1 t1] th1].
  repeat case_match; simplify_eq/=; done.
Qed.

Lemma fold_lines_anthropic d q ls :
  foldl (relay_line AnthropicRelay.process_line) (d, q) ls
  = ((foldl (relay_line AnthropicRelay.process_line) (d, []) ls).1,
     q ++ (foldl (relay_line AnthropicRelay.process_line) (d, []) ls).2).
Proof.
  revert d q; induction ls as [|l ls IH]; intros d q; simpl; [by rewrite app_nil_r|].
  rewrite relay_line_anthropic.
  destruct (relay_line AnthropicRelay.process_line (d, []) l) as [d1 q1]. simpl.
  rewrite (IH d1 (q ++ q1)), (IH d1 q1). simpl. by rewrite app_assoc.
Qed.

Lemma open_lines d q ls : done d = false ->
  Forall (fun l => keeps_open (trim (if utf8_valid l then l else ""))) ls ->
  done (foldl (relay_line AnthropicRelay.process_line) (d, q) ls).1 = false.
Proof.
  intros Hd Hls. revert d q Hd; induction Hls as [|l ls Hl _ IH]; intros d q Hd; simpl; [done|].
  destruct (relay_line AnthropicRelay.process_line (d, q) l) as [d1 q1] eqn:E. apply IH.
  unfold relay_line in E. destruct (str_is_empty _); [by simplify_eq|]. simpl in E.
  specialize (Hl d (match q with [] => true | _ => false end) Hd).
  destruct (AnthropicRelay.process_line _ _ _) as [d2 c2]. simpl in Hl. by simplify_eq.
Qed.

Lemma open_stream bs d buf : drain_lines buf = ([], buf) -> done d = false ->
  Forall (fun l => keeps_open (trim (if utf8_valid l then l else ""))) (drain_lines (buf +:+ str_concat bs)).1 ->
  relay_out AnthropicRelay.process_line d buf (Ok <$> bs)
  = (Ok <$> (foldl (relay_line AnthropicRelay.process_line) (d, []) (drain_lines (buf +:+ str_concat bs)).1).2)
    ++ [Ok DONE; Ok DONE].
Proof.
  revert d buf; induction bs as [|b bs IH]; intros d buf Hbuf Hd Hopen; csimpl.
  - rewrite Hd, app_nil_r_str, Hbuf. done.
  - rewrite Hd. simpl in Hopen. rewrite app_assoc_str, (drain_lines_app (buf +:+ b)) in Hopen.
    rewrite app_assoc_str, (drain_lines_app (buf +:+ b)).
    pose proof (drain_lines_rest (buf +:+ b)) as Hr.
    destruct (drain_lines (buf +:+ b)) as [ls rest] eqn:El. simpl in Hr.
    destruct (drain_lines (rest +:+ str_concat bs)) as [ls2 rest2] eqn:E2. simpl in *.
    apply Forall_app in Hopen as [Ho1 Ho2].
    pose proof (open_lines d [] ls Hd Ho1) as Hd'. rewrite foldl_app.
    destruct (foldl (relay_line AnthropicRelay.process_line) (d, []) ls) as [d' q'] eqn:Ef. simpl in Hd'.
    rewrite (IH d' rest Hr Hd') by (by rewrite E2). rewrite E2. simpl.
    rewrite (fold_lines_anthropic d' q' ls2). simpl. by rewrite fmap_app, <- app_assoc.
Qed.

(** For an Anthropic stream cut off before its final event, what the
    client receives does not depend on the upstream chunking; it is the
    translation of every complete line, followed by the end marker, which the
    relay sends twice. *)
Theorem anthropic_relay_cut_off id created bs model :
  Forall (fun l => keeps_open (trim (if utf8_valid l then l else ""))) (drain_lines (str_concat bs)).1 ->
  relay_out AnthropicRelay.process_line (relay_new id model created) "" (Ok <$> bs)
  = (Ok <$> (foldl (relay_line AnthropicRelay.process_line) (relay_new id model created, [])
               (drain_lines (str_concat bs)).1).2) ++ [Ok DONE; Ok DONE].
Proof. intros Ho. by apply (open_stream bs (relay_new id model created) ""). Qed.
End Claims.

(** ** Concrete behaviours *)

Module RelayDemo.
(** A parser that knows the events of the examples. *)
Definition serde (table : list (string * Value)) : SerdeJson :=
  {| from_str := fun s => snd <$> List.find (fun kv => str_eqb kv.1 s) table;
     to_string := fun v => match get "choices" v with
                           | Some (Array (c :: _)) =>
                               match get "delta" c with
                               | Some dl => match get_str "content" dl with
                                           | Some t => "content:" +:+ t
                                           | None => match get_str "role" dl with Some r => "role:" +:+ r | None => "other" end
                                           end
                               | None => "other"
                               end
                           | _ => "other"
                           end |}.
Definition text_event (t : string) : Value :=
  obj [("type", Str "content_block_delta"); ("delta", obj [("type", Str "text_delta"); ("text", Str t)])].
Definition table : list (string * Value) :=
  [("A", text_event "Hi"); ("B", text_event "assistant"); ("Z", obj [("type", Str "message_stop")])].
End RelayDemo.

Theorem anthropic_relay_cut_off_witness :
  @relay_out (@AnthropicRelay.process_line (RelayDemo.serde RelayDemo.table)) (relay_new "id" "m" 0) ""
     (Ok <$> ["data: A" +:+ lf +:+ "dat"; "a: B" +:+ lf])
  = [Ok ("data: content:Hi" +:+ lf +:+ lf); Ok ("data: role:assistant" +:+ lf +:+ lf); Ok DONE; Ok DONE].
Proof.
  rewrite (@anthropic_relay_cut_off (RelayDemo.serde RelayDemo.table)); [reflexivity|].
  assert (Hk : forall t v, @from_str (RelayDemo.serde RelayDemo.table) t = Some v ->
     unwrap_or (get_str "type" v) "" = "content_block_delta" -> t ≠ "" ->
     @keeps_open (RelayDemo.serde RelayDemo.table) ("data: " +:+ t)).
  { intros t v Hv Hty Hne d q Hd. unfold AnthropicRelay.process_line.
    assert (strip_prefix "data: " ("data: " +:+ t) = Some t) as -> by (by apply strip_prefix_Some).
    destruct (str_is_empty t) eqn:Et; [by destruct t|]. rewrite Hv, Hty. simpl. done. }
  repeat constructor; (eapply Hk; [reflexivity|reflexivity|done]).
Defined.

(** A text delta that happens to be the word assistant is turned into a role
    chunk: its text never reaches the client. *)
Example assistant_text_lost `{SerdeJson} d :
  chunk_delta "assistant" false = obj [("role", Str "assistant")]
  /\ emit_chunk d "assistant" None false = sse_data (obj (chunk_payload d (obj [("role", Str "assistant")]) None)).
Proof. split; reflexivity. Qed.

(** A completed message ends without the end marker. *)
Example no_done_after_stop :
  @relay_out (@AnthropicRelay.process_line (RelayDemo.serde RelayDemo.table)) (relay_new "id" "m" 0) ""
     [Ok ("data: A" +:+ lf +:+ "data: Z" +:+ lf)]
  = [Ok ("data: content:Hi" +:+ lf +:+ lf); Ok ("data: other" +:+ lf +:+ lf)].
Proof. reflexivity. Qed.

(** A Gemini line that carries the SSE prefix is not parsed: the relay hands the
    whole line to the JSON parser. *)
Example gemini_prefix_not_stripped d q v :
  let serde := RelayDemo.serde [("{}", v)] in
  @GeminiRelay.process_line serde d q "data: {}" = (d, []).
Proof. reflexivity. Qed.
