(* ===== verification/Providers.v ===== *)
(** * Upstream providers

    Models [src/src/provider/http.rs] (the upstream error message),
    [src/src/provider/openai.rs], [src/src/provider/anthropic.rs] and
    [src/src/provider/gemini.rs]: the requests they build, how they classify the
    answers, the conversions of the formats and the audit fields.  The HTTP
    client is a function from requests to answers; the decoders serde derives
    for the response types are the class [Decoders], which [Wire] implements. *)

From S2P Require Import Prelude Json Types Config Relay.

(** ** The upstream error message *)

Definition MAX_UPSTREAM_ERROR_CHARS : nat := 512.

(** [body.split_whitespace()] *)
Fixpoint words (fuel : nat) (cur : string) (s : string) : list string :=
  let emit := if str_is_empty cur then [] else [cur] in
  match fuel with
  | O => emit
  | S f =>
      match s with
      | EmptyString => emit
      | String c s' =>
          match strip_any ws_encodings s with
          | Some rest => emit ++ words f "" rest
          | None => words f (cur +:+ String c EmptyString) s'
          end
      end
  end.

Definition split_whitespace (s : string) : list string := words (S (String.length s)) "" s.

(** Characters of a UTF-8 text: the bytes that do not continue one. *)
Definition continues (c : ascii) : bool := in_bytes 0x80 0xBF c.

Fixpoint char_count (s : string) : nat :=
  match s with
  | EmptyString => 0
  | String c s' => if continues c then char_count s' else S (char_count s')
  end.

(** [s.chars().take(n).collect()] *)
Fixpoint take_chars (n : nat) (s : string) : string :=
  match s with
  | EmptyString => EmptyString
  | String c s' =>
      if continues c then String c (take_chars n s')
      else match n with
           | O => EmptyString
           | S n' => String c (take_chars n' s')
           end
  end.

Definition ellipsis : string := String (chr 0xE2) (String (chr 0x80) (String (chr 0xA6) "")).

Definition truncate_error_body (body : string) : string :=
  let collapsed := str_join " " (split_whitespace body) in
  if (char_count collapsed <=? MAX_UPSTREAM_ERROR_CHARS)%nat then collapsed
  else take_chars MAX_UPSTREAM_ERROR_CHARS collapsed +:+ ellipsis.

Definition extract_json_error_message (json : Value) : option string :=
  or_else (pointer ["error"; "message"] json ≫= as_str)
    (or_else (get_str "message" json) (get_str "error" json)).

Definition format_upstream_error `{SerdeJson} (status : Z) (body : string) : string :=
  let trimmed := trim body in
  let head := "upstream " +:+ string_of_Z status in
  if str_is_empty trimmed then head
  else match from_str trimmed ≫= extract_json_error_message with
       | Some msg => head +:+ ": " +:+ truncate_error_body msg
       | None => head +:+ ": " +:+ truncate_error_body trimmed
       end.

(** ** HTTP exchanges *)

Record HttpRequest (B : Type) := mkHttpRequest {
  hr_url : string; hr_headers : list (string * string); hr_body : option B
}.
Arguments mkHttpRequest {B}.

(** An answer: its status, its content type, its body read as text (an error
    reads as empty), as JSON, or as a stream of chunks. *)
Record HttpAnswer := mkAnswer {
  an_status : Z;
  an_content_type : option string;
  an_text : string;
  an_json : Result Value string;
  an_chunks : list (Result string string)
}.

(** How the http crate prints a status, e.g. [404 Not Found]. *)
Class StatusDisplay := { status_display : Z -> string }.

Inductive ProviderResponse : Type :=
| Once (r : ChatCompletionResponse)
| Stream (body : list item).

Definition is_success (status : Z) : bool := (200 <=? status) && (status <? 300).
Definition is_server_error (status : Z) : bool := (500 <=? status) && (status <? 600).

Definition is_bad_status (codes : list Z) (status : Z) : bool := existsb (Z.eqb status) codes.

(** [bytes_stream()] with read errors turned into upstream errors. *)
Definition map_stream (what : string) (chunks : list (Result string string)) : list item :=
  (fun c => match c with Ok b => Ok b | Err e => Err (Upstream None true false (what +:+ e)) end) <$> chunks.

Definition upstream_error `{SerdeJson} (a : HttpAnswer) (retryable bad_key_hint : bool) : AppError :=
  Upstream (Some (an_status a)) retryable bad_key_hint (format_upstream_error (an_status a) (an_text a)).

(** The decoders serde derives. *)
Class Decoders (AR GR : Type) := {
  decode_chat_response : Value -> Result ChatCompletionResponse string;
  decode_anthropic : Value -> Result AR string;
  decode_gemini : Value -> Result GR string
}.

(** ** OpenAI *)

Section OpenAi.
Context `{SerdeJson} {AR GR : Type} `{!Decoders AR GR}.
Variable send : HttpRequest ChatCompletionRequest -> Result HttpAnswer string.

Definition openai_chat (base_url : string) (codes : list Z) (req : ChatCompletionRequest) (k : KeyEntry)
    : Result ProviderResponse AppError :=
  match send (mkHttpRequest (base_url +:+ "/chat/completions")
                [("authorization", "Bearer " +:+ key k); ("content-type", "application/json")] (Some req)) with
  | Err e => Err (Upstream None true false ("upstream connect error: " +:+ e))
  | Ok a =>
      let status_code := an_status a in
      if is_success status_code then
        if unwrap_or ((fun ct => starts_with ct "text/event-stream") <$> an_content_type a) false
        then Ok (Stream (map_stream "stream read error: " (an_chunks a)))
        else
          let parse_error e := Upstream (Some status_code) false false ("failed to parse upstream response: " +:+ e) in
          match an_json a with
          | Err e => Err (parse_error e)
          | Ok raw_body =>
              match decode_chat_response raw_body with
              | Err e => Err (parse_error e)
              | Ok r => Ok (Once (set_raw_usage r (get "usage" raw_body)))
              end
          end
      else if is_server_error status_code then Err (upstream_error a true false)
      else if is_bad_status codes status_code then Err (upstream_error a true true)
      else Err (upstream_error a false false)
  end.

Definition probe_openai `{StatusDisplay} (probe : HttpRequest unit -> Result HttpAnswer string) (base_url : string) (k : KeyEntry)
    : Result unit AppError :=
  match probe (mkHttpRequest (base_url +:+ "/models") [("authorization", "Bearer " +:+ key k)] None) with
  | Err e => Err (Upstream None true false ("probe connect error: " +:+ e))
  | Ok a =>
      if is_success (an_status a) then Ok tt
      else Err (Upstream (Some (an_status a)) true false ("probe returned " +:+ status_display (an_status a)))
  end.

Definition extract_cache_from_usage (raw : Value) : CacheReport :=
  match pointer ["prompt_tokens_details"; "cached_tokens"] raw ≫= as_i64 with
  | Some cached => mkCacheReport (Some cached) None OpenAiPromptCache
  | None =>
      match get "prompt_cache_hit_tokens" raw ≫= as_i64 with
      | Some cached => mkCacheReport (Some cached) None DeepSeekPromptCache
      | None => cache_report_none
      end
  end.

Definition first_finish (r : ChatCompletionResponse) : option string :=
  match choices r with c :: _ => finish_reason c | [] => None end.

Definition openai_extract_audit (resp : ProviderResponse) : AuditFromProvider :=
  match resp with
  | Once r =>
      match raw_usage_json r with
      | Some raw =>
          mkAuditFromProvider (extract_cache_from_usage raw)
            (pointer ["completion_tokens_details"; "reasoning_tokens"] raw ≫= as_i64)
            (pointer ["completion_tokens_details"; "audio_tokens"] raw ≫= as_i64)
            (Some (resp_model r)) None (first_finish r)
      | None => mkAuditFromProvider cache_report_none None None (Some (resp_model r)) None (first_finish r)
      end
  | Stream _ => default_audit_from_provider
  end.
End OpenAi.

(** ** Anthropic *)

Record AnthropicMessage := mkAnMessage { am_role : string; am_content : string }.

Record AnthropicRequest := mkAnRequest {
  anr_model : string;
  anr_max_tokens : Z;
  anr_system : option string;
  anr_messages : list AnthropicMessage;
  anr_stop_sequences : option (list string);
  anr_temperature : option Q;
  anr_top_p : option Q;
  anr_thinking : option Value;
  anr_stream : bool
}.

Record AnthropicContent := mkAnContent { anc_type : string; anc_text : option string; anc_thinking : option string }.

Record AnthropicResponse := mkAnResponse {
  ans_id : string; ans_model : string; ans_content : list AnthropicContent;
  ans_stop_reason : option string; ans_usage : Value
}.

(** The text of a message: a string as it is, anything else printed as JSON. *)
Definition content_text `{SerdeJson} (v : Value) : string :=
  match v with Str s => s | other => to_string other end.

(** The stop sequences both native formats take. *)
Definition stop_sequences (stop : option Value) : option (list string) :=
  match stop with
  | Some (Str s) => Some [s]
  | Some (Array arr) => match omap as_str arr with [] => None | v => Some v end
  | _ => None
  end.

Section Anthropic.
Context `{SerdeJson}.

Definition system_parts (req : ChatCompletionRequest) : list string :=
  omap (fun m => if str_eqb (msg_role m) "system" then as_str (msg_content m) else None) (messages req).

Definition openai_to_anthropic_base (req : ChatCompletionRequest) (stream : bool) : AnthropicRequest :=
  let parts := system_parts req in
  mkAnRequest (model req) (unwrap_or (max_tokens req) 4096)
    (match parts with [] => None | _ => Some (str_join (lf +:+ lf) parts) end)
    (omap (fun m => if str_eqb (msg_role m) "user" || str_eqb (msg_role m) "assistant"
                    then Some (mkAnMessage (msg_role m) (content_text (msg_content m))) else None) (messages req))
    (stop_sequences (stop req)) (temperature req) (top_p req)
    (or_else (get "thinking" (extra req)) (get "thinking_config" (extra req)))
    stream.

Definition anthropic_finish (s : string) : option string :=
  if str_eqb s "end_turn" then Some "stop" else if str_eqb s "max_tokens" then Some "length"
  else if str_eqb s "stop_sequence" then Some "stop" else if str_eqb s "tool_use" then Some "tool_calls"
  else None.

(** [.as_u64().unwrap_or(0) as u32] *)
Definition u32_count (o : option Value) : Z := wrap 32 (unwrap_or (o ≫= as_u64) 0).

Definition assistant_response (id : string) (created : Z) (model : string) (text : string)
    (reasoning : option string) (finish : option string) (u : Usage) : ChatCompletionResponse :=
  mkResponse id "chat.completion" created model
    [mkChoice 0 (mkResponseMessage "assistant" (Some text) None reasoning None None None) finish]
    (Some u) None.

Definition joined_parts (parts : list string) : option string :=
  match parts with [] => None | _ => Some (str_join "" parts) end.

Definition anthropic_to_openai (an : AnthropicResponse) (model : string) (now_secs : Z)
    : ChatCompletionResponse :=
  let reasoning := omap (fun c => if str_eqb (anc_type c) "thinking" then anc_thinking c else None) (ans_content an) in
  let text := str_join "" (omap (fun c => if str_eqb (anc_type c) "thinking" then None
                                          else if str_eqb (anc_type c) "text" then anc_text c else None)
                             (ans_content an)) in
  let prompt := u32_count (get "input_tokens" (ans_usage an)) in
  let completion := u32_count (get "output_tokens" (ans_usage an)) in
  assistant_response (ans_id an) now_secs model text (joined_parts reasoning)
    (ans_stop_reason an ≫= anthropic_finish) (mkUsage prompt completion (wadd 32 prompt completion)).

Context {GR : Type} `{!Decoders AnthropicResponse GR}.
Variable send : HttpRequest AnthropicRequest -> Result HttpAnswer string.

(** Both paths classify a failed answer; they differ. *)
Definition anthropic_stream_error (codes : list Z) (a : HttpAnswer) : AppError :=
  upstream_error a (500 <=? an_status a) (is_bad_status codes (an_status a)).

Definition native_error (codes : list Z) (a : HttpAnswer) : AppError :=
  if 500 <=? an_status a then upstream_error a true false
  else if is_bad_status codes (an_status a) then upstream_error a true true
  else upstream_error a false false.

Definition anthropic_chat (base_url : string) (codes : list Z) (now_secs : Z) (relay : list item -> list item)
    (req : ChatCompletionRequest) (k : KeyEntry) : Result ProviderResponse AppError :=
  let url := base_url +:+ "/messages" in
  let headers := [("x-api-key", key k); ("anthropic-version", "2023-06-01")] in
  if unwrap_or (stream req) false then
    match send (mkHttpRequest url headers (Some (openai_to_anthropic_base req true))) with
    | Err e => Err (Upstream None true false ("stream connect: " +:+ e))
    | Ok a =>
        if negb (is_success (an_status a)) then Err (anthropic_stream_error codes a)
        else Ok (Stream (relay (map_stream "stream error: " (an_chunks a))))
    end
  else
    match send (mkHttpRequest url (headers ++ [("content-type", "application/json")])
                  (Some (openai_to_anthropic_base req false))) with
    | Err e => Err (Upstream None true false ("anthropic connect error: " +:+ e))
    | Ok a =>
        if is_success (an_status a) then
          match an_json a with
          | Err e => Err (Upstream (Some (an_status a)) false false ("parse error: " +:+ e))
          | Ok raw_body =>
              match decode_anthropic raw_body with
              | Err e => Err (Upstream (Some (an_status a)) false false ("deserialize error: " +:+ e))
              | Ok an => Ok (Once (set_raw_usage (anthropic_to_openai an (model req) now_secs) (get "usage" raw_body)))
              end
          end
        else Err (native_error codes a)
    end.

Definition anthropic_extract_audit (resp : ProviderResponse) : AuditFromProvider :=
  match resp with
  | Once r =>
      let hit := raw_usage_json r ≫= (fun raw => get "cache_read_input_tokens" raw ≫= as_i64) in
      let creation := raw_usage_json r ≫= (fun raw => get "cache_creation_input_tokens" raw ≫= as_i64) in
      mkAuditFromProvider
        (if is_some hit || is_some creation then mkCacheReport hit creation AnthropicCacheControl else cache_report_none)
        None None (Some (resp_model r)) None (first_finish r)
  | Stream _ => default_audit_from_provider
  end.
End Anthropic.

(** ** Gemini *)

Record GeminiContent := mkGmContent { gc_role : string; gc_parts : list string }.

Record GeminiRequest := mkGmRequest {
  gr_contents : list GeminiContent;
  gr_system : option (list string);
  gr_max_output_tokens : option Z;
  gr_temperature : option Q;
  gr_top_p : option Q;
  gr_stop_sequences : option (list string);
  gr_thinking_config : option Value
}.

Record GeminiPart := mkGmPart { gp_text : option string; gp_thought : bool }.
Record GeminiCandidate := mkGmCandidate { gcd_parts : list GeminiPart; gcd_finish : option string }.
Record GeminiResponse := mkGmResponse { gm_candidates : list GeminiCandidate; gm_usage : option Value }.

Section Gemini.
Context `{SerdeJson}.

Definition openai_to_gemini (req : ChatCompletionRequest) : GeminiRequest :=
  let parts := system_parts req in
  mkGmRequest
    (omap (fun m => if str_eqb (msg_role m) "user" then Some (mkGmContent "user" [content_text (msg_content m)])
                    else if str_eqb (msg_role m) "assistant"
                    then Some (mkGmContent "model" [content_text (msg_content m)]) else None) (messages req))
    (match parts with [] => None | _ => Some [str_join (lf +:+ lf) parts] end)
    (Some (unwrap_or (max_tokens req) 8192)) (temperature req) (top_p req) (stop_sequences (stop req))
    (or_else (get "thinkingConfig" (extra req))
       (or_else (get "thinking_config" (extra req)) (get "thinking" (extra req)))).

(** [candidates.first()] *)
Definition first_candidate (gm : GeminiResponse) : option GeminiCandidate :=
  match gm_candidates gm with c :: _ => Some c | [] => None end.

Definition gemini_to_openai (gm : GeminiResponse) (model id : string) (now_secs : Z) : ChatCompletionResponse :=
  let parts := match first_candidate gm with Some c => gcd_parts c | None => [] end in
  let reasoning := omap (fun p => if gp_thought p then gp_text p else None) parts in
  let answer := omap (fun p => if gp_thought p then None else gp_text p) parts in
  let finish := GeminiRelay.finish_reason_of <$> (first_candidate gm ≫= gcd_finish) in
  let count k := u32_count (gm_usage gm ≫= get k) in
  let prompt := count "promptTokenCount" in
  let completion := count "candidatesTokenCount" in
  let total := count "totalTokenCount" in
  assistant_response id now_secs model (str_join "" answer) (joined_parts reasoning) finish
    (mkUsage prompt completion (if 0 <? total then total else wadd 32 prompt completion)).

Context {AR : Type} `{!Decoders AR GeminiResponse}.
Variable send : HttpRequest GeminiRequest -> Result HttpAnswer string.

Definition gemini_chat (base_url : string) (codes : list Z) (now_secs : Z) (new_id : string)
    (relay : list item -> list item) (req : ChatCompletionRequest) (k : KeyEntry)
    : Result ProviderResponse AppError :=
  let url := base_url +:+ "/models/" +:+ model req in
  let headers := [("x-goog-api-key", key k)] in
  if unwrap_or (stream req) false then
    match send (mkHttpRequest (url +:+ ":streamGenerateContent?alt=sse") headers (Some (openai_to_gemini req))) with
    | Err e => Err (Upstream None true false ("stream connect: " +:+ e))
    | Ok a =>
        if negb (is_success (an_status a)) then Err (anthropic_stream_error codes a)
        else Ok (Stream (relay (map_stream "stream error: " (an_chunks a))))
    end
  else
    match send (mkHttpRequest (url +:+ ":generateContent") (headers ++ [("content-type", "application/json")])
                  (Some (openai_to_gemini req))) with
    | Err e => Err (Upstream None true false ("gemini connect error: " +:+ e))
    | Ok a =>
        if is_success (an_status a) then
          match an_json a with
          | Err e => Err (Upstream (Some (an_status a)) false false ("parse error: " +:+ e))
          | Ok raw_body =>
              match decode_gemini raw_body with
              | Err e => Err (Upstream (Some (an_status a)) false false ("deserialize error: " +:+ e))
              | Ok gm => Ok (Once (set_raw_usage (gemini_to_openai gm (model req) new_id now_secs)
                                     (get "usageMetadata" raw_body)))
              end
          end
        else Err (native_error codes a)
    end.

Definition gemini_extract_audit (resp : ProviderResponse) : AuditFromProvider :=
  match resp with
  | Once r =>
      mkAuditFromProvider
        (match raw_usage_json r ≫= (fun raw => get "cachedContentTokenCount" raw ≫= as_i64) with
         | Some cached => mkCacheReport (Some cached) None GeminiCachedContent
         | None => cache_report_none
         end)
        None None (Some (resp_model r)) None (first_finish r)
  | Stream _ => default_audit_from_provider
  end.
End Gemini.

(** The probes of the native providers differ only in the request they send. *)
Definition probe_native `{StatusDisplay} (answer : Result HttpAnswer string) : Result unit AppError :=
  match answer with
  | Err e => Err (Upstream None true false ("probe error: " +:+ e))
  | Ok a =>
      if is_success (an_status a) then Ok tt
      else Err (Upstream (Some (an_status a)) true false ("probe: " +:+ status_display (an_status a)))
  end.

(** ** The length of an upstream message *)

Lemma char_count_app a b : char_count (a +:+ b) = (char_count a + char_count b)%nat.
Proof. induction a as [|c a IH]; [done|]. cbn. destruct (continues c); rewrite IH; done. Qed.

Lemma char_count_take n s : (char_count (take_chars n s) <= n)%nat.
Proof.
  revert n. induction s as [|c s IH]; intros n; cbn; [lia|].
  destruct (continues c) eqn:E; cbn; [rewrite E; apply IH|].
  destruct n as [|n]; cbn; [lia|]. rewrite E. specialize (IH n). lia.
Qed.

Lemma take_chars_short n s : (char_count s <= n)%nat -> take_chars n s = s.
Proof.
  revert n. induction s as [|c s IH]; intros n Hn; cbn in *; [done|].
  destruct (continues c); [by rewrite IH|]. destruct n as [|n]; [lia|]. rewrite IH; [done|lia].
Qed.

Lemma truncate_length body : (char_count (truncate_error_body body) <= 513)%nat.
Proof.
  unfold truncate_error_body, MAX_UPSTREAM_ERROR_CHARS.
  destruct (_ <=? 512)%nat eqn:E; [apply Nat.leb_le in E; lia|].
  rewrite char_count_app. pose proof (char_count_take 512 (str_join " " (split_whitespace body))).
  change (char_count ellipsis) with 1%nat. lia.
Qed.

(** Whatever the body an upstream answers a failure with, however
    long or malformed, the message relayed to the client starts with
    "upstream <status>" and holds at most 515 characters after it (the 512
    characters kept, the separator and the ellipsis). *)
Theorem upstream_message_bounded `{SerdeJson} (status : Z) (body : string) :
  exists rest, format_upstream_error status body = "upstream " +:+ string_of_Z status +:+ rest
               /\ (char_count rest <= 515)%nat.
Proof.
  unfold format_upstream_error.
  assert (Hm : forall m, (char_count (": " +:+ truncate_error_body m) <= 515)%nat).
  { intros m. rewrite char_count_app. pose proof (truncate_length m).
    change (char_count ": ") with 2%nat. lia. }
  destruct (str_is_empty (trim body)).
  { exists "". rewrite app_nil_r_str. split; [done|cbn; lia]. }
  destruct (from_str _ ≫= _) as [msg|]; rewrite <- ?app_assoc_str; eauto.
Qed.

(** ** Classification of failures *)

(** What the router is told about a failed answer. *)
Definition verdict (r : Result ProviderResponse AppError) : option (option Z * bool * bool) :=
  match r with Err (Upstream st retryable hint _) => Some (st, retryable, hint) | _ => None end.

(** The table in the documentation of [openai.rs]. *)
Definition failure_table (codes : list Z) (status : Z) : bool * bool :=
  if 500 <=? status then (true, false)
  else if is_bad_status codes status then (true, true)
  else (false, false).

Lemma native_error_table `{SerdeJson} codes a :
  verdict (Err (native_error codes a))
  = Some (Some (an_status a), (failure_table codes (an_status a)).1, (failure_table codes (an_status a)).2).
Proof. unfold native_error, failure_table. by repeat case_match. Qed.

Section Verdicts.
Context `{SJ : SerdeJson} `{D : !Decoders AnthropicResponse GeminiResponse}.
Variables (send_o : HttpRequest ChatCompletionRequest -> Result HttpAnswer string)
  (send_a : HttpRequest AnthropicRequest -> Result HttpAnswer string)
  (send_g : HttpRequest GeminiRequest -> Result HttpAnswer string).
Variables (url id : string) (codes : list Z) (now : Z) (relay : list item -> list item)
  (req : ChatCompletionRequest) (k : KeyEntry) (a : HttpAnswer).

Definition all_answer : Prop :=
  (forall r, send_o r = Ok a) /\ (forall r, send_a r = Ok a) /\ (forall r, send_g r = Ok a).

(** Claim C38: for the same failed answer (a status that is not 2xx and below
    600) the three providers tell the router the same when the request does not
    stream, namely the documented table: 5xx is retryable, a status the
    configuration lists is retryable and blames the key, the rest is final.
    When the request streams, the native providers differ from that table
    exactly on the listed statuses: below 500 they blame the key without
    allowing the retry, from 500 they blame the key as well. *)
Theorem provider_verdicts :
  all_answer -> is_success (an_status a) = false -> an_status a < 600 ->
  let '(retry, hint) := failure_table codes (an_status a) in
  verdict (openai_chat send_o url codes req k) = Some (Some (an_status a), retry, hint)
  /\ forall v, v ∈ [verdict (anthropic_chat send_a url codes now relay req k);
                    verdict (gemini_chat send_g url codes now id relay req k)] ->
     v = Some (Some (an_status a),
               if unwrap_or (stream req) false then 500 <=? an_status a else retry,
               if unwrap_or (stream req) false then is_bad_status codes (an_status a) else hint).
Proof.
  intros (Ho & Ha & Hg) Hs H600.
  destruct (failure_table codes (an_status a)) as [retry hint] eqn:E. split.
  - unfold openai_chat. rewrite Ho, Hs. unfold failure_table in E. unfold is_server_error.
    rewrite (proj2 (Z.ltb_lt _ _) H600), andb_true_r. by repeat case_match; simplify_eq.
  - intros v Hv. unfold anthropic_chat, gemini_chat in Hv.
    destruct (unwrap_or (stream req) false); rewrite Ha, Hg, Hs in Hv; cbn [negb] in Hv;
      rewrite ?native_error_table, ?E in Hv; by set_unfold in Hv; destruct Hv as [->|[->|[]]].
Qed.

(** Without a connection every provider reports a retryable failure without a
    status that does not blame the key. *)
Lemma connect_error_verdict e :
  (forall r, send_o r = Err e) -> (forall r, send_a r = Err e) -> (forall r, send_g r = Err e) ->
  verdict (openai_chat send_o url codes req k) = Some (None, true, false)
  /\ verdict (anthropic_chat send_a url codes now relay req k) = Some (None, true, false)
  /\ verdict (gemini_chat send_g url codes now id relay req k) = Some (None, true, false).
Proof.
  intros Ho Ha Hg. unfold openai_chat, anthropic_chat, gemini_chat.
  rewrite Ho. destruct (unwrap_or (stream req) false); by rewrite Ha, Hg.
Qed.
End Verdicts.

(** ** Requests and responses in the native formats *)

Definition gemini_role (r : string) : string := if str_eqb r "assistant" then "model" else r.

(** The two native request formats carry the same conversation: the
    user and assistant messages of the request in their order, with their text
    (Gemini calls the assistant "model"), and the system texts joined once;
    nothing with another role is sent. *)
Theorem native_requests_agree `{SerdeJson} req s :
  gr_contents (openai_to_gemini req)
  = (fun m => mkGmContent (gemini_role (am_role m)) [am_content m]) <$> anr_messages (openai_to_anthropic_base req s)
  /\ gr_system (openai_to_gemini req) = (fun x => [x]) <$> anr_system (openai_to_anthropic_base req s)
  /\ anr_messages (openai_to_anthropic_base req s)
     = (fun m => mkAnMessage (msg_role m) (content_text (msg_content m))) <$>
         filter (fun m => msg_role m = "user" \/ msg_role m = "assistant") (messages req).
Proof.
  split; [|split].
  - cbn. induction (messages req) as [|m l IH]; [done|]. csimpl. unfold gemini_role in *.
    destruct (str_eqb (msg_role m) "user") eqn:E1; cbn.
    + apply str_eqb_spec in E1. rewrite E1. cbn. f_equal. done.
    + destruct (str_eqb (msg_role m) "assistant") eqn:E2; cbn; [rewrite E2; f_equal|]; done.
  - cbn. by destruct (system_parts req).
  - cbn. induction (messages req) as [|m l IH]; [done|]. csimpl.
    destruct (str_eqb (msg_role m) "user" || str_eqb (msg_role m) "assistant") eqn:E; rewrite filter_cons.
    + rewrite decide_True; [cbn; by f_equal|].
      apply orb_prop in E as [E|E]; apply str_eqb_spec in E; auto.
    + rewrite decide_False; [done|]. apply orb_false_elim in E as [E1 E2].
      intros [E|E]; rewrite E in *; done.
Qed.

Lemma u32_count_range o : 0 <= u32_count o < 2 ^ 32.
Proof. apply wrap_range. lia. Qed.

Lemma wadd32_range a b : 0 <= wadd 32 a b < 2 ^ 32.
Proof. apply wrap_range. lia. Qed.

(** A converted native answer is a well-formed chat completion: one
    assistant choice whose text is there, token counts that fit [u32], and a
    total that is the sum of the two counts whenever that sum fits (for Gemini:
    unless the answer gives a total of its own). *)
Theorem native_responses_wf `{SerdeJson} (an : AnthropicResponse) (gm : GeminiResponse) md id now r u :
  r ∈ [anthropic_to_openai an md now; gemini_to_openai gm md id now] ->
  usage r = Some u ->
  usage_wf u
  /\ (exists c, choices r = [c] /\ rm_role (message c) = "assistant" /\ is_some (content (message c)) = true)
  /\ (prompt_tokens u + completion_tokens u < 2 ^ 32 ->
      total_tokens u = prompt_tokens u + completion_tokens u
      \/ total_tokens u = u32_count (gm_usage gm ≫= get "totalTokenCount") /\ 0 < total_tokens u).
Proof.
  intros Hr Hu.
  set_unfold in Hr; destruct Hr as [->|[->|[]]];
    unfold anthropic_to_openai, gemini_to_openai, assistant_response in *; cbn in Hu; simplify_eq.
  - split; [|split].
    + unfold usage_wf; cbn. auto using u32_count_range, wadd32_range.
    + eexists. cbn. done.
    + intros Hs. left. apply wrap_small. cbn in Hs |- *.
      pose proof (u32_count_range (get "input_tokens" (ans_usage an))).
      pose proof (u32_count_range (get "output_tokens" (ans_usage an))). lia.
  - set (p := u32_count (gm_usage gm ≫= get "promptTokenCount")) in *.
    set (c := u32_count (gm_usage gm ≫= get "candidatesTokenCount")) in *.
    set (t := u32_count (gm_usage gm ≫= get "totalTokenCount")) in *.
    pose proof (u32_count_range (gm_usage gm ≫= get "promptTokenCount")) as Hp.
    pose proof (u32_count_range (gm_usage gm ≫= get "candidatesTokenCount")) as Hc.
    pose proof (u32_count_range (gm_usage gm ≫= get "totalTokenCount")) as Ht.
    fold p in Hp. fold c in Hc. fold t in Ht. split; [|split].
    + unfold usage_wf; cbn. destruct (0 <? t); auto using wadd32_range.
    + eexists. cbn. done.
    + cbn. intros Hs. destruct (0 <? t) eqn:E; [right; apply Z.ltb_lt in E; done|].
      left. apply wrap_small. lia.
Qed.

(** ** Concrete exchanges *)

Module ProviderDemo.
Definition serde : SerdeJson := {| from_str := fun _ => None; to_string := fun _ => "json" |}.
Definition decoders : Decoders AnthropicResponse GeminiResponse :=
  {| decode_chat_response := fun _ => Err "no"; decode_anthropic := fun _ => Err "no"; decode_gemini := fun _ => Err "no" |}.
(** A rejected key. *)
Definition rejected : HttpAnswer := mkAnswer 401 None " slow   down " (Err "no") [].
Definition k : KeyEntry := mkKeyEntry "sk-1" 1 ApiKey None None None None.
Definition req : ChatCompletionRequest :=
  mkRequest "m" [] (Some true) None None None None None None None None None None (Object []).
Definition an : AnthropicResponse :=
  mkAnResponse "id" "claude" [mkAnContent "thinking" None (Some "hm"); mkAnContent "text" (Some "Hi") None]
    (Some "end_turn") (obj [("input_tokens", json_int 3); ("output_tokens", json_int 4)]).
Definition gm : GeminiResponse := mkGmResponse [] None.
End ProviderDemo.

Theorem provider_verdicts_witness :
  let '(retry, hint) := failure_table [401; 403] 401 in
  verdict (@openai_chat ProviderDemo.serde _ _ ProviderDemo.decoders (fun _ => Ok ProviderDemo.rejected) "u" [401; 403]
             ProviderDemo.req ProviderDemo.k) = Some (Some 401, retry, hint)
  /\ forall v,
     v ∈ [verdict (@anthropic_chat ProviderDemo.serde _ ProviderDemo.decoders (fun _ => Ok ProviderDemo.rejected)
                     "u" [401; 403] 0 id ProviderDemo.req ProviderDemo.k);
          verdict (@gemini_chat ProviderDemo.serde _ ProviderDemo.decoders (fun _ => Ok ProviderDemo.rejected)
                     "u" [401; 403] 0 "id" id ProviderDemo.req ProviderDemo.k)] ->
     v = Some (Some 401, false, true).
Proof.
  apply (@provider_verdicts ProviderDemo.serde ProviderDemo.decoders
           (fun _ => Ok ProviderDemo.rejected) (fun _ => Ok ProviderDemo.rejected) (fun _ => Ok ProviderDemo.rejected)
           "u" "id" [401; 403] 0 id ProviderDemo.req ProviderDemo.k ProviderDemo.rejected);
    [repeat split | reflexivity | reflexivity].
Defined.

Theorem native_responses_wf_witness :
  let r := anthropic_to_openai ProviderDemo.an "m" 5 in
  exists u, usage r = Some u /\ usage_wf u /\ total_tokens u = 7.
Proof.
  eexists. split; [reflexivity|]. split; [|reflexivity].
  apply (@native_responses_wf ProviderDemo.serde ProviderDemo.an ProviderDemo.gm "m" "id" 5
           (anthropic_to_openai ProviderDemo.an "m" 5)); [by left | reflexivity].
Defined.

Example message_example :
  @format_upstream_error ProviderDemo.serde 401 " slow   down " = "upstream 401: slow down".
Proof. reflexivity. Qed.
