(* ===== verification/Catalog.v ===== *)
(** * The model catalog

    Models [src/src/model_catalog.rs]: the models the gateway lists, their
    metadata, and the translation of the thinking level a client asks for into
    the value the upstream of the model expects.  The router and the config
    store are read through [model_list], [model_pool_list], [for_model] and the
    registry rows. *)

From S2P Require Import Prelude Json Types Config Pricing Router.

(** ** Thinking levels *)

Definition THINKING_LEVEL_ORDER : list string := ["off"; "minimal"; "low"; "medium"; "high"; "xhigh"; "max"].

Definition canonical_thinking_level (level : string) : option string :=
  if str_eqb level "none" then Some "off"
  else List.find (fun canonical => str_eqb canonical level) THINKING_LEVEL_ORDER.

(** [entry.capabilities_json.as_deref().and_then(|raw| from_str(raw).ok())] *)
Definition capabilities `{SerdeJson} (e : ModelRegistryEntry) : option Value :=
  mre_capabilities_json e ≫= from_str.

(** [caps.pointer("/metadata/thinkingLevelMap").and_then(as_object)] *)
Definition level_map_of (caps : Value) : option Map :=
  pointer ["metadata"; "thinkingLevelMap"] caps ≫= as_object.

(** The body of the loop of [registry_thinking_level_map]. *)
Definition level_step (out : Map) (kv : string * Value) : Map :=
  if is_null kv.2 then out
  else match canonical_thinking_level kv.1 with
       | Some canonical => map_insert canonical kv.2 out
       | None => out
       end.

Definition registry_thinking_level_map (caps : option Value) : option Map :=
  match caps ≫= level_map_of with
  | None => None
  | Some m => match foldl level_step [] m with [] => None | out => Some out end
  end.

Definition reasoning_thinking_levels (caps : option Value) : list string :=
  match registry_thinking_level_map caps with
  | Some m => List.filter (fun level => is_some (map_get level m)) THINKING_LEVEL_ORDER
  | None => []
  end.

Definition identity_thinking_level_map (levels : list string) : option Map :=
  match levels with
  | [] => None
  | _ => Some (map_of_list ((fun l => (l, Str l)) <$> levels))
  end.

(** A JSON number is finite: of the filter only the sign is left to test. *)
Definition catalog_cost (caps : option Value) (field : string) (fallback : Q) : Q :=
  unwrap_or (opt_filter (fun n => Qle_bool 0 n)
    (caps ≫= (fun v => pointer ["metadata"; "cost"; field] v ≫= as_f64))) fallback.

(** The private function, on the fields the client sent beside the known ones. *)
Definition translate_reasoning_effort `{SerdeJson} (e : ModelRegistryEntry) (extra : Value)
    : Result Value AppError :=
  match get_str "reasoning_effort" extra with
  | None => Ok extra
  | Some effort =>
      match capabilities e ≫= level_map_of with
      | None => Ok extra
      | Some level_map =>
          match canonical_thinking_level effort with
          | None => Ok extra
          | Some requested =>
              let unsupported := BadRequest ("model '" +:+ mre_id e +:+ "' does not support reasoning_effort='"
                                             +:+ effort +:+ "'") in
              match List.find (fun kv => bool_decide (canonical_thinking_level kv.1 = Some requested)) level_map with
              | Some (_, Str upstream_level) =>
                  Ok match extra with
                     | Object object => Object (map_insert "reasoning_effort" (Str upstream_level) object)
                     | _ => extra
                     end
              | _ => Err unsupported
              end
          end
      end
  end.

(** ** The catalog *)

Section ModelCatalog.
Context `{SerdeJson} {P : Type} `{!DashIter string RouteEntry}.

Definition registry_entry (registry : list ModelRegistryEntry) (model : string) : option ModelRegistryEntry :=
  List.find (fun e => str_eqb (mre_id e) model && mre_enabled e) registry.

Definition catalog_translate (registry : list ModelRegistryEntry) (model : string) (req : ChatCompletionRequest)
    : Result ChatCompletionRequest AppError :=
  match registry_entry registry model with
  | None => Ok req
  | Some e => let? x := translate_reasoning_effort e (extra req) in Ok (set_extra req x)
  end.

Definition list_models (r : Router P) : list Model :=
  (fun id => mkModel id "model" 0 "openai") <$> model_list r.

Definition registry_metadata (e : ModelRegistryEntry) (id : string) (metadata : Config.ModelMetadata) : ModelMetadataDto :=
  let caps := capabilities e in
  let levels := reasoning_thinking_levels caps in
  let levels := match levels with [] => thinking_levels metadata | _ => levels end in
  mkModelMetadataDto id (mre_display_name e)
    (wrap 32 (Z.max (mre_max_context_tokens e) 0)) (wrap 32 (Z.max (mre_max_output_tokens e) 0))
    (if mre_supports_vision e then ["text"; "image"] else ["text"])
    (unwrap_or ((caps ≫= get "reasoning") ≫= as_bool) (meta_reasoning metadata))
    levels
    (or_else (registry_thinking_level_map caps) (identity_thinking_level_map levels))
    (mre_supports_tool_calling e) (mre_supports_vision e)
    (mkModelMetadataPricing (unwrap_or (mre_input_price e) 0%Q) (unwrap_or (mre_output_price e) 0%Q)
       (catalog_cost caps "cache_read" (mpr_cache_read (meta_pricing metadata)))
       (catalog_cost caps "cache_write" (mpr_cache_write (meta_pricing metadata)))).

Definition plain_metadata (id : string) (metadata : Config.ModelMetadata) : ModelMetadataDto :=
  mkModelMetadataDto id (meta_name metadata) (context_window metadata) (max_output_tokens metadata)
    (input_types metadata) (meta_reasoning metadata) (thinking_levels metadata)
    (identity_thinking_level_map (thinking_levels metadata))
    (supports_tools metadata) (supports_vision metadata)
    (mkModelMetadataPricing (mpr_input (meta_pricing metadata)) (mpr_output (meta_pricing metadata))
       (mpr_cache_read (meta_pricing metadata)) (mpr_cache_write (meta_pricing metadata))).

Definition list_metadata (r : Router P) (registry : list ModelRegistryEntry) (c : ModelMetadataConfig)
    : list ModelMetadataDto :=
  (fun mp : string * string =>
     let '(id, pool) := mp in
     match registry_entry registry id with
     | Some e => registry_metadata e id (for_model c id pool)
     | None => plain_metadata id (for_model c id pool)
     end) <$> model_pool_list r.
End ModelCatalog.

(** ** What the levels map holds *)

Lemma canonical_in_order l c : canonical_thinking_level l = Some c -> c ∈ THINKING_LEVEL_ORDER.
Proof.
  unfold canonical_thinking_level. case_match.
  - intros [= <-]. by left.
  - intros Hf. apply find_some in Hf as [Hin _]. by apply list_elem_of_In.
Qed.

Lemma canonical_idemp l c : canonical_thinking_level l = Some c -> canonical_thinking_level c = Some c.
Proof.
  intros Hc. apply canonical_in_order in Hc.
  assert (Forall (fun c => canonical_thinking_level c = Some c) THINKING_LEVEL_ORDER) as Ha
    by repeat constructor.
  by apply (proj1 (Forall_forall _ _) Ha).
Qed.

(** A row contributes to the level [c]. *)
Definition gives_level (c : string) (kv : string * Value) : bool :=
  negb (is_null kv.2) && bool_decide (canonical_thinking_level kv.1 = Some c).

Lemma level_fold_get c m out :
  map_get c (foldl level_step out m)
  = match find_last (gives_level c) m with Some kv => Some kv.2 | None => map_get c out end.
Proof.
  revert out. induction m as [|kv m IH]; intros out; [done|]. cbn [foldl]. rewrite IH, find_last_cons.
  destruct (find_last (gives_level c) m) as [x|]; [done|].
  unfold level_step, gives_level. destruct (is_null kv.2); cbn; [done|].
  destruct (canonical_thinking_level kv.1) as [d|]; cbn; [|done].
  destruct (decide (d = c)) as [->|Hne].
  - rewrite bool_decide_true by done. apply map_get_insert_eq.
  - rewrite bool_decide_false by congruence. by apply map_get_insert_ne.
Qed.

Lemma map_get_elem k m : is_some (map_get k m) = true <-> k ∈ m.*1.
Proof.
  induction m as [|[k' v] m IH]; cbn; [split; [done|intros Hk; inversion Hk]|].
  rewrite elem_of_cons. case_bool_decide; [naive_solver|]. rewrite IH. naive_solver.
Qed.

Lemma map_of_list_keys l (ls : list string) m :
  is_some (map_get l (foldl (fun m kv => map_insert kv.1 kv.2 m) m ((fun x => (x, Str x)) <$> ls))) = true
  <-> l ∈ ls \/ is_some (map_get l m) = true.
Proof.
  revert m. induction ls as [|x ls IH]; intros m; csimpl; [split; [auto|by intros [Hl%not_elem_of_nil|]]|].
  rewrite IH, elem_of_cons. destruct (decide (x = l)) as [->|Hne].
  - rewrite map_get_insert_eq. naive_solver.
  - rewrite map_get_insert_ne by done. naive_solver.
Qed.

Lemma identity_map_keys levels l :
  l ∈ levels <-> exists m, identity_thinking_level_map levels = Some m /\ is_some (map_get l m) = true.
Proof.
  destruct levels as [|x ls]; cbn [identity_thinking_level_map].
  - split; [by intros Hl%not_elem_of_nil|naive_solver].
  - pose proof (map_of_list_keys l (x :: ls) []) as Hk. fold (map_of_list ((fun x => (x, Str x)) <$> x :: ls)) in Hk.
    split; [intros Hl; eexists; split; [done|]; tauto|].
    intros (m & Hm & Hl). injection Hm as <-. apply Hk in Hl as [Hl|Hl]; [exact Hl|done].
Qed.

Lemma registry_map_inv caps m :
  registry_thinking_level_map caps = Some m ->
  exists rows, (caps ≫= level_map_of) = Some rows /\ m = foldl level_step [] rows /\ m ≠ [].
Proof.
  unfold registry_thinking_level_map. destruct (caps ≫= level_map_of) as [rows|]; [|done].
  destruct (foldl level_step [] rows) eqn:E; intros [= <-]. eexists. rewrite E. done.
Qed.

Lemma registry_map_key_canonical caps m l :
  registry_thinking_level_map caps = Some m -> is_some (map_get l m) = true -> l ∈ THINKING_LEVEL_ORDER.
Proof.
  intros (rows & _ & -> & _)%registry_map_inv. rewrite level_fold_get.
  destruct (find_last (gives_level l) rows) as [kv|] eqn:E; [|done]. intros _.
  apply find_last_Some in E as [_ [_ Hc]%andb_prop]. apply bool_decide_eq_true in Hc.
  by eapply canonical_in_order.
Qed.

Lemma registry_levels_keys caps m l :
  registry_thinking_level_map caps = Some m ->
  l ∈ reasoning_thinking_levels caps <-> is_some (map_get l m) = true.
Proof.
  intros Hm. unfold reasoning_thinking_levels. rewrite Hm, elem_filter_bool.
  split; [tauto|]. eauto using registry_map_key_canonical.
Qed.

Lemma registry_levels_nonempty caps m :
  registry_thinking_level_map caps = Some m -> reasoning_thinking_levels caps ≠ [].
Proof.
  intros Hm Hl. pose proof (registry_map_inv _ _ Hm) as (rows & _ & _ & Hne).
  destruct m as [|[k v] m]; [done|].
  assert (k ∈ reasoning_thinking_levels caps) as Hk.
  { rewrite (registry_levels_keys _ _ _ Hm), map_get_elem. by left. }
  rewrite Hl in Hk. by apply not_elem_of_nil in Hk.
Qed.

Section CatalogClaims.
Context `{SJ : SerdeJson} {P : Type} `{!DashIter string RouteEntry}.

(** A served model advertises a thinking level exactly when its level
    map tells which value to send upstream for it: no level is listed without
    a translation and none is translated without being listed. *)
Theorem levels_match_level_map (r : Router P) registry c dto l :
  dto ∈ list_metadata r registry c ->
  l ∈ md_thinking_levels dto
  <-> exists m, md_thinking_level_map dto = Some m /\ is_some (map_get l m) = true.
Proof.
  unfold list_metadata. intros ([id pool] & -> & _)%list_elem_of_fmap.
  destruct (registry_entry registry id) as [e|]; cbn; [|apply identity_map_keys].
  destruct (registry_thinking_level_map (capabilities e)) as [m|] eqn:Hm; cbn [or_else].
  - destruct (reasoning_thinking_levels (capabilities e)) as [|x ls] eqn:Hl;
      [by destruct (registry_levels_nonempty _ _ Hm)|].
    rewrite <- Hl, (registry_levels_keys _ _ _ Hm). split; [eauto|naive_solver].
  - unfold reasoning_thinking_levels. rewrite Hm. apply identity_map_keys.
Qed.

(** The rows of a level map for one level. *)
Definition one_row (m : Map) (c : string) : Prop :=
  forall kv kv', kv ∈ m -> kv' ∈ m ->
    canonical_thinking_level kv.1 = Some c -> canonical_thinking_level kv'.1 = Some c -> kv = kv'.

Definition str_or_null (kv : string * Value) : Prop := kv.2 = Null \/ exists w, kv.2 = Str w.

Lemma find_last_None {A} (p : A -> bool) l x : find_last p l = None -> x ∈ l -> p x = false.
Proof.
  induction l as [|y l IH]; intros Hf Hx; [by apply not_elem_of_nil in Hx|].
  rewrite find_last_cons in Hf. destruct (find_last p l) as [z|]; [done|].
  apply elem_of_cons in Hx as [->|Hx]; [by destruct (p y)|auto].
Qed.

Lemma row_found m c kv :
  one_row m c ->
  List.find (fun kv => bool_decide (canonical_thinking_level kv.1 = Some c)) m = Some kv ->
  find_last (gives_level c) m = if is_null kv.2 then None else Some kv.
Proof.
  intros Hone [Hin%list_elem_of_In Hc%bool_decide_eq_true]%find_some.
  destruct (find_last (gives_level c) m) as [kv'|] eqn:E.
  - apply find_last_Some in E as [Hin' [Hn Hc'%bool_decide_eq_true]%andb_prop].
    rewrite (Hone kv kv') by done. by destruct (is_null kv'.2).
  - pose proof (find_last_None _ _ _ E Hin) as Hg. unfold gives_level in Hg.
    rewrite bool_decide_true, andb_true_r in Hg by done. by destruct (is_null kv.2).
Qed.

Lemma row_missing m c :
  List.find (fun kv => bool_decide (canonical_thinking_level kv.1 = Some c)) m = None ->
  find_last (gives_level c) m = None.
Proof.
  intros Hf. destruct (find_last (gives_level c) m) as [kv|] eqn:E; [|done].
  apply find_last_Some in E as [Hin%list_elem_of_In [_ Hc]%andb_prop].
  by rewrite (find_none _ _ Hf _ Hin) in Hc.
Qed.

Lemma levels_of_rows caps m c :
  level_map_of caps = Some m ->
  c ∈ reasoning_thinking_levels (Some caps)
  <-> c ∈ THINKING_LEVEL_ORDER /\ is_some (find_last (gives_level c) m) = true.
Proof.
  intros Hm. unfold reasoning_thinking_levels, registry_thinking_level_map. cbn [mbind option_bind]. rewrite Hm.
  pose proof (level_fold_get c m []) as Hg.
  destruct (foldl level_step [] m) as [|x out].
  - cbn in Hg. destruct (find_last (gives_level c) m); [done|]. cbn.
    split; [by intros Hc%not_elem_of_nil|naive_solver].
  - rewrite elem_filter_bool, Hg. by destruct (find_last (gives_level c) m).
Qed.

(** A client that asks for a canonical thinking level of a model with
    a level map gets it exactly when the model advertises that level: the
    request then carries the upstream's value for it and is otherwise unchanged;
    an unadvertised level is refused with a bad request.  (The map holds
    strings and nulls, and does not spell the level in two ways.) *)
Theorem advertised_level_accepted e caps m object effort c :
  capabilities e = Some caps -> level_map_of caps = Some m ->
  map_get "reasoning_effort" object = Some (Str effort) -> canonical_thinking_level effort = Some c ->
  one_row m c -> Forall str_or_null m ->
  match translate_reasoning_effort e (Object object) with
  | Ok x => c ∈ reasoning_thinking_levels (Some caps)
            /\ exists k w, (k, Str w) ∈ m /\ canonical_thinking_level k = Some c
                 /\ x = Object (map_insert "reasoning_effort" (Str w) object)
  | Err err => (c ∉ reasoning_thinking_levels (Some caps)) /\ exists msg, err = BadRequest msg
  end.
Proof.
  intros Hcaps Hm Hobj Hc Hone Hvals.
  pose proof (canonical_in_order _ _ Hc) as Hord.
  unfold translate_reasoning_effort, get_str. cbn [get mbind option_bind]. rewrite Hobj. cbn [mbind option_bind as_str].
  rewrite Hcaps. cbn [mbind option_bind]. rewrite Hm, Hc.
  pose proof (levels_of_rows _ _ c Hm) as Hlv.
  destruct (List.find _ m) as [[k v]|] eqn:E.
  - pose proof (row_found _ _ _ Hone E) as Hl.
    apply find_some in E as [Hin%list_elem_of_In Hk%bool_decide_eq_true].
    destruct (proj1 (Forall_forall _ _) Hvals (k, v) Hin) as [Hv|[w Hv]]; cbn in Hv; subst v; cbn in Hl |- *;
      rewrite Hl in Hlv; cbn in Hlv.
    + split; [naive_solver|eauto].
    + split; [by apply Hlv|]. by exists k, w.
  - pose proof (row_missing _ _ E) as Hl. rewrite Hl in Hlv. cbn in Hlv |- *. split; [naive_solver|eauto].
Qed.
End CatalogClaims.

(** ** Concrete catalogs *)

Module CatalogDemo.
Definition caps : Value :=
  obj [("metadata", obj [("thinkingLevelMap", obj [("none", Str "disabled"); ("low", Null); ("high", Str "hi")])])].
(** Both spellings of one level; the older one is null. *)
Definition caps2 : Value :=
  obj [("metadata", obj [("thinkingLevelMap", obj [("none", Null); ("off", Str "disabled")])])].
Definition serde : SerdeJson :=
  {| from_str := fun s => Some (if str_eqb s "2" then caps2 else caps); to_string := fun _ => "" |}.
Definition entry (raw : string) : ModelRegistryEntry :=
  mkRegistryEntry "grok" "Grok" "openai" None false true false 1000 100 None None (Some raw) true.
Definition asks (level : string) : Map := [("reasoning_effort", Str level); ("x", Null)].
Definition rows : Map := Eval vm_compute in unwrap_or (level_map_of caps) [].
End CatalogDemo.

Theorem advertised_level_accepted_witness :
  @translate_reasoning_effort CatalogDemo.serde (CatalogDemo.entry "1") (Object (CatalogDemo.asks "off"))
  = Ok (Object (CatalogDemo.asks "disabled"))
  /\ "off" ∈ reasoning_thinking_levels (Some CatalogDemo.caps).
Proof.
  split; [reflexivity|].
  apply (@advertised_level_accepted CatalogDemo.serde (CatalogDemo.entry "1") CatalogDemo.caps CatalogDemo.rows
           (CatalogDemo.asks "off") "off" "off"); try reflexivity.
  - intros kv kv' H1 H2. unfold CatalogDemo.rows in H1, H2. set_unfold in H1. set_unfold in H2.
    naive_solver.
  - unfold CatalogDemo.rows, str_or_null. rewrite !Forall_cons. cbn. naive_solver.
Defined.

(** Without the condition on the two spellings an advertised level is refused. *)
Example advertised_level_refused :
  "off" ∈ reasoning_thinking_levels (Some CatalogDemo.caps2)
  /\ exists msg, @translate_reasoning_effort CatalogDemo.serde (CatalogDemo.entry "2") (Object (CatalogDemo.asks "off"))
               = Err (BadRequest msg).
Proof. split; [by left|]. eexists. reflexivity. Qed.

Theorem levels_match_level_map_witness :
  let routes : gmap string RouteEntry := {["grok" := mkRouteEntry "p" (mkPool []) None None]} in
  let meta := mkMetaConfig empty_partial ∅ ∅ in
  let dto := @registry_metadata CatalogDemo.serde (CatalogDemo.entry "1") "grok" (for_model meta "grok" "p") in
  "high" ∈ md_thinking_levels dto
  <-> exists m, md_thinking_level_map dto = Some m /\ is_some (map_get "high" m) = true.
Proof.
  intros routes meta dto.
  apply (@levels_match_level_map CatalogDemo.serde unit (dash_iter_by_key string RouteEntry)
           (mkRouter routes ∅) [CatalogDemo.entry "1"] meta dto "high").
  vm_compute. by left.
Defined.
