(* ===== verification/Credential.v ===== *)
(** * Upstream credentials

    Models [src/src/credential/mod.rs] and [src/src/credential/xai.rs]: the
    cache of refreshed OAuth tokens and the xAI token client.  The token
    endpoint is a function from the form that is posted to the decoded answer;
    the clock readings of a call are its arguments, in the order the code takes
    them.  The per-identity mutex makes a call atomic for its identity. *)

From S2P Require Import Prelude Json Types Config.


Record LiveToken := mkLive { access : string; live_refresh : string; live_expires : Z }.

Record XaiOAuthEndpoints := mkEndpoints { token_url : string; device_code_url : string; client_id : string }.

(** The columns of [key_entry] that [persist] writes. *)
Record KeyRow := mkKeyRow { key_plain : string; refresh_token_col : option string; expires_at : option Z }.

Record CredentialRuntime := mkCred {
  tokens : gmap string LiveToken;
  db : option (gmap string KeyRow);
  xai : XaiOAuthEndpoints
}.

Definition cred_new (db : option (gmap string KeyRow)) (x : XaiOAuthEndpoints) : CredentialRuntime :=
  mkCred ∅ db x.

Definition set_tokens (rt : CredentialRuntime) (t : gmap string LiveToken) : CredentialRuntime :=
  mkCred t (db rt) (xai rt).

Definition token_expired (now expires_ms : Z) : bool := expires_ms <=? now.

Definition apply_live `{Digest} (entry : KeyEntry) (live : LiveToken) : KeyEntry :=
  mkKeyEntry (access live) (weight entry) (cred_type entry) (Some (live_refresh live)) (Some (live_expires live))
    (issuer entry)
    (match non_empty (identity entry) with Some _ => identity entry | None => Some (identity_hash entry) end).

(** ** The token endpoint *)

Record TokenResponse := mkTokenResponse {
  access_token : option string;
  refresh_token : option string;
  expires_in : option Z;
  tr_error : option string;
  error_description : option string
}.

(** What a post came to: no connection, or a status and a decoded body. *)
Definition FormAnswer : Type := Result (Z * Result TokenResponse string) string.
Definition Form : Type := list (string * string).

Definition REFRESH_SKEW_MS : Z := 5 * 60 * 1000.
Definition DEFAULT_TOKEN_LIFETIME_SECS : Z := 3600.
Definition DEFAULT_POLL_INTERVAL_SECS : Z := 5.
Definition SLOW_DOWN_INCREMENT_SECS : Z := 5.

Definition oauth_upstream (msg : string) : AppError := Upstream (Some 401) true true msg.

Definition format_oauth_error (action : string) (status : Z) (error description : option string) : string :=
  let detail := str_join ": " (omap id [error; description]) in
  let head := "xAI OAuth " +:+ action +:+ " failed (HTTP " +:+ string_of_Z status +:+ ")" in
  if str_is_empty detail then head else head +:+ ": " +:+ detail.

Definition oauth_denied (status : Z) (body : TokenResponse) : AppError :=
  Upstream (Some status) true true
    (format_oauth_error "token refresh" status (tr_error body) (error_description body)).

Definition credentials_from_token (now : Z) (body : TokenResponse) (previous_refresh : option string)
    : Result LiveToken AppError :=
  let? access := ok_or (non_empty (access_token body)) (oauth_upstream "xAI token response missing access_token") in
  let? refresh := match non_empty (refresh_token body) with
                  | Some r => Ok r
                  | None => ok_or (non_empty previous_refresh)
                              (oauth_upstream "xAI token response missing refresh_token")
                  end in
  let lifetime := unwrap_or (opt_filter (fun v => 0 <? v) (expires_in body)) DEFAULT_TOKEN_LIFETIME_SECS in
  Ok (mkLive access refresh (i64 (now + lifetime * 1000 - REFRESH_SKEW_MS))).

Definition refresh_form (x : XaiOAuthEndpoints) (refresh : string) : Form :=
  [("grant_type", "refresh_token"); ("client_id", client_id x); ("refresh_token", refresh)].

Definition is_success_status (s : Z) : bool := (200 <=? s) && (s <? 300).

Definition xai_refresh_token (post : string -> Form -> FormAnswer) (x : XaiOAuthEndpoints) (refresh : string) (now : Z)
    : Result LiveToken AppError :=
  match post (token_url x) (refresh_form x refresh) with
  | Err e => Err (oauth_upstream ("xAI token refresh request failed: " +:+ e))
  | Ok (status, Err e) => Err (oauth_upstream ("xAI token refresh returned invalid JSON: " +:+ e))
  | Ok (status, Ok body) =>
      if negb (is_success_status status) then Err (oauth_denied status body)
      else credentials_from_token now body (Some refresh)
  end.

(** ** The token cache *)

(** [UPDATE key_entry SET .. WHERE key_hash = ?4]; a failed write is logged. *)
Definition persist (rt : CredentialRuntime) (identity_hash : string) (live : LiveToken) (write_ok : bool)
    : CredentialRuntime :=
  match db rt with
  | None => rt
  | Some rows =>
      if write_ok
      then mkCred (tokens rt)
             (Some (alter (fun _ => mkKeyRow (access live) (Some (live_refresh live)) (Some (live_expires live)))
                      identity_hash rows)) (xai rt)
      else rt
  end.

Section EnsureFresh.
Context `{Digest}.
Variable post : string -> Form -> FormAnswer.

(** The part of [ensure_fresh] from the refresh token on. *)
Definition refresh_now (rt : CredentialRuntime) (entry : KeyEntry) (now : Z) (write_ok : bool)
    : CredentialRuntime * Result KeyEntry AppError :=
  match non_empty (refresh entry) with
  | None => (rt, Err (oauth_upstream "oauth credential is missing a refresh token"))
  | Some refresh =>
      let issuer := unwrap_or (issuer entry) "" in
      if str_eqb issuer "xai" then
        match xai_refresh_token post (xai rt) refresh now with
        | Err e => (rt, Err e)
        | Ok live =>
            let rt := set_tokens rt (<[identity_hash entry := live]> (tokens rt)) in
            (persist rt (identity_hash entry) live write_ok, Ok (apply_live entry live))
        end
      else (rt, Err (ConfigError ("unsupported oauth issuer '" +:+ issuer +:+ "'")))
  end.

(** The clock is read for the cached token, for the entry and for the answer. *)
Definition ensure_fresh (rt : CredentialRuntime) (entry : KeyEntry) (now1 now2 now3 : Z) (write_ok : bool)
    : CredentialRuntime * Result KeyEntry AppError :=
  if negb (is_oauth entry) then (rt, Ok entry)
  else
    let identity := identity_hash entry in
    let cached := opt_filter (fun live => negb (token_expired now1 (live_expires live))) (tokens rt !! identity) in
    match cached with
    | Some live => (rt, Ok (apply_live entry live))
    | None =>
        match opt_filter (fun e => negb (token_expired now2 e)) (expires entry) with
        | Some e =>
            (match refresh entry with
             | Some r => set_tokens rt (<[identity := mkLive (key entry) r e]> (tokens rt))
             | None => rt
             end, Ok entry)
        | None => refresh_now rt entry now3 write_ok
        end
    end.
End EnsureFresh.

(** ** The device flow *)

Record DeviceCode := mkDevice {
  device_code : string; user_code : string; verification_uri : string;
  verification_uri_complete : option string; interval_seconds : Z; expires_in_seconds : Z
}.

Record DeviceCodeResponse := mkDeviceResponse {
  dr_device_code : option string; dr_user_code : option string; dr_verification_uri : option string;
  dr_verification_uri_complete : option string; dr_interval : option Z; dr_expires_in : option Z;
  dr_error : option string; dr_error_description : option string
}.

Definition required_string (value : option string) (field : string) : Result string AppError :=
  ok_or (non_empty value) (Internal ("xAI OAuth response missing " +:+ field)).

Definition required_https (raw : option string) (field : string) : Result string AppError :=
  let? raw := required_string raw field in
  if starts_with raw "https://" then Ok raw
  else Err (Internal ("untrusted " +:+ field +:+ " in xAI OAuth response")).

Definition device_code_of (answer : Result (Z * Result DeviceCodeResponse string) string) : Result DeviceCode AppError :=
  match answer with
  | Err e => Err (Internal ("xAI device authorization request failed: " +:+ e))
  | Ok (_, Err e) => Err (Internal ("xAI device authorization invalid JSON: " +:+ e))
  | Ok (status, Ok body) =>
      if negb (is_success_status status) then
        Err (Internal (format_oauth_error "device authorization" status (dr_error body) (dr_error_description body)))
      else
        let? uri := required_https (dr_verification_uri body) "verification_uri" in
        let? complete := match non_empty (dr_verification_uri_complete body) with
                         | Some raw => let? u := required_https (Some raw) "verification_uri_complete" in Ok (Some u)
                         | None => Ok None
                         end in
        let? dc := required_string (dr_device_code body) "device_code" in
        let? uc := required_string (dr_user_code body) "user_code" in
        let? life := ok_or (opt_filter (fun v => 0 <? v) (dr_expires_in body))
                       (Internal "xAI device authorization missing expires_in") in
        Ok (mkDevice dc uc uri complete
              (unwrap_or (opt_filter (fun v => 0 <? v) (dr_interval body)) DEFAULT_POLL_INTERVAL_SECS) life)
  end.

(** One turn of the polling loop: the clock before the post, the answer, the
    clock when it is turned into a token, the clock before the pause. *)
Record PollRound := mkRound { at_top : Z; answer : FormAnswer; at_answer : Z; at_pause : Z }.

(** What a turn decides: an outcome, or the interval to go on with. *)
Definition poll_turn (deadline interval_ms : Z) (r : PollRound) : Result Z (Result LiveToken AppError) :=
  if deadline <=? at_top r then Err (Err (Internal "xAI device flow timed out"))
  else match answer r with
  | Err e => Err (Err (Internal ("xAI device token poll failed: " +:+ e)))
  | Ok (_, Err e) => Err (Err (Internal ("xAI device token poll invalid JSON: " +:+ e)))
  | Ok (status, Ok body) =>
      if is_success_status status then Err (credentials_from_token (at_answer r) body None)
      else
        match tr_error body with
        | Some e =>
            if str_eqb e "authorization_pending" then Ok interval_ms
            else if str_eqb e "slow_down" then Ok (interval_ms + SLOW_DOWN_INCREMENT_SECS * 1000)
            else if str_eqb e "access_denied" || str_eqb e "authorization_denied" then
              Err (Err (Auth "xAI device authorization was denied"))
            else if str_eqb e "expired_token" then Err (Err (Internal "xAI device code expired"))
            else Err (Err (Internal (format_oauth_error "device token polling" status (tr_error body)
                                       (error_description body))))
        | None => Err (Err (Internal (format_oauth_error "device token polling" status None
                                        (error_description body))))
        end
  end.

(** The pause: [remaining as u128] of a negative number is huge. *)
Definition pause_ms (deadline interval_ms : Z) (r : PollRound) : Z :=
  wrap 64 (Z.min interval_ms (wrap 128 (deadline - at_pause r))).

Fixpoint poll_loop (deadline interval_ms : Z) (rounds : list PollRound) : option (Result LiveToken AppError) :=
  match rounds with
  | [] => None
  | r :: rounds' =>
      match poll_turn deadline interval_ms r with
      | Err outcome => Some outcome
      | Ok interval =>
          if deadline - at_pause r =? 0 then Some (Err (Internal "xAI device flow timed out"))
          else poll_loop deadline interval rounds'
      end
  end.

Definition poll_for_tokens (start : Z) (device : DeviceCode) (rounds : list PollRound)
    : option (Result LiveToken AppError) :=
  poll_loop (i64 (start + expires_in_seconds device * 1000)) (Z.max (interval_seconds device) 1 * 1000) rounds.

(** [login]: the prompt shown and the key entry made of the tokens. *)
Definition login (start : Z) (answer : Result (Z * Result DeviceCodeResponse string) string) (rounds : list PollRound)
    : option (Result KeyEntry AppError) :=
  match device_code_of answer with
  | Err e => Some (Err e)
  | Ok device =>
      match poll_for_tokens start device rounds with
      | None => None
      | Some (Err e) => Some (Err e)
      | Some (Ok live) => Some (Ok (oauth (access live) (live_refresh live) "xai" 1 (Some (live_expires live))))
      end
  end.

(** ** Keys keep their identity *)

Lemma opt_filter_Some {A} (p : A -> bool) o x : opt_filter p o = Some x <-> o = Some x /\ p x = true.
Proof.
  destruct o as [y|]; cbn; [|by split; [|intros []]]. destruct (p y) eqn:E; split.
  - by intros [= <-].
  - by intros [? _].
  - done.
  - intros [Hy Hp]. injection Hy as ->. by rewrite Hp in E.
Qed.


Lemma hex_nonempty s : s ≠ "" -> hex_encode s ≠ "".
Proof. by destruct s. Qed.

Section Identity.
Context `{Digest}.
(** SHA-256 digests have 32 bytes. *)
Hypothesis sha256_length : forall s, String.length (sha256 s) = 32%nat.

Lemma key_hash_nonempty k : compute_key_hash k ≠ "".
Proof.
  unfold compute_key_hash. apply hex_nonempty. intros He.
  pose proof (length_take_str 6 (sha256 k)) as Hl. rewrite He, sha256_length in Hl. done.
Qed.

Lemma non_empty_Some o s : non_empty o = Some s -> o = Some s /\ s ≠ "".
Proof. unfold non_empty, opt_filter. destruct o as [x|]; [|done]. destruct x; cbn; naive_solver. Qed.

Lemma non_empty_ne s : s ≠ "" -> non_empty (Some s) = Some s.
Proof. by destruct s. Qed.

Lemma identity_hash_nonempty e : identity_hash e ≠ "".
Proof.
  unfold identity_hash. destruct (non_empty (identity e)) as [s|] eqn:E; [|apply key_hash_nonempty].
  by apply non_empty_Some in E as [_ ?].
Qed.

Lemma apply_live_identity e live : identity_hash (apply_live e live) = identity_hash e.
Proof.
  unfold identity_hash at 1, apply_live. cbn [identity].
  destruct (non_empty (identity e)) as [s|] eqn:E.
  - rewrite E. unfold identity_hash. by rewrite E.
  - by rewrite non_empty_ne by apply identity_hash_nonempty.
Qed.

Lemma persist_tokens rt h live ok : tokens (persist rt h live ok) = tokens rt.
Proof. unfold persist. by destruct (db rt), ok. Qed.

Lemma refresh_now_Ok post rt e now ok rt' k :
  refresh_now post rt e now ok = (rt', Ok k) ->
  exists live, k = apply_live e live /\ tokens rt' = <[identity_hash e := live]> (tokens rt).
Proof.
  unfold refresh_now. destruct (non_empty (refresh e)); [|done]. destruct (str_eqb _ _); [|done].
  destruct (xai_refresh_token _ _ _ _) as [live|]; [|done]. intros [= <- <-].
  exists live. by rewrite persist_tokens.
Qed.

(** The key a call returns is the entry or the entry with a live token, and
    only the token of the entry's identity changes. *)
Lemma ensure_fresh_Ok post rt e now1 now2 now3 ok rt' k :
  ensure_fresh post rt e now1 now2 now3 ok = (rt', Ok k) ->
  (k = e \/ exists live, k = apply_live e live)
  /\ forall h, h ≠ identity_hash e -> tokens rt' !! h = tokens rt !! h.
Proof.
  unfold ensure_fresh. destruct (negb (is_oauth e)); [intros [= <- <-]; auto|].
  destruct (opt_filter _ (tokens rt !! _)) as [live|]; [intros [= <- <-]; eauto|].
  destruct (opt_filter _ (expires e)) as [x|].
  { intros [= <- <-]. split; [auto|]. intros h Hh. destruct (refresh e); [|done]. cbn. by rewrite lookup_insert_ne. }
  intros (live & -> & ->)%refresh_now_Ok. split; [eauto|]. intros h Hh. by rewrite lookup_insert_ne.
Qed.

Lemma fresh_key_identity post rt e now1 now2 now3 ok rt' k :
  ensure_fresh post rt e now1 now2 now3 ok = (rt', Ok k) -> identity_hash k = identity_hash e.
Proof. intros [[->|[live ->]] _]%ensure_fresh_Ok; [done|apply apply_live_identity]. Qed.

(** Whatever happens to the token, the key an attempt uses keeps the
    identity of the configured key (so circuit breaker, bad-key registry and
    logs keep talking about the same key), its weight, kind and issuer; and no
    other key's cached token is touched. *)
Theorem fresh_key_keeps_identity post rt e now1 now2 now3 ok rt' k :
  ensure_fresh post rt e now1 now2 now3 ok = (rt', Ok k) ->
  identity_hash k = identity_hash e /\ weight k = weight e /\ cred_type k = cred_type e /\ issuer k = issuer e
  /\ forall h, h ≠ identity_hash e -> tokens rt' !! h = tokens rt !! h.
Proof.
  intros He. split; [by eapply fresh_key_identity|].
  apply ensure_fresh_Ok in He as [[->|[live ->]] Ht]; auto.
Qed.

(** The token a call returned is used until it expires: every later
    call at a time before its expiry returns the same access token, whatever
    the token endpoint would answer, and changes nothing. *)
Theorem token_reused_until_expiry post post' rt e now1 now2 now3 ok rt' k x now1' now2' now3' ok' :
  ensure_fresh post rt e now1 now2 now3 ok = (rt', Ok k) ->
  is_oauth e = true -> expires k = Some x ->
  now1 <= now1' -> now1' < x -> now2' < x ->
  exists k', ensure_fresh post' rt' e now1' now2' now3' ok' = (rt', Ok k') /\ key k' = key k.
Proof.
  intros He Ho Hx Hmono H1 H2.
  assert (Hhit : forall live, tokens rt' !! identity_hash e = Some live -> live_expires live = x ->
            access live = key k ->
            exists k', ensure_fresh post' rt' e now1' now2' now3' ok' = (rt', Ok k') /\ key k' = key k).
  { intros live Hl Hle Ha. unfold ensure_fresh. rewrite Ho, Hl. cbn. unfold token_expired.
    rewrite Hle, (proj2 (Z.leb_gt _ _) H1). cbn. by eexists. }
  unfold ensure_fresh in He. rewrite Ho in He. cbn [negb] in He.
  destruct (opt_filter _ (tokens rt !! _)) as [live|] eqn:El.
  { injection He as <- <-. cbn in Hx. simplify_eq. apply opt_filter_Some in El as [El _]. by eapply Hhit. }
  destruct (opt_filter _ (expires e)) as [y|] eqn:Ey.
  - injection He as <- <-. apply opt_filter_Some in Ey as [Ey _]. rewrite Ey in Hx. injection Hx as ->.
    destruct (refresh e) as [r|] eqn:Er.
    + eapply Hhit; [cbn; by rewrite lookup_insert_eq|done|done].
    + exists e. split; [|done]. unfold ensure_fresh. rewrite Ho. cbn [negb].
      replace (opt_filter _ (tokens rt !! _)) with (@None LiveToken).
      * rewrite Ey. cbn. unfold token_expired. rewrite (proj2 (Z.leb_gt _ _) H2). cbn. by rewrite Er.
      * symmetry. destruct (tokens rt !! identity_hash e) as [l|]; [|done]. cbn in El |- *.
        unfold token_expired in *. destruct (live_expires l <=? now1) eqn:E; [|done].
        apply Z.leb_le in E. rewrite (proj2 (Z.leb_le _ _)) by lia. done.
  - apply refresh_now_Ok in He as (live & -> & Ht). cbn in Hx. simplify_eq.
    eapply Hhit; [by rewrite Ht, lookup_insert_eq|done|done].
Qed.
End Identity.

(** ** The device flow ends *)

(** The clock never runs backwards and each pause is slept out. *)
Fixpoint paced (deadline interval_ms now : Z) (rounds : list PollRound) : Prop :=
  match rounds with
  | [] => True
  | r :: rounds' =>
      now <= at_top r /\ at_top r <= at_pause r
      /\ match poll_turn deadline interval_ms r with
         | Ok i => paced deadline i (at_pause r + pause_ms deadline i r) rounds'
         | Err _ => True
         end
  end.

Lemma poll_turn_Ok deadline i r i' :
  poll_turn deadline i r = Ok i' -> at_top r < deadline /\ i <= i'.
Proof.
  unfold poll_turn. destruct (deadline <=? at_top r) eqn:E; [done|]. apply Z.leb_gt in E.
  intros Ht. split; [done|]. unfold SLOW_DOWN_INCREMENT_SECS in Ht.
  repeat (case_match; try done); simplify_eq; lia.
Qed.

Lemma pause_enough deadline i r n :
  1000 <= i -> deadline - at_pause r <= 1000 * (n + 1) -> 1000 * (n + 1) < 2 ^ 64 -> 0 <= n ->
  deadline - (at_pause r + pause_ms deadline i r) <= 1000 * n.
Proof.
  intros Hi Hr Hn Hn0. unfold pause_ms.
  destruct (Z.le_gt_cases (deadline - at_pause r) 0) as [Hneg|Hpos].
  - pose proof (wrap_range 64 (Z.min i (wrap 128 (deadline - at_pause r)))). lia.
  - rewrite (wrap_small 128) by lia. rewrite wrap_small by lia. lia.
Qed.

Lemma poll_loop_ends rounds deadline i now n :
  1000 <= i -> deadline - now <= 1000 * Z.of_nat n -> 1000 * Z.of_nat n < 2 ^ 64 ->
  paced deadline i now rounds -> (n < length rounds)%nat ->
  is_Some (poll_loop deadline i rounds).
Proof.
  revert i now n. induction rounds as [|r rounds IH]; intros i now n Hi Hd Hn Hp Hl; [cbn in Hl; lia|].
  cbn [poll_loop paced length] in *. destruct Hp as (Htop & Hpause & Hrest).
  destruct (poll_turn deadline i r) as [i'|o] eqn:Et; [|eauto].
  apply poll_turn_Ok in Et as [Hlt Hi'].
  destruct (_ =? 0); [eauto|]. destruct n as [|n]; [lia|].
  eapply (IH i' _ n); [lia| |lia|exact Hrest|lia].
  apply pause_enough; lia.
Qed.

(** The device-code login never polls forever: once the device code's
    lifetime of [n] seconds has been used up in polls at least a second apart
    (that is after at most [n + 1] polls) the flow has ended with a token or an
    error, however often the server answers "pending" or "slow down". *)
Theorem device_flow_ends start device rounds :
  0 <= start -> 0 <= expires_in_seconds device -> start + expires_in_seconds device * 1000 < 2 ^ 63 ->
  paced (start + expires_in_seconds device * 1000) (Z.max (interval_seconds device) 1 * 1000)
    (start + Z.max (interval_seconds device) 1 * 1000) rounds ->
  expires_in_seconds device + 1 <= Z.of_nat (length rounds) ->
  is_Some (poll_for_tokens start device rounds).
Proof.
  intros Hs He Hb Hp Hl. unfold poll_for_tokens. rewrite i64_small by lia.
  apply (poll_loop_ends _ _ _ _ (Z.to_nat (expires_in_seconds device))) in Hp; [done|lia..].
Qed.

(** ** Concrete runs *)

Module CredentialDemo.
Definition digest : Digest := {| sha256 := fun _ => "0123456789abcdef0123456789abcdef" |}.
Lemma digest_length : forall s, String.length (@sha256 digest s) = 32%nat.
Proof. done. Qed.
Definition entry : KeyEntry := mkKeyEntry "a0" 1 Oauth (Some "r0") None (Some "xai") None.
Definition rt : CredentialRuntime := cred_new None (mkEndpoints "t" "d" "c").
(** A server that rotates: each refresh token works once and gives the next. *)
Definition post (spent : list string) : string -> Form -> FormAnswer := fun _ form =>
  match List.find (fun kv => str_eqb kv.1 "refresh_token") form with
  | Some (_, r) =>
      if existsb (str_eqb r) spent
      then Ok (400, Ok (mkTokenResponse None None None (Some "invalid_grant") None))
      else Ok (200, Ok (mkTokenResponse (Some ("a+" +:+ r)) (Some (r +:+ "'")) (Some 3600) None None))
  | None => Err "no form"
  end.
Definition pending (t : Z) : PollRound :=
  mkRound t (Ok (400, Ok (mkTokenResponse None None None (Some "authorization_pending") None))) t t.
Definition device : DeviceCode := mkDevice "dc" "uc" "https://x" None 5 12.
End CredentialDemo.

Theorem fresh_key_keeps_identity_witness :
  let '(rt', k) := @ensure_fresh CredentialDemo.digest (CredentialDemo.post []) CredentialDemo.rt CredentialDemo.entry 0 0 0 true in
  exists k0, k = Ok k0 /\ key k0 = "a+r0" /\ @identity_hash CredentialDemo.digest k0 = @identity_hash CredentialDemo.digest CredentialDemo.entry.
Proof.
  vm_compute (ensure_fresh _ _ _ _ _ _ _). eexists. split; [reflexivity|]. split; [reflexivity|].
  eapply (@fresh_key_keeps_identity CredentialDemo.digest CredentialDemo.digest_length (CredentialDemo.post [])
            CredentialDemo.rt CredentialDemo.entry 0 0 0 true). vm_compute. reflexivity.
Defined.

Theorem token_reused_until_expiry_witness :
  let rt' := (@ensure_fresh CredentialDemo.digest (CredentialDemo.post []) CredentialDemo.rt CredentialDemo.entry 0 0 0 true).1 in
  exists k', @ensure_fresh CredentialDemo.digest (fun _ _ => Err "down") rt' CredentialDemo.entry 3299999 3299999 0 true = (rt', Ok k')
             /\ key k' = "a+r0".
Proof.
  eapply (@token_reused_until_expiry CredentialDemo.digest (CredentialDemo.post []) (fun _ _ => Err "down")
            CredentialDemo.rt CredentialDemo.entry 0 0 0 true _
            (mkKeyEntry "a+r0" 1 Oauth (Some "r0'") (Some 3300000) (Some "xai")
               (Some (@identity_hash CredentialDemo.digest CredentialDemo.entry))) 3300000);
    (vm_compute; reflexivity) || lia.
Defined.

Theorem device_flow_ends_witness :
  is_Some (poll_for_tokens 0 CredentialDemo.device (CredentialDemo.pending <$> [5000; 10000; 12000; 13000; 14000; 15000; 16000;
    17000; 18000; 19000; 20000; 21000; 22000])).
Proof. apply device_flow_ends; (vm_compute; repeat split; congruence) || (cbn; lia). Defined.

(** After the first rotation the cached token holds the new refresh token, but
    the next refresh presents the configured one again, which is spent. *)
Example second_refresh_presents_old_token :
  let rt1 := (@ensure_fresh CredentialDemo.digest (CredentialDemo.post []) CredentialDemo.rt CredentialDemo.entry 0 0 0 true).1 in
  live_refresh <$> tokens rt1 !! @identity_hash CredentialDemo.digest CredentialDemo.entry = Some "r0'"
  /\ (@ensure_fresh CredentialDemo.digest (CredentialDemo.post ["r0"]) rt1 CredentialDemo.entry 3300000 3300000 0 true).2
     = Err (Upstream (Some 400) true true "xAI OAuth token refresh failed (HTTP 400): invalid_grant").
Proof. split; vm_compute; reflexivity. Qed.
