(* ===== verification/Auth.v ===== *)
(** * Client keys and access

    Models [src/src/auth_store.rs] (the store of client keys: add, update,
    rotate, remove, list, validate), [src/src/auth/mod.rs] ([require_auth]) and
    [ip_guard] of [src/src/server/middleware.rs].  The store is a [DashMap] from the
    raw key; records are found by hash by scanning it. *)

From stdpp Require Import sorting.
From S2P Require Import Prelude Json Types Config.

(** ** Headers *)

Definition header_map : Type := list (string * string).

(** [to_str]: visible ASCII and tab. *)
Fixpoint header_to_str (s : string) : option string :=
  match s with
  | EmptyString => Some EmptyString
  | String c s' =>
      if in_bytes 32 126 c || Ascii.eqb c (chr 9) then (fun t => String c t) <$> header_to_str s' else None
  end.

Definition header_get (h : header_map) (name : string) : option string :=
  snd <$> List.find (fun kv => str_eqb kv.1 name) h.

(** ** Records *)

Record ClientKeyEntry := mkClientKey { cke_key : string; cke_tenant_id : string }.

Record ClientKeyRecord := mkRecord {
  ck_key : string; ck_tenant_id : string; ck_key_hash : string; ck_created_at : Z; ck_enabled : bool; ck_label : string
}.

#[global] Instance ClientKeyRecord_eq_dec : EqDecision ClientKeyRecord.
Proof. solve_decision. Defined.

Definition record_of_entry `{Digest} (now : Z) (e : ClientKeyEntry) : ClientKeyRecord :=
  mkRecord (cke_key e) (cke_tenant_id e) (compute_key_hash (cke_key e)) now true "".

Record ClientKeyPublicRecord := mkPublic {
  pub_tenant_id : string; pub_key_hash : string; pub_created_at : Z; pub_enabled : bool; pub_label : string
}.

Definition public_of_record (r : ClientKeyRecord) : ClientKeyPublicRecord :=
  mkPublic (ck_tenant_id r) (ck_key_hash r) (ck_created_at r) (ck_enabled r) (ck_label r).

Record CreateKeyRequest := mkCreate { cr_key : string; cr_tenant_id : string; cr_label : string }.
Record UpdateKeyRequest := mkUpdate { up_enabled : option bool; up_label : option string; up_tenant_id : option string }.
Record RotateKeyRequest := mkRotate { new_key : string }.

(** The order of the listing: newest first. *)
Definition newer_first (a b : ClientKeyRecord) : Prop := ck_created_at b <= ck_created_at a.

#[global] Instance newer_first_dec a b : Decision (newer_first a b) := Z_le_dec _ _.

(** ** The store *)

Record AuthStore := mkStore { client_keys : gmap string ClientKeyRecord }.

Definition set_keys (s : AuthStore) (m : gmap string ClientKeyRecord) : AuthStore := mkStore m.

Definition key_not_found (h : string) : AppError := NotFound ("key '" +:+ h +:+ "' not found").

Section AuthStore.
Context `{Digest} `{!DashIter string ClientKeyRecord}.

Definition store_new (now : Z) (initial : list ClientKeyEntry) : AuthStore :=
  mkStore (foldl (fun m e => <[cke_key e := record_of_entry now e]> m) ∅ initial).

Definition validate (s : AuthStore) (raw_key : string) : option ClientKeyEntry :=
  match client_keys s !! raw_key with
  | Some r => if ck_enabled r then Some (mkClientKey (ck_key r) (ck_tenant_id r)) else None
  | None => None
  end.

Definition add (s : AuthStore) (now : Z) (req : CreateKeyRequest) : AuthStore * Result ClientKeyRecord AppError :=
  if str_is_empty (cr_key req) then (s, Err (BadRequest "key must not be empty"))
  else if is_some (client_keys s !! cr_key req) then (s, Err (BadRequest "key already exists"))
  else
    let r := record_of_entry now (mkClientKey (cr_key req) (cr_tenant_id req)) in
    let r := mkRecord (ck_key r) (ck_tenant_id r) (ck_key_hash r) (ck_created_at r) (ck_enabled r) (cr_label req) in
    (set_keys s (<[cr_key req := r]> (client_keys s)), Ok r).

(** [keys.iter().find(|e| e.value().key_hash == key_hash).map(|e| e.key())] *)
Definition find_by_hash (s : AuthStore) (key_hash : string) : option string :=
  fst <$> List.find (fun kr => str_eqb (ck_key_hash kr.2) key_hash) (dash_iter (client_keys s)).

Definition updated (req : UpdateKeyRequest) (r : ClientKeyRecord) : ClientKeyRecord :=
  mkRecord (ck_key r) (unwrap_or (non_empty (up_tenant_id req)) (ck_tenant_id r)) (ck_key_hash r) (ck_created_at r)
    (unwrap_or (up_enabled req) (ck_enabled r)) (unwrap_or (up_label req) (ck_label r)).

Definition update (s : AuthStore) (key_hash : string) (req : UpdateKeyRequest)
    : AuthStore * Result ClientKeyRecord AppError :=
  match find_by_hash s key_hash with
  | None => (s, Err (key_not_found key_hash))
  | Some raw_key =>
      match client_keys s !! raw_key with
      | None => (s, Err (key_not_found key_hash))
      | Some r => (set_keys s (<[raw_key := updated req r]> (client_keys s)), Ok (updated req r))
      end
  end.

Definition rotated (now : Z) (req : RotateKeyRequest) (r : ClientKeyRecord) : ClientKeyRecord :=
  mkRecord (new_key req) (ck_tenant_id r) (compute_key_hash (new_key req)) now (ck_enabled r) (ck_label r).

Definition rotate (s : AuthStore) (now : Z) (key_hash : string) (req : RotateKeyRequest)
    : AuthStore * Result ClientKeyRecord AppError :=
  match find_by_hash s key_hash with
  | None => (s, Err (key_not_found key_hash))
  | Some old_key =>
      if is_some (client_keys s !! new_key req) then (s, Err (BadRequest "new key already exists in the store"))
      else match client_keys s !! old_key with
           | None => (s, Err (key_not_found key_hash))
           | Some r =>
               let r := rotated now req r in
               (set_keys s (<[new_key req := r]> (delete old_key (client_keys s))), Ok r)
           end
  end.

Definition remove (s : AuthStore) (key_hash : string) : AuthStore * Result ClientKeyRecord AppError :=
  match find_by_hash s key_hash with
  | None => (s, Err (key_not_found key_hash))
  | Some k =>
      match client_keys s !! k with
      | None => (s, Err (key_not_found key_hash))
      | Some r => (set_keys s (delete k (client_keys s)), Ok r)
      end
  end.

(** Newest first; [sort_by_key] is stable. *)
Definition list_keys (s : AuthStore) : list ClientKeyRecord :=
  merge_sort newer_first (snd <$> dash_iter (client_keys s)).

Definition get_by_hash (s : AuthStore) (key_hash : string) : option ClientKeyRecord :=
  snd <$> List.find (fun kr => str_eqb (ck_key_hash kr.2) key_hash) (dash_iter (client_keys s)).

Definition store_len (s : AuthStore) : nat := size (client_keys s).
Definition store_is_empty (s : AuthStore) : bool := (store_len s =? 0)%nat.

(** ** The middleware *)

Record AuthedClient := mkAuthed { ac_key_hash : string; ac_tenant_id : string }.

Record AuthState := mkAuthState { entries : list ClientKeyEntry; auth_store : option AuthStore }.

Definition bearer (h : header_map) : option string :=
  (header_get h "authorization" ≫= header_to_str) ≫= strip_prefix "Bearer ".

Definition invalid_key : AppError := Auth "Invalid or missing API key".

Definition require_auth (st : AuthState) (h : header_map) : Result AuthedClient AppError :=
  let entry := match bearer h with
               | Some k => match auth_store st with
                           | Some store => validate store k
                           | None => List.find (fun e => str_eqb (cke_key e) k) (entries st)
                           end
               | None => None
               end in
  match entry with
  | Some e => Ok (mkAuthed (compute_key_hash (unwrap_or (bearer h) "")) (cke_tenant_id e))
  | None => Err invalid_key
  end.

Definition auth_store_middleware (s : AuthStore) (h : header_map) : Result AuthedClient AppError :=
  match bearer h with
  | Some k => match validate s k with
              | Some e => Ok (mkAuthed (compute_key_hash k) (cke_tenant_id e))
              | None => Err invalid_key
              end
  | None => Err invalid_key
  end.
End AuthStore.

(** [ip_guard]: whether the request goes on to the admin routes (otherwise 404). *)
Definition ip_guard (allowed_ips : list string) (h : header_map) : bool :=
  unwrap_or ((fun ip => existsb (fun a => str_eqb a ip) allowed_ips)
    <$> (or_else (header_get h "x-real-ip") (header_get h "x-forwarded-for") ≫= header_to_str)) true.

(* ------------------------------------------------------------------ *)
(** ** The store as a map of records

    Every record is stored under its key and carries that key's hash. *)

#[local] Arguments compute_key_hash : simpl never.

Section AuthSpec.
Context `{DG : Digest} `{DI : !DashIter string ClientKeyRecord}.

Definition store_wf (s : AuthStore) : Prop :=
  map_Forall (fun k r => ck_key r = k /\ ck_key_hash r = compute_key_hash k) (client_keys s).

Inductive AuthOp : Type :=
| OpAdd (now : Z) (req : CreateKeyRequest)
| OpUpdate (key_hash : string) (req : UpdateKeyRequest)
| OpRotate (now : Z) (key_hash : string) (req : RotateKeyRequest)
| OpRemove (key_hash : string).

Definition auth_op (s : AuthStore) (o : AuthOp) : AuthStore * Result ClientKeyRecord AppError :=
  match o with
  | OpAdd now req => add s now req
  | OpUpdate h req => update s h req
  | OpRotate now h req => rotate s now h req
  | OpRemove h => remove s h
  end.

(** What an operation means, field by field and without the functions of the code: it
    names a record [r] to be found under a key, and says what is found under every
    key afterwards. *)
Definition holds_hash (m : gmap string ClientKeyRecord) (h k : string) (r : ClientKeyRecord) : Prop :=
  m !! k = Some r /\ compute_key_hash k = h.

(** What a field holds after an update: what was asked for, or what it held. *)
Definition asked {X} (wanted : option X) (old new : X) : Prop :=
  match wanted with Some x => new = x | None => new = old end.

Definition op_means (m : gmap string ClientKeyRecord) (o : AuthOp) (m' : gmap string ClientKeyRecord)
    (res : Result ClientKeyRecord AppError) : Prop :=
  match o with
  | OpAdd now req =>
      (cr_key req = "" \/ is_Some (m !! cr_key req)) /\ m' = m /\ (exists e, res = Err (BadRequest e))
      \/ cr_key req ≠ "" /\ m !! cr_key req = None
         /\ exists r, res = Ok r /\ m' = <[cr_key req := r]> m
            /\ r = mkRecord (cr_key req) (cr_tenant_id req) (compute_key_hash (cr_key req)) now true (cr_label req)
  | OpUpdate h req =>
      (forall k r, ~ holds_hash m h k r) /\ m' = m /\ res = Err (key_not_found h)
      \/ exists k r r', holds_hash m h k r /\ m' = <[k := r']> m /\ res = Ok r'
           /\ ck_key r' = k /\ ck_key_hash r' = h /\ ck_created_at r' = ck_created_at r
           /\ asked (up_enabled req) (ck_enabled r) (ck_enabled r')
           /\ asked (up_label req) (ck_label r) (ck_label r')
           /\ (up_tenant_id req = Some "" /\ ck_tenant_id r' = ck_tenant_id r
               \/ up_tenant_id req ≠ Some "" /\ asked (up_tenant_id req) (ck_tenant_id r) (ck_tenant_id r'))
  | OpRotate now h req =>
      (forall k r, ~ holds_hash m h k r) /\ m' = m /\ res = Err (key_not_found h)
      \/ (exists k r, holds_hash m h k r) /\ is_Some (m !! new_key req) /\ m' = m /\ (exists e, res = Err (BadRequest e))
      \/ exists k r r', holds_hash m h k r /\ m !! new_key req = None
           /\ m' = <[new_key req := r']> (delete k m) /\ res = Ok r'
           /\ r' = mkRecord (new_key req) (ck_tenant_id r) (compute_key_hash (new_key req)) now (ck_enabled r) (ck_label r)
  | OpRemove h =>
      (forall k r, ~ holds_hash m h k r) /\ m' = m /\ res = Err (key_not_found h)
      \/ exists k r, holds_hash m h k r /\ m' = delete k m /\ res = Ok r
  end.

Lemma find_by_hash_cases s h :
  store_wf s ->
  match find_by_hash s h with
  | Some k => exists r, holds_hash (client_keys s) h k r
  | None => forall k r, ~ holds_hash (client_keys s) h k r
  end.
Proof.
  intros Hwf. unfold find_by_hash, holds_hash. destruct (List.find _ _) as [[k r]|] eqn:E; cbn.
  - apply find_some in E as [Hin%list_elem_of_In Hh%str_eqb_spec]. apply dash_iter_elem in Hin.
    exists r. split; [done|]. destruct (Hwf _ _ Hin) as [_ Hr]. cbn in Hh. congruence.
  - intros k r [Hk Hh]. pose proof (find_none _ _ E (k, r)) as Hn. cbn in Hn.
    destruct (Hwf _ _ Hk) as [_ Hr]. rewrite Hr, Hh, str_eqb_refl in Hn.
    assert (true = false) as Hbad by (apply Hn; apply list_elem_of_In; by apply dash_iter_elem). done.
Qed.

Lemma store_new_wf now initial : store_wf (store_new now initial).
Proof.
  unfold store_new, store_wf. cbn.
  assert (Hg : forall (m : gmap string ClientKeyRecord), map_Forall (fun k r => ck_key r = k /\ ck_key_hash r = compute_key_hash k) m ->
    map_Forall (fun k r => ck_key r = k /\ ck_key_hash r = compute_key_hash k)
      (foldl (fun m e => <[cke_key e := record_of_entry now e]> m) m initial)).
  { induction initial as [|e l IH]; intros m Hm; [done|]. cbn. apply IH. by apply map_Forall_insert_2. }
  apply Hg, map_Forall_empty.
Qed.

Lemma op_means_wf m o m' res :
  store_wf (mkStore m) -> op_means m o m' res -> store_wf (mkStore m').
Proof.
  unfold store_wf. cbn. intros Hm Ho. destruct o as [now req|h req|now h req|h]; cbn in Ho.
  - destruct Ho as [(_ & -> & _)|(_ & _ & r & _ & -> & ->)]; [done|]. by apply map_Forall_insert_2.
  - destruct Ho as [(_ & -> & _)|(k & r & r' & [_ Hh] & -> & _ & H1 & H2 & _)]; [done|].
    apply map_Forall_insert_2; [by subst h|done].
  - destruct Ho as [(_ & -> & _)|[(_ & _ & -> & _)|(k & r & r' & _ & _ & -> & _ & ->)]]; [done|done|].
    apply map_Forall_insert_2; [done|]. by apply map_Forall_delete.
  - destruct Ho as [(_ & -> & _)|(k & r & _ & -> & _)]; [done|]. by apply map_Forall_delete.
Qed.

Lemma auth_op_spec s o :
  store_wf s -> op_means (client_keys s) o (client_keys (auth_op s o).1) (auth_op s o).2.
Proof.
  intros Hwf. destruct o as [now req|h req|now h req|h]; cbn [auth_op].
  - unfold add, op_means. destruct (cr_key req) as [|c k] eqn:Ek; cbn [str_is_empty]; [left; eauto|].
    rewrite <- Ek. destruct (client_keys s !! cr_key req) as [r|] eqn:El; cbn; [left; eauto|].
    right. split; [by rewrite Ek|]. split; [done|]. eexists. done.
  - unfold update, op_means. pose proof (find_by_hash_cases s h Hwf) as Hf.
    destruct (find_by_hash s h) as [k|]; [|left; done]. destruct Hf as [r Hr]. pose proof (proj1 Hr) as Hk. rewrite Hk.
    right. destruct (Hwf _ _ Hk) as [Hkey Hkh]. destruct Hr as [_ Hh].
    exists k, r, (updated req r). unfold updated, asked. cbn. split_and!; try done; [congruence|by destruct (up_enabled req)|by destruct (up_label req)|].
    destruct (up_tenant_id req) as [[|c t]|]; [by left|by right..].
  - unfold rotate, op_means. pose proof (find_by_hash_cases s h Hwf) as Hf.
    destruct (find_by_hash s h) as [k|]; [|left; done]. destruct Hf as [r Hr]. right.
    destruct (client_keys s !! new_key req) as [r'|] eqn:En; cbn [is_some]; [left; eauto 10|]. right.
    pose proof (proj1 Hr) as Hk. rewrite Hk. by exists k, r, (rotated now req r).
  - unfold remove, op_means. pose proof (find_by_hash_cases s h Hwf) as Hf.
    destruct (find_by_hash s h) as [k|]; [|left; done]. destruct Hf as [r Hr]. pose proof (proj1 Hr) as Hk. rewrite Hk.
    right. by exists k, r.
Qed.

Lemma auth_op_wf s o : store_wf s -> store_wf (auth_op s o).1.
Proof.
  intros Hwf. pose proof (auth_op_spec s o Hwf) as Ho. destruct s as [m].
  assert (Hs : (auth_op (mkStore m) o).1 = mkStore (client_keys (auth_op (mkStore m) o).1)) by (by destruct (auth_op (mkStore m) o).1).
  rewrite Hs. eapply op_means_wf; [exact Hwf|exact Ho].
Qed.

Definition auth_run (s : AuthStore) (ops : list AuthOp) : AuthStore := foldl (fun s o => (auth_op s o).1) s ops.

Lemma auth_run_wf now initial ops : store_wf (auth_run (store_new now initial) ops).
Proof.
  unfold auth_run. generalize (store_new_wf now initial). generalize (store_new now initial).
  induction ops as [|o ops IH]; intros s Hs; [done|]. cbn. by apply IH, auth_op_wf.
Qed.

(** Claim C13: after any history of adds, updates, rotations and removals, each
    operation does to the map of records exactly what its name says, written out
    field by field.  An add enters the new key, unless it is empty or there, with
    its hash, the tenant and label of the request, enabled, created now.  An update
    changes the enabled flag, label and tenant of the record with the given hash to
    those of the request that are present (an empty tenant is ignored) and nothing
    else.  A rotation moves that record from its key to the new one, unless that is
    there, with the new key's hash, created now, with its old tenant, label and
    enabled flag.  A removal deletes it.  No other key is touched, and every
    failure leaves the store as it was. *)
Theorem auth_store_refines now initial ops o :
  let s := auth_run (store_new now initial) ops in
  op_means (client_keys s) o (client_keys (auth_op s o).1) (auth_op s o).2
  /\ store_wf (auth_op s o).1.
Proof. split; [apply auth_op_spec|apply auth_op_wf]; apply auth_run_wf. Qed.

(** Claim C14: a request gets through authentication exactly when it presents,
    as a bearer token, a key whose record is enabled (the configured list is
    not consulted once there is a store); it then acts for the tenant of that
    record, under the hash of the key presented; otherwise the answer is the
    same 401 whatever is wrong. *)
Theorem authentication_spec now initial ops h static :
  let s := auth_run (store_new now initial) ops in
  require_auth (mkAuthState static (Some s)) h = auth_store_middleware s h
  /\ match require_auth (mkAuthState static (Some s)) h with
     | Ok c => exists k r, bearer h = Some k /\ client_keys s !! k = Some r /\ ck_enabled r = true
                /\ c = mkAuthed (ck_key_hash r) (ck_tenant_id r)
     | Err e => e = invalid_key /\ http_status (into_response e) = 401
                /\ forall k r, bearer h = Some k -> client_keys s !! k = Some r -> ck_enabled r = false
     end.
Proof.
  intros s. pose proof (auth_run_wf now initial ops) as Hwf. fold s in Hwf.
  unfold require_auth, auth_store_middleware. cbn [auth_store]. destruct (bearer h) as [k|]; [|done].
  unfold validate. destruct (client_keys s !! k) as [r|] eqn:Ek; cbn.
  - destruct (ck_enabled r) eqn:Ee; cbn; (split; [done|]).
    + exists k, r. destruct (Hwf _ _ Ek) as [_ Hh]. rewrite Hh. done.
    + split; [done|]. split; [done|]. intros k' r' [= ->] Hr. rewrite Ek in Hr. by injection Hr as <-.
  - split; [done|]. split; [done|]. split; [done|]. intros k' r' [= ->] Hr. by rewrite Ek in Hr.
Qed.
End AuthSpec.

(** ** Concrete stores *)

Module AuthDemo.
Definition digest : Digest := {| sha256 := fun s => s |}.
Definition iter : DashIter string ClientKeyRecord := dash_iter_by_key string ClientKeyRecord.
#[local] Existing Instances digest iter.
Definition s : AuthStore := store_new 1 [mkClientKey "sk-one" "acme"; mkClientKey "sk-two" "beta"].
Definition hash_one : string := compute_key_hash "sk-one".
End AuthDemo.

Section AuthExamples.
Import AuthDemo.
#[local] Existing Instances digest iter.

Example rotation_moves_the_key :
  let s' := (rotate s 5 hash_one (mkRotate "sk-new")).1 in
  (validate s' "sk-one", validate s' "sk-new") = (None, Some (mkClientKey "sk-new" "acme")).
Proof. vm_compute. reflexivity. Qed.

(** [add] refuses the empty key, [rotate] does not: the empty key is then valid. *)
Example rotation_to_the_empty_key :
  (add s 5 (mkCreate "" "acme" "")).2 = Err (BadRequest "key must not be empty")
  /\ let s' := (rotate s 5 hash_one (mkRotate "")).1 in
     validate s' "" = Some (mkClientKey "" "acme").
Proof. split; vm_compute; reflexivity. Qed.

(** Without a proxy header the admin guard lets every address through; with one
    it compares the whole header, a list of addresses included. *)
Example ip_guard_needs_a_header :
  ip_guard ["127.0.0.1"] [] = true
  /\ ip_guard ["127.0.0.1"] [("x-forwarded-for", "127.0.0.1, 10.0.0.9")] = false
  /\ ip_guard ["127.0.0.1"] [("x-real-ip", "10.0.0.9")] = false.
Proof. split; [|split]; vm_compute; reflexivity. Qed.
End AuthExamples.
