(* ===== verification/AdminApi.v ===== *)
(** * The admin API

    Models the configuration endpoints of [src/src/dashboard/admin_api.rs]: the
    handlers that create, change and delete providers, pools, keys, routes and
    catalog models, the import, validate, refresh and overview endpoints, the
    exported document, and the client-key endpoints over the key store.  The
    handlers run on the [World] of [ConfigStore], where any statement may
    fail. *)

From stdpp Require Import sorting.
From S2P Require Import Prelude Json Types Config Pricing Metrics Router Db ConfigStore Auth.

(** ** Requests (the derived decoders are serde's) *)

Record CreateProviderRequest := mkCreateProvider {
  cpr_id : string; cpr_kind : string; cpr_base_url : string; cpr_pool_id : string; cpr_metadata : Value
}.

Record CreateKeyEntryRequest := mkCreateKey {
  cke_req_key : string; cke_req_weight : Z; cke_req_type : CredentialType;
  cke_req_refresh : option string; cke_req_expires : option Z; cke_req_issuer : option string
}.

Definition to_key_entry (r : CreateKeyEntryRequest) : KeyEntry :=
  mkKeyEntry (cke_req_key r) (cke_req_weight r) (cke_req_type r) (cke_req_refresh r) (cke_req_expires r)
    (cke_req_issuer r) None.

Record CreatePoolRequest := mkCreatePool {
  cpo_id : string; cpo_strategy : string; cpo_keys : list CreateKeyEntryRequest
}.

Record CreateRoutingRequest := mkCreateRouting {
  cro_logical_model : string; cro_pool_id : string; cro_default_params : option Value; cro_upstream_model : option string
}.

Record ModelRegistryCreate := mkModelCreate {
  mc_id : string; mc_display_name : string; mc_provider_kind : string; mc_provider_config_id : option string;
  mc_supports_vision : bool; mc_supports_tool_calling : bool; mc_supports_json_mode : bool;
  mc_max_context_tokens : Z; mc_max_output_tokens : Z; mc_input_price : option Q; mc_output_price : option Q;
  mc_capabilities_json : option Value; mc_enabled : bool
}.

Record ModelRegistryPatch := mkModelPatch {
  mp_display_name : option string; mp_provider_kind : option string; mp_provider_config_id : option (option string);
  mp_vision : option bool; mp_tool_calling : option bool; mp_json_mode : option bool;
  mp_max_context_tokens : option Z; mp_max_output : option Z;
  mp_input_price : option (option Q); mp_output_price : option (option Q);
  mp_capabilities_json : option (option Value); mp_enabled : option bool
}.

(** [Option<Option<T>>] with serde's derived decoder: an absent field and a null
    are both the outer [None]. *)
Definition double_option {A} (field : option Value) (inner : Value -> option A) : option (option (option A)) :=
  match field with
  | None | Some Null => Some None
  | Some v => (fun a => Some (Some a)) <$> inner v
  end.

Record ConfigDocumentRequest := mkDocument { doc_yaml : string; doc_dry_run : bool }.
Record ConfigDocumentResponse := mkDocumentResponse {
  dr_ok : bool; dr_dry_run : bool; dr_version : Z; dr_message : string
}.
Record ConfigOverviewResponse := mkOverview {
  ovw_version : Z; ovw_providers : nat; ovw_pools : nat; ovw_routing : nat; ovw_registry : nat
}.

(** [if let Err(e) = m.await { .. }]: the error as a value. *)
Definition catch {A} (m : M A) : M (Result A AppError) := fun w => let '(w', r) := m w in (w', Ok r).

Definition guard (b : bool) (e : AppError) : M unit := if b then throw e else mret tt.

Section AdminApi.
Context `{SX : Sqlx} `{SJ : SerdeJson} `{DG : Digest}.
Context `{DP : !DashIter string ModelPricing} `{DE : !DashIter string PriceEntry}.
Context `{DR : !DashIter string ModelRouting} `{DO : !DashIter string PoolConfig}.

Definition blank (s : string) : bool := str_is_empty (trim s).

(** ** Providers *)

Definition known_kind (kind : string) : bool :=
  str_eqb kind "openai" || str_eqb kind "anthropic" || str_eqb kind "gemini".

Definition count_providers (id : string) : Stmt nat :=
  read (fun d => count_if (fun r => str_eqb (pc_id r) id) (provider_config_tbl d)).
Definition count_enabled_pools (id : string) : Stmt nat :=
  read (fun d => count_if (fun r => str_eqb (kp_id r) id && is_one (kp_enabled r)) (key_pool_tbl d)).

Definition ok_id (id : string) : Value := obj [("ok", Bool true); ("id", Str id)].
Definition ok_deleted (id : string) : Value := obj [("ok", Bool true); ("deleted", Str id)].

Definition admin_api_create_provider (req : CreateProviderRequest) (now_ms : Z) : M Value :=
  _ ← guard (blank (cpr_id req)) (BadRequest "provider id must not be empty");
  _ ← guard (blank (cpr_base_url req)) (BadRequest "provider base_url must not be empty");
  existing ← run (internal "validate provider id") (count_providers (cpr_id req));
  _ ← guard (negb (existing =? 0)%nat) (BadRequest ("provider '" +:+ cpr_id req +:+ "' already exists"));
  _ ← guard (negb (is_object (cpr_metadata req))) (BadRequest "provider metadata must be a JSON object");
  let kind := to_ascii_lowercase (cpr_kind req) in
  _ ← guard (negb (known_kind kind)) (BadRequest ("unsupported provider kind '" +:+ kind +:+ "'"));
  pool_exists ← run (internal "validate provider pool") (count_enabled_pools (cpr_pool_id req));
  _ ← guard (pool_exists =? 0)%nat (BadRequest ("pool '" +:+ cpr_pool_id req +:+ "' does not exist"));
  _ ← run (internal "create provider")
        (insert_provider_row (mkProviderRow (cpr_id req) kind (cpr_base_url req) (cpr_pool_id req) 1
                                (Some (to_string (cpr_metadata req)))));
  _ ← refresh_from_db now_ms;
  mret (ok_id (cpr_id req)).

Definition admin_api_delete_provider (provider_id : string) (now_ms : Z) : M Value :=
  _ ← run (internal "delete provider") (delete_provider_rows (fun r => str_eqb (pc_id r) provider_id));
  _ ← refresh_from_db now_ms;
  mret (ok_deleted provider_id).

(** ** Pools and their keys *)

(** The checks on a key, shared by the two handlers that differ in one message. *)
Definition check_key (empty_msg : string) (entry : KeyEntry) : M unit :=
  _ ← guard (weight entry =? 0) (BadRequest "pool keys must have positive weight");
  if is_oauth entry then
    guard (negb (is_some (non_empty (refresh entry))) || negb (is_some (non_empty (issuer entry))))
      (BadRequest "oauth pool keys require refresh and issuer")
  else guard (str_is_empty (key entry)) (BadRequest empty_msg).

(** [.map_err(|e| AppError::BadRequest(e.to_string()))] *)
Definition as_bad_request {A} (m : M A) : M A := fun w =>
  match m w with (w', Err e) => (w', Err (BadRequest (app_error_to_string e))) | r => r end.

Definition create_pool_body (req : CreatePoolRequest) : M unit :=
  _ ← run (fun e => BadRequest ("create pool: " +:+ db_display e))
        (insert_pool_row (mkPoolRow (cpo_id req) (cpo_strategy req) 1));
  for_each (fun ke =>
    let entry := to_key_entry ke in
    _ ← check_key "pool keys must be non-empty with positive weight" entry;
    as_bad_request (insert_key_entry (cpo_id req) entry)) (cpo_keys req).

Definition admin_api_create_pool (req : CreatePoolRequest) (now_ms : Z) : M Value :=
  _ ← transaction (internal "begin pool transaction") (internal "commit pool transaction") (create_pool_body req);
  _ ← refresh_from_db now_ms;
  mret (ok_id (cpo_id req)).

Definition admin_api_add_pool_key (pool_id : string) (req : CreateKeyEntryRequest) (now_ms : Z) : M Value :=
  let entry := to_key_entry req in
  _ ← check_key "pool key must be non-empty" entry;
  exists_ ← run (internal "lookup pool") (read (fun d => pool_known d pool_id));
  _ ← guard (negb exists_) (NotFound ("pool '" +:+ pool_id +:+ "' not found"));
  _ ← transaction (internal "begin add key") (internal "commit add key") (as_bad_request (insert_key_entry pool_id entry));
  _ ← refresh_from_db now_ms;
  mret (obj [("ok", Bool true); ("pool_id", Str pool_id); ("key_hash", Str (identity_hash entry));
             ("type", Str (cred_type_str entry))]).

Definition delete_pool_body (pool_id : string) : M unit :=
  _ ← run (internal "delete pool keys") (delete_key_rows (fun r => str_eqb (ke_pool_id r) pool_id));
  run (internal "delete pool") (delete_pool_rows (fun id => str_eqb id pool_id)).

Definition admin_api_delete_pool (pool_id : string) (now_ms : Z) : M Value :=
  _ ← transaction (internal "begin pool delete transaction") (internal "commit pool delete transaction")
        (delete_pool_body pool_id);
  _ ← refresh_from_db now_ms;
  mret (ok_deleted pool_id).

(** ** Routes *)

Definition admin_api_create_routing (req : CreateRoutingRequest) (now_ms : Z) : M Value :=
  pool_exists ← run (internal "validate routing pool") (count_enabled_pools (cro_pool_id req));
  _ ← guard (pool_exists =? 0)%nat (BadRequest ("pool '" +:+ cro_pool_id req +:+ "' does not exist"));
  let params_str := to_string <$> cro_default_params req in
  let upstream_model := non_empty (trim <$> cro_upstream_model req) in
  _ ← run (internal "create routing")
        (insert_routing_row (mkRoutingRow (cro_logical_model req) (cro_pool_id req) params_str upstream_model 1));
  _ ← refresh_from_db now_ms;
  mret (obj [("ok", Bool true); ("model", Str (cro_logical_model req))]).

Definition admin_api_delete_routing (logical_model : string) (now_ms : Z) : M Value :=
  _ ← run (internal "delete routing") (delete_routing_rows (fun r => str_eqb (rc_logical_model r) logical_model));
  _ ← refresh_from_db now_ms;
  mret (ok_deleted logical_model).

(** ** The model catalog *)

Record ModelValidation := mkValidation {
  mv_id : string; mv_display : string; mv_kind : string; mv_context : Z; mv_output : Z;
  mv_input : option Q; mv_output_price : option Q; mv_caps : option Value
}.

(** Prices come from JSON and are finite. *)
Definition validate_model_fields (f : ModelValidation) : Result unit AppError :=
  if blank (mv_id f) || blank (mv_display f) || blank (mv_kind f)
  then Err (BadRequest "id, display_name and provider_kind are required")
  else if negb (known_kind (mv_kind f)) then Err (BadRequest "unsupported provider_kind")
  else if (mv_context f <=? 0) || (mv_output f <=? 0) then Err (BadRequest "token limits must be positive")
  else if existsb (fun p => negb (Qle_bool 0 p)) (option_list (mv_input f) ++ option_list (mv_output_price f))
  then Err (BadRequest "prices must be finite and non-negative")
  else if match mv_caps f with Some v => negb (is_object v) | None => false end
  then Err (BadRequest "capabilities_json must be a JSON object")
  else Ok tt.

(** The row as [ModelRegistryRecord]: the token limits are decoded as [i32]. *)
Definition decode_record (r : RegistryRow) : Result RegistryRow DbError :=
  let? _ := decode_i32 (mr_max_context_tokens r) in
  let? _ := decode_i32 (mr_max_output_tokens r) in
  Ok r.

Definition get_model (id : string) : M RegistryRow :=
  row ← run (internal "load model")
          (fun d => match List.find (fun r => str_eqb (mr_id r) id) (model_registry_tbl d) with
                    | None => Ok (d, None)
                    | Some r => let? r := decode_record r in Ok (d, Some r)
                    end);
  lift (ok_or row (NotFound ("model '" +:+ id +:+ "' not found"))).

Definition opt_value {A} (f : A -> Value) (o : option A) : Value := match o with Some a => f a | None => Null end.

Definition model_value (r : RegistryRow) : Value :=
  obj [("id", Str (mr_id r)); ("display_name", Str (mr_display_name r)); ("provider_kind", Str (mr_provider_kind r));
       ("provider_config_id", opt_value Str (mr_provider_config_id r));
       ("supports_vision", Bool (non_zero (mr_supports_vision r)));
       ("supports_tool_calling", Bool (non_zero (mr_supports_tool_calling r)));
       ("supports_json_mode", Bool (non_zero (mr_supports_json_mode r)));
       ("max_context_tokens", json_int (mr_max_context_tokens r));
       ("max_output_tokens", json_int (mr_max_output_tokens r));
       ("input_price_per_1m", opt_value (fun q => Number (Float q)) (mr_input_price r));
       ("output_price_per_1m", opt_value (fun q => Number (Float q)) (mr_output_price r));
       ("capabilities_json", unwrap_or (mr_capabilities_json r ≫= from_str) (obj []));
       ("enabled", Bool (non_zero (mr_enabled r)))].

Definition provider_pool_id (provider_id : string) : M string :=
  _ ← guard (blank provider_id) (BadRequest "provider_config_id cannot be empty");
  pool_id ← run (internal "validate provider")
              (read (fun d => pc_pool_id <$> List.find (fun r => str_eqb (pc_id r) provider_id && is_one (pc_enabled r))
                                               (provider_config_tbl d)));
  lift (ok_or pool_id (BadRequest ("provider_config_id '" +:+ provider_id +:+ "' does not exist or is disabled"))).

Definition validate_provider_ref (id : option string) : M unit :=
  match id with Some id => _ ← provider_pool_id id; mret tt | None => mret tt end.

Definition ensure_model_routing (logical_model : string) (provider_config_id : option string) (enabled : bool) : M unit :=
  match opt_filter (fun id => negb (blank id)) provider_config_id with
  | None => mret tt
  | Some provider_id =>
      if negb enabled then mret tt
      else
        pool_id ← provider_pool_id provider_id;
        pool_exists ← run (internal "validate routing pool") (count_enabled_pools pool_id);
        _ ← guard (pool_exists =? 0)%nat
              (BadRequest ("provider '" +:+ provider_id +:+ "' references missing or disabled pool '" +:+ pool_id +:+ "'"));
        _ ← run (internal "ensure model routing") (delete_routing_rows (fun r => str_eqb (rc_logical_model r) logical_model));
        run (internal "ensure model routing") (insert_routing_row (mkRoutingRow logical_model pool_id None None 1))
  end.

(** [ORDER BY id], bytewise. *)
Definition id_le (a b : RegistryRow) : Prop := String.compare (mr_id a) (mr_id b) ≠ Gt.
#[global] Instance id_le_dec a b : Decision (id_le a b).
Proof. unfold id_le. apply _. Defined.

Definition admin_api_models : M Value :=
  rows ← run (internal "list models")
           (fun d => let? l := collect decode_record (merge_sort id_le (model_registry_tbl d)) in Ok (d, l));
  mret (obj [("models", Array (model_value <$> rows))]).

Definition created_row (req : ModelRegistryCreate) : RegistryRow :=
  mkRegistryRow (mc_id req) (mc_display_name req) (mc_provider_kind req) (mc_provider_config_id req)
    (z_of_bool (mc_supports_vision req)) (z_of_bool (mc_supports_tool_calling req)) (z_of_bool (mc_supports_json_mode req))
    (mc_max_context_tokens req) (mc_max_output_tokens req) (mc_input_price req) (mc_output_price req)
    (to_string <$> mc_capabilities_json req) (z_of_bool (mc_enabled req)).

Definition create_error (e : DbError) : AppError :=
  match e with
  | UniqueViolation => BadRequest "model id already exists"
  | _ => internal "create model" e
  end.

Definition admin_api_create_model (req : ModelRegistryCreate) (now_ms : Z) : M Value :=
  _ ← lift (validate_model_fields
        (mkValidation (mc_id req) (mc_display_name req) (mc_provider_kind req) (mc_max_context_tokens req)
           (mc_max_output_tokens req) (mc_input_price req) (mc_output_price req) (mc_capabilities_json req)));
  _ ← validate_provider_ref (mc_provider_config_id req);
  _ ← run create_error (insert_registry_row (created_row req));
  routed ← catch (ensure_model_routing (mc_id req) (mc_provider_config_id req) (mc_enabled req));
  _ ← match routed with
      | Ok _ => mret tt
      | Err error =>
          _ ← catch (run (internal "delete model") (delete_registry_rows (fun r => str_eqb (mr_id r) (mc_id req))));
          throw error
      end;
  after ← get_model (mc_id req);
  _ ← refresh_from_db now_ms;
  mret (model_value after).

(** The row the patch leads to. *)
Definition patched_row (before : RegistryRow) (req : ModelRegistryPatch) : RegistryRow :=
  mkRegistryRow (mr_id before)
    (unwrap_or (mp_display_name req) (mr_display_name before))
    (unwrap_or (mp_provider_kind req) (mr_provider_kind before))
    (unwrap_or (mp_provider_config_id req) (mr_provider_config_id before))
    (z_of_bool (unwrap_or (mp_vision req) (non_zero (mr_supports_vision before))))
    (z_of_bool (unwrap_or (mp_tool_calling req) (non_zero (mr_supports_tool_calling before))))
    (z_of_bool (unwrap_or (mp_json_mode req) (non_zero (mr_supports_json_mode before))))
    (unwrap_or (mp_max_context_tokens req) (mr_max_context_tokens before))
    (unwrap_or (mp_max_output req) (mr_max_output_tokens before))
    (unwrap_or (mp_input_price req) (mr_input_price before))
    (unwrap_or (mp_output_price req) (mr_output_price before))
    match mp_capabilities_json req with Some v => to_string <$> v | None => mr_capabilities_json before end
    (z_of_bool (unwrap_or (mp_enabled req) (non_zero (mr_enabled before)))).

Definition admin_api_update_model (id : string) (req : ModelRegistryPatch) (now_ms : Z) : M Value :=
  before ← get_model id;
  let row := patched_row before req in
  let caps_value := mp_capabilities_json req ≫= fun v => v in
  _ ← lift (validate_model_fields
        (mkValidation id (mr_display_name row) (mr_provider_kind row) (mr_max_context_tokens row)
           (mr_max_output_tokens row) (mr_input_price row) (mr_output_price row) caps_value));
  _ ← validate_provider_ref (mr_provider_config_id row);
  _ ← run (internal "update model") (write (fun d => set_model_registry d (replace_registry row (model_registry_tbl d))));
  _ ← ensure_model_routing id (mr_provider_config_id row) (non_zero (mr_enabled row));
  after ← get_model id;
  _ ← refresh_from_db now_ms;
  mret (model_value after).

(** ** Documents *)

Context (yaml_config : string -> Result Config string).

Definition admin_api_config_validate (req : ConfigDocumentRequest) : Result ConfigDocumentResponse AppError :=
  let? _ := validate_yaml yaml_config (doc_yaml req) in
  Ok (mkDocumentResponse true true 0 "configuration is valid; no changes were made").

Definition admin_api_config_import (req : ConfigDocumentRequest) (now_ms : Z) : M ConfigDocumentResponse :=
  _ ← lift (validate_yaml yaml_config (doc_yaml req));
  if doc_dry_run req then
    s ← get_store;
    mret (mkDocumentResponse true true (cs_version s) "configuration is valid; no changes were made")
  else
    _ ← import_yaml yaml_config (doc_yaml req) now_ms;
    s ← get_store;
    mret (mkDocumentResponse true false (cs_version s) "configuration imported").

Definition admin_api_config_refresh (now_ms : Z) : M Value :=
  _ ← refresh_from_db now_ms;
  s ← get_store;
  mret (obj [("ok", Bool true); ("version", json_int (cs_version s))]).

Definition admin_api_config_overview (s : ConfigSnapshot) : ConfigOverviewResponse :=
  mkOverview (cs_version s) (length (cs_providers s)) (size (cs_pools s)) (size (cs_routing s)) (length (cs_registry s)).
End AdminApi.

(** ** Client keys *)

(** [match &state.auth_store { Some(store) => .., None => Err(..) }] on the store of
    the state, which the operation may change. *)
Definition with_auth_store {A} (st : option AuthStore) (f : AuthStore -> AuthStore * Result A AppError)
    : option AuthStore * Result A AppError :=
  match st with
  | Some store => let '(store', r) := f store in (Some store', r)
  | None => (None, Err (Auth "auth store not initialized"))
  end.

(** The reply shows the record without its key. *)
Definition shown (p : AuthStore * Result ClientKeyRecord AppError) : AuthStore * Result ClientKeyPublicRecord AppError :=
  (p.1, let? r := p.2 in Ok (public_of_record r)).

Record ClientKeyListResponse := mkKeyList { ckl_keys : list ClientKeyPublicRecord; ckl_total : nat }.

Section ClientKeys.
Context `{DG : Digest} `{DK : !DashIter string ClientKeyRecord}.

Definition admin_api_list_client_keys (st : option AuthStore) : Result ClientKeyListResponse AppError :=
  match st with
  | Some store => let keys := public_of_record <$> list_keys store in Ok (mkKeyList keys (length keys))
  | None => Err (Auth "auth store not initialized")
  end.

Definition admin_api_add_client_key (st : option AuthStore) (now : Z) (req : CreateKeyRequest) :=
  with_auth_store st (fun store => shown (add store now req)).
Definition admin_api_update_client_key (st : option AuthStore) (key_hash : string) (req : UpdateKeyRequest) :=
  with_auth_store st (fun store => shown (update store key_hash req)).
Definition admin_api_delete_client_key (st : option AuthStore) (key_hash : string) :=
  with_auth_store st (fun store => shown (remove store key_hash)).
Definition admin_api_rotate_client_key (st : option AuthStore) (now : Z) (key_hash : string) (req : RotateKeyRequest) :=
  with_auth_store st (fun store => shown (rotate store now key_hash req)).
End ClientKeys.

(** ** Status *)

Record PoolStatus := mkPoolStatus { pst_pool_id : string; pst_total_keys : nat; pst_healthy_keys : nat; pst_bad_keys : nat }.

Definition pool_status (s : PoolSnapshot) : PoolStatus :=
  let total := length (ps_keys s) in
  let healthy := count_if ks_healthy (ps_keys s) in
  mkPoolStatus (ps_pool_id s) total healthy (total - healthy).

Record StatusResponse := mkStatus {
  st_uptime_secs : Z; st_counters : list (string * Z); st_pools : list PoolStatus; st_alert_count : nat
}.

Section Status.
Context `{DG : Digest} `{DI : !DashIter string RouteEntry}.

(** [now_secs] is the clock since the epoch. *)
Definition admin_api_status {P} (b : BadKeyRegistry) (r : Router P) (m : Metrics) (alert_count : nat) (now_secs : Z) : StatusResponse :=
  mkStatus now_secs
    [("requests_total", total_requests m); ("requests_failed", failed_requests m);
     ("stream_requests", Metrics.stream_requests m); ("cache_hits", cache_hits m);
     ("active_connections", active_connections m); ("prompt_tokens", total_prompt_tokens m);
     ("completion_tokens", total_completion_tokens m); ("retries", m_retry_count m);
     ("key_demotions", key_demotions m); ("upstream_5xx", upstream_5xx m); ("upstream_4xx", upstream_4xx m)]
    (pool_status <$> pool_snapshot b r) alert_count.
End Status.

(* ------------------------------------------------------------------ *)
(** ** Histories of operations *)

Inductive AdminOp : Type :=
| OpCreateProvider (req : CreateProviderRequest)
| OpDeleteProvider (id : string)
| OpCreatePool (req : CreatePoolRequest)
| OpAddPoolKey (pool : string) (req : CreateKeyEntryRequest)
| OpDeletePool (id : string)
| OpCreateRouting (req : CreateRoutingRequest)
| OpDeleteRouting (model : string)
| OpCreateModel (req : ModelRegistryCreate)
| OpUpdateModel (id : string) (req : ModelRegistryPatch)
| OpImport (req : ConfigDocumentRequest)
| OpRefresh
| OpPoll.                               (* a tick of the poller *)

Section Histories.
Context `{SX : Sqlx} `{SJ : SerdeJson} `{DG : Digest}.
Context `{DP : !DashIter string ModelPricing} `{DE : !DashIter string PriceEntry}.
Context `{DR : !DashIter string ModelRouting} `{DO : !DashIter string PoolConfig}.
Context (yaml_config : string -> Result Config string).

Definition ignore {A} (m : M A) : World -> World := fun w => (m w).1.

Definition admin_step (op : AdminOp) (now_ms : Z) : World -> World :=
  match op with
  | OpCreateProvider req => ignore (admin_api_create_provider req now_ms)
  | OpDeleteProvider id => ignore (admin_api_delete_provider id now_ms)
  | OpCreatePool req => ignore (admin_api_create_pool req now_ms)
  | OpAddPoolKey pool req => ignore (admin_api_add_pool_key pool req now_ms)
  | OpDeletePool id => ignore (admin_api_delete_pool id now_ms)
  | OpCreateRouting req => ignore (admin_api_create_routing req now_ms)
  | OpDeleteRouting m => ignore (admin_api_delete_routing m now_ms)
  | OpCreateModel req => ignore (admin_api_create_model req now_ms)
  | OpUpdateModel id req => ignore (admin_api_update_model id req now_ms)
  | OpImport req => ignore (admin_api_config_import yaml_config req now_ms)
  | OpRefresh => ignore (admin_api_config_refresh now_ms)
  | OpPoll => poll_tick now_ms
  end.

Definition admin_run (ops : list (AdminOp * Z)) (w : World) : World :=
  foldl (fun w op => admin_step op.1 op.2 w) w ops.
End Histories.

(* ------------------------------------------------------------------ *)
(** ** The invariant of the managed tables *)

Section Good.
Context `{SX : Sqlx} `{SJ : SerdeJson} `{DG : Digest}.
Context `{DP : !DashIter string ModelPricing} `{DE : !DashIter string PriceEntry}.


(** Beyond the schema: pools are enabled, provider kinds are known, keys are
    usable, and the catalog can be decoded. *)
Record db_good (d : Database) : Prop := {
  good_integrity : db_integrity d;
  good_pools : Forall (fun r => kp_enabled r = 1) (key_pool_tbl d);
  good_kinds : Forall (fun r => is_ok (str_to_provider_kind (pc_kind r)) = true) (provider_config_tbl d);
  good_keys : Forall (fun r => key_valid (key_of_row r)) (key_entry_tbl d);
  good_registry : Forall row_fits (model_registry_tbl d)
}.

Lemma empty_db_good : db_good empty_db.
Proof. repeat constructor. Qed.

Lemma good_insert_pool r : kp_enabled r = 1 -> stmt_keeps db_good (insert_pool_row r).
Proof.
  intros Hr d d' [] [[] ] Hq. unfold insert_pool_row in Hq. destruct (pool_known d (kp_id r)) eqn:E; simplify_eq.
  apply existsb_id_false in E. split; [split|..]; cbn; try done.
  - rewrite fmap_app. by apply NoDup_snoc.
  - eapply Forall_impl; [exact keys_have_pool|]. cbn. intros k Hk. rewrite fmap_app. set_solver.
  - eapply Forall_impl; [exact routes_have_pool|]. cbn. intros k Hk. rewrite fmap_app. set_solver.
  - apply Forall_app_2; [done|]. by constructor.
Qed.

Lemma good_insert_key r : key_valid (key_of_row r) -> stmt_keeps db_good (insert_key_row r).
Proof.
  intros Hr d d' [] [[] ] Hq. unfold insert_key_row in Hq. destruct (pool_known d (ke_pool_id r)) eqn:E; simplify_eq.
  apply pool_known_spec in E. split; [split|..]; cbn; try done; apply Forall_app_2; try done; by constructor.
Qed.

Lemma good_insert_provider r : is_ok (str_to_provider_kind (pc_kind r)) = true -> stmt_keeps db_good (insert_provider_row r).
Proof.
  intros Hr d d' [] [[] ] Hq. unfold insert_provider_row in Hq. destruct (provider_known_db d (pc_id r)) eqn:E; simplify_eq.
  apply existsb_id_false in E. split; [split|..]; cbn; try done.
  - rewrite fmap_app. by apply NoDup_snoc.
  - apply Forall_app_2; [done|]. by constructor.
Qed.

Lemma good_insert_routing r : stmt_keeps db_good (insert_routing_row r).
Proof.
  intros d d' [] [[] ] Hq. unfold insert_routing_row in Hq. destruct (pool_known d (rc_pool_id r)) eqn:E; simplify_eq.
  apply pool_known_spec in E. split; [split|..]; cbn; try done. apply Forall_app_2; [done|]. by constructor.
Qed.

Lemma good_insert_registry r : row_fits r -> stmt_keeps db_good (insert_registry_row r).
Proof.
  intros Hr d d' [] [[] ] Hq. unfold insert_registry_row in Hq. destruct (registry_known d (mr_id r)) eqn:E; simplify_eq.
  apply existsb_id_false in E. split; [split|..]; cbn; try done.
  - rewrite fmap_app. by apply NoDup_snoc.
  - apply Forall_app_2; [done|]. by constructor.
Qed.

Lemma good_replace_registry r : row_fits r ->
  stmt_keeps db_good (write (fun d => set_model_registry d (replace_registry r (model_registry_tbl d)))).
Proof.
  intros Hr d d' [] [[] ] [= <-]. split; [split|..]; cbn; try done; [by rewrite replace_registry_ids|].
  unfold replace_registry. apply Forall_fmap. eapply Forall_impl; [exact good_registry0|]. intros q Hq. cbn. by destruct (str_eqb _ _).
Qed.

Lemma good_upsert_registry r : row_fits r ->
  stmt_keeps db_good (write (fun d => set_model_registry d (upsert_registry r (model_registry_tbl d)))).
Proof.
  intros Hr d d' [] [[] ] [= <-]. split; [split|..]; cbn; try done; [by apply upsert_registry_unique|].
  unfold upsert_registry, replace_registry. destruct (existsb _ _); [|by apply Forall_app_2; [|constructor]].
  apply Forall_fmap. eapply Forall_impl; [exact good_registry0|]. intros q Hq. cbn. by destruct (str_eqb _ _).
Qed.

Lemma good_delete_keys p : stmt_keeps db_good (delete_key_rows p).
Proof. intros d d' [] [[] ] [= <-]. split; [split|..]; cbn; try done; by apply Forall_filter_bool. Qed.
Lemma good_delete_providers p : stmt_keeps db_good (delete_provider_rows p).
Proof.
  intros d d' [] [[] ] [= <-]. split; [split|..]; cbn; try done; [by apply NoDup_fmap_filter|by apply Forall_filter_bool].
Qed.
Lemma good_delete_routing p : stmt_keeps db_good (delete_routing_rows p).
Proof. intros d d' [] [[] ] [= <-]. split; [split|..]; cbn; try done; by apply Forall_filter_bool. Qed.
Lemma good_delete_registry p : stmt_keeps db_good (delete_registry_rows p).
Proof.
  intros d d' [] [[] ] [= <-]. split; [split|..]; cbn; try done; [by apply NoDup_fmap_filter|by apply Forall_filter_bool].
Qed.

(** The ids that remain are those that were not selected. *)
Lemma remaining_ids (p : string -> bool) l id :
  id ∈ kp_id <$> l -> p id = false -> id ∈ kp_id <$> List.filter (fun r => negb (p (kp_id r))) l.
Proof.
  rewrite !list_elem_of_fmap. intros (r & -> & Hr) Hp. exists r. split; [done|]. apply elem_filter_bool. by rewrite Hp.
Qed.

Lemma good_delete_pools p : stmt_keeps db_good (delete_pool_rows p).
Proof.
  intros d d' [] [[] ] Hq. unfold delete_pool_rows in Hq. set (gone := List.filter _ (key_pool_tbl d)) in Hq.
  assert (forall id, id ∈ kp_id <$> key_pool_tbl d -> existsb (fun g => str_eqb (kp_id g) id) gone = p id) as Hg.
  { intros id Hid. apply eq_true_iff_eq. unfold gone. rewrite existsb_id, list_elem_of_fmap. split.
    - intros (r & -> & [_ Hr]%elem_filter_bool). done.
    - intros Hp. apply list_elem_of_fmap in Hid as (r & -> & Hr). exists r. split; [done|]. by apply elem_filter_bool. }
  destruct (existsb _ (routing_config_tbl d)) eqn:E; simplify_eq. split; [split|..]; cbn; try done.
  - by apply NoDup_fmap_filter.
  - apply Forall_forall. intros k [Hk Hneg%negb_true_iff]%elem_filter_bool.
    rewrite Forall_forall in keys_have_pool. specialize (keys_have_pool k Hk). rewrite Hg in Hneg by done.
    by apply remaining_ids.
  - apply Forall_forall. intros r Hr. rewrite Forall_forall in routes_have_pool. specialize (routes_have_pool r Hr).
    apply remaining_ids; [done|]. rewrite <- Hg by done. apply not_true_iff_false. intros Ht.
    apply not_true_iff_false in E. apply E. apply existsb_exists. exists r. by rewrite <- list_elem_of_In.
  - by apply Forall_filter_bool.
  - by apply Forall_filter_bool.
Qed.

Lemma good_read {A} (f : Database -> A) : stmt_keeps db_good (read f).
Proof. by intros d d' a Hd [= <- _]. Qed.

(** *** The snapshot of a good database *)

(** Every route of a snapshot leads to one of its pools, and every key is usable. *)
Record snap_good (s : ConfigSnapshot) : Prop := {
  snap_routes : map_Forall (fun _ r => is_Some (cs_pools s !! pool_id r)) (cs_routing s);
  snap_keys : map_Forall (fun _ p => Forall key_valid (keys p)) (cs_pools s)
}.

Lemma snapshot_default_good : snap_good snapshot_default.
Proof. split; apply map_Forall_empty. Qed.

Lemma collect_map_elem {A} (l : list (string * A)) k v : collect_map l !! k = Some v -> (k, v) ∈ l.
Proof.
  unfold collect_map. assert (forall m : gmap string A, foldl (fun m kv => <[kv.1 := kv.2]> m) m l !! k = Some v ->
    (k, v) ∈ l \/ m !! k = Some v) as H.
  { induction l as [|[k' v'] l IH]; intros m; csimpl; [by right|]. intros [H|H]%IH; [set_solver|].
    destruct (decide (k = k')) as [->|Hne]; [|rewrite lookup_insert_ne in H by done; by right].
    rewrite lookup_insert_eq in H. simplify_eq. set_solver. }
  intros [H'|H']%H; [done|]. by rewrite lookup_empty in H'.
Qed.

Lemma routing_row_pool r : pool_id (routing_of_row r).2 = rc_pool_id r.
Proof. unfold routing_of_row. by destruct (_ || _). Qed.

Lemma good_db_snapshot d : db_good d ->
  map_Forall (fun _ r => is_Some (db_pools d !! pool_id r)) (db_routing d)
  /\ map_Forall (fun _ p => Forall key_valid (keys p)) (db_pools d).
Proof.
  intros [[] ]. split.
  - intros m r Hr. unfold db_routing in Hr. apply collect_map_elem in Hr. apply list_elem_of_fmap in Hr as (row & Hrow & Hin).
    assert (r = (routing_of_row row).2) as -> by by rewrite <- Hrow. rewrite routing_row_pool, db_pools_spec by done.
    rewrite bool_decide_true; [done|]. unfold enabled_pools. rewrite scan_perm, all_enabled by done.
    unfold enabled_routes in Hin. rewrite scan_perm in Hin. apply elem_filter_bool in Hin as [Hin _].
    rewrite Forall_forall in routes_have_pool. by apply routes_have_pool.
  - intros id p. rewrite db_pools_spec by done. case_bool_decide; [|done]. intros [= <-]. cbn. apply Forall_fmap.
    apply Forall_filter_bool. unfold enabled_keys. rewrite scan_perm. by apply Forall_filter_bool.
Qed.

Lemma good_snapshot : snapshot_keeps db_good snap_good.
Proof.
  intros now s d s' Hd _. unfold snapshot_of. destruct (collect _ _); [|done]. destruct (db_registry d); [|done].
  intros [= <-]. by destruct (good_db_snapshot d Hd); split.
Qed.

(** A good database can be loaded. *)
Lemma good_loads d now s : db_good d -> is_ok (snapshot_of now s d) = true.
Proof.
  intros [_ _ Hk _ Hr]. apply registry_loads in Hr. unfold snapshot_of.
  assert (is_ok (collect provider_of_row (enabled_providers d)) = true) as Hp.
  { apply collect_ok. unfold enabled_providers. rewrite scan_perm. apply Forall_filter_bool.
    eapply Forall_impl; [exact Hk|]. intros r Hr'. unfold provider_of_row. cbn in Hr'. by destruct (str_to_provider_kind _). }
  destruct (collect _ _); [|done]. by destruct (db_registry d).
Qed.

Lemma keeps_refresh_good now : keeps db_good snap_good (refresh_from_db now).
Proof. apply keeps_refresh, good_snapshot. Qed.

(** *** Guards *)

Lemma keeps_guard_bind P S {A} b e (k : unit -> M A) :
  (b = false -> keeps P S (k tt)) -> keeps P S (guard b e ≫= k).
Proof. intros Hk. unfold guard. destruct b; [by intros w|]. exact (Hk eq_refl). Qed.

Lemma keeps_lift_bind P S {A B} (r : Result A AppError) (k : A -> M B) :
  (forall a, r = Ok a -> keeps P S (k a)) -> keeps P S (lift r ≫= k).
Proof. intros Hk w Hw. unfold mbind, M_bind, lift. destruct r as [a|e]; [by apply (Hk a)|done]. Qed.

Lemma keeps_catch P S {A} (m : M A) : keeps P S m -> keeps P S (catch m).
Proof. intros Hm w Hw. specialize (Hm w Hw). unfold catch. by destruct (m w). Qed.

Lemma keeps_as_bad_request P S {A} (m : M A) : keeps P S m -> keeps P S (as_bad_request m).
Proof. intros Hm w Hw. specialize (Hm w Hw). unfold as_bad_request. by destruct (m w) as [w' []]. Qed.

Lemma key_valid_row pool k : key_valid (key_of_row (key_row pool k)) <-> key_valid k.
Proof. unfold key_valid, key_of_row, key_row. cbn -[parse_cred_type]. by rewrite cred_type_roundtrip. Qed.

(** Only usable keys get past the checks. *)
Lemma keeps_check_bind P S {A} msg entry (k : unit -> M A) :
  (key_valid entry -> keeps P S (k tt)) -> keeps P S (check_key msg entry ≫= k).
Proof.
  intros Hk w Hw. unfold check_key, mbind, M_bind, guard. destruct (weight entry =? 0); [done|]. cbn.
  unfold is_oauth. destruct (cred_type entry) eqn:Ec; cbn.
  - destruct (str_is_empty (key entry)) eqn:E; [done|]. apply Hk; [|done]. unfold key_valid. rewrite Ec. by apply str_is_empty_false.
  - destruct (is_some (non_empty (refresh entry))) eqn:Er, (is_some (non_empty (issuer entry))) eqn:Ei; try done. cbn.
    apply Hk; [|done]. unfold key_valid. rewrite Ec. by apply non_empty_some in Er, Ei.
Qed.

Lemma keeps_insert_key pool k : key_valid k -> keeps db_good snap_good (insert_key_entry pool k).
Proof. intros Hk. apply keeps_run, good_insert_key. by apply key_valid_row. Qed.

(** The row [get_model] returns can be decoded again. *)
Lemma keeps_get_model_bind {A} id (k : RegistryRow -> M A) :
  (forall r, mr_id r = id -> row_fits r -> keeps db_good snap_good (k r)) -> keeps db_good snap_good (get_model id ≫= k).
Proof.
  intros Hk w [Hw Hs]. unfold get_model. rewrite <- bind_assoc_w. unfold mbind, M_bind, holds.
  match goal with |- context [run ?e ?q w] => pose proof (run_cases e q w) as H; destruct (run e q w) as [w1 [[r|]|er]] end;
    cbn; destruct H as [Hd Hs1]; [| |by rewrite Hd, Hs1].
  - destruct (List.find _ _) as [r0|] eqn:Ef; [|simplify_eq].
    unfold decode_record in Hd. destruct (decode_i32 _); [|done]. destruct (decode_i32 _); [|done]. simplify_eq.
    apply find_some in Ef as [Hin Hid]. apply (Hk r); [by apply str_eqb_spec| |by split; congruence].
    pose proof (good_registry _ Hw) as Hg. rewrite Forall_forall in Hg. apply Hg. by apply list_elem_of_In.
  - destruct (List.find _ _) as [r0|] eqn:Ef; [|injection Hd as Hd; by rewrite <- Hd, Hs1].
    unfold decode_record in Hd. do 2 (destruct (decode_i32 _); [|done]). done.
Qed.
End Good.
#[global] Hint Resolve good_insert_pool good_insert_key good_insert_provider good_insert_routing good_insert_registry
  good_replace_registry good_upsert_registry good_delete_keys good_delete_providers good_delete_routing
  good_delete_registry good_delete_pools good_read keeps_refresh_good
  keeps_guard_bind keeps_catch keeps_as_bad_request keeps_insert_key : dbm.

Section Invariant.
Context `{SX : Sqlx} `{SJ : SerdeJson} `{DG : Digest}.
Context `{DP : !DashIter string ModelPricing} `{DE : !DashIter string PriceEntry}.
Context `{DR : !DashIter string ModelRouting} `{DO : !DashIter string PoolConfig}.
Context (yaml_config : string -> Result Config string).

Ltac keep := repeat first
  [ simple apply keeps_refresh_good | simple apply keeps_guard_bind; intros ? | simple apply keeps_bind; [|intros ?] | apply keeps_run
  | apply keeps_ret | apply keeps_throw | apply keeps_lift | apply keeps_get | apply good_read
  | apply keeps_transaction | apply keeps_catch ]; eauto with dbm.

Lemma known_kind_ok kind : known_kind kind = true -> is_ok (str_to_provider_kind kind) = true.
Proof.
  unfold known_kind, str_to_provider_kind. destruct (str_eqb kind "openai"); [done|]. destruct (str_eqb kind "open_ai"); [done|].
  destruct (str_eqb kind "anthropic"); [done|]. by destruct (str_eqb kind "gemini").
Qed.

Lemma keeps_create_provider req now : keeps db_good snap_good (admin_api_create_provider req now).
Proof.
  unfold admin_api_create_provider. keep. apply good_insert_provider. cbn.
  apply known_kind_ok. by apply negb_false_iff.
Qed.

Lemma keeps_create_pool req now : keeps db_good snap_good (admin_api_create_pool req now).
Proof.
  unfold admin_api_create_pool, create_pool_body. keep.
  apply keeps_for_each, Forall_forall. intros ke _. apply keeps_check_bind. intros Hk.
  by apply keeps_as_bad_request, keeps_insert_key.
Qed.

Lemma keeps_add_pool_key pool req now : keeps db_good snap_good (admin_api_add_pool_key pool req now).
Proof.
  unfold admin_api_add_pool_key. apply keeps_check_bind. intros Hk. keep.
Qed.

Lemma keeps_delete_pool pool now : keeps db_good snap_good (admin_api_delete_pool pool now).
Proof. unfold admin_api_delete_pool, delete_pool_body. keep. Qed.

Lemma keeps_provider_pool_id id : keeps db_good snap_good (provider_pool_id id).
Proof. unfold provider_pool_id. keep. Qed.

Lemma keeps_ensure_routing m p en : keeps db_good snap_good (ensure_model_routing m p en).
Proof.
  unfold ensure_model_routing. destruct (opt_filter _ p); [|keep]. destruct en; cbn; [|keep].
  apply keeps_bind; [apply keeps_provider_pool_id|]. intros pool. keep.
Qed.

Lemma keeps_provider_ref p : keeps db_good snap_good (validate_provider_ref p).
Proof. destruct p; cbn; [|keep]. apply keeps_bind; [apply keeps_provider_pool_id|]. intros _. keep. Qed.

Lemma keeps_get_model id : keeps db_good snap_good (get_model id).
Proof.
  intros w Hw. pose proof (keeps_get_model_bind id mret (fun r _ _ => keeps_ret db_good snap_good r) w Hw) as H.
  unfold mbind, M_bind in H. by destruct (get_model id w) as [w' []].
Qed.

Definition i32 (z : Z) : Prop := - 2 ^ 31 <= z < 2 ^ 31.

Lemma keeps_create_model req now :
  i32 (mc_max_context_tokens req) -> i32 (mc_max_output_tokens req) -> keeps db_good snap_good (admin_api_create_model req now).
Proof.
  intros H1 H2. unfold admin_api_create_model. apply keeps_bind; [keep|]. intros _.
  apply keeps_bind; [apply keeps_provider_ref|]. intros _. apply keeps_bind; [by apply keeps_run, good_insert_registry|].
  intros _. apply keeps_bind; [apply keeps_catch, keeps_ensure_routing|]. intros r.
  apply keeps_bind; [destruct r; keep|]. intros _. apply keeps_bind; [apply keeps_get_model|]. intros after. keep.
Qed.

Lemma patched_fits before req :
  row_fits before -> (forall z, mp_max_context_tokens req = Some z \/ mp_max_output req = Some z -> i32 z) ->
  row_fits (patched_row before req).
Proof.
  intros [H1 H2] Hr. unfold row_fits, patched_row. cbn. split.
  - destruct (mp_max_context_tokens req) as [z|]; cbn; [|done]. apply (Hr z). by left.
  - destruct (mp_max_output req) as [z|]; cbn; [|done]. apply (Hr z). by right.
Qed.

Lemma keeps_update_model id req now :
  (forall z, mp_max_context_tokens req = Some z \/ mp_max_output req = Some z -> i32 z) ->
  keeps db_good snap_good (admin_api_update_model id req now).
Proof.
  intros Hr. unfold admin_api_update_model. apply keeps_get_model_bind. intros before Hid Hfit. cbn zeta.
  apply keeps_bind; [keep|]. intros _. apply keeps_bind; [apply keeps_provider_ref|]. intros _.
  apply keeps_bind; [by apply keeps_run, good_replace_registry, patched_fits|]. intros _.
  apply keeps_bind; [apply keeps_ensure_routing|]. intros _. apply keeps_bind; [apply keeps_get_model|]. intros after. keep.
Qed.

Lemma keeps_import_pool pp : Forall key_valid (keys pp.2) -> keeps db_good snap_good (import_pool pp).
Proof.
  intros Hk. unfold import_pool. apply keeps_bind; [by apply keeps_run, good_insert_pool|]. intros _.
  apply keeps_for_each. eapply Forall_impl; [exact Hk|]. intros k. apply keeps_insert_key.
Qed.

Lemma keeps_import yaml now :
  (forall c, yaml_config yaml = Ok c -> Forall (fun e => i32 (reg_max_context_tokens e) /\ i32 (reg_max_output_tokens e)) (model_registry c)) ->
  keeps db_good snap_good (import_yaml yaml_config yaml now).
Proof.
  intros Ht. unfold import_yaml. apply keeps_lift_bind. intros c Hc.
  assert (config_valid c /\ yaml_config yaml = Ok c) as [Hv Hy].
  { unfold validate_yaml in Hc. destruct (yaml_config yaml) as [c'|]; [|done].
    destruct (Config.validate c') eqn:E; simplify_eq. split; [|done]. apply validate_ok. by rewrite E. }
  apply keeps_bind; [|intros _; apply keeps_refresh_good]. apply keeps_transaction. unfold import_config.
  do 4 (apply keeps_bind; [keep|]; intros _).
  apply keeps_bind; [|intros _; apply keeps_bind; [|intros _; apply keeps_bind; [|intros _]]]; apply keeps_for_each.
  - destruct Hv as (_ & _ & Hk & _). rewrite <- dash_forall in Hk. eapply Forall_impl; [exact Hk|].
    intros pp. apply keeps_import_pool.
  - apply Forall_forall. intros p _. apply keeps_run, good_insert_provider. cbn. by rewrite kind_roundtrip.
  - apply Forall_forall. intros mr _. apply keeps_run, good_insert_routing.
  - eapply Forall_impl; [by apply Ht|]. intros e [H1 H2]. by apply keeps_run, good_upsert_registry.
Qed.

(** The integers of a request are in the range of their Rust types. *)
Definition op_typed (op : AdminOp) : Prop :=
  match op with
  | OpCreateModel req => i32 (mc_max_context_tokens req) /\ i32 (mc_max_output_tokens req)
  | OpUpdateModel _ req => forall z, mp_max_context_tokens req = Some z \/ mp_max_output req = Some z -> i32 z
  | OpImport req => forall c, yaml_config (doc_yaml req) = Ok c ->
      Forall (fun e => i32 (reg_max_context_tokens e) /\ i32 (reg_max_output_tokens e)) (model_registry c)
  | _ => True
  end.

Lemma admin_step_good op now w :
  op_typed op -> holds db_good snap_good w -> holds db_good snap_good (admin_step yaml_config op now w).
Proof.
  intros Ht Hw. destruct op; cbn in Ht |- *; unfold ignore, poll_tick; revert w Hw;
    lazymatch goal with |- forall w, _ -> holds _ _ (?m w).1 => change (keeps db_good snap_good m) end.
  - apply keeps_create_provider.
  - unfold admin_api_delete_provider. keep.
  - apply keeps_create_pool.
  - apply keeps_add_pool_key.
  - apply keeps_delete_pool.
  - unfold admin_api_create_routing. keep.
  - unfold admin_api_delete_routing. keep.
  - destruct Ht as [H1 H2]. by apply keeps_create_model.
  - by apply keeps_update_model.
  - unfold admin_api_config_import. apply keeps_bind; [keep|]. intros c. destruct (doc_dry_run req); [keep|].
    apply keeps_bind; [by apply keeps_import|]. intros _. keep.
  - unfold admin_api_config_refresh. keep.
  - apply keeps_refresh_good.
Qed.

Lemma admin_run_good ops w : Forall (fun op => op_typed op.1) ops ->
  holds db_good snap_good w -> holds db_good snap_good (admin_run yaml_config ops w).
Proof.
  intros Hops. unfold admin_run. revert w; induction Hops as [|[op now] ops Hop _ IH]; intros w Hw; cbn; [done|].
  apply IH. by apply admin_step_good.
Qed.

(** Claim C7: whatever sequence of admin requests and poller ticks is run on a good
    database, and whatever statements, begins and commits of them fail, the
    tables keep their keys, references and well-formedness (every pool enabled,
    every provider kind known, every key usable, the catalog decodable) and the
    snapshot in memory stays consistent: each of its routes leads to one of
    its pools, and its keys are usable.*)
Theorem admin_history_good ops w :
  Forall (fun op => op_typed op.1) ops -> db_good (w_db w) -> snap_good (w_store w) ->
  db_good (w_db (admin_run yaml_config ops w)) /\ snap_good (w_store (admin_run yaml_config ops w)).
Proof. intros Ho Hd Hs. by apply admin_run_good. Qed.
End Invariant.

(* ------------------------------------------------------------------ *)
(** ** A concrete history *)

Module AdminDemo.
Import StoreDemo.
#[export] Existing Instances sqlx serde digest it_prices it_entries it_routes it_pools.
Definition key_req : CreateKeyEntryRequest := mkCreateKey "sk-one" 1 ApiKey None None None.
Definition model_req (id : string) : ModelRegistryCreate :=
  mkModelCreate id "Model" "openai" (Some "up") false true false 1000 500 None None None true.
Definition history : list (AdminOp * Z) :=
  [ (OpCreatePool (mkCreatePool "p" "weighted_random" [key_req]), 1);
    (OpCreateProvider (mkCreateProvider "up" "OpenAI" "https://up" "p" (obj [])), 2);
    (OpCreateRouting (mkCreateRouting "gpt" "p" (Some params) (Some "gpt-large")), 3);
    (OpDeletePool "p", 4);
    (OpCreateModel (model_req "m"), 5);
    (OpPoll, 6) ].
(** The second statement of the provider's creation fails. *)
Definition w_faulty : World := mkWorld (repeat None 10 ++ [Some "disk full"]) empty_db snapshot_default.
End AdminDemo.

Section AdminWitnesses.
Import AdminDemo.

Theorem admin_history_good_witness :
  db_good (w_db (admin_run StoreDemo.yaml history w_faulty))
  /\ snap_good (w_store (admin_run StoreDemo.yaml history w_faulty))
  /\ cs_version (w_store (admin_run StoreDemo.yaml history w_faulty)) = 3
  /\ (cs_routing (w_store (admin_run StoreDemo.yaml history w_faulty)) !! "gpt")
     = Some (WithParams "p" StoreDemo.params (Some "gpt-large")).
Proof.
  destruct (admin_history_good StoreDemo.yaml history w_faulty) as [H1 H2].
  - repeat constructor; cbn; lia.
  - apply empty_db_good.
  - apply snapshot_default_good.
  - split; [exact H1|]. split; [exact H2|]. split; vm_compute; reflexivity.
Defined.
End AdminWitnesses.
