(* ===== verification/Export.v ===== *)
(** * Exporting the configuration

    Models the export of [src/src/dashboard/admin_api.rs] (the document and how a
    snapshot is written to it), the derived decoders that read such a document
    ([src/src/config/mod.rs]), and the endpoints that list the configuration.
    Printing a document as YAML and parsing it are serde_yaml's. *)

From S2P Require Import Prelude Json Types Config Pricing Db ConfigStore Auth AdminApi.

(** ** The document *)

Record ExportServer := mkExportServer { es_host : string; es_port : Z; es_max_body_bytes : Z }.
Record ExportPool := mkExportPool { ep_keys : list Value; ep_strategy : string }.

Record ExportDocument := mkExport {
  ed_server : ExportServer;
  ed_client_keys : list Value;
  ed_db_path : string;
  ed_failover : FailoverConfig;
  ed_normalization : ResponseNormalization;
  ed_providers : list Value;
  ed_pools : gmap string ExportPool;
  ed_model_to_pool : gmap string Value
}.

Definition is_api_key_type (t : CredentialType) : bool := match t with ApiKey => true | Oauth => false end.

(** [skip_serializing_if = "Option::is_none"] *)
Definition field_some (k : string) (o : option Value) : list (string * Value) :=
  match o with Some v => [(k, v)] | None => [] end.

(** [ExportKey], serialised. *)
Definition export_key (k : KeyEntry) : Value :=
  obj ([("key", Str (key k)); ("weight", json_int (weight k))]
       ++ (if is_api_key_type (cred_type k) then [] else [("type", Str (cred_type_str k))])
       ++ field_some "refresh" (Str <$> refresh k)
       ++ field_some "expires" (json_int <$> expires k)
       ++ field_some "issuer" (Str <$> issuer k)).

Definition provider_kind_to_yaml (k : ProviderKind) : string :=
  match k with OpenAi => "openai" | Anthropic => "anthropic" | Gemini => "gemini" end.

Definition export_provider (p : ProviderConfig) : Value :=
  obj [("id", Str (prov_id p)); ("kind", Str (provider_kind_to_yaml (prov_kind p))); ("base_url", Str (base_url p));
       ("pool_id", Str (prov_pool_id p)); ("metadata", metadata p)].

Definition export_document (server : ExportServer) (db_path : string) (s : ConfigSnapshot) : ExportDocument :=
  mkExport server [] db_path (failover (cs_runtime s)) (response_normalization (cs_runtime s))
    (export_provider <$> cs_providers s)
    ((fun p => mkExportPool (export_key <$> keys p) "weighted_random") <$> cs_pools s)
    (to_export_value <$> cs_routing s).

(** ** Reading it back: the derived decoders *)

Definition opt_field {A} (m : Map) (k : string) (f : Value -> option A) : option (option A) :=
  match map_get k m with None | Some Null => Some None | Some v => Some <$> f v end.

Definition cred_type_of_value (v : Value) : option CredentialType :=
  match as_str v with
  | Some s => if str_eqb s "api_key" then Some ApiKey else if str_eqb s "oauth" then Some Oauth else None
  | None => None
  end.

(** [KeyEntry]: every field has a default, [identity] is skipped. *)
Definition key_of_value (v : Value) : option KeyEntry :=
  m ← as_object v;
  key ← match map_get "key" m with None => Some "" | Some v => as_str v end;
  weight ← match map_get "weight" m with None => Some 0 | Some v => u32_of_value v end;
  ty ← match map_get "type" m with None => Some ApiKey | Some v => cred_type_of_value v end;
  refresh ← opt_field m "refresh" as_str;
  expires ← opt_field m "expires" as_i64;
  issuer ← opt_field m "issuer" as_str;
  Some (mkKeyEntry key weight ty refresh expires issuer None).

Definition kind_of_value (v : Value) : option ProviderKind :=
  match as_str v with
  | Some s => if str_eqb s "openai" || str_eqb s "open_ai" then Some OpenAi
              else if str_eqb s "anthropic" then Some Anthropic
              else if str_eqb s "gemini" then Some Gemini else None
  | None => None
  end.

Definition provider_of_value (v : Value) : option ProviderConfig :=
  m ← as_object v;
  id ← (map_get "id" m ≫= as_str);
  pool ← (map_get "pool_id" m ≫= as_str);
  url ← (map_get "base_url" m ≫= as_str);
  kind ← match map_get "kind" m with None => Some OpenAi | Some v => kind_of_value v end;
  Some (mkProviderConfig id pool url kind (unwrap_or (map_get "metadata" m) Null)).

(** All of a list, or of a map, decodes. *)
Fixpoint decode_list {A B} (f : A -> option B) (l : list A) : option (list B) :=
  match l with [] => Some [] | x :: l' => y ← f x; ys ← decode_list f l'; Some (y :: ys) end.
Definition decode_map {A B} (f : A -> option B) (m : gmap string A) : option (gmap string B) :=
  if forallb (fun kv => is_some (f kv.2)) (map_to_list m) then Some (omap f m) else None.

Definition pool_of_export (p : ExportPool) : option PoolConfig := mkPool <$> decode_list key_of_value (ep_keys p).

(** The managed sections of the document; it has no registry rows. *)
Definition document_config (d : ExportDocument) : option Config :=
  pools ← decode_map pool_of_export (ed_pools d);
  providers ← decode_list provider_of_value (ed_providers d);
  routing ← decode_map routing_of_value (ed_model_to_pool d);
  Some (mkConfig pools providers routing []).

(** ** Listing *)

Section Lists.
Context `{DG : Digest}.
Context `{DR : !DashIter string ModelRouting} `{DO : !DashIter string PoolConfig}.

(** [format!("{:?}", kind).to_lowercase()] *)
Definition kind_debug_lower (k : ProviderKind) : string :=
  match k with OpenAi => "openai" | Anthropic => "anthropic" | Gemini => "gemini" end.

Definition admin_api_list_providers (s : ConfigSnapshot) : list Value :=
  (fun p => obj [("id", Str (prov_id p)); ("kind", Str (kind_debug_lower (prov_kind p))); ("base_url", Str (base_url p));
                 ("pool_id", Str (prov_pool_id p)); ("metadata", metadata p)]) <$> cs_providers s.

Definition listed_key (k : KeyEntry) : Value :=
  obj [("key_hash", Str (identity_hash k)); ("weight", json_int (weight k)); ("type", Str (cred_type_str k));
       ("issuer", opt_value Str (issuer k))].

Definition admin_api_list_pools (s : ConfigSnapshot) : list Value :=
  (fun ip => obj [("id", Str ip.1); ("strategy", Str "weighted_random"); ("key_count", json_int (Z.of_nat (length (keys ip.2))));
                  ("keys", Array (listed_key <$> keys ip.2))]) <$> dash_iter (cs_pools s).

Definition admin_api_list_routing (s : ConfigSnapshot) : Value :=
  obj [("routing", Array ((fun mr => obj [("logical_model", Str mr.1); ("pool_id", Str (pool_id mr.2));
                                          ("upstream_model", opt_value Str (upstream_model mr.2))])
                            <$> dash_iter (cs_routing s)))].
End Lists.

(* ------------------------------------------------------------------ *)
(** ** The leaves survive *)

(** An entry without its stored identity. *)
Definition forget_identity (k : KeyEntry) : KeyEntry :=
  mkKeyEntry (key k) (weight k) (cred_type k) (refresh k) (expires k) (issuer k) None.

(** The integers of an entry are in the range of their Rust types. *)
Definition key_typed (k : KeyEntry) : Prop :=
  0 <= weight k < 2 ^ 32 /\ (forall e, expires k = Some e -> - 2 ^ 63 <= e < 2 ^ 63).

Lemma u32_json_int n : 0 <= n < 2 ^ 32 -> u32_of_value (json_int n) = Some n.
Proof.
  intros Hn. unfold json_int. destruct (Z.ltb_spec n 0); [lia|]. cbn. unfold in_range.
  destruct (Z.leb_spec 0 n); [|lia]. by destruct (Z.ltb_spec n (2 ^ 32)); [|lia].
Qed.

Lemma i64_json_int n : - 2 ^ 63 <= n < 2 ^ 63 -> as_i64 (json_int n) = Some n.
Proof.
  intros Hn. unfold json_int. destruct (Z.ltb_spec n 0); cbn; [done|]. by destruct (Z.ltb_spec n (2 ^ 63)); [|lia].
Qed.

Lemma export_key_roundtrip k : key_typed k -> key_of_value (export_key k) = Some (forget_identity k).
Proof.
  intros [Hw He]. destruct k as [ky wt ty rf ex ii id]. cbn in Hw, He.
  unfold key_of_value, export_key, forget_identity. cbn [key weight cred_type refresh expires issuer].
  apply u32_json_int in Hw. revert Hw. generalize (json_int wt). intros vw Hw.
  assert (match ex with Some e => exists n, json_int e = Number n /\ as_i64 (Number n) = Some e | None => True end) as He'.
  { destruct ex as [e|]; [|done]. eexists. split; [reflexivity|]. by apply i64_json_int, He. }
  clear He. destruct ex as [e|]; [destruct He' as (n & En & Hn); cbn [fmap option_fmap option_map]; rewrite En|];
    destruct ty, rf as [r|], ii as [i|]; lazy -[u32_of_value as_i64]; rewrite Hw; lazy -[as_i64]; rewrite ?Hn; reflexivity.
Qed.

Lemma export_provider_roundtrip p : provider_of_value (export_provider p) = Some p.
Proof. destruct p as [id pool url kind md]. destruct kind; lazy; reflexivity. Qed.

Lemma decode_list_map {A B C} (f : B -> option C) (g : A -> B) (h : A -> C) l :
  Forall (fun x => f (g x) = Some (h x)) l -> decode_list f (g <$> l) = Some (h <$> l).
Proof. induction 1 as [|x l Hx _ IH]; [done|]. csimpl. by rewrite Hx, IH. Qed.

Lemma decode_map_lookup {A B} (f : A -> option B) (m : gmap string A) :
  map_Forall (fun _ x => is_Some (f x)) m ->
  exists m', decode_map f m = Some m' /\ forall k, m' !! k = m !! k ≫= f.
Proof.
  intros H. exists (omap f m). unfold decode_map. split.
  - rewrite (proj2 (forallb_forall _ _)); [done|]. intros [k x] Hin%list_elem_of_In. apply elem_of_map_to_list in Hin.
    apply is_some_true. by apply (H k).
  - intros k. by rewrite lookup_omap.
Qed.

(** ** The document of a snapshot, decoded *)

Record snap_typed (s : ConfigSnapshot) : Prop := {
  typed_keys : map_Forall (fun _ p => Forall key_typed (keys p)) (cs_pools s)
}.

Lemma exported_config server path s : snap_typed s ->
  exists c, document_config (export_document server path s) = Some c
    /\ (forall id, pools c !! id = (fun p => mkPool (forget_identity <$> keys p)) <$> cs_pools s !! id)
    /\ providers c = cs_providers s
    /\ (forall m, model_to_pool c !! m = (cs_routing s !! m) ≫= fun r => routing_of_value (to_export_value r))
    /\ model_registry c = [].
Proof.
  intros [Hk]. unfold document_config, export_document. cbn [ed_pools ed_providers ed_model_to_pool].
  assert (Hpool : forall id p, cs_pools s !! id = Some p ->
    pool_of_export (mkExportPool (export_key <$> keys p) "weighted_random") = Some (mkPool (forget_identity <$> keys p))).
  { intros id p Hp. unfold pool_of_export. cbn. rewrite (decode_list_map _ _ forget_identity); [done|].
    eapply Forall_impl; [exact (Hk id p Hp)|]. intros k. apply export_key_roundtrip. }
  destruct (decode_map_lookup pool_of_export ((fun p => mkExportPool (export_key <$> keys p) "weighted_random") <$> cs_pools s))
    as (ps & Hps & Hpl).
  { intros id x. rewrite lookup_fmap, fmap_Some. intros (p & Hp & ->). rewrite (Hpool id p Hp). eauto. }
  destruct (decode_map_lookup routing_of_value (to_export_value <$> cs_routing s)) as (rs & Hrs & Hrl).
  { intros m x. rewrite lookup_fmap, fmap_Some. intros (r & _ & ->). destruct (routing_export_roundtrip r) as (r' & -> & _). eauto. }
  rewrite Hps, Hrs. cbn. rewrite (decode_list_map _ _ id), list_fmap_id by (apply Forall_forall; intros; apply export_provider_roundtrip).
  cbn. eexists. split; [done|]. cbn. split; [|split; [done|split; [|done]]].
  - intros i. rewrite Hpl, lookup_fmap. destruct (cs_pools s !! i) as [p|] eqn:E; [|done]. cbn. by apply (Hpool i).
  - intros m. rewrite Hrl, lookup_fmap. by destruct (cs_routing s !! m).
Qed.

(* ------------------------------------------------------------------ *)
(** ** Export and import *)

Section ExportClaims.
Context `{SX : Sqlx} `{SJ : SerdeJson} `{DG : Digest}.
Context `{DP : !DashIter string ModelPricing} `{DE : !DashIter string PriceEntry}.
Context `{DR : !DashIter string ModelRouting} `{DO : !DashIter string PoolConfig}.
(** serde_yaml: a printer and a parser. *)
Context (yaml_text : ExportDocument -> string) (yaml_config : string -> Result Config string).

(** The parser reads the data of a document it has printed. *)
Definition yaml_reads_back (d : ExportDocument) : Prop :=
  forall c, document_config d = Some c -> yaml_config (yaml_text d) = Ok c.

Definition admin_api_config_export (server : ExportServer) (db_path : string) (s : ConfigSnapshot) : string :=
  yaml_text (export_document server db_path s).

(** What an exporter can rely on: a consistent snapshot whose providers have a
    pool, with distinct ids and JSON values that survive printing. *)
Record exportable (s : ConfigSnapshot) : Prop := {
  ex_good : snap_good s;
  ex_typed : snap_typed s;
  ex_providers : Forall (fun p => is_Some (cs_pools s !! prov_pool_id p)) (cs_providers s);
  ex_ids : NoDup (prov_id <$> cs_providers s);
  ex_metadata : Forall (fun p => is_object (metadata p) = true /\ json_faithful (metadata p)) (cs_providers s);
  ex_params : map_Forall (fun _ r => forall v, default_params r = Some v -> json_faithful v) (cs_routing s)
}.

Lemma key_valid_forget k : key_valid k -> key_valid (forget_identity k).
Proof. done. Qed.

Lemma exported_valid s c : exportable s ->
  (forall id, pools c !! id = (fun p => mkPool (forget_identity <$> keys p)) <$> cs_pools s !! id) ->
  providers c = cs_providers s ->
  (forall m, model_to_pool c !! m = (cs_routing s !! m) ≫= fun r => routing_of_value (to_export_value r)) ->
  model_registry c = [] -> config_valid c /\ importable c.
Proof.
  intros [[Hr Hk] [Ht] Hp Hid Hmd Hdp] Hpools Hprov Hrout Hreg.
  assert (Hroute : forall m r', model_to_pool c !! m = Some r' ->
    exists r, cs_routing s !! m = Some r /\ pool_id r' = pool_id r /\ default_params r' = default_params r).
  { intros m r'. rewrite Hrout. destruct (cs_routing s !! m) as [r|]; [|done]. cbn. intros E.
    destruct (routing_export_roundtrip r) as (r0 & E0 & H1 & H2 & _). exists r. rewrite E0 in E. by injection E as <-. }
  split.
  - split; [|split; [|split; [|split]]].
    + intros m r' Hm. destruct (Hroute m r' Hm) as (r & Hr' & -> & _). rewrite Hpools. by apply fmap_is_Some, (Hr m).
    + rewrite Hprov. eapply Forall_impl; [exact Hp|]. intros p Hs. cbn. rewrite Hpools. by apply fmap_is_Some.
    + intros i p. rewrite Hpools, fmap_Some. intros (p0 & Hp0 & ->). cbn. apply Forall_fmap.
      eapply Forall_impl; [exact (Hk i p0 Hp0)|]. done.
    + by rewrite Hreg.
    + rewrite Hreg. constructor.
  - split; [| | | |by rewrite Hprov].
    + intros i p. rewrite Hpools, fmap_Some. intros (p0 & Hp0 & ->). cbn. apply Forall_fmap.
      eapply Forall_impl; [exact (Ht i p0 Hp0)|]. by intros k [Hw _].
    + intros m r' Hm v. destruct (Hroute m r' Hm) as (r & Hr' & _ & ->). by apply (Hdp m).
    + rewrite Hprov. eapply Forall_impl; [exact Hmd|]. intros p [H1 H2]. cbn. by rewrite H1.
    + by rewrite Hreg.
Qed.

(** Claim C25: a configuration exported from one gateway and imported by another one
    gives it the same configuration: the same pools with the same keys (secret,
    weight, type, refresh token, expiry and issuer), the same routes and the same
    providers, whatever the importer had before.  This is for an exporter whose
    providers all have a pool and distinct ids, whose keys are within their columns,
    and whose JSON parameters and metadata survive printing, and for an import during
    which the database does not fail, into a database whose catalog limits fit their
    type; of the YAML library it is taken that it reads back what it wrote.  (A
    provider without a pool can be stored, and its export is refused.) *)
Theorem config_export_import server path s now w :
  yaml_reads_back (export_document server path s) ->
  exportable s -> quiet w -> Forall row_fits (model_registry_tbl (w_db w)) ->
  exists w', import_yaml yaml_config (admin_api_config_export server path s) now w = (w', Ok tt)
  /\ (forall id, match cs_pools s !! id with
                 | Some p => exists ks, cs_pools (w_store w') !! id = Some (mkPool ks)
                                        /\ forget_identity <$> ks ≡ₚ forget_identity <$> keys p
                 | None => cs_pools (w_store w') !! id = None
                 end)
  /\ (forall m, route_view <$> cs_routing (w_store w') !! m = route_view <$> cs_routing s !! m)
  /\ cs_providers (w_store w') ≡ₚ cs_providers s.
Proof.
  intros Hyaml Hs Hq Hfit. destruct (exported_config server path s (ex_typed s Hs)) as (c & Hc & Hpools & Hprov & Hrout & Hreg).
  destruct (exported_valid s c Hs Hpools Hprov Hrout Hreg) as [Hval Himp].
  assert (validate_yaml yaml_config (admin_api_config_export server path s) = Ok c) as Hv.
  { unfold validate_yaml, admin_api_config_export. rewrite (Hyaml _ Hc). apply validate_ok in Hval.
    by destruct (Config.validate c). }
  destruct (import_yaml_result yaml_config _ c now w Hv Himp Hq Hfit) as (w' & Hw & Hp & Hm & Hps & _).
  exists w'. split; [done|]. split; [|split].
  - intros i. specialize (Hp i). rewrite Hpools in Hp. destruct (cs_pools s !! i) as [p|]; [|done]. cbn in Hp.
    destruct Hp as (ks & Hks & Hperm). exists ks. split; [done|]. rewrite Hperm, <- !list_fmap_compose. done.
  - intros m. rewrite Hm, Hrout. destruct (cs_routing s !! m) as [r|]; [|done]. cbn.
    destruct (routing_export_roundtrip r) as (r' & -> & H1 & H2 & H3). cbn. unfold route_view. congruence.
  - rewrite Hps, Hprov. apply reflexive_eq. rewrite <- (list_fmap_id (cs_providers s)) at 2. apply list_fmap_ext.
    intros i p Hi. pose proof (ex_metadata s Hs) as Hmd. rewrite Forall_forall in Hmd.
    destruct (Hmd p (list_elem_of_lookup_2 _ _ _ Hi)) as [Ho _]. unfold stored_provider. rewrite Ho. by destruct p.
Qed.
End ExportClaims.

(* ------------------------------------------------------------------ *)
(** ** A concrete export *)

Module ExportDemo.
Import StoreDemo.
#[export] Existing Instances sqlx serde digest it_prices it_entries it_routes it_pools.
Definition key1 : KeyEntry := mkKeyEntry "tok" 2 Oauth (Some "r") (Some 77) (Some "xai") (Some "id-1").
Definition up : ProviderConfig := mkProviderConfig "up" "p" "https://up" Gemini (obj []).
Definition snap : ConfigSnapshot :=
  mkSnapshot [up] {["p" := mkPool [key1]]} {["gpt" := WithParams "p" params (Some "gpt-large")]} [] metadata_default
    (mkPricing ∅) (mkPricing ∅) runtime_default 9.
Definition server : ExportServer := mkExportServer "127.0.0.1" 8080 1073741824.
Definition read_doc (s : string) : Result Config string :=
  match document_config (export_document server "db" snap) with Some c => Ok c | None => Err "" end.
(** Another gateway, with a configuration of its own. *)
Definition other : World :=
  mkWorld [] (mkDatabase [mkPoolRow "old" "weighted_random" 1] [] [] [mkRoutingRow "x" "old" None None 1] [] [] 0) snapshot_default.
End ExportDemo.

Section ExportWitnesses.
Import ExportDemo.

Lemma snap_exportable : exportable snap.
Proof.
  split; [split|split|..]; cbn [snap cs_pools cs_routing cs_providers].
  - apply map_Forall_singleton. vm_compute. eauto.
  - apply map_Forall_singleton. constructor; [|constructor]. split; eauto.
  - apply map_Forall_singleton. constructor; [|constructor]. split; [cbn; lia|]. intros e [= <-]. lia.
  - constructor; [|constructor]. vm_compute. eauto.
  - apply NoDup_singleton.
  - repeat constructor.
  - apply map_Forall_singleton. intros v [= <-]. reflexivity.
Qed.

Theorem config_export_import_witness :
  exists w', import_yaml read_doc (admin_api_config_export (fun _ => "") server "db" snap) 5 other = (w', Ok tt)
  /\ (exists ks, cs_pools (w_store w') !! "p" = Some (mkPool ks) /\ forget_identity <$> ks ≡ₚ [forget_identity key1])
  /\ cs_providers (w_store w') ≡ₚ [up].
Proof.
  destruct (config_export_import (fun _ => "") read_doc server "db" snap 5 other) as (w' & H1 & H2 & _ & H4).
  - intros c Hc. unfold read_doc. rewrite Hc. reflexivity.
  - apply snap_exportable.
  - reflexivity.
  - constructor.
  - exists w'. split; [exact H1|]. split; [exact (H2 "p")|exact H4].
Defined.

(** After a pool is deleted its provider stays; the exported document is then
    refused. *)
Example dangling_provider_blocks_import :
  let s := mkSnapshot [up] ∅ ∅ [] metadata_default (mkPricing ∅) (mkPricing ∅) runtime_default 9 in
  exists c e, document_config (export_document server "db" s) = Some c /\ validate_yaml (fun _ => Ok c) "" = Err e.
Proof. do 2 eexists. split; vm_compute; reflexivity. Qed.
End ExportWitnesses.
