(* ===== verification/ModelImport.v ===== *)
(** * Importing model metadata

    Models [src/src/model_import.rs]: reading a models.dev catalog, choosing the
    catalog entry and the local provider of every routed model, mapping an entry
    to a registry row, and the transaction that writes the rows.  The text of
    the catalog comes from a file or over HTTP, which are parameters. *)

From S2P Require Import Prelude Json Types Config Pricing Db ConfigStore Providers Catalog AdminApi.

(** ** Reports and candidates *)

Record ImportCounts := mkCounts { cnt_new : nat; cnt_skipped : nat; cnt_conflicts : nat; cnt_failed : nat }.
Definition counts_default : ImportCounts := mkCounts 0 0 0 0.
Record ImportReport := mkReport { counts : ImportCounts; reasons : list string }.

Definition report_new (r : ImportReport) : ImportReport :=
  let c := counts r in mkReport (mkCounts (S (cnt_new c)) (cnt_skipped c) (cnt_conflicts c) (cnt_failed c)) (reasons r).
Definition report_skipped (r : ImportReport) (reason : string) : ImportReport :=
  let c := counts r in
  mkReport (mkCounts (cnt_new c) (S (cnt_skipped c)) (cnt_conflicts c) (cnt_failed c)) (reasons r ++ [reason]).
Definition report_conflict (r : ImportReport) (reason : string) : ImportReport :=
  let c := counts r in
  mkReport (mkCounts (cnt_new c) (cnt_skipped c) (S (cnt_conflicts c)) (cnt_failed c)) (reasons r ++ [reason]).

Record Candidate := mkCandidate { cand_id : string; cand_provider : string; cand_value : Value }.

(** ** Names *)

(** [s.to_ascii_lowercase().replace(['-', '_', ' '], "")] *)
Fixpoint drop_separators (s : string) : string :=
  match s with
  | EmptyString => EmptyString
  | String c s' => if existsb (Ascii.eqb c) ["-"%char; "_"%char; " "%char] then drop_separators s'
                   else String c (drop_separators s')
  end.
Definition norm (s : string) : string := drop_separators (to_ascii_lowercase s).

Definition model_id_matches (destination catalog_id : string) : bool :=
  str_eqb destination catalog_id
  || ends_with destination ("/" +:+ catalog_id)
  || ends_with catalog_id ("/" +:+ destination)
  || str_contains catalog_id destination.

Definition compatible_pairs : list (string * string) :=
  [("xai", "openai"); ("xai", "azure"); ("deepseek", "openai"); ("google", "gemini"); ("openai", "azure");
   ("azureopenai", "azure"); ("azureopenai", "openai"); ("zai", "openai"); ("zhipuai", "openai"); ("zhipu", "openai")].

Definition compatible_provider (source configured_id configured_kind : string) : bool :=
  let s := norm source in
  let id := norm configured_id in
  let kind := norm configured_kind in
  if str_eqb s id || str_eqb s kind then true
  else existsb (fun p => str_eqb s p.1 && str_eqb kind p.2) compatible_pairs.

Definition canonical_catalog_rank (provider : string) : Z :=
  let p := norm provider in
  if existsb (str_eqb p) ["openai"; "anthropic"; "google"; "xai"; "deepseek"; "mistral"] then 15
  else if str_eqb p "zai" then 14
  else if str_eqb p "zhipuai" then 13
  else if str_eqb p "zhipu" then 12
  else if str_eqb p "groq" then 11
  else 0.

Definition name_score (destination id : string) : Z :=
  if str_eqb id destination then 100
  else if ends_with destination ("/" +:+ id) || ends_with id ("/" +:+ destination) then 80
  else if str_contains id destination then 40 + Z.of_nat (min (String.length id) 20)
  else 0.

Definition catalog_score (destination : string) (c : Candidate) (provider_rows : list (string * string)) : Z :=
  name_score destination (cand_id c)
  + (if existsb (fun r => compatible_provider (cand_provider c) r.1 r.2) provider_rows then 20 else 0)
  + canonical_catalog_rank (cand_provider c).

(** ** Choosing *)

(** [Ordering::then_with] *)
Definition then_with (a b : comparison) : comparison := match a with Eq => b | _ => a end.
Definition bool_cmp (a b : bool) : comparison :=
  match a, b with false, true => Lt | true, false => Gt | _, _ => Eq end.

Definition tie_break (a b : Candidate) : comparison :=
  let a_cost := is_some (get "cost" (cand_value a)) in
  let b_cost := is_some (get "cost" (cand_value b)) in
  then_with (bool_cmp b_cost a_cost)
    (then_with (String.compare (cand_provider a) (cand_provider b)) (String.compare (cand_id a) (cand_id b))).

Definition pick_step (destination : string) (provider_rows : list (string * string))
    (best : option (Candidate * Z)) (c : Candidate) : option (Candidate * Z) :=
  if negb (model_id_matches destination (cand_id c)) then best
  else
    let score := catalog_score destination c provider_rows in
    match best with
    | None => Some (c, score)
    | Some (best_candidate, best_score) =>
        match score ?= best_score with
        | Gt => Some (c, score)
        | Lt => best
        | Eq => match tie_break c best_candidate with Lt => Some (c, score) | _ => best end
        end
    end.

Definition pick_catalog_match (candidates : list Candidate) (destination : string)
    (provider_rows : list (string * string)) : option Candidate :=
  fst <$> foldl (pick_step destination provider_rows) None candidates.

Definition pick_local_provider (provider_rows : list (string * string)) (catalog_provider : string)
    : option (string * string) :=
  if (length provider_rows =? 1)%nat then head provider_rows
  else
    let matching := List.filter (fun r => compatible_provider catalog_provider r.1 r.2) provider_rows in
    if (length matching =? 1)%nat then head matching else None.

(** ** Mapping an entry *)

Definition positive_i64 (v : option Value) (field : string) : Result Z string :=
  let? n := ok_or (v ≫= as_i64) (field +:+ " must be an integer") in
  if n <=? 0 then Err (field +:+ " must be positive") else Ok n.

(** A JSON number is finite. *)
Definition price (cost : Value) (field : string) : Result Q string :=
  let? n := ok_or (get field cost ≫= as_f64) ("cost." +:+ field +:+ " must be a number") in
  if negb (Qle_bool 0 n) then Err ("cost." +:+ field +:+ " invalid") else Ok n.

Definition sensitive (k : string) : bool :=
  let n := norm k in
  existsb (fun x => str_contains x n) ["key"; "token"; "secret"; "password"; "credential"; "authorization"].

#[global] Arguments sensitive : simpl never.

Fixpoint sanitize (v : Value) : Value :=
  match v with
  | Object m => Object ((fix go (m : list (string * Value)) : list (string * Value) :=
                           match m with
                           | [] => []
                           | (k, v) :: m' => if sensitive k then go m' else (k, sanitize v) :: go m'
                           end) m)
  | Array a => Array (map sanitize a)
  | _ => v
  end.

Definition add_level (m : Map) (value : Value) : Map :=
  match opt_filter (fun s => negb (str_is_empty (trim s))) (as_str value) with
  | None => m
  | Some level =>
      match canonical_thinking_level level with
      | None => m
      | Some canonical => map_insert canonical (Str level) m
      end
  end.

Definition is_effort (option : Value) : bool :=
  match get_str "type" option with Some kind => str_eqb kind "effort" | None => false end.

Definition thinking_level_map (model : Value) : option Value :=
  options ← (get "reasoning_options" model ≫= as_array);
  effort ← List.find is_effort options;
  values ← (get "values" effort ≫= as_array);
  match foldl add_level [] values with [] => None | m => Some (Object m) end.

Record MappedModel := mkMapped {
  mm_name : string; mm_vision : bool; mm_tools : bool; mm_json_mode : bool; mm_context : Z; mm_output : Z;
  mm_input_price : option Q; mm_output_price : option Q; mm_caps : string
}.

(** The stored copy of the entry. *)
Definition safe_metadata (model : Value) : Value :=
  match sanitize model with
  | Object o =>
      let o := map_remove "name" (map_remove "id" o) in
      match map_get "thinkingLevelMap" o, thinking_level_map model with
      | None, Some levels => Object (map_insert "thinkingLevelMap" levels o)
      | _, _ => Object o
      end
  | v => v
  end.

Definition imported_capabilities (provider_id : string) (model : Value) : Value :=
  obj [("source_provider", Str provider_id);
       ("reasoning", unwrap_or (get "reasoning" model) Null);
       ("metadata", safe_metadata model)].

Definition sees_images (model : Value) : bool :=
  match (get "modalities" model ≫= get "input") ≫= as_array with
  | Some input => existsb (fun v => match as_str v with Some s => str_eqb s "image" | None => false end) input
  | None => false
  end.

Definition costs (model : Value) : Result (option Q * option Q) string :=
  match get "cost" model with
  | Some cost => let? i := price cost "input" in let? o := price cost "output" in Ok (Some i, Some o)
  | None => Ok (None, None)
  end.

Section MapModel.
Context `{SJ : SerdeJson}.

Definition map_model (provider_id : string) (model : Value) : Result MappedModel string :=
  let? name := ok_or (opt_filter (fun s => negb (str_is_empty (trim s))) (get_str "name" model)) "model name must be non-empty" in
  let? limit := ok_or (get "limit" model ≫= as_object) "limit must be an object" in
  let? context := positive_i64 (map_get "context" limit) "limit.context" in
  let? output := positive_i64 (map_get "output" limit) "limit.output" in
  let vision := sees_images model in
  let tools := unwrap_or (get "tool_call" model ≫= as_bool) false in
  let json_mode := unwrap_or (get "structured_output" model ≫= as_bool) false in
  let? prices := costs model in
  Ok (mkMapped name vision tools json_mode context output prices.1 prices.2 (to_string (imported_capabilities provider_id model))).
End MapModel.

(** ** Reading the catalog *)

Definition entry_id (model_key : string) (model : Value) : string :=
  unwrap_or (opt_filter (fun s => negb (str_is_empty (trim s))) (get_str "id" model)) model_key.

(** The models of one provider; [seen] are the pairs met so far. *)
Fixpoint read_models (provider : string) (seen : gset (string * string)) (models : Map)
    : Result (gset (string * string) * list Candidate) AppError :=
  match models with
  | [] => Ok (seen, [])
  | (model_key, model) :: rest =>
      let id := entry_id model_key model in
      if str_is_empty (trim id) then Err (ConfigError "model id must be a non-empty string")
      else if bool_decide ((provider, id) ∈ seen)
      then Err (ConfigError ("duplicate source model id '" +:+ id +:+ "' for provider '" +:+ provider +:+ "'"))
      else
        let? r := read_models provider ({[(provider, id)]} ∪ seen) rest in
        Ok (r.1, mkCandidate id provider model :: r.2)
  end.

Fixpoint read_catalog (seen : gset (string * string)) (providers : Map) : Result (list Candidate) AppError :=
  match providers with
  | [] => Ok []
  | (provider, group) :: rest =>
      match get "models" group with
      | None => read_catalog seen rest
      | Some models_value =>
          let? models := ok_or (as_object models_value) (ConfigError ("provider '" +:+ provider +:+ "' models must be an object")) in
          let? r := read_models provider seen models in
          let? cs := read_catalog r.1 rest in
          Ok (r.2 ++ cs)
      end
  end.

(** ** The transaction *)

Section Importing.
Context `{SX : Sqlx} `{SJ : SerdeJson} `{SD : StatusDisplay}.
(** The text of serde_json's error for a document. *)
Context (json_error : string -> string).
(** [tokio::fs::read_to_string], and an HTTP GET: the status with the body, or the
    text of the error. *)
Context (read_file : string -> Result string string) (http_get : string -> Result (Z * Result string string) string).

Definition db_err (e : DbError) : AppError := Internal ("model import database error: " +:+ db_display e).

(** The row of an import: the update leaves [enabled] as it was. *)
Definition mapped_row (destination provider_kind provider_id : string) (m : MappedModel) (enabled : Z) : RegistryRow :=
  mkRegistryRow destination (mm_name m) provider_kind (Some provider_id)
    (z_of_bool (mm_vision m)) (z_of_bool (mm_tools m)) (z_of_bool (mm_json_mode m)) (mm_context m) (mm_output m)
    (mm_input_price m) (mm_output_price m) (Some (mm_caps m)) enabled.

Definition update_metadata (destination provider_kind provider_id : string) (m : MappedModel) : Stmt unit :=
  write (fun d => set_model_registry d
    ((fun r => if str_eqb (mr_id r) destination then mapped_row destination provider_kind provider_id m (mr_enabled r) else r)
       <$> model_registry_tbl d)).

Definition providers_of_pool (pool_id : string) (d : Database) : list (string * string) :=
  (fun r => (pc_id r, pc_kind r)) <$>
    scan (List.filter (fun r => str_eqb (pc_pool_id r) pool_id && is_one (pc_enabled r)) (provider_config_tbl d)).

(** The body of the loop over the routed models. *)
Definition import_row (candidates : list Candidate) (overwrite : bool) (report : ImportReport)
    (row : string * string * option string) : M ImportReport :=
  let '(destination, pool_id, upstream) := row in
  let catalog_id := unwrap_or (non_empty (trim <$> upstream)) destination in
  pool ← run db_err (count_enabled_pools pool_id);
  if (pool =? 0)%nat then mret (report_skipped report (destination +:+ ": pool unavailable"))
  else
    provider_rows ← run db_err (read (providers_of_pool pool_id));
    match provider_rows with
    | [] => mret (report_skipped report (destination +:+ ": provider unavailable"))
    | _ =>
        match pick_catalog_match candidates catalog_id provider_rows with
        | None => mret (report_skipped report (destination +:+ ": no associated metadata"))
        | Some source =>
            match pick_local_provider provider_rows (cand_provider source) with
            | None => mret (report_conflict report (destination +:+ ": provider association is not unambiguous"))
            | Some (provider_id, provider_kind) =>
                mapped ← lift (match map_model provider_id (cand_value source) with
                               | Ok m => Ok m
                               | Err e => Err (ConfigError (destination +:+ ": " +:+ e))
                               end);
                exists_ ← run db_err (read (fun d => registry_known d destination));
                if exists_ && negb overwrite
                then mret (report_conflict report (destination +:+ ": protected existing record"))
                else
                  _ ← run db_err (if exists_ then update_metadata destination provider_kind provider_id mapped
                                  else insert_registry_row (mapped_row destination provider_kind provider_id mapped 1));
                  mret (report_new report)
            end
        end
    end.

Fixpoint import_rows (candidates : list Candidate) (overwrite : bool) (report : ImportReport)
    (rows : list (string * string * option string)) : M ImportReport :=
  match rows with
  | [] => mret report
  | row :: rest => import_row candidates overwrite report row ≫= fun r => import_rows candidates overwrite r rest
  end.

Definition routed_models (d : Database) : list (string * string * option string) :=
  (fun r => (rc_logical_model r, rc_pool_id r, rc_upstream_model r)) <$>
    scan (List.filter (fun r => is_one (rc_enabled r)) (routing_config_tbl d)).

Definition parse_catalog (text : string) : Result (list Candidate) AppError :=
  let? root := ok_or (from_str text) (ConfigError ("invalid model metadata JSON: " +:+ json_error text)) in
  let? providers := ok_or (as_object root) (ConfigError "model metadata root must be an object") in
  read_catalog ∅ providers.

Definition import_json (text : string) (overwrite : bool) : M ImportReport :=
  candidates ← lift (parse_catalog text);
  rows ← run (internal "load routing config") (read routed_models);
  transaction (internal "begin model import") (internal "commit model import")
    (import_rows candidates overwrite (mkReport counts_default []) rows).

Definition import_file (path : string) (overwrite : bool) : M ImportReport :=
  text ← lift (match read_file path with
               | Ok t => Ok t
               | Err e => Err (ConfigError ("cannot read model metadata source: " +:+ e))
               end);
  import_json text overwrite.

Definition is_remote_source (source : string) : bool :=
  let lower := trim source in starts_with lower "https://" || starts_with lower "http://".

Definition fetch_catalog (url : string) : Result string AppError :=
  match http_get url with
  | Err e => Err (ConfigError ("cannot fetch model catalog: " +:+ e))
  | Ok (status, body) =>
      if negb ((200 <=? status) && (status <? 300))
      then Err (ConfigError ("cannot fetch model catalog: HTTP " +:+ status_display status))
      else match body with
           | Ok text => Ok text
           | Err e => Err (ConfigError ("cannot read model catalog body: " +:+ e))
           end
  end.

Definition import_source (source : string) (overwrite : bool) : M ImportReport :=
  if is_remote_source source then text ← lift (fetch_catalog source); import_json text overwrite
  else import_file source overwrite.

Definition DEFAULT_SOURCE : string := "https://models.dev/api.json".
Definition import_default (overwrite : bool) : M ImportReport := import_source DEFAULT_SOURCE overwrite.
End Importing.

(* ------------------------------------------------------------------ *)
(** ** Nothing sensitive is stored *)

Inductive PathStep : Type := Key (k : string) | Index (i : nat).

Definition at_step (st : PathStep) (v : Value) : option Value :=
  match st with Key k => get k v | Index i => as_array v ≫= fun l => l !! i end.
Fixpoint value_at (path : list PathStep) (v : Value) : option Value :=
  match path with [] => Some v | st :: rest => at_step st v ≫= value_at rest end.
Definition step_sensitive (st : PathStep) : bool := match st with Key k => sensitive k | Index _ => false end.

Lemma sanitize_step st v :
  at_step st (sanitize v) = if step_sensitive st then None else sanitize <$> at_step st v.
Proof.
  destruct st as [k|i]; [|destruct v; try done; cbn; by rewrite list_lookup_fmap].
  cbn [step_sensitive]. destruct v as [| | | | |m]; cbn; try (by destruct (sensitive k)).
  induction m as [|[k' v'] m IH]; cbn; [by destruct (sensitive k)|]. destruct (sensitive k') eqn:Es; cbn.
  - rewrite IH. case_bool_decide as E; [|done]. subst. by rewrite Es.
  - case_bool_decide as E; [|done]. subst. by rewrite Es.
Qed.

(** What is left of a value: at a path with a sensitive name nothing, elsewhere
    what was there. *)
Lemma sanitize_at path v :
  value_at path (sanitize v) = if existsb step_sensitive path then None else sanitize <$> value_at path v.
Proof.
  revert v; induction path as [|st path IH]; intros v; [done|]. cbn. rewrite sanitize_step.
  destruct (step_sensitive st); [done|]. destruct (at_step st v) as [u|]; cbn; [apply IH|].
  by destruct (existsb _ _).
Qed.

(** *** The level map *)

Lemma levels_not_sensitive : Forall (fun l => sensitive l = false) THINKING_LEVEL_ORDER.
Proof. repeat constructor. Qed.

Lemma map_get_insert k v m k' : map_get k' (map_insert k v m) = if bool_decide (k = k') then Some v else map_get k' m.
Proof. case_bool_decide as E; [subst; apply map_get_insert_eq|by apply map_get_insert_ne]. Qed.

(** The rows of a level map are a canonical level with its wire value. *)
Definition level_row (k : string) (v : Value) : Prop :=
  exists l, v = Str l /\ canonical_thinking_level l = Some k.

Lemma add_level_rows vs m k v :
  (forall k v, map_get k m = Some v -> level_row k v) ->
  map_get k (foldl add_level m vs) = Some v -> level_row k v.
Proof.
  revert m; induction vs as [|x vs IH]; intros m Hm; cbn; [apply Hm|]. apply IH. intros k0 v0. unfold add_level.
  destruct (opt_filter _ (as_str x)) as [l|]; [|apply Hm]. destruct (canonical_thinking_level l) as [c|] eqn:Ec; [|apply Hm].
  rewrite map_get_insert. case_bool_decide as E; [|apply Hm]. intros [= <-]. subst. by exists l.
Qed.

Lemma thinking_map_rows model m k v : thinking_level_map model = Some (Object m) -> map_get k m = Some v -> level_row k v.
Proof.
  unfold thinking_level_map. destruct (get "reasoning_options" model ≫= as_array) as [os|]; [|done]. cbn.
  destruct (List.find is_effort os) as [e|]; [|done]. cbn. destruct (get "values" e ≫= as_array) as [vs|]; [|done]. cbn.
  destruct (foldl add_level [] vs) as [|x l] eqn:E; [done|]. intros [= <-]. rewrite <- E. by apply add_level_rows.
Qed.

Lemma level_row_at k v path w : level_row k v -> value_at path v = Some w -> path = [].
Proof. intros (l & -> & _). destruct path as [|[|] ]; done. Qed.

Lemma safe_metadata_at model path w :
  value_at path (safe_metadata model) = Some w -> existsb step_sensitive path = false.
Proof.
  intros H. assert (forall v, value_at path (sanitize v) = Some w -> existsb step_sensitive path = false) as Hs.
  { intros v. rewrite sanitize_at. by destruct (existsb _ _). }
  unfold safe_metadata in H. destruct (sanitize model) as [| | | | |o] eqn:Eo; try by (apply (Hs model); rewrite Eo).
  destruct path as [|st path]; [done|]. destruct st as [k|i]; [|by destruct (map_get _ _), (thinking_level_map model)].
  set (o' := map_remove "name" (map_remove "id" o)) in H.
  assert (Hget : forall v, map_get k o' = Some v -> map_get k o = Some v).
  { intros v. unfold o'. destruct (decide (k = "name")) as [->|H1]; [by rewrite map_get_remove_eq|].
    rewrite map_get_remove_ne by done. destruct (decide (k = "id")) as [->|H2]; [by rewrite map_get_remove_eq|].
    by rewrite map_get_remove_ne. }
  assert (Hplain : value_at (Key k :: path) (Object o') = Some w -> existsb step_sensitive (Key k :: path) = false).
  { cbn. destruct (map_get k o') as [v|] eqn:Ev; [|done]. cbn. intros Hv. apply (Hs model). rewrite Eo. cbn.
    by rewrite (Hget v eq_refl). }
  destruct (map_get "thinkingLevelMap" o'); [by apply Hplain|]. destruct (thinking_level_map model) as [lv|] eqn:El; [|by apply Hplain].
  cbn in H. rewrite map_get_insert in H. case_bool_decide as E; [|by apply Hplain]. subst k. cbn in H.
  assert (exists m, lv = Object m) as [m ->].
  { revert El. unfold thinking_level_map. repeat (match goal with |- context [?o ≫= _] => destruct o; [|done] end; cbn).
    destruct (foldl add_level [] _); [done|]. intros [= <-]. eauto. }
  destruct path as [|[k|i] path]; [done| |done]. cbn in H. destruct (map_get k m) as [v|] eqn:Em; [|done]. cbn in H.
  pose proof (thinking_map_rows _ _ _ _ El Em) as Hrow. apply (level_row_at k) in H as ->; [|done]. cbn.
  destruct Hrow as (l & _ & Hl%canonical_in_order). pose proof levels_not_sensitive as Hf. rewrite Forall_forall in Hf.
  by rewrite (Hf k Hl).
Qed.

(* ------------------------------------------------------------------ *)
(** ** The choice is a maximum *)

(** [c] is preferred to [b]. *)
Definition beats (destination : string) (rows : list (string * string)) (c b : Candidate) : Prop :=
  catalog_score destination b rows < catalog_score destination c rows
  \/ (catalog_score destination b rows = catalog_score destination c rows /\ tie_break c b = Lt).

Definition cand_key (c : Candidate) : string * string := (cand_provider c, cand_id c).

Lemma tie_break_trans a b c : tie_break a b = Lt -> tie_break b c = Lt -> tie_break a c = Lt.
Proof.
  unfold tie_break. generalize (is_some (get "cost" (cand_value a))) (is_some (get "cost" (cand_value b)))
    (is_some (get "cost" (cand_value c))). intros x y z.
  assert (forall p q r i j k : string,
    then_with (String.compare p q) (String.compare i j) = Lt -> then_with (String.compare q r) (String.compare j k) = Lt ->
    then_with (String.compare p r) (String.compare i k) = Lt) as H.
  { intros p q r i j k. destruct (String.compare p q) eqn:E1; [| |done]; (destruct (String.compare q r) eqn:E2; [| |done]); cbn.
    - apply String.compare_eq_iff in E1, E2. subst. rewrite compare_refl_str. apply str_compare_trans.
    - intros _ _. apply String.compare_eq_iff in E1. subst. by rewrite E2.
    - intros _ _. apply String.compare_eq_iff in E2. subst. by rewrite E1.
    - intros _ _. by rewrite (str_compare_trans _ _ _ E1 E2). }
  destruct x, y, z; cbn; try done; apply H.
Qed.

Lemma tie_break_flip a b : tie_break b a = CompOpp (tie_break a b).
Proof.
  unfold tie_break. rewrite (String.compare_antisym (cand_provider b)), (String.compare_antisym (cand_id b)).
  destruct (is_some (get "cost" (cand_value a))), (is_some (get "cost" (cand_value b))); cbn; try done;
    by destruct (String.compare _ _).
Qed.

Lemma tie_break_eq a b : tie_break a b = Eq -> cand_key a = cand_key b.
Proof.
  unfold tie_break, cand_key. destruct (is_some (get "cost" (cand_value a))), (is_some (get "cost" (cand_value b))); cbn; try done;
    (destruct (String.compare (cand_provider a) _) eqn:E1; [|done|done]); intros E2;
    apply String.compare_eq_iff in E1, E2; congruence.
Qed.

Lemma beats_trans d rows a b c : beats d rows a b -> beats d rows b c -> beats d rows a c.
Proof. unfold beats. intros [H1|[H1 T1]] [H2|[H2 T2]]; [left; lia..|]. right. split; [lia|]. by eapply tie_break_trans. Qed.

Lemma beats_asym d rows a b : beats d rows a b -> ~ beats d rows b a.
Proof. unfold beats. rewrite (tie_break_flip b a). intros [H|[H T]] [H'|[H' T']]; try lia. by rewrite T' in T. Qed.

Definition matches_id (destination : string) (c : Candidate) : Prop := model_id_matches destination (cand_id c) = true.

#[global] Instance matches_id_dec d c : Decision (matches_id d c).
Proof. unfold matches_id. apply _. Defined.

(** The best of the candidates. *)
Definition best_of (destination : string) (rows : list (string * string)) (cs : list Candidate) (c : Candidate) : Prop :=
  c ∈ cs /\ matches_id destination c
  /\ forall c', c' ∈ cs -> matches_id destination c' -> c' = c \/ beats destination rows c c'.

Lemma best_of_unique d rows cs c c' : best_of d rows cs c -> best_of d rows cs c' -> c = c'.
Proof.
  intros (H1 & H2 & H3) (H1' & H2' & H3'). destruct (H3 c' H1' H2') as [|Hb]; [done|].
  destruct (H3' c H1 H2) as [|Hb']; [done|]. by apply beats_asym in Hb.
Qed.

Lemma pick_step_cases d rows b sb c : cand_key c ≠ cand_key b -> sb = catalog_score d b rows -> matches_id d c ->
  (pick_step d rows (Some (b, sb)) c = Some (c, catalog_score d c rows) /\ beats d rows c b)
  \/ (pick_step d rows (Some (b, sb)) c = Some (b, sb) /\ beats d rows b c).
Proof.
  intros Hk -> Hm. unfold pick_step. rewrite Hm. cbn. unfold beats.
  destruct (Z.compare_spec (catalog_score d c rows) (catalog_score d b rows)) as [E|E|E]; [|by right; auto|by left; auto].
  destruct (tie_break c b) eqn:T; [by apply tie_break_eq in T|left|right].
  - split; [done|]. right. by rewrite E.
  - split; [done|]. right. split; [done|]. by rewrite tie_break_flip, T.
Qed.

Lemma pick_fold d rows cs : NoDup (cand_key <$> cs) ->
  match foldl (pick_step d rows) None cs with
  | Some (c, s) => best_of d rows cs c /\ s = catalog_score d c rows
  | None => Forall (fun c => ~ matches_id d c) cs
  end.
Proof.
  induction cs as [|c cs IH] using rev_ind; [by cbn|]. rewrite fmap_app, NoDup_app. intros (Hn & Hd & _). specialize (IH Hn).
  rewrite foldl_snoc. destruct (decide (matches_id d c)) as [Hm|Hm].
  2:{ unfold pick_step at 1. unfold matches_id in Hm. destruct (model_id_matches d (cand_id c)) eqn:E; [done|]. cbn.
      assert (~ matches_id d c) as Hm' by (unfold matches_id; congruence).
      destruct (foldl _ None cs) as [[b s]|]; [|by apply Forall_app_2; [|constructor]].
      destruct IH as [(H1 & H2 & H3) ->]. split; [|done]. split; [set_solver|]. split; [done|].
      intros c' [Hc|Hc%list_elem_of_singleton]%elem_of_app Hmc; [by apply H3|]. by subst. }
  destruct (foldl (pick_step d rows) None cs) as [[b s]|].
  - destruct IH as [(H1 & H2 & H3) Hs].
    assert (cand_key c ≠ cand_key b) as Hk.
    { intros E. apply (Hd (cand_key b)); [by apply list_elem_of_fmap_2|]. rewrite <- E. set_solver. }
    destruct (pick_step_cases d rows b s c Hk Hs Hm) as [[-> Hb]|[-> Hb]]; (split; [|done]);
      (split; [set_solver|split; [done|]]); intros c' [Hc|Hc%list_elem_of_singleton]%elem_of_app Hmc; try (subst; by auto).
    right. destruct (H3 c' Hc Hmc) as [->|Hb']; [done|]. by eapply beats_trans.
  - unfold pick_step. rewrite Hm. cbn. split; [|done]. split; [set_solver|split; [done|]].
    rewrite Forall_forall in IH. intros c' [Hc|Hc%list_elem_of_singleton]%elem_of_app Hmc; [by destruct (IH c' Hc)|by left].
Qed.

Lemma pick_elem d rows cs b c s : foldl (pick_step d rows) b cs = Some (c, s) -> c ∈ cs \/ b = Some (c, s).
Proof.
  revert b; induction cs as [|x cs IH]; intros b; cbn; [by right|]. intros [H|H]%IH; [set_solver|]. revert H. unfold pick_step.
  destruct (negb _); [by right|]. destruct b as [[b sb]|]; [|intros [= <- <-]; set_solver].
  destruct (_ ?= _); [destruct (tie_break x b)|..]; intros H; try (by right); simplify_eq; set_solver.
Qed.

Lemma pick_best d rows cs c : NoDup (cand_key <$> cs) ->
  pick_catalog_match cs d rows = Some c <-> best_of d rows cs c.
Proof.
  intros Hn. pose proof (pick_fold d rows cs Hn) as H. unfold pick_catalog_match.
  destruct (foldl _ None cs) as [[b s]|]; cbn.
  - destruct H as [H _]. split; [by intros [= <-]|]. intros Hc. f_equal. by eapply best_of_unique.
  - split; [done|]. intros (H1 & H2 & _). rewrite Forall_forall in H. by destruct (H c H1).
Qed.

#[global] Instance existsb_perm {A} (p : A -> bool) : Proper ((≡ₚ) ==> (=)) (existsb p).
Proof.
  intros l l' Hp. apply eq_true_iff_eq. rewrite !existsb_exists.
  split; intros (x & Hx & Hc); exists x; (split; [|done]); apply list_elem_of_In; apply list_elem_of_In in Hx; by (rewrite Hp || rewrite <- Hp).
Qed.

Lemma catalog_score_perm d c rows rows' : rows ≡ₚ rows' -> catalog_score d c rows = catalog_score d c rows'.
Proof. intros Hp. unfold catalog_score. by rewrite (existsb_perm _ _ _ Hp). Qed.

(** *** The keys of a catalog are distinct *)

Lemma read_models_spec provider seen models seen' cs :
  read_models provider seen models = Ok (seen', cs) ->
  NoDup (cand_key <$> cs) /\ (forall c, c ∈ cs -> cand_key c ∉ seen) /\ seen' = list_to_set (cand_key <$> cs) ∪ seen.
Proof.
  revert seen seen' cs; induction models as [|[k m] models IH]; intros seen seen' cs; cbn.
  { intros [= <- <-]. split; [constructor|]. split; [set_solver|]. cbn. set_solver. }
  destruct (str_is_empty _); [done|]. case_bool_decide as Hs; [done|].
  destruct (read_models _ _ models) as [[s1 cs1]|] eqn:E; [|done]. intros [= <- <-]. apply IH in E as (H1 & H2 & ->).
  split; [|split].
  - csimpl. constructor; [|done]. unfold cand_key at 1. cbn. rewrite list_elem_of_fmap. intros (c & Hk & Hc).
    apply H2 in Hc. rewrite <- Hk in Hc. set_solver.
  - intros c [-> |Hc]%elem_of_cons; [done|]. apply H2 in Hc. set_solver.
  - csimpl. unfold cand_key at 2. cbn. set_solver.
Qed.

Lemma read_catalog_spec seen providers cs : read_catalog seen providers = Ok cs ->
  NoDup (cand_key <$> cs) /\ forall c, c ∈ cs -> cand_key c ∉ seen.
Proof.
  revert seen cs; induction providers as [|[p g] ps IH]; intros seen cs; cbn.
  { intros [= <-]. split; [constructor|set_solver]. }
  destruct (get "models" g) as [mv|]; [|apply IH]. destruct (as_object mv) as [ms|]; cbn; [|done].
  destruct (read_models p seen ms) as [[s1 cs1]|] eqn:E1; [|done]. cbn.
  destruct (read_catalog s1 ps) as [cs2|] eqn:E2; [|done]. intros [= <-].
  apply read_models_spec in E1 as (H1 & H2 & ->). apply IH in E2 as [H3 H4]. split.
  - rewrite fmap_app. apply NoDup_app. split; [done|]. split; [|done]. intros k Hk (c & -> & Hc)%list_elem_of_fmap.
    apply H4 in Hc. apply Hc. by apply elem_of_union_l, elem_of_list_to_set.
  - intros c [Hc|Hc]%elem_of_app; [by apply H2|]. apply H4 in Hc. intros Hs. apply Hc. by apply elem_of_union_r.
Qed.

(* ------------------------------------------------------------------ *)
(** ** What an import writes *)

Definition total (c : ImportCounts) : nat := cnt_new c + cnt_skipped c + cnt_conflicts c + cnt_failed c.

(** Rows already in the registry when [overwrite] is off are a prefix of the new
    registry; with it on, only rows of routed models change. *)
Record imported (overwrite : bool) (dests : list string) (d d' : Database) (r r' : ImportReport) (n : nat) : Prop := {
  im_frame : d' = set_model_registry d (model_registry_tbl d');
  im_total : total (counts r') = (total (counts r) + n)%nat;
  im_failed : cnt_failed (counts r') = cnt_failed (counts r);
  im_protected : overwrite = false ->
    exists l, model_registry_tbl d' = model_registry_tbl d ++ l
              /\ cnt_new (counts r') = (cnt_new (counts r) + length l)%nat
              /\ Forall (fun row => mr_id row ∈ dests) l;
  im_unrouted : forall row, (mr_id row ∉ dests) -> row ∈ model_registry_tbl d <-> row ∈ model_registry_tbl d'
}.

Lemma imported_refl ov ds d r r' n :
  total (counts r') = (total (counts r) + n)%nat -> cnt_failed (counts r') = cnt_failed (counts r) ->
  cnt_new (counts r') = cnt_new (counts r) -> imported ov ds d d r r' n.
Proof.
  intros Ht Hf Hn. split; try done; [by destruct d|]. intros _. exists []. rewrite app_nil_r. split; [done|]. split; [cbn; lia|done].
Qed.

Lemma imported_trans ov ds1 ds2 d1 d2 d3 r1 r2 r3 n1 n2 :
  imported ov ds1 d1 d2 r1 r2 n1 -> imported ov ds2 d2 d3 r2 r3 n2 -> imported ov (ds1 ++ ds2) d1 d3 r1 r3 (n1 + n2).
Proof.
  intros [F1 T1 E1 P1 U1] [F2 T2 E2 P2 U2]. split; [by rewrite F2, F1|lia|congruence| |].
  - intros Ho. destruct (P1 Ho) as (l1 & Hl1 & Hn1 & Hf1). destruct (P2 Ho) as (l2 & Hl2 & Hn2 & Hf2).
    exists (l1 ++ l2). rewrite Hl2, Hl1, app_assoc, length_app. split; [done|]. split; [lia|].
    apply Forall_app. split; (eapply Forall_impl; [eassumption|]); cbn; set_solver.
  - intros row Hr. rewrite U1, U2; [done|set_solver..].
Qed.

Section ImportSpec.
Context `{SX : Sqlx} `{SJ : SerdeJson} `{SD : StatusDisplay}.

Lemma update_metadata_unrouted dest kind pid m d row : mr_id row ≠ dest ->
  row ∈ model_registry_tbl d <->
  row ∈ (fun r => if str_eqb (mr_id r) dest then mapped_row dest kind pid m (mr_enabled r) else r) <$> model_registry_tbl d.
Proof.
  intros Hne. rewrite list_elem_of_fmap. split.
  - intros Hr. exists row. split; [|done]. by rewrite str_eqb_ne.
  - intros (r & Hr & Hin). destruct (str_eqb (mr_id r) dest) eqn:E; [|by subst]. by rewrite Hr in Hne.
Qed.

Lemma import_row_spec cs ov r row w :
  match import_row cs ov r row w with
  | (w', Ok r') => imported ov [row.1.1] (w_db w) (w_db w') r r' 1 /\ w_store w' = w_store w
  | (w', Err _) => w_store w' = w_store w
  end.
Proof.
  destruct row as [[dest pool] up]. unfold import_row. cbn zeta.
  unfold mbind at 1, M_bind at 1.
  match goal with |- context [run ?e ?q w] => pose proof (run_cases e q w) as H; destruct (run e q w) as [w1 [np|er]] end;
    [|by destruct H]. destruct H as [[= Hd1 _] Hs1].
  destruct (np =? 0)%nat; [cbn; rewrite <- Hd1; split; [apply imported_refl; cbn; unfold total; cbn; lia|done]|].
  unfold mbind at 1, M_bind at 1.
  match goal with |- context [run ?e ?q w1] => pose proof (run_cases e q w1) as H; destruct (run e q w1) as [w2 [ps|er]] end;
    [|destruct H; congruence]. destruct H as [[= Hd2 _] Hs2]. rewrite <- Hs1, <- Hs2, Hd1, Hd2. clear Hs1 Hs2 Hd1 Hd2 w w1 np.
  destruct ps as [|p0 ps]; [cbn; split; [apply imported_refl; cbn; unfold total; cbn; lia|done]|].
  destruct (pick_catalog_match _ _ _) as [c|]; [|cbn; split; [apply imported_refl; cbn; unfold total; cbn; lia|done]].
  destruct (pick_local_provider _ _) as [[pid kind]|]; [|cbn; split; [apply imported_refl; cbn; unfold total; cbn; lia|done]].
  destruct (map_model pid (cand_value c)) as [m|e]; [|done].
  unfold mbind at 1, M_bind at 1, lift at 1. unfold mbind at 1, M_bind at 1.
  match goal with |- context [run ?e ?q w2] => pose proof (run_cases e q w2) as H; destruct (run e q w2) as [w3 [ex|er]] end;
    [|by destruct H]. destruct H as [[= Hd3 Hex] Hs3].
  destruct (ex && negb ov) eqn:Eo; [cbn; rewrite <- Hd3; split; [apply imported_refl; cbn; unfold total; cbn; lia|done]|].
  rewrite Hd3, <- Hs3. rewrite Hd3 in Hex. clear Hd3 Hs3 w2. unfold mbind, M_bind.
  match goal with |- context [run ?e ?q w3] => pose proof (run_cases e q w3) as H; destruct (run e q w3) as [w4 [[]|er]] end;
    [|by destruct H]. destruct H as [Hd4 Hs4]. split; [|done]. destruct ex.
  - unfold update_metadata, write in Hd4. injection Hd4 as Hd4. rewrite <- Hd4.
    split; cbn; [done|unfold total; cbn; lia|done|intros ->; done|]. intros row Hr. apply update_metadata_unrouted. set_solver.
  - unfold insert_registry_row in Hd4. cbn in Hd4. rewrite Hex in Hd4. injection Hd4 as Hd4. rewrite <- Hd4.
    split; cbn; [done|unfold total; cbn; lia|done| |].
    + intros _. eexists. split; [reflexivity|]. split; [cbn; lia|]. repeat constructor.
    + intros row Hr. rewrite elem_of_app, list_elem_of_singleton. split; [by left|]. intros [?| ->]; [done|]. set_solver.
Qed.

Lemma import_rows_spec cs ov rows r w :
  match import_rows cs ov r rows w with
  | (w', Ok r') => imported ov (fst <$> (fst <$> rows)) (w_db w) (w_db w') r r' (length rows) /\ w_store w' = w_store w
  | (w', Err _) => w_store w' = w_store w
  end.
Proof.
  revert r w; induction rows as [|row rows IH]; intros r w; cbn -[import_row].
  { split; [|done]. apply imported_refl; lia. }
  unfold mbind, M_bind. pose proof (import_row_spec cs ov r row w) as H. destruct (import_row cs ov r row w) as [w1 [r1|]]; [|done].
  destruct H as [H1 H2]. specialize (IH r1 w1). destruct (import_rows cs ov r1 rows w1) as [w2 [r2|]]; [|congruence].
  destruct IH as [H3 H4]. split; [|congruence]. by eapply (imported_trans ov [row.1.1] _ _ _ _ _ _ _ 1).
Qed.
End ImportSpec.

(* ------------------------------------------------------------------ *)
(** ** The import *)

Section ImportClaims.
Context `{SX : Sqlx} `{SJ : SerdeJson} `{SD : StatusDisplay}.
Context (json_error : string -> string).

Lemma routed_models_dests d : fst <$> (fst <$> routed_models d) ≡ₚ rc_logical_model <$> List.filter (fun r => is_one (rc_enabled r)) (routing_config_tbl d).
Proof. unfold routed_models. by rewrite <- !list_fmap_compose, scan_perm. Qed.

Lemma imported_perm ov ds ds' d d' r r' n : ds ≡ₚ ds' -> imported ov ds d d' r r' n -> imported ov ds' d d' r r' n.
Proof.
  intros Hp [F T E P U]. split; try done.
  - intros Ho. destruct (P Ho) as (l & Hl & Hn & Hf). exists l. split; [done|]. split; [done|].
    eapply Forall_impl; [exact Hf|]. cbn. intros x. by rewrite Hp.
  - intros row Hr. apply U. by rewrite Hp.
Qed.

Lemma import_json_result text overwrite w :
  match import_json json_error text overwrite w with
  | (w', Err _) => w_db w' = w_db w /\ w_store w' = w_store w
  | (w', Ok report) =>
      let routes := List.filter (fun r => is_one (rc_enabled r)) (routing_config_tbl (w_db w)) in
      let dests := rc_logical_model <$> routes in
      w_store w' = w_store w
      /\ (cnt_new (counts report) + cnt_skipped (counts report) + cnt_conflicts (counts report))%nat = length routes
      /\ w_db w' = set_model_registry (w_db w) (model_registry_tbl (w_db w'))
      /\ (overwrite = false ->
          exists l, model_registry_tbl (w_db w') = model_registry_tbl (w_db w) ++ l
                    /\ length l = cnt_new (counts report) /\ Forall (fun row => mr_id row ∈ dests) l)
      /\ (forall row, (mr_id row ∉ dests) -> row ∈ model_registry_tbl (w_db w) <-> row ∈ model_registry_tbl (w_db w'))
  end.
Proof.
  unfold import_json, mbind, M_bind, lift. destruct (parse_catalog json_error text) as [cs|]; [|done].
  match goal with |- context [run ?e ?q w] => pose proof (run_cases e q w) as H; destruct (run e q w) as [w1 [rows|er]] end; [|done].
  destruct H as [[= Hd1 Hrows] Hs1].
  match goal with |- context [transaction ?b ?c ?m w1] => pose proof (transaction_cases b c m w1) as H;
    assert (store_frame m) as Hf; [|pose proof (frame_transaction b c m Hf w1) as Hf1; destruct (transaction b c m w1) as [w2 [r|er]]] end.
  { intros w0. match goal with |- context [import_rows ?a ?b ?c ?d w0] => pose proof (import_rows_spec a b d c w0) as Hr;
      destruct (import_rows a b c d w0) as [w' []] end; [by destruct Hr|done]. }
  2:{ cbn in Hf1. split; congruence. }
  destruct H as (w0 & w3 & Hd0 & Hs0 & Hm & Hd3 & Hs3).
  match type of Hm with import_rows ?a ?b ?c ?d w0 = _ => pose proof (import_rows_spec a b d c w0) as Hr end.
  rewrite Hm, Hd0, <- Hd1, <- Hd3 in Hr. destruct Hr as [Hr _]. rewrite <- Hrows in Hr.
  eapply imported_perm in Hr; [|apply routed_models_dests]. destruct Hr as [F T E P U]. cbn in F, T, E, P.
  cbn in Hf1. split; [congruence|]. split; [|split; [done|split; [|done]]].
  - unfold total in T. cbn in T. rewrite E in T. unfold routed_models in T. rewrite length_fmap, scan_perm in T. cbn in T. lia.
  - intros Ho. destruct (P Ho) as (l & Hl & Hn & Hf'). exists l. auto.
Qed.

(** An import of catalog metadata is all or nothing: when it fails, the
    database is untouched; when it succeeds, the counts account for every enabled
    route exactly once, only the registry has changed, and there only rows of
    routed models; without [overwrite] the existing rows are kept as they are and
    the new ones, as many as reported, are added.  The snapshot in memory is not
    touched. *)
Theorem import_json_spec text overwrite w :
  match import_json json_error text overwrite w with
  | (w', Err _) => w_db w' = w_db w /\ w_store w' = w_store w
  | (w', Ok report) =>
      let routes := List.filter (fun r => is_one (rc_enabled r)) (routing_config_tbl (w_db w)) in
      let dests := rc_logical_model <$> routes in
      w_store w' = w_store w
      /\ (cnt_new (counts report) + cnt_skipped (counts report) + cnt_conflicts (counts report))%nat = length routes
      /\ w_db w' = set_model_registry (w_db w) (model_registry_tbl (w_db w'))
      /\ (overwrite = false ->
          exists l, model_registry_tbl (w_db w') = model_registry_tbl (w_db w) ++ l
                    /\ length l = cnt_new (counts report) /\ Forall (fun row => mr_id row ∈ dests) l)
      /\ (forall row, (mr_id row ∉ dests) -> row ∈ model_registry_tbl (w_db w) <-> row ∈ model_registry_tbl (w_db w'))
  end.
Proof. apply import_json_result. Qed.

(** The entry chosen for a model is the unique best of the catalog's
    matching entries: the highest score, then one with prices, then the least
    (provider, id); it does not depend on the order of the catalog or of the
    providers the database returns, so repeated imports choose alike. *)
Theorem catalog_choice_spec text cs destination rows :
  parse_catalog json_error text = Ok cs ->
  (forall c, pick_catalog_match cs destination rows = Some c <-> best_of destination rows cs c)
  /\ (forall cs' rows', cs' ≡ₚ cs -> rows' ≡ₚ rows ->
      pick_catalog_match cs' destination rows' = pick_catalog_match cs destination rows).
Proof.
  unfold parse_catalog. destruct (ok_or (from_str text) _) as [root|]; [|done].
  destruct (ok_or (as_object root) _) as [ps|]; [|done]. intros [Hn _]%read_catalog_spec.
  split; [intros c; by apply pick_best|]. intros cs' rows' Hc Hr.
  apply option_eq. intros c. rewrite !pick_best; [|done|by rewrite Hc]. unfold best_of, beats.
  setoid_rewrite Hc. by setoid_rewrite (fun x => catalog_score_perm destination x rows' rows Hr).
Qed.

(** Of a catalog entry nothing whose name looks like a credential is
    stored in the metadata of a model, at whatever depth of objects and arrays,
    and [sanitize] keeps everything else where it was. *)
Theorem stored_metadata_clean provider_id model path :
  (forall v, value_at (Key "metadata" :: path) (imported_capabilities provider_id model) = Some v ->
     existsb step_sensitive path = false)
  /\ value_at path (sanitize model) = if existsb step_sensitive path then None else sanitize <$> value_at path model.
Proof.
  split; [|apply sanitize_at]. intros v H. apply (safe_metadata_at model path v). revert H. unfold imported_capabilities. cbn -[safe_metadata].
  done.
Qed.

(** *** The invariant of the tables *)

(** The limits of an entry, when it has both, are small enough to be read back. *)
Definition cand_fits (c : Candidate) : Prop :=
  forall pid m, map_model pid (cand_value c) = Ok m -> mm_context m < 2 ^ 31 /\ mm_output m < 2 ^ 31.

Lemma positive_i64_pos v f n : positive_i64 v f = Ok n -> 0 < n.
Proof. unfold positive_i64. destruct (ok_or _ _) as [x|]; [|done]. destruct (Z.leb_spec x 0); [done|]. by intros [= <-]. Qed.

Lemma map_model_pos pid v m : map_model pid v = Ok m -> 0 < mm_context m /\ 0 < mm_output m.
Proof.
  unfold map_model. destruct (ok_or _ _) as [n|]; [|done]. destruct (ok_or (get "limit" v ≫= as_object) _) as [l|]; [|done].
  destruct (positive_i64 _ "limit.context") as [c|] eqn:Ec; [|done]. destruct (positive_i64 _ "limit.output") as [o|] eqn:Eo; [|done].
  destruct (costs v); [|done]. intros [= <-]. by apply positive_i64_pos in Ec, Eo.
Qed.

Lemma fits_row c pid dest kind m en : cand_fits c -> map_model pid (cand_value c) = Ok m -> row_fits (mapped_row dest kind pid m en).
Proof. intros Hc Hm. destruct (Hc pid m Hm). destruct (map_model_pos _ _ _ Hm). unfold row_fits. cbn. lia. Qed.

Lemma good_update_metadata dest kind pid m :
  (forall en, row_fits (mapped_row dest kind pid m en)) -> stmt_keeps db_good (update_metadata dest kind pid m).
Proof.
  intros Hr d d' [] [[] ] [= <-]. split; [split|..]; cbn; try done.
  - rewrite <- list_fmap_compose. erewrite list_fmap_ext; [exact registry_unique|]. intros i x _. cbn.
    destruct (str_eqb (mr_id x) dest) eqn:E; [|done]. cbn. by apply str_eqb_spec in E.
  - apply Forall_fmap. eapply Forall_impl; [exact good_registry|]. intros x Hx. cbn. by destruct (str_eqb _ _).
Qed.

Lemma keeps_import_row cs ov r row : Forall cand_fits cs -> keeps db_good snap_good (import_row cs ov r row).
Proof.
  intros Hcs. destruct row as [[dest pool] up]. unfold import_row. cbn zeta. apply keeps_bind; [apply keeps_run, good_read|]. intros np.
  destruct (np =? 0)%nat; [apply keeps_ret|]. apply keeps_bind; [apply keeps_run, good_read|]. intros [|p0 ps]; [apply keeps_ret|].
  destruct (pick_catalog_match _ _ _) as [c|] eqn:Ec; [|apply keeps_ret]. destruct (pick_local_provider _ _) as [[pid kind]|]; [|apply keeps_ret].
  apply keeps_lift_bind. intros m Hm.
  assert (forall en, row_fits (mapped_row dest kind pid m en)) as Hfit.
  { intros en. destruct (map_model pid (cand_value c)) as [m0|] eqn:Em; simplify_eq. apply (fits_row c); [|done].
    rewrite Forall_forall in Hcs. apply Hcs. unfold pick_catalog_match in Ec.
    destruct (foldl _ None cs) as [[c0 s0]|] eqn:Ef; simplify_eq/=. apply pick_elem in Ef as [|H]; [done|discriminate]. }
  apply keeps_bind; [apply keeps_run, good_read|]. intros ex. destruct (ex && negb ov); [apply keeps_ret|].
  apply keeps_bind; [|intros _; apply keeps_ret]. apply keeps_run. destruct ex; [by apply good_update_metadata|by apply good_insert_registry].
Qed.

Lemma keeps_import_json text ov :
  (forall cs, parse_catalog json_error text = Ok cs -> Forall cand_fits cs) -> keeps db_good snap_good (import_json json_error text ov).
Proof.
  intros Hfit. unfold import_json. apply keeps_lift_bind. intros cs Hcs. specialize (Hfit cs Hcs).
  apply keeps_bind; [apply keeps_run, good_read|]. intros rows. apply keeps_transaction. generalize (mkReport counts_default []).
  induction rows as [|row rows IH]; intros r; [apply keeps_ret|]. cbn [import_rows].
  apply keeps_bind; [by apply keeps_import_row|]. intros r'. apply IH.
Qed.
End ImportClaims.

(* ------------------------------------------------------------------ *)
(** ** A concrete catalog *)

Module ImportDemo.
Definition limit (n : Z) : Value := obj [("context", json_int n); ("output", json_int 1000)].
Definition model (n : Z) : Value :=
  obj [("name", Str "GPT"); ("limit", limit n); ("apiKey", Str "SECRET"); ("reasoning", obj [("apiKey", Str "SECRET")]);
       ("nested", Array [obj [("api_key", Str "SECRET"); ("kept", Bool true)]])].
Definition catalog (n : Z) : Value :=
  obj [("openai", obj [("models", obj [("gpt", model n)])]); ("aaa", obj [("models", obj [("gpt", model n)])])].
Definition serde : SerdeJson :=
  {| from_str := fun s => if str_eqb s "small" then Some (catalog 8000)
                          else if str_eqb s "large" then Some (catalog 3000000000) else None;
     to_string := fun _ => "{}" |}.
Definition display : StatusDisplay := {| status_display := string_of_Z |}.
Definition db : Database :=
  mkDatabase [mkPoolRow "p" "weighted_random" 1] [] [mkProviderRow "up" "openai" "https://up" "p" 1 None]
    [mkRoutingRow "gpt" "p" None None 1] [] [] 0.
Definition w0 : World := mkWorld [] db snapshot_default.
Definition candidates : list Candidate :=
  [mkCandidate "gpt" "aaa" (model 8000); mkCandidate "gpt" "openai" (model 8000)].
End ImportDemo.

Section ImportWitnesses.
Import ImportDemo.
#[local] Existing Instances StoreDemo.sqlx ImportDemo.serde ImportDemo.display StoreDemo.it_prices StoreDemo.it_entries.

Theorem catalog_choice_spec_witness :
  parse_catalog (fun _ => "") "small" = Ok candidates
  /\ pick_catalog_match candidates "gpt" [("up", "openai")] = Some (mkCandidate "gpt" "openai" (model 8000))
  /\ pick_catalog_match (rev candidates) "gpt" [("up", "openai")] = Some (mkCandidate "gpt" "openai" (model 8000)).
Proof.
  assert (parse_catalog (fun _ => "") "small" = Ok candidates) as Hp by (vm_compute; reflexivity).
  split; [exact Hp|]. split; [vm_compute; reflexivity|].
  rewrite (proj2 (catalog_choice_spec (fun _ => "") "small" candidates "gpt" [("up", "openai")] Hp) (rev candidates) _
             (Permutation_sym (Permutation_rev candidates)) (reflexivity _)).
  vm_compute. reflexivity.
Defined.

(** An import of the small catalog fills the registry. *)
Example import_adds_the_model :
  let '(w', r) := import_json (fun _ => "") "small" false w0 in
  (counts <$> match r with Ok rep => Some rep | Err _ => None end) = Some (mkCounts 1 0 0 0)
  /\ mr_id <$> model_registry_tbl (w_db w') = ["gpt"].
Proof. vm_compute. split; reflexivity. Qed.

(** A context limit beyond [i32] is stored, and every later refresh fails. *)
Example large_limit_breaks_refresh :
  let w' := (import_json (fun _ => "") "large" false w0).1 in
  mr_max_context_tokens <$> model_registry_tbl (w_db w') = [3000000000]
  /\ (refresh_from_db 1 w').2 = Err (Internal "ConfigStore load model_registry: integer out of range").
Proof. vm_compute. split; reflexivity. Qed.

(** The [reasoning] field is copied as it is. *)
Example reasoning_is_not_sanitized :
  value_at [Key "reasoning"; Key "apiKey"] (imported_capabilities "up" (model 1)) = Some (Str "SECRET")
  /\ value_at [Key "metadata"; Key "nested"; Index 0; Key "kept"] (imported_capabilities "up" (model 1)) = Some (Bool true).
Proof. vm_compute. split; reflexivity. Qed.
End ImportWitnesses.
