(* ===== verification/Boot.v ===== *)
(** * Startup and hot reload

    Models [src/src/bootstrap.rs]: the seeding of the managed tables from the YAML
    file, the installation of the startup policy, the first router, and the task
    that rebuilds the router when the configuration changes; with them the health
    endpoints of [src/src/health_check.rs], which look at that router.  A running
    gateway is the [World] of the config store with the router handle and the
    snapshot the router was last built from; admin requests, poller ticks and
    rebuilder ticks come in any order. *)

From S2P Require Import Prelude Json Types Config Pricing Alerts Metrics Router Db ConfigStore Providers Catalog Auth AdminApi ModelImport.

(** ** Comparing snapshots

    The derived [PartialEq]s; a finite float is the reduced fraction it denotes. *)

#[global] Instance number_eq_dec : EqDecision number.
Proof.
  assert (EqDecision Q) as HQ by (intros [] []; unfold Decision; repeat decide equality). solve_decision.
Defined.

Fixpoint Value_eq_dec (a b : Value) : {a = b} + {a ≠ b}.
Proof.
  refine (match a, b with
          | Null, Null => left eq_refl
          | Bool x, Bool y => if decide (x = y) then left _ else right _
          | Number x, Number y => if decide (x = y) then left _ else right _
          | Str x, Str y => if decide (x = y) then left _ else right _
          | Array l, Array l' => if List.list_eq_dec Value_eq_dec l l' then left _ else right _
          | Object m, Object m' =>
              if List.list_eq_dec (fun p q : string * Value =>
                   match p, q with (k, v), (k', v') =>
                     match decide (k = k'), Value_eq_dec v v' with
                     | left e, left e' => left _
                     | _, _ => right _
                     end
                   end) m m' then left _ else right _
          | _, _ => right _
          end); try congruence.
Defined.
#[global] Instance Value_eq_decision : EqDecision Value := Value_eq_dec.
#[global] Instance ProviderKind_eq_dec : EqDecision ProviderKind.
Proof. solve_decision. Defined.
#[global] Instance ProviderConfig_eq_dec : EqDecision ProviderConfig.
Proof. solve_decision. Defined.
#[global] Instance ModelRouting_eq_dec : EqDecision ModelRouting.
Proof. solve_decision. Defined.
#[global] Instance PoolConfig_eq_dec : EqDecision PoolConfig.
Proof. solve_decision. Defined.
#[global] Instance RoutingSnapshot_eq_dec : EqDecision RoutingSnapshot.
Proof. solve_decision. Defined.

(** ** The startup configuration *)

(** The sections of the YAML file the startup reads: the managed ones, and the ones
    that are static after it. *)
Record StartupConfig := mkStartup {
  su_managed : Config;
  su_pricing : PricingConfig;
  su_metadata : ModelMetadataConfig;
  su_failover : FailoverConfig;
  su_alerts : AlertConfig;
  su_cache_max : Z;
  su_normalization : ResponseNormalization
}.

Definition policy_of (su : StartupConfig) : RuntimePolicy :=
  mkPolicy (su_failover su) (su_alerts su) (su_cache_max su) (su_normalization su).

(** [LLM_PROXY_SYNC_YAML] *)
Definition force_yaml_sync (env : option string) : bool :=
  match env with
  | Some v => let v := trim v in str_eqb v "1" || eq_ignore_ascii_case v "true" || eq_ignore_ascii_case v "yes"
  | None => false
  end.

(** The channels of the alert task. *)
Definition alert_channels (a : AlertConfig) : list AlertChannel :=
  if al_enabled a then
    let ch := al_channels a in
    let wh_url := if str_is_empty (cd_url (ch_webhook ch)) then webhook_url a else cd_url (ch_webhook ch) in
    (if cd_enabled (ch_webhook ch) || negb (str_is_empty wh_url) then [WebhookChannel wh_url (webhook_secret a)] else [])
    ++ (if cd_enabled (ch_slack ch) then [SlackChannel (cd_url (ch_slack ch))] else [])
    ++ (if cd_enabled (ch_discord ch) then [DiscordChannel (cd_url (ch_discord ch))] else [])
  else [].

(** ** Factories *)

Definition kind_eqb (a b : ProviderKind) : bool := bool_decide (a = b).

Section Factories.
Context {P : Type} (new_openai new_anthropic new_gemini : string -> string -> list Z -> P).

Definition OpenAiFactory : ProviderFactory P :=
  mkFactory "openai" (kind_eqb OpenAi) (fun c codes => Ok (new_openai (prov_id c) (base_url c) codes)).
Definition AnthropicFactory : ProviderFactory P :=
  mkFactory "anthropic" (kind_eqb Anthropic) (fun c codes => Ok (new_anthropic (prov_id c) (base_url c) codes)).
Definition GeminiFactory : ProviderFactory P :=
  mkFactory "gemini" (kind_eqb Gemini) (fun c codes => Ok (new_gemini (prov_id c) (base_url c) codes)).
Definition factories : list (ProviderFactory P) := [OpenAiFactory; AnthropicFactory; GeminiFactory].

(** The provider of a configuration entry. *)
Definition new_provider (c : ProviderConfig) (codes : list Z) : P :=
  match prov_kind c with
  | OpenAi => new_openai (prov_id c) (base_url c) codes
  | Anthropic => new_anthropic (prov_id c) (base_url c) codes
  | Gemini => new_gemini (prov_id c) (base_url c) codes
  end.

Lemma build_one_ok c codes : build_one factories c codes = Ok (new_provider c codes).
Proof. unfold new_provider. cbn. by destruct (prov_kind c). Qed.
End Factories.

(** The sections of a snapshot that routing depends on. *)
Definition routing_sections (s : ConfigSnapshot) : RoutingSnapshot := mkRouting (cs_providers s) (cs_pools s) (cs_routing s).

(** ** Startup *)

Section Boot.
Context `{SX : Sqlx} `{SJ : SerdeJson} `{DG : Digest} `{SD : StatusDisplay}.
Context `{DP : !DashIter string ModelPricing} `{DE : !DashIter string PriceEntry}.
Context `{DR : !DashIter string ModelRouting} `{DO : !DashIter string PoolConfig}.
(** serde_yaml and serde_json's error text, and the catalog's server. *)
Context (yaml_startup : string -> Result StartupConfig string) (json_error : string -> string).
Context (read_file : string -> Result string string) (http_get : string -> Result (Z * Result string string) string).
Context {P : Type} (new_openai new_anthropic new_gemini : string -> string -> list Z -> P).

Definition managed_of (yaml : string) : Result Config string := let? su := yaml_startup yaml in Ok (su_managed su).

(** [Config::load] on the text of the file. *)
Definition load_config (file : Result string string) : Result StartupConfig AppError :=
  match file with
  | Err e => Err (ConfigError ("Failed to read config file: " +:+ e))
  | Ok content =>
      match yaml_startup content with
      | Err e => Err (ConfigError ("Failed to parse config: " +:+ e))
      | Ok su => let? _ := Config.validate (su_managed su) in Ok su
      end
  end.

Definition enabled_route_count (d : Database) : nat := count_if (fun r => is_one (rc_enabled r)) (routing_config_tbl d).

(** Enabled routes without an enabled registry row. *)
Definition missing_registry (d : Database) : nat :=
  count_if (fun r => is_one (rc_enabled r)
                     && negb (existsb (fun m => str_eqb (mr_id m) (rc_logical_model r) && is_one (mr_enabled m)) (model_registry_tbl d)))
    (routing_config_tbl d).

(** A statement whose failure ends the startup. *)
Definition query {A} (q : Stmt A) : M A := run (fun e => Internal (db_display e)) q.

(** The managed tables are filled from the file when no route is enabled, or when
    the operator asks for it.  The file is read a second time. *)
Definition seed (sync : option string) (file2 : Result string string) (now : Z) : M unit :=
  routing_count ← query (read enabled_route_count);
  if force_yaml_sync sync || (routing_count =? 0)%nat then
    yaml ← lift (match file2 with Ok t => Ok t | Err e => Err (Internal e) end);
    import_yaml managed_of yaml now
  else mret tt.

Definition install_startup (su : StartupConfig) (now : Z) : M unit :=
  _ ← set_bootstrap_pricing (su_pricing su) now;
  _ ← set_bootstrap_model_metadata (su_metadata su);
  set_bootstrap_runtime (policy_of su).

(** Missing metadata is fetched; a failure of that is only logged. *)
Definition fill_registry (now : Z) : M unit :=
  missing ← query (read missing_registry);
  if (missing =? 0)%nat then mret tt
  else
    imported ← catch (import_default json_error read_file http_get false);
    match imported with
    | Ok _ => refresh_from_db now
    | Err _ => mret tt
    end.

(** The gateway as the rebuilder task sees it. *)
Record Live := mkLive {
  lv_world : World;
  lv_handle : RouterHandle P;
  lv_last : RoutingSnapshot;
  lv_codes : list Z
}.

Definition rebuild (s : ConfigSnapshot) (codes : list Z) : Result (Router P) AppError :=
  rebuild_router (factories new_openai new_anthropic new_gemini) (routing_sections s) codes.

Definition bootstrap (file file2 : Result string string) (sync : option string) (now : Z) (w : World) : World * Result Live AppError :=
  let m :=
    su ← lift (load_config file);
    _ ← ConfigStore.load now;
    _ ← seed sync file2 now;
    _ ← install_startup su now;
    _ ← fill_registry now;
    s ← get_store;
    let codes := bad_status_codes (su_failover su) in
    router ← lift (rebuild s codes);
    _ ← lift (build_all (factories new_openai new_anthropic new_gemini) (cs_providers s) codes);
    mret (router, codes, routing_sections s)
  in
  match m w with
  | (w', Ok (router, codes, last)) => (w', Ok (mkLive w' (mkHandle router) last codes))
  | (w', Err e) => (w', Err e)
  end.

(** ** The running gateway *)

(** A tick of [spawn_router_rebuilder]. *)
Definition rebuild_tick (g : Live) : Live :=
  let s := w_store (lv_world g) in
  if decide (lv_last g = routing_sections s) then g
  else match rebuild s (lv_codes g) with
       | Ok router => mkLive (lv_world g) (swap (lv_handle g) router) (routing_sections s) (lv_codes g)
       | Err _ => g
       end.

Inductive LiveStep : Type :=
| Admin (op : AdminOp) (now : Z)
| Rebuild.

Definition live_step (g : Live) (st : LiveStep) : Live :=
  match st with
  | Admin op now => mkLive (admin_step managed_of op now (lv_world g)) (lv_handle g) (lv_last g) (lv_codes g)
  | Rebuild => rebuild_tick g
  end.

Definition live_run (g : Live) (steps : list LiveStep) : Live := foldl live_step g steps.

(** ** Health endpoints *)

Record HealthCheck := mkCheck { hc_name : string; hc_status : string; hc_message : string }.
Record HealthReport := mkHealthReport { hr_status : string; hr_checks : list HealthCheck; hr_uptime_secs : Z }.

Definition health_live : Z * string := (200, "OK").

Context `{DI : !DashIter string RouteEntry}.

(** [db_ok]: the statement [SELECT 1] succeeded. *)
Definition health_ready (db_ok : bool) (r : Router P) : Z * string :=
  let has_pools := match model_list r with [] => false | _ => true end in
  if db_ok && has_pools then (200, "READY") else (503, "NOT READY").

Definition health_full (db_ok : bool) (r : Router P) (now_secs : Z) : HealthReport :=
  let models := model_list r in
  let has_pools := match models with [] => false | _ => true end in
  let checks :=
    [ mkCheck "database" (if db_ok then "ok" else "fail") (if db_ok then "SQLite connected" else "SQLite unreachable");
      mkCheck "models" (if has_pools then "ok" else "fail") (string_of_Z (Z.of_nat (length models)) +:+ " models configured");
      mkCheck "server" "ok" "axum http server running" ] in
  mkHealthReport (if forallb (fun c => str_eqb (hc_status c) "ok") checks then "healthy" else "degraded") checks now_secs.
End Boot.

(* ------------------------------------------------------------------ *)
(** ** The startup preserves the invariants *)

Section BootSpec.
Context `{SX : Sqlx} `{SJ : SerdeJson} `{DG : Digest} `{SD : StatusDisplay}.
Context `{DP : !DashIter string ModelPricing} `{DE : !DashIter string PriceEntry}.
Context `{DR : !DashIter string ModelRouting} `{DO : !DashIter string PoolConfig}.
Context (yaml_startup : string -> Result StartupConfig string) (json_error : string -> string).
Context (read_file : string -> Result string string) (http_get : string -> Result (Z * Result string string) string).
Context {P : Type} (new_openai new_anthropic new_gemini : string -> string -> list Z -> P).

Abbreviation rebuild := (rebuild new_openai new_anthropic new_gemini).
Abbreviation rebuild_tick := (rebuild_tick new_openai new_anthropic new_gemini).
Abbreviation live_run := (live_run yaml_startup new_openai new_anthropic new_gemini).
Abbreviation live_step := (live_step yaml_startup new_openai new_anthropic new_gemini).
Abbreviation bootstrap := (bootstrap yaml_startup json_error read_file http_get new_openai new_anthropic new_gemini).
Abbreviation fill_registry := (fill_registry json_error read_file http_get).
Abbreviation seed := (seed yaml_startup).
Abbreviation managed_of := (managed_of yaml_startup).

(** The integers of a document are in the range of their Rust types. *)
Definition file_typed (file : Result string string) : Prop :=
  forall yaml c, file = Ok yaml -> managed_of yaml = Ok c ->
    Forall (fun e => i32 (reg_max_context_tokens e) /\ i32 (reg_max_output_tokens e)) (model_registry c).

(** The limits of the public catalog fit the registry's columns. *)
Definition catalog_fits : Prop :=
  forall text cs, fetch_catalog http_get DEFAULT_SOURCE = Ok text -> parse_catalog json_error text = Ok cs -> Forall cand_fits cs.

Lemma snap_good_ext s s' : cs_pools s' = cs_pools s -> cs_routing s' = cs_routing s -> snap_good s -> snap_good s'.
Proof. intros Hp Hr [H1 H2]. split; by rewrite ?Hr, Hp. Qed.

Lemma good_registry_read : stmt_keeps db_good (fun d => let? l := collect registry_of_row (scan (model_registry_tbl d)) in Ok (d, l)).
Proof. intros d d' a Hd. destruct (collect _ _); [|done]. by intros [= <- _]. Qed.

Lemma keeps_refresh_pricing now : keeps db_good snap_good (refresh_pricing now).
Proof.
  unfold refresh_pricing. apply keeps_bind; [apply keeps_run, good_registry_read|]. intros reg.
  apply keeps_bind; [apply keeps_run, good_read|]. intros ov. apply keeps_modify. intros s. by apply snap_good_ext.
Qed.

Lemma keeps_install su now : keeps db_good snap_good (install_startup su now).
Proof.
  unfold install_startup. apply keeps_bind; [|intros _; apply keeps_bind; [|intros _]].
  - intros w [Hd Hs]. apply keeps_refresh_pricing. split; [done|]. by eapply snap_good_ext; [..|exact Hs].
  - apply keeps_modify. intros s. by apply snap_good_ext.
  - apply keeps_modify. intros s. by apply snap_good_ext.
Qed.

Lemma default_source_remote : is_remote_source DEFAULT_SOURCE = true.
Proof. vm_compute. reflexivity. Qed.

Lemma keeps_fill now : catalog_fits -> keeps db_good snap_good (fill_registry now).
Proof.
  intros Hc. unfold fill_registry. apply keeps_bind; [apply keeps_run, good_read|]. intros n. destruct (n =? 0)%nat; [apply keeps_ret|].
  apply keeps_bind; [apply keeps_catch|intros [r|e]; [apply keeps_refresh_good|apply keeps_ret]].
  unfold import_default, import_source. rewrite default_source_remote. apply keeps_lift_bind. intros text Ht.
  apply keeps_import_json. intros cs. by apply Hc.
Qed.

Lemma keeps_seed sync file2 now : file_typed file2 -> keeps db_good snap_good (seed sync file2 now).
Proof.
  intros Hf. unfold seed. apply keeps_bind; [apply keeps_run, good_read|]. intros n. destruct (_ || _); [|apply keeps_ret].
  apply keeps_lift_bind. intros yaml Hy. apply keeps_import. intros c Hc. destruct file2 as [t|]; simplify_eq. by apply (Hf yaml).
Qed.

Lemma keeps_load now : keeps db_good snap_good (ConfigStore.load now).
Proof.
  unfold ConfigStore.load. apply keeps_bind; [|intros _; apply keeps_refresh_good]. apply keeps_modify.
  intros _ _. apply snapshot_default_good.
Qed.

(** ** The running gateway's invariant *)

(** Both stores are good, and the router is the one of the last sections. *)
Record live_good (g : Live) : Prop := {
  lg_world : holds db_good snap_good (lv_world g);
  lg_router : rebuild_router (factories new_openai new_anthropic new_gemini) (lv_last g) (lv_codes g) = Ok (current (lv_handle g))
}.

Lemma bootstrap_good file file2 sync now w w' g :
  db_good (w_db w) -> snap_good (w_store w) -> file_typed file2 -> catalog_fits ->
  bootstrap file file2 sync now w = (w', Ok g) -> live_good g /\ lv_world g = w'.
Proof.
  intros Hd Hs Hf Hc. unfold bootstrap. cbn zeta. unfold mbind, M_bind.
  destruct (lift (load_config yaml_startup file) w) as [w0 [su|e]] eqn:E0; [|done]. injection E0 as <- _.
  pose proof (keeps_load now w (conj Hd Hs)) as H1. destruct (ConfigStore.load now w) as [w1 [[]|e]]; [|done]. cbn in H1.
  pose proof (keeps_seed sync file2 now Hf w1 H1) as H2. destruct (seed sync file2 now w1) as [w2 [[]|e]]; [|done]. cbn in H2.
  pose proof (keeps_install su now w2 H2) as H3. destruct (install_startup su now w2) as [w3 [[]|e]]; [|done]. cbn in H3.
  pose proof (keeps_fill now Hc w3 H3) as H4. destruct (fill_registry now w3) as [w4 [[]|e]]; [|done]. cbn in H4.
  unfold get_store, lift. destruct (rebuild (w_store w4) _) as [router|e] eqn:Er; [|done].
  destruct (build_all _ _ _); [|done]. cbn. intros [= <- <-]. split; [|done]. by split.
Qed.

Lemma rebuild_total s codes : snap_good s -> is_ok (rebuild s codes) = true.
Proof.
  intros [Hr _]. apply rebuild_router_spec. cbn [rs_providers rs_pools rs_routing routing_sections]. split; [|done]. apply Forall_forall. intros c _. by rewrite build_one_ok.
Qed.

Lemma rebuild_tick_good g : live_good g ->
  live_good (rebuild_tick g) /\ lv_world (rebuild_tick g) = lv_world g
  /\ rebuild (w_store (lv_world g)) (lv_codes g) = Ok (current (lv_handle (rebuild_tick g))).
Proof.
  intros [Hw Hr]. unfold rebuild_tick. destruct (decide _) as [E|E].
  - split; [done|]. split; [done|]. by rewrite E in Hr.
  - pose proof (rebuild_total (w_store (lv_world g)) (lv_codes g) (proj2 Hw)) as Ht.
    destruct (rebuild (w_store (lv_world g)) (lv_codes g)) as [r|] eqn:Eb; [|done]. done.
Qed.

Definition step_typed (st : LiveStep) : Prop := match st with Admin op _ => op_typed managed_of op | Rebuild => True end.

Lemma live_step_good g st : step_typed st -> live_good g -> live_good (live_step g st).
Proof.
  destruct st as [op now|]; intros Ht Hg; [|by apply rebuild_tick_good]. destruct Hg as [Hw Hr]. split; [|done].
  by apply admin_step_good.
Qed.

Lemma live_run_good g steps : Forall step_typed steps -> live_good g -> live_good (live_run g steps).
Proof. intros Hs. revert g. induction Hs as [|st steps Ht _ IH]; intros g Hg; [done|]. cbn. by apply IH, live_step_good. Qed.

Lemma codes_fixed g steps : lv_codes (live_run g steps) = lv_codes g.
Proof.
  revert g; induction steps as [|st steps IH]; intros g; [done|].
  change (live_run g (st :: steps)) with (live_run (live_step g st) steps). rewrite IH. destruct st; [done|]. cbn. unfold rebuild_tick.
  destruct (decide _); [done|]. by destruct (rebuild _ _).
Qed.

(** The router [r] serves exactly the configuration [s]: an unknown model is not
    found; a known one gets its pool, parameters and upstream name, and the
    last provider configured for the pool. *)
Definition serves (r : Router P) (s : ConfigSnapshot) (codes : list Z) : Prop := forall model,
  match cs_routing s !! model with
  | None => resolve r model = Err (NotFound ("model '" +:+ model +:+ "' not found"))
  | Some route => exists pool, cs_pools s !! pool_id route = Some pool
      /\ match find_last (for_pool (pool_id route)) (cs_providers s) with
         | None => resolve r model = Err (ConfigError ("pool '" +:+ pool_id route +:+ "' not found"))
         | Some cfg => resolve r model = Ok (new_provider new_openai new_anthropic new_gemini cfg codes,
                         mkRouteEntry (pool_id route) pool (default_params route) (upstream_model route))
         end
  end.

Lemma rebuild_serves s codes r : snap_good s -> rebuild s codes = Ok r -> serves r s codes.
Proof.
  intros [Hr _] Hb model. unfold rebuild in Hb.
  pose proof (proj2 (rebuild_router_spec _ _ _) r Hb model) as H. cbn [rs_providers rs_pools rs_routing routing_sections] in H.
  destruct (cs_routing s !! model) as [route|] eqn:E; [|done]. destruct (Hr model route E) as [pool Hp]. exists pool. split; [done|].
  destruct (find_last _ _) as [cfg|]; [|done]. destruct H as (p & e & Hb1 & He & Hres). rewrite build_one_ok in Hb1. injection Hb1 as <-.
  unfold entry_of in He. cbn in He. rewrite Hp in He. cbn in He. by injection He as <-.
Qed.

(** Hot reload converges and never breaks routing: after a startup on a
    good database and any sequence of admin requests, poller ticks and rebuilder
    ticks, whatever database failures they meet, the next tick of the rebuilder
    succeeds and leaves a router that serves exactly the configuration in memory,
    and that configuration is consistent. *)
Theorem hot_reload_converges file file2 sync now w w' g steps :
  db_good (w_db w) -> snap_good (w_store w) -> file_typed file2 -> catalog_fits ->
  bootstrap file file2 sync now w = (w', Ok g) -> Forall step_typed steps ->
  let g' := rebuild_tick (live_run g steps) in
  snap_good (w_store (lv_world g')) /\ serves (current (lv_handle g')) (w_store (lv_world g')) (lv_codes g).
Proof.
  intros Hd Hs Hf Hc Hb Hsteps. destruct (bootstrap_good file file2 sync now w w' g Hd Hs Hf Hc Hb) as [Hg _].
  pose proof (live_run_good g steps Hsteps Hg) as Hr. destruct (rebuild_tick_good _ Hr) as (Hg' & Hw & Hreb).
  cbn zeta. pose proof (lg_world _ Hr) as [_ Hsn]. rewrite Hw. split; [done|]. rewrite codes_fixed in Hreb. by apply rebuild_serves.
Qed.

(** ** A restart keeps what administrators changed *)

(** Pools, keys, providers, routes and price overrides are the same, and registry
    rows are only added. *)
Record managed_kept (d d' : Database) : Prop := {
  mk_pools : key_pool_tbl d' = key_pool_tbl d;
  mk_keys : key_entry_tbl d' = key_entry_tbl d;
  mk_providers : provider_config_tbl d' = provider_config_tbl d;
  mk_routes : routing_config_tbl d' = routing_config_tbl d;
  mk_overrides : pricing_override_tbl d' = pricing_override_tbl d;
  mk_registry : exists l, model_registry_tbl d' = model_registry_tbl d ++ l
}.

Lemma managed_kept_refl d : managed_kept d d.
Proof. split; try done. exists []. by rewrite app_nil_r. Qed.

Lemma managed_kept_trans d1 d2 d3 : managed_kept d1 d2 -> managed_kept d2 d3 -> managed_kept d1 d3.
Proof.
  intros [A1 A2 A3 A4 A5 [l1 A6]] [B1 B2 B3 B4 B5 [l2 B6]]. split; try congruence. exists (l1 ++ l2). by rewrite B6, A6, app_assoc.
Qed.

(** What a computation that only reads leaves. *)
Definition db_frame {A} (m : M A) : Prop := forall w, w_db (m w).1 = w_db w.

Lemma load_frame now : db_frame (ConfigStore.load now).
Proof.
  intros w. unfold ConfigStore.load, mbind, M_bind. cbn -[refresh_from_db].
  pose proof (refresh_cases now (set_store w snapshot_default)) as H. by destruct (refresh_from_db now _) as [w' []]; destruct H.
Qed.

Lemma query_read {A} (f : Database -> A) w :
  match query (read f) w with
  | (w', Ok a) => a = f (w_db w) /\ w_db w' = w_db w /\ w_store w' = w_store w
  | (w', Err _) => w_db w' = w_db w /\ w_store w' = w_store w
  end.
Proof.
  pose proof (run_cases (fun e => Internal (db_display e)) (read f) w) as H. unfold query.
  destruct (run _ _ w) as [w' [a|e]]; [|done]. destruct H as [[= H1 H2] H3]. by subst a.
Qed.

Lemma install_frame su now : db_frame (install_startup su now).
Proof.
  intros w. unfold install_startup, mbind, M_bind, set_bootstrap_pricing. cbn -[refresh_pricing].
  set (w1 := set_store w _). assert (w_db (refresh_pricing now w1).1 = w_db w1) as ->; [|done].
  unfold refresh_pricing, mbind, M_bind, load_model_registry_from_db, load_pricing_overrides_from_db.
  match goal with |- context [run ?e ?q w1] => pose proof (run_cases e q w1) as H; destruct (run e q w1) as [w2 [r|er]] end; [|by destruct H].
  destruct H as [H _]. destruct (collect _ _); [|done]. injection H as H _.
  match goal with |- context [run ?e ?q w2] => pose proof (run_cases e q w2) as H2; destruct (run e q w2) as [w3 [o|er]] end; cbn; [|destruct H2; congruence].
  destruct H2 as [[= H2 _] _]. congruence.
Qed.

Lemma import_default_kept ov w : ov = false ->
  managed_kept (w_db w) (w_db (import_default json_error read_file http_get ov w).1)
  /\ w_store (import_default json_error read_file http_get ov w).1 = w_store w.
Proof.
  intros ->. unfold import_default, import_source. rewrite default_source_remote. unfold mbind, M_bind, lift.
  destruct (fetch_catalog _ _) as [text|]; [|split; [apply managed_kept_refl|done]].
  pose proof (import_json_result json_error text false w) as H. destruct (import_json json_error text false w) as [w' [rep|]]; cbn.
  - destruct H as (Hs & _ & Hf & Hp & _). split; [|done]. destruct (Hp eq_refl) as (l & Hl & _). rewrite Hf. split; try done. cbn. eauto.
  - destruct H as [-> ->]. split; [apply managed_kept_refl|done].
Qed.

Lemma fill_kept now w : managed_kept (w_db w) (w_db (fill_registry now w).1).
Proof.
  unfold fill_registry, mbind, M_bind. pose proof (query_read missing_registry w) as H.
  destruct (query (read missing_registry) w) as [w1 [n|e]]; [|destruct H as [H _]; cbn; rewrite H; apply managed_kept_refl].
  destruct H as (_ & Hd & _). destruct (n =? 0)%nat; [cbn; rewrite Hd; apply managed_kept_refl|]. unfold catch.
  pose proof (import_default_kept false w1 eq_refl) as [Hk _]. destruct (import_default _ _ _ false w1) as [w2 [r|e]]; cbn in Hk |- *;
    rewrite <- Hd; [|done]. pose proof (refresh_cases now w2) as Hr. destruct (refresh_from_db now w2) as [w3 []]; cbn; by destruct Hr as [-> _].
Qed.

(** Claim C33: a restart never overwrites what administrators have changed: when some
    route is enabled and no synchronisation is asked for, the startup leaves
    pools, keys, providers, routes and price overrides as they are and only adds
    registry rows, wherever it fails. *)
Theorem restart_keeps_admin_changes file file2 sync now w :
  force_yaml_sync sync = false -> enabled_route_count (w_db w) ≠ 0%nat ->
  managed_kept (w_db w) (w_db (bootstrap file file2 sync now w).1).
Proof.
  intros Hsync Hn. unfold bootstrap. cbn zeta. unfold mbind, M_bind. unfold lift at 1.
  destruct (load_config yaml_startup file) as [su|e]; [|apply managed_kept_refl].
  pose proof (load_frame now w) as H1. destruct (ConfigStore.load now w) as [w1 [[]|e]]; cbn in H1; [|cbn; rewrite H1; apply managed_kept_refl].
  unfold seed, mbind, M_bind. pose proof (query_read enabled_route_count w1) as H2.
  destruct (query (read enabled_route_count) w1) as [w2 [n|e]]; [|destruct H2 as [H2 _]; cbn; rewrite H2, H1; apply managed_kept_refl].
  destruct H2 as (-> & H2 & _). rewrite Hsync, H1. destruct (Nat.eqb_spec (enabled_route_count (w_db w)) 0) as [|_]; [done|]. cbn.
  pose proof (install_frame su now w2) as H3. destruct (install_startup su now w2) as [w3 [[]|e]]; cbn in H3; [|cbn; rewrite H3, H2, H1; apply managed_kept_refl].
  pose proof (fill_kept now w3) as H4. rewrite H3, H2, H1 in H4. destruct (fill_registry now w3) as [w4 [[]|e]]; cbn in H4 |- *; [|done].
  unfold get_store, lift. destruct (rebuild (w_store w4) _); [|done]. by destruct (build_all _ _ _).
Qed.

(** ** A startup that meets no failure succeeds *)

Lemma refresh_good_quiet now w : quiet w -> db_good (w_db w) ->
  exists s, refresh_from_db now w = (set_store w s, Ok tt)
            /\ cs_runtime s = cs_runtime (w_store w) /\ cs_routing s = db_routing (w_db w).
Proof.
  intros Hq Hd. rewrite refresh_quiet by done. pose proof (good_loads (w_db w) now (w_store w) Hd) as H.
  unfold snapshot_of in *. destruct (collect _ _); [|done]. destruct (db_registry _); [|done]. by eexists.
Qed.

Lemma calm_refresh now : calm (refresh_from_db now).
Proof.
  unfold refresh_from_db, load_providers_from_db, load_pools_from_db, load_routing_from_db, load_model_registry_from_db,
    load_pricing_overrides_from_db. repeat first [simple apply calm_run|simple apply calm_lift|simple apply calm_ret|apply calm_modify|simple apply calm_bind; [|intros ?]].
Qed.

Lemma calm_import_yaml yaml now : calm (import_yaml managed_of yaml now).
Proof.
  unfold import_yaml. apply calm_bind; [apply calm_lift|]. intros c. apply calm_bind; [|intros _; apply calm_refresh].
  apply calm_transaction. unfold import_config, import_pool, insert_key_entry.
  repeat first [simple apply calm_run|simple apply calm_for_each; intros ?|simple apply calm_bind; [|intros ?]].
Qed.

Lemma calm_refresh_pricing now : calm (refresh_pricing now).
Proof.
  unfold refresh_pricing, load_model_registry_from_db, load_pricing_overrides_from_db.
  repeat first [simple apply calm_run|apply calm_modify|simple apply calm_bind; [|intros ?]].
Qed.

Lemma calm_import_default : calm (import_default json_error read_file http_get false).
Proof.
  unfold import_default, import_source. rewrite default_source_remote. apply calm_bind; [apply calm_lift|]. intros text.
  unfold import_json. apply calm_bind; [apply calm_lift|]. intros cs. apply calm_bind; [apply calm_run|]. intros rows.
  apply calm_transaction. generalize (mkReport counts_default []). induction rows as [|[[d p] u] rows IH]; intros r; [apply calm_ret|].
  cbn [import_rows]. apply calm_bind; [|intros r'; apply IH]. unfold import_row. apply calm_bind; [apply calm_run|]. intros n.
  destruct (n =? 0)%nat; [apply calm_ret|]. apply calm_bind; [apply calm_run|]. intros [|x ps]; [apply calm_ret|].
  destruct (pick_catalog_match _ _ _); [|apply calm_ret]. destruct (pick_local_provider _ _) as [[]|]; [|apply calm_ret].
  apply calm_bind; [apply calm_lift|]. intros m. apply calm_bind; [apply calm_run|]. intros ex.
  destruct (_ && _); [apply calm_ret|]. apply calm_bind; [apply calm_run|]. intros _. apply calm_ret.
Qed.

Lemma install_quiet su now w : quiet w ->
  exists w', install_startup su now w = (w', Ok tt) /\ quiet w'
             /\ cs_runtime (w_store w') = policy_of su /\ cs_routing (w_store w') = cs_routing (w_store w).
Proof.
  intros Hq. unfold install_startup, mbind, M_bind, set_bootstrap_pricing. cbn -[refresh_pricing].
  set (w1 := set_store w _). pose proof (calm_refresh_pricing now w1 Hq) as Hc.
  eexists. split; [reflexivity|]. split; [done|]. split; [done|]. cbn -[refresh_pricing]. transitivity (cs_routing (w_store w1)); [|done].
  unfold refresh_pricing, mbind, M_bind, load_model_registry_from_db, load_pricing_overrides_from_db.
  match goal with |- context [run ?e ?q w1] => pose proof (frame_run e q w1) as H; destruct (run e q w1) as [w2 [r|er]] end; cbn in H |- *; [|by rewrite H].
  match goal with |- context [run ?e ?q w2] => pose proof (frame_run e q w2) as H2; destruct (run e q w2) as [w3 [o|er]] end; cbn in H2 |- *;
    rewrite H2, H; done.
Qed.

Lemma routing_kept d d' : managed_kept d d' -> db_routing d' = db_routing d.
Proof. intros Hk. unfold db_routing, enabled_routes. by rewrite (mk_routes _ _ Hk). Qed.

Lemma fill_quiet now w : catalog_fits -> quiet w -> holds db_good snap_good w -> cs_routing (w_store w) = db_routing (w_db w) ->
  exists w', fill_registry now w = (w', Ok tt) /\ cs_runtime (w_store w') = cs_runtime (w_store w)
             /\ cs_routing (w_store w') = cs_routing (w_store w).
Proof.
  intros Hc Hq Hw Hr. unfold fill_registry, query. unfold mbind at 1, M_bind at 1. rewrite run_quiet by done. cbn [read].
  replace (set_db w (w_db w)) with w by by destruct w. destruct (_ =? 0)%nat; [by exists w|].
  unfold catch, mbind, M_bind. pose proof (import_default_kept false w eq_refl) as [Hk Hs]. pose proof (calm_import_default w Hq) as Hq1.
  assert (db_good (w_db (import_default json_error read_file http_get false w).1)) as Hg.
  { refine (proj1 ((_ : keeps db_good snap_good _) w Hw)). unfold import_default, import_source. rewrite default_source_remote.
    apply keeps_lift_bind. intros text Ht. apply keeps_import_json. intros cs. by apply Hc. }
  destruct (import_default json_error read_file http_get false w) as [w1 [rep|e]]; cbn in *; [|by exists w1; rewrite Hs].
  destruct (refresh_good_quiet now w1 Hq1 Hg) as (s & -> & Hrun & Hrt). exists (set_store w1 s). split; [done|]. cbn.
  rewrite Hrun, Hs. split; [done|]. by rewrite Hrt, Hr, (routing_kept _ _ Hk).
Qed.

Definition seeds (sync : option string) (d : Database) : bool := force_yaml_sync sync || (enabled_route_count d =? 0)%nat.

Lemma seed_quiet sync yaml c now w : validate_yaml managed_of yaml = Ok c -> importable c -> quiet w ->
  holds db_good snap_good w -> cs_routing (w_store w) = db_routing (w_db w) ->
  exists w', seed sync (Ok yaml) now w = (w', Ok tt) /\ quiet w' /\ cs_routing (w_store w') = db_routing (w_db w')
    /\ (seeds sync (w_db w) = true -> forall m, route_view <$> cs_routing (w_store w') !! m = route_view <$> model_to_pool c !! m)
    /\ (seeds sync (w_db w) = false -> w' = w).
Proof.
  intros Hv Hi Hq [Hd Hs] Hr. unfold seed, query. unfold mbind at 1, M_bind at 1. rewrite run_quiet by done. cbn [read].
  replace (set_db w (w_db w)) with w by by destruct w. fold (seeds sync (w_db w)). destruct (seeds sync (w_db w)); [|by exists w].
  unfold mbind, M_bind, lift. destruct (import_yaml_result managed_of yaml c now w Hv Hi Hq (good_registry _ Hd)) as (w' & Hw & _ & Hm & _).
  exists w'. split; [done|]. split; [|split; [|done]].
  - pose proof (calm_import_yaml yaml now w Hq) as H. by rewrite Hw in H.
  - pose proof (import_yaml_cases managed_of yaml now w) as H. rewrite Hw in H. destruct H as (c0 & _ & _ & Hsn).
    unfold snapshot_of in Hsn. destruct (collect _ _); [|done]. destruct (db_registry _); [|done]. by injection Hsn as <-.
Qed.

Lemma bootstrap_runs yaml su sync now w :
  load_config yaml_startup (Ok yaml) = Ok su -> importable (su_managed su) -> catalog_fits ->
  quiet w -> db_good (w_db w) -> snap_good (w_store w) ->
  exists w' g, bootstrap (Ok yaml) (Ok yaml) sync now w = (w', Ok g) /\ lv_world g = w'
    /\ serves (current (lv_handle g)) (w_store w') (bad_status_codes (su_failover su))
    /\ cs_runtime (w_store w') = policy_of su
    /\ (seeds sync (w_db w) = true ->
        forall m, route_view <$> cs_routing (w_store w') !! m = route_view <$> model_to_pool (su_managed su) !! m).
Proof.
  intros Hl Hi Hc Hq Hd Hs.
  assert (validate_yaml managed_of yaml = Ok (su_managed su)) as Hv.
  { unfold load_config in Hl. unfold validate_yaml, managed_of. destruct (yaml_startup yaml) as [su0|]; [|done].
    destruct (Config.validate (su_managed su0)); [|done]. by injection Hl as <-. }
  assert (file_typed (Ok yaml)) as Hf.
  { intros y c [= <-] Hy. unfold validate_yaml in Hv. rewrite Hy in Hv. destruct (Config.validate c); simplify_eq. exact (tokens_fit _ Hi). }
  unfold bootstrap. cbn zeta. unfold mbind, M_bind. unfold lift at 1. rewrite Hl.
  assert (exists w1, ConfigStore.load now w = (w1, Ok tt) /\ quiet w1 /\ w_db w1 = w_db w /\ cs_routing (w_store w1) = db_routing (w_db w1)) as (w1 & E1 & Hq1 & Hd1 & Hr1).
  { unfold ConfigStore.load, mbind, M_bind. cbn -[refresh_from_db]. destruct (refresh_good_quiet now (set_store w snapshot_default) Hq Hd) as (s & -> & _ & Hr).
    eexists. split; [done|]. by cbn. }
  pose proof (keeps_load now w (conj Hd Hs)) as Hw1. rewrite E1 in Hw1 |- *. cbn in Hw1.
  destruct (seed_quiet sync yaml _ now w1 Hv Hi Hq1 Hw1 Hr1) as (w2 & E2 & Hq2 & Hr2 & Hdoc & _).
  pose proof (keeps_seed sync (Ok yaml) now Hf w1 Hw1) as Hw2. rewrite E2 in Hw2 |- *. cbn in Hw2.
  destruct (install_quiet su now w2 Hq2) as (w3 & E3 & Hq3 & Hrun3 & Hr3).
  pose proof (keeps_install su now w2 Hw2) as Hw3. pose proof (install_frame su now w2) as Hd3. rewrite E3 in Hw3, Hd3 |- *. cbn in Hw3, Hd3.
  destruct (fill_quiet now w3 Hc Hq3 Hw3) as (w4 & E4 & Hrun4 & Hr4); [by rewrite Hr3, Hr2, Hd3|].
  pose proof (keeps_fill now Hc w3 Hw3) as Hw4. rewrite E4 in Hw4 |- *. cbn in Hw4. unfold get_store, lift.
  pose proof (rebuild_total (w_store w4) (bad_status_codes (su_failover su)) (proj2 Hw4)) as Ht.
  destruct (rebuild (w_store w4) _) as [router|] eqn:Eb; [|done].
  assert (is_ok (build_all (factories new_openai new_anthropic new_gemini) (cs_providers (w_store w4)) (bad_status_codes (su_failover su))) = true) as Hb.
  { unfold rebuild, rebuild_router in Eb. cbn [routing_sections rs_providers] in Eb. by destruct (build_all _ _ _). }
  destruct (build_all _ _ _); [|done]. do 2 eexists. split; [reflexivity|]. cbn. split; [done|]. split; [by apply rebuild_serves; [apply Hw4|]|].
  split; [congruence|]. rewrite <- Hd1. intros Hse m. rewrite Hr4, Hr3. by apply Hdoc.
Qed.

(** A startup that meets no database failure succeeds on a good database
    with a valid file, even when the public catalog cannot be fetched: the
    router serves the configuration in memory, the policy is the file's, and
    when the tables were seeded the routes are exactly the file's. *)
Theorem bootstrap_succeeds yaml su sync now w :
  load_config yaml_startup (Ok yaml) = Ok su -> importable (su_managed su) -> catalog_fits ->
  quiet w -> db_good (w_db w) -> snap_good (w_store w) ->
  exists w' g, bootstrap (Ok yaml) (Ok yaml) sync now w = (w', Ok g) /\ lv_world g = w'
    /\ serves (current (lv_handle g)) (w_store w') (bad_status_codes (su_failover su))
    /\ cs_runtime (w_store w') = policy_of su
    /\ (seeds sync (w_db w) = true ->
        forall m, route_view <$> cs_routing (w_store w') !! m = route_view <$> model_to_pool (su_managed su) !! m).
Proof. apply bootstrap_runs. Qed.
End BootSpec.

(* ------------------------------------------------------------------ *)
(** ** A concrete gateway *)

Module BootDemo.
Import StoreDemo.
#[export] Existing Instances sqlx serde digest it_prices it_entries it_routes it_pools ImportDemo.display.
Definition startup : StartupConfig :=
  mkStartup doc (mkPricing ∅) metadata_default default_failover alert_config_default 10 (mkNormalization true).
Definition yaml_file (s : string) : Result StartupConfig string := if str_eqb s "doc" then Ok startup else Err "bad document".
(** The catalog is unreachable. *)
Definition offline (url : string) : Result (Z * Result string string) string := Err "no network".
(** A provider is known by its kind and its id. *)
Definition prov (kind : string) (id url : string) (codes : list Z) : string := kind +:+ ":" +:+ id.
Definition boot (sync : option string) (w : World) :=
  bootstrap yaml_file (fun _ => "") (fun _ => Err "") offline (prov "openai") (prov "anthropic") (prov "gemini") (Ok "doc") (Ok "doc") sync 1 w.
Definition booted : Live :=
  match boot None w0 with (_, Ok g) => g | (w, Err _) => mkLive w (mkHandle (mkRouter ∅ ∅)) (mkRouting [] ∅ ∅) [] end.
(** A key is added, the statement that reads the pools fails once, and the
    rebuilder runs. *)
Definition steps : list LiveStep :=
  [Admin (OpAddPoolKey "p" AdminDemo.key_req) 2; Rebuild;
   Admin (OpCreateRouting (mkCreateRouting "mini" "p" None None)) 3; Admin (OpDeleteRouting "gpt") 4].
Definition after : Live := live_run yaml_file (prov "openai") (prov "anthropic") (prov "gemini") booted steps.
(** Two pools of an administrator, and no route yet. *)
Definition unrouted : World := mkWorld [] (mkDatabase [mkPoolRow "mine" "weighted_random" 1] [] [] [] [] [] 0) snapshot_default.
End BootDemo.

Section BootWitnesses.
Import BootDemo.

Lemma offline_fits : catalog_fits (fun _ => "") offline.
Proof. intros text cs H. vm_compute in H. discriminate. Qed.

Lemma doc_file_typed : file_typed yaml_file (Ok "doc").
Proof. intros y c [= <-] H. vm_compute in H. injection H as <-. constructor. Qed.

Theorem hot_reload_converges_witness :
  let g' := rebuild_tick (prov "openai") (prov "anthropic") (prov "gemini") after in
  serves (prov "openai") (prov "anthropic") (prov "gemini") (current (lv_handle g')) (w_store (lv_world g')) [401; 402; 403; 429]
  /\ fst <$> match resolve (current (lv_handle g')) "mini" with Ok r => Some r | Err _ => None end = Some "openai:up"
  /\ resolve (current (lv_handle g')) "gpt" = Err (NotFound "model 'gpt' not found").
Proof.
  destruct (hot_reload_converges yaml_file (fun _ => "") (fun _ => Err "") offline (prov "openai") (prov "anthropic") (prov "gemini")
              (Ok "doc") (Ok "doc") None 1 StoreDemo.w0 (lv_world booted) booted steps) as [_ H].
  - exact empty_db_good.
  - exact snapshot_default_good.
  - exact doc_file_typed.
  - exact offline_fits.
  - vm_compute. reflexivity.
  - repeat constructor.
  - split; [exact H|]. split; vm_compute; reflexivity.
Defined.

Theorem restart_keeps_admin_changes_witness :
  managed_kept (w_db (lv_world after))
    (w_db (boot None (lv_world after)).1)
  /\ length (key_entry_tbl (w_db (boot None (lv_world after)).1)) = 2%nat.
Proof.
  split; [|vm_compute; reflexivity].
  apply (restart_keeps_admin_changes yaml_file (fun _ => "") (fun _ => Err "") offline (prov "openai") (prov "anthropic") (prov "gemini")
           (Ok "doc") (Ok "doc") None 1 (lv_world after)).
  - reflexivity.
  - vm_compute. discriminate.
Defined.

Theorem bootstrap_succeeds_witness :
  exists w' g, boot None StoreDemo.w0 = (w', Ok g) /\ cs_runtime (w_store w') = policy_of startup
    /\ (route_view <$> cs_routing (w_store w') !! "gpt") = Some ("p", Some StoreDemo.params, Some "gpt-large").
Proof.
  destruct (bootstrap_succeeds yaml_file (fun _ => "") (fun _ => Err "") offline (prov "openai") (prov "anthropic") (prov "gemini")
              "doc" startup None 1 StoreDemo.w0) as (w' & g & H1 & _ & _ & H2 & H3).
  - vm_compute. reflexivity.
  - exact doc_importable.
  - exact offline_fits.
  - reflexivity.
  - exact empty_db_good.
  - exact snapshot_default_good.
  - exists w', g. split; [exact H1|]. split; [exact H2|]. refine (eq_trans (H3 _ "gpt") _); [vm_compute; reflexivity|]. vm_compute. reflexivity.
Defined.

(** Pools that no route uses yet are replaced by a restart. *)
Example restart_replaces_unrouted_pools :
  kp_id <$> key_pool_tbl (w_db (boot None unrouted).1) = ["p"].
Proof. vm_compute. reflexivity. Qed.
End BootWitnesses.
