(* ===== verification/Health.v ===== *)
(** * The health task

    Models [src/src/health.rs]: the loop that probes the bad keys and revives
    those whose probe succeeds.  The pools and providers are the copies the
    task was started with.  A round works on the snapshot of the registry; what
    request handlers do to the registry while a key is probed is part of the
    probe's environment. *)

From S2P Require Import Prelude Json Types Config Router Credential.

Record HealthState := mkHealth {
  hs_bad : BadKeyRegistry;
  hs_retries : gmap (string * string) Z;    (* u32 *)
  hs_cred : CredentialRuntime
}.

Record ProbeEnv := mkProbeEnv {
  pe_clocks : Z * Z * Z;
  pe_post : string -> Form -> FormAnswer;
  pe_write_ok : bool;
  pe_probe : KeyEntry -> Result unit AppError;
  pe_others : BadKeyRegistry -> BadKeyRegistry
}.

Section Health.
Context `{Digest}.
Variables (pools : gmap string PoolConfig) (providers : gset string) (max_probe_retries : Z).

(** [pools.get(pool_id).and_then(|p| p.keys.iter().find(..))] *)
Definition key_entry (p kh : string) : option KeyEntry :=
  pools !! p ≫= (fun pool => List.find (fun k => str_eqb (identity_hash k) kh) (keys pool)).

(** The turn of the inner loop for one bad key. *)
Definition probe_item (st : HealthState) (item : string * string) (env : ProbeEnv) : HealthState :=
  match key_entry item.1 item.2 with
  | None => st
  | Some k =>
      if negb (bool_decide (item.1 ∈ providers)) then st
      else
        let '(t1, t2, t3) := pe_clocks env in
        let '(cr, fresh) := ensure_fresh (pe_post env) (hs_cred st) k t1 t2 t3 (pe_write_ok env) in
        match fresh with
        | Err _ => mkHealth (pe_others env (hs_bad st)) (hs_retries st) cr
        | Ok k =>
            let b := pe_others env (hs_bad st) in
            match pe_probe env k with
            | Ok _ => mkHealth (remove_bad b item.1 item.2) (delete item (hs_retries st)) cr
            | Err _ =>
                let count := match hs_retries st !! item with Some c => wadd 32 c 1 | None => 1 end in
                mkHealth b (<[item := count]> (hs_retries st)) cr
            end
        end
  end.

(** The log line that calls a key exiled; nothing else depends on it. *)
Definition reported_exiled (st : HealthState) (item : string * string) : bool :=
  match hs_retries st !! item with Some c => max_probe_retries <=? c | None => false end.

Context `{!DashIter string (list string)}.

Definition health_round (st : HealthState) (envs : list ProbeEnv) : HealthState :=
  foldl (fun st ie => probe_item st ie.1 ie.2) st (zip (bad_snapshot (hs_bad st)) envs).

(** The loop: one list of environments per round, until the shutdown. *)
Definition run_health_loop (st : HealthState) (rounds : list (list ProbeEnv)) : HealthState :=
  foldl health_round st rounds.
End Health.

(* ------------------------------------------------------------------ *)
(** ** What a round does to one key *)

Section HealthSpec.
Context `{DG : Digest} `{DI : !DashIter string (list string)}.
Hypothesis sha256_length : forall s, String.length (sha256 s) = 32%nat.
Variables (pools : gmap string PoolConfig) (providers : gset string).

(** A probe of a key with the identity [h] of the pool [p] that succeeded. *)
Definition probed_ok (p h : string) (env : ProbeEnv) : Prop :=
  exists k k', key_entry pools p h = Some k /\ identity_hash k' = h /\ pe_probe env k' = Ok tt.

Lemma key_entry_hash p h k : key_entry pools p h = Some k -> identity_hash k = h.
Proof.
  unfold key_entry. destruct (pools !! p) as [pool|]; [|done]. cbn. intros [_ Hk]%find_some.
  by apply str_eqb_spec.
Qed.

Lemma probe_item_revives st item env p h :
  (is_bad (pe_others env (hs_bad st)) p h = is_bad (hs_bad st) p h) ->
  is_bad (hs_bad st) p h = true -> is_bad (hs_bad (probe_item pools providers st item env)) p h = false ->
  item = (p, h) /\ p ∈ providers /\ probed_ok p h env.
Proof.
  intros Ho Hb. unfold probe_item. destruct (key_entry pools item.1 item.2) as [k|] eqn:Ek; [|congruence].
  case_bool_decide as Hp; cbn [negb]; [|congruence].
  destruct (pe_clocks env) as [[t1 t2] t3].
  destruct (ensure_fresh _ _ _ _ _ _ _) as [cr [k'|e]] eqn:Ef; cbn; [|congruence].
  destruct (pe_probe env k') as [[]|e] eqn:Epr; cbn; [|congruence].
  rewrite is_bad_remove, Ho, Hb. cbn. rewrite negb_false_iff, same_key_spec. intros He%bool_decide_eq_true.
  injection He as <- <-. split; [by destruct item|]. split; [done|].
  exists k, k'. split; [done|]. split; [|done].
  apply (fresh_key_identity sha256_length) in Ef. rewrite Ef. by apply key_entry_hash in Ek.
Qed.

Lemma round_revives l st p h :
  Forall (fun ie : (string * string) * ProbeEnv => forall b, is_bad (pe_others ie.2 b) p h = is_bad b p h) l ->
  is_bad (hs_bad st) p h = true ->
  is_bad (hs_bad (foldl (fun st ie => probe_item pools providers st ie.1 ie.2) st l)) p h = false ->
  p ∈ providers /\ exists env, env ∈ l.*2 /\ probed_ok p h env.
Proof.
  intros Ho. revert st. induction Ho as [|[item env] l Ho _ IH]; intros st Hb; cbn; [congruence|].
  destruct (is_bad (hs_bad (probe_item pools providers st item env)) p h) eqn:E; intros Hf.
  - destruct (IH _ E Hf) as (Hp & env' & Hin & Hpr). split; [done|]. exists env'. split; [by right|done].
  - apply probe_item_revives in E as (_ & Hp & Hpr); [|done|done]. split; [done|]. exists env. split; [by left|done].
Qed.

(** The health task re-enables a key only after a successful probe of
    it: if a round makes a bad key good (and no handler did), the task's
    configuration knows the key and its provider, and one of the round's
    probes used a credential of that identity and succeeded. *)
Theorem health_revives_only_probed st envs p h :
  Forall (fun env => forall b, is_bad (pe_others env b) p h = is_bad b p h) envs ->
  is_bad (hs_bad st) p h = true -> is_bad (hs_bad (health_round pools providers st envs)) p h = false ->
  p ∈ providers /\ exists env, env ∈ envs /\ probed_ok p h env.
Proof.
  intros Ho Hb Hf. unfold health_round in Hf. apply round_revives in Hf as (Hp & env & Hin & Hpr); [| |exact Hb].
  - split; [done|]. exists env. split; [|done]. apply list_elem_of_fmap in Hin as ([i e] & -> & Hin).
    by eapply elem_of_zip_r.
  - apply Forall_forall. intros [i e] Hin. apply elem_of_zip_r in Hin. cbn. by apply (proj1 (Forall_forall _ _) Ho).
Qed.

Lemma probe_item_keeps_good st item env p h :
  (forall b, is_bad b p h = false -> is_bad (pe_others env b) p h = false) ->
  is_bad (hs_bad st) p h = false -> is_bad (hs_bad (probe_item pools providers st item env)) p h = false.
Proof.
  intros Ho Hb. unfold probe_item. repeat case_match; simplify_eq/=; auto.
  rewrite is_bad_remove, (Ho _ Hb). done.
Qed.

Lemma round_keeps_good l st p h :
  Forall (fun ie : (string * string) * ProbeEnv => forall b, is_bad b p h = false -> is_bad (pe_others ie.2 b) p h = false) l ->
  is_bad (hs_bad st) p h = false ->
  is_bad (hs_bad (foldl (fun st ie => probe_item pools providers st ie.1 ie.2) st l)) p h = false.
Proof.
  intros Ho. revert st. induction Ho as [|[item env] l Ho _ IH]; intros st Hb; cbn; [done|].
  apply IH. by apply probe_item_keeps_good.
Qed.

(** Claim C39: a bad API key the task knows is back in service after one round,
    once its probe succeeds, however often its probes failed before (in
    particular after the task reported it permanently exiled), provided no
    handler marks it meanwhile. *)
Theorem health_round_recovers st envs p h k :
  key_entry pools p h = Some k -> is_oauth k = false -> p ∈ providers ->
  (length (bad_snapshot (hs_bad st)) <= length envs)%nat ->
  Forall (fun env => pe_probe env k = Ok tt /\ forall b, is_bad b p h = false -> is_bad (pe_others env b) p h = false) envs ->
  is_bad (hs_bad (health_round pools providers st envs)) p h = false.
Proof.
  intros Hk Ho Hp Hlen Henv. unfold health_round.
  destruct (is_bad (hs_bad st) p h) eqn:Hb.
  2:{ apply round_keeps_good; [|done]. apply Forall_forall. intros [i e] Hin%elem_of_zip_r.
      by apply (proj1 (Forall_forall _ _) Henv e). }
  assert (Hin : (p, h) ∈ bad_snapshot (hs_bad st)) by (by apply bad_snapshot_elem).
  revert Hin Hlen. generalize (bad_snapshot (hs_bad st)). intros l. clear Hb. revert st l.
  induction Henv as [|env envs [Hpr Hoth] Henv IH]; intros st l Hin Hlen.
  { destruct l; [by apply not_elem_of_nil in Hin|cbn in Hlen; lia]. }
  destruct l as [|item l]; [by apply not_elem_of_nil in Hin|]. cbn in *.
  apply elem_of_cons in Hin as [<-|Hin]; [|apply IH; [done|lia]].
  apply round_keeps_good.
  { apply Forall_forall. intros [i e] Hin%elem_of_zip_r. by apply (proj1 (Forall_forall _ _) Henv e). }
  unfold probe_item. cbn [fst snd]. rewrite Hk, bool_decide_true by done. cbn [negb].
  destruct (pe_clocks env) as [[t1 t2] t3]. unfold ensure_fresh. rewrite Ho. cbn [negb]. rewrite Hpr. cbn.
  rewrite is_bad_remove, same_key_spec, bool_decide_true by done. by rewrite andb_false_r.
Qed.
End HealthSpec.

(** A key of a pool the task was not started with is never revived. *)
Lemma unknown_key_stays_bad `{Digest} pools providers st item env p h :
  key_entry pools p h = None -> (forall b, is_bad b p h = true -> is_bad (pe_others env b) p h = true) ->
  is_bad (hs_bad st) p h = true -> is_bad (hs_bad (probe_item pools providers st item env)) p h = true.
Proof.
  intros Hk Ho Hb. unfold probe_item.
  destruct (decide (item = (p, h))) as [->|Hne]; [cbn; by rewrite Hk|].
  repeat case_match; simplify_eq/=; auto.
  rewrite is_bad_remove, (Ho _ Hb), same_key_spec, bool_decide_false; [done|]. by destruct item.
Qed.

(** ** Concrete rounds *)

Module HealthDemo.
Definition digest : Digest := CredentialDemo.digest.
Definition iter : DashIter string (list string) := dash_iter_by_key string (list string).
Definition k : KeyEntry := api_key "k-one" 1.
Definition h : string := @identity_hash digest k.
Definition pools : gmap string PoolConfig := {["p" := mkPool [k]]}.
Definition env : ProbeEnv := mkProbeEnv (0, 0, 0) (fun _ _ => Err "down") true (fun _ => Ok tt) id.
(** A key whose probes failed five times. *)
Definition st : HealthState :=
  mkHealth (mark_bad_hash bad_new "p" h) {[("p", h) := 5]} CredentialDemo.rt.
End HealthDemo.

Theorem health_round_recovers_witness :
  reported_exiled 3 HealthDemo.st ("p", HealthDemo.h) = true
  /\ is_bad (hs_bad (@health_round HealthDemo.digest HealthDemo.pools {["p"]} HealthDemo.iter HealthDemo.st [HealthDemo.env]))
       "p" HealthDemo.h = false.
Proof.
  split; [vm_compute; reflexivity|].
  apply (@health_round_recovers HealthDemo.digest HealthDemo.iter HealthDemo.pools {["p"]} HealthDemo.st [HealthDemo.env]
           "p" HealthDemo.h HealthDemo.k); [vm_compute; reflexivity|reflexivity|set_solver|vm_compute; lia|].
  rewrite Forall_cons. done.
Defined.

Theorem health_revives_only_probed_witness :
  exists env, env ∈ [HealthDemo.env]
    /\ @probed_ok HealthDemo.digest HealthDemo.pools "p" HealthDemo.h env.
Proof.
  apply (@health_revives_only_probed HealthDemo.digest HealthDemo.iter CredentialDemo.digest_length HealthDemo.pools {["p"]}
           HealthDemo.st [HealthDemo.env] "p" HealthDemo.h); [|vm_compute; reflexivity..].
  rewrite Forall_cons. done.
Defined.
