(* ===== verification/Handler.v ===== *)
(** * The chat completion request, from arrival to answer

    Models [src/src/server/handler.rs]: [chat_completions_handler] with its
    concurrency guard, cache, routing, retry and failover loop, accounting, alerts
    and logs; [build_stream_response] and the inspector task's final report;
    [compute_cost]; and the [RequestLog] of [src/src/db/mod.rs].

    Everything requests share is the record [Shared].  What the outside does to an
    attempt (random draw, clocks, the token endpoint, the provider's answer, and
    what other requests do to the shared state while this one waits) is the
    record [AttemptEnv]: at every await, and between the count and the mark of a
    demotion, where the code awaits nothing but another thread can act; the
    handler is a function of the list of attempts' environments, which runs out only if the loop makes more attempts than the
    list is long. *)

From S2P Require Import Prelude Json Types CircuitBreaker ThinkTags Alerts Concurrency Cache.
From S2P Require Import Config Pricing Db ConfigStore.
From S2P Require Import Router StreamNormalize Metrics Inspector Relay.
From S2P Require Import Providers Catalog Credential Auth.

(** ** The log row *)

Record RequestLog := mkLog {
  log_id : string; log_ts : Z; log_client_ip : option string; log_model : string; log_pool_id : string;
  log_key_hash : string; log_upstream : option string; log_status_code : option Z; log_latency_ms : option Z;
  log_prompt_tokens : option Z; log_completion_tokens : option Z; log_total_tokens : option Z;
  log_is_stream : bool; log_error : option string; log_audit : AuditDetail; log_error_code : option string;
  log_user_agent : option string; log_cost_usd : option Q
}.

(** What leaves the handler beside the answer, in order. *)
Inductive Event : Type :=
| EvAlert (e : AlertEvent)
| EvLog (l : RequestLog).

(** ** Configuration, request context, shared state *)

Record Provider := mkProvider {
  provider_base_url : string;
  extract_audit : ProviderResponse -> AuditFromProvider
}.

Record Shared := mkShared {
  sh_conc : ConcurrencyLimiter;
  sh_cache : PromptCache;
  sh_bad : BadKeyRegistry;
  sh_breaker : CircuitBreaker.CircuitBreaker;
  sh_bursts : gmap (string * string) Z;   (* error_burst_counters, u32 *)
  sh_metrics : Metrics;
  sh_cred : CredentialRuntime
}.

Definition set_conc (s : Shared) (x : ConcurrencyLimiter) : Shared :=
  mkShared x (sh_cache s) (sh_bad s) (sh_breaker s) (sh_bursts s) (sh_metrics s) (sh_cred s).
Definition set_cache (s : Shared) (x : PromptCache) : Shared :=
  mkShared (sh_conc s) x (sh_bad s) (sh_breaker s) (sh_bursts s) (sh_metrics s) (sh_cred s).
Definition set_bad (s : Shared) (x : BadKeyRegistry) : Shared :=
  mkShared (sh_conc s) (sh_cache s) x (sh_breaker s) (sh_bursts s) (sh_metrics s) (sh_cred s).
Definition set_breaker (s : Shared) (x : CircuitBreaker.CircuitBreaker) : Shared :=
  mkShared (sh_conc s) (sh_cache s) (sh_bad s) x (sh_bursts s) (sh_metrics s) (sh_cred s).
Definition set_bursts (s : Shared) (x : gmap (string * string) Z) : Shared :=
  mkShared (sh_conc s) (sh_cache s) (sh_bad s) (sh_breaker s) x (sh_metrics s) (sh_cred s).
Definition set_metrics (s : Shared) (x : Metrics) : Shared :=
  mkShared (sh_conc s) (sh_cache s) (sh_bad s) (sh_breaker s) (sh_bursts s) x (sh_cred s).
Definition set_cred (s : Shared) (x : CredentialRuntime) : Shared :=
  mkShared (sh_conc s) (sh_cache s) (sh_bad s) (sh_breaker s) (sh_bursts s) (sh_metrics s) x.

(** What is fixed once the request is routed. *)
Record Ctx := mkCtx {
  cx_request_id : string; cx_client_ip : option string; cx_user_agent : option string; cx_tenant : string;
  cx_req : ChatCompletionRequest; cx_provider : Provider; cx_pool : PoolConfig; cx_pool_id : string;
  cx_policy : RuntimePolicy; cx_strip : bool
}.

Record StreamContext := mkStreamCtx {
  st_request_id : string; st_ts : Z; st_model : string; st_pool_id : string; st_key_hash : string;
  st_upstream : string; st_retry_count : Z; st_tenant_id : string; st_min_latency_ms : Z;
  st_user_agent : option string; st_client_ip : option string; st_pricing : PricingConfig; st_strip : bool
}.

Inductive Reply : Type :=
| JsonReply (r : ChatCompletionResponse)
| StreamReply (ctx : StreamContext) (body : list item).

(** ** The client *)

(** [s.split(',').next()] *)
Fixpoint before_comma (s : string) : string :=
  match s with
  | EmptyString => EmptyString
  | String c s' => if Ascii.eqb c (chr 44) then EmptyString else String c (before_comma s')
  end.

Definition client_ip_of (h : header_map) : option string :=
  (fun s => trim (before_comma s)) <$> (or_else (header_get h "x-real-ip") (header_get h "x-forwarded-for") ≫= header_to_str).

Definition user_agent_of (h : header_map) : option string := header_get h "user-agent" ≫= header_to_str.

(** ** Cost *)

Definition compute_cost `{F64} (pricing : PricingConfig) (model tenant : string) (u : option Usage) : option Q :=
  match u with
  | None => None
  | Some u => cost_usd pricing model (Some tenant) (prompt_tokens u) (completion_tokens u)
  end.

Definition usage_or_default (u : option Usage) : Usage := unwrap_or u (mkUsage 0 0 0).

(** ** An attempt *)

Record AttemptEnv := mkEnv {
  ae_before : Shared -> Shared;               (* others, before the key is picked *)
  ae_rng : Z;
  ae_token_clocks : Z * Z * Z;
  ae_post : string -> Form -> FormAnswer;
  ae_write_ok : bool;
  ae_refreshing : Shared -> Shared;           (* others, while the token is refreshed *)
  ae_allow_now : Z;
  ae_chat : ChatCompletionRequest -> KeyEntry -> Result ProviderResponse AppError;
  ae_chatting : Shared -> Shared;             (* others, while the upstream answers *)
  ae_fail_clocks : Z * Z;
  ae_demoting : BadKeyRegistry -> BadKeyRegistry; (* others, between the count and the mark of a demotion *)
  ae_ts : Z;
  ae_latency_ms : Z;
  ae_pricing : PricingConfig;
  ae_logging : Shared -> Shared;              (* others, while the row is written *)
  ae_put_now : Z
}.

(** What an attempt comes to. *)
Inductive Outcome : Type :=
| Done (s : Shared) (evs : list Event) (r : Result Reply AppError)
| Next (s : Shared) (evs : list Event) (retries : list string).

Section Attempt.
Context `{SerdeJson} `{Digest} `{F64Display} `{F64} `{WeightedIndex} `{!DashIter string CacheEntry}.
Variable cx : Ctx.

Definition max_retries_of : nat := Z.to_nat (max_retries (failover (cx_policy cx))).

(** A response that is complete. *)
Definition finish_once (env : AttemptEnv) (s : Shared) (key_hash : string) (retries : list string)
    (resp : ChatCompletionResponse) : Outcome :=
  let req := cx_req cx in
  let s := set_metrics s (record_latency_ms (sh_metrics s) (ae_latency_ms env)) in
  let normalized := if cx_strip cx then normalize_chat_response resp else resp in
  let audit := mkAuditDetail (extract_audit (cx_provider cx) (Once resp))
                 (mkAuditFromRouter (Z.of_nat (length retries)) None) (mkAuditFromAuth (cx_tenant cx)) in
  let u := usage_or_default (usage normalized) in
  let s := set_metrics s (add_completion_tokens (add_prompt_tokens (sh_metrics s) (prompt_tokens u)) (completion_tokens u)) in
  let cost := compute_cost (ae_pricing env) (model req) (cx_tenant cx) (usage normalized) in
  let log := mkLog (cx_request_id cx) (ae_ts env) (cx_client_ip cx) (model req) (cx_pool_id cx) key_hash
               (Some (provider_base_url (cx_provider cx))) (Some 200) (Some (ae_latency_ms env))
               (Some (prompt_tokens u)) (Some (completion_tokens u)) (Some (total_tokens u)) false None audit None
               (cx_user_agent cx) cost in
  let s := ae_logging env s in
  let min_latency := min_latency_ms (alerts (cx_policy cx)) in
  let spike := if i64 min_latency <? ae_latency_ms env
               then [EvAlert (LatencySpike (ae_ts env) (model req) (ae_latency_ms env) min_latency)] else [] in
  let s := if 0 <? cache_max_entries (cx_policy cx) then set_cache s (put (sh_cache s) (ae_put_now env) req normalized)
           else s in
  Done s (EvLog log :: spike) (Ok (JsonReply normalized)).

Definition stream_context (env : AttemptEnv) (key_hash : string) (retries : list string) : StreamContext :=
  mkStreamCtx (cx_request_id cx) (ae_ts env) (model (cx_req cx)) (cx_pool_id cx) key_hash
    (provider_base_url (cx_provider cx)) (Z.of_nat (length retries)) (cx_tenant cx)
    (min_latency_ms (alerts (cx_policy cx))) (cx_user_agent cx) (cx_client_ip cx) (ae_pricing env) (cx_strip cx).

(** The upstream refused or failed the attempt. *)
Definition upstream_failed (env : AttemptEnv) (s : Shared) (attempts : nat) (retries : list string) (k : KeyEntry)
    (status : option Z) (retryable bad_key_hint : bool) (msg : string) : Outcome :=
  let key_hash := identity_hash k in
  let burst_key := (cx_pool_id cx, key_hash) in
  let count := match sh_bursts s !! burst_key with Some c => wadd 32 c 1 | None => 1 end in
  let s := set_bursts s (<[burst_key := count]> (sh_bursts s)) in
  let evs := if min_error_burst (alerts (cx_policy cx)) <=? count
             then [EvAlert (UpstreamError (ae_ts env) (cx_pool_id cx) key_hash
                              (unwrap_or (string_of_Z <$> status) "unknown") status msg)] else [] in
  let listed := match status with
                | Some st => existsb (Z.eqb st) (bad_status_codes (failover (cx_policy cx)))
                | None => false
                end in
  let after s retries :=
    if negb retryable then Done s evs (Err (Upstream status false false msg))
    else if (max_retries_of <? attempts)%nat then
      Done s evs (Err (Upstream status false false
        ("max retries (" +:+ string_of_Z (Z.of_nat max_retries_of) +:+ ") exceeded: " +:+ msg)))
    else Next s evs retries in
  if bad_key_hint && listed then
    let s := set_breaker s (record_failure (sh_breaker s) (cx_pool_id cx) key_hash
                              (ae_fail_clocks env).1 (ae_fail_clocks env).2).1 in
    let '(b, demoted) := try_demote (ae_demoting env) (sh_bad s) (cx_pool cx) (cx_pool_id cx) k in
    let s := set_bad s b in
    if demoted then
      after (set_metrics s (inc_key_demotion (sh_metrics s))) (retries ++ [key_hash])
    else Done s evs (Err (Upstream status false false msg))
  else after s retries.

(** The attempt once it has a usable key. *)
Definition try_key (env : AttemptEnv) (s : Shared) (attempts : nat) (retries : list string) (k : KeyEntry) : Outcome :=
  let key_hash := identity_hash k in
  let '(cb, allowed) := allow (sh_breaker s) (cx_pool_id cx) key_hash (ae_allow_now env) in
  let s := set_breaker s cb in
  if negb allowed then
    if (max_retries_of <? attempts)%nat then
      Done s [] (Err (Upstream (Some 429) true false ("circuit breaker open for pool '" +:+ cx_pool_id cx +:+ "'")))
    else Next s [] (retries ++ [key_hash])
  else
    let answer := ae_chat env (cx_req cx) k in
    let s := ae_chatting env s in
    match answer with
    | Ok resp =>
        let s := set_breaker s (record_success (sh_breaker s) (cx_pool_id cx) key_hash) in
        let s := set_bursts s (delete (cx_pool_id cx, key_hash) (sh_bursts s)) in
        match resp with
        | Once r => finish_once env s key_hash retries r
        | Stream body => Done s [] (Ok (StreamReply (stream_context env key_hash retries) body))
        end
    | Err (Upstream status retryable bad_key_hint msg) =>
        upstream_failed env s attempts retries k status retryable bad_key_hint msg
    | Err other => Done s [] (Err other)
    end.

Definition has_bad_key_hint (e : AppError) : bool :=
  match e with Upstream _ _ hint _ => hint | _ => false end.

(** One turn of the loop; [attempts] counts this one. *)
Definition attempt (env : AttemptEnv) (s : Shared) (attempts : nat) (retries : list string) : Outcome :=
  let s := ae_before env s in
  match pick_key (sh_bad s) (cx_pool cx) (cx_pool_id cx) (ae_rng env) with
  | None => Done s [EvAlert (PoolExhausted (ae_ts env) (cx_pool_id cx))] (Err (pool_exhausted (cx_pool_id cx)))
  | Some k =>
      let '(t1, t2, t3) := ae_token_clocks env in
      let '(cr, fresh) := ensure_fresh (ae_post env) (sh_cred s) k t1 t2 t3 (ae_write_ok env) in
      let s := ae_refreshing env (set_cred s cr) in
      match fresh with
      | Ok k => try_key env s attempts retries k
      | Err e =>
          if has_bad_key_hint e then
            let '(b, demoted) := try_demote (ae_demoting env) (sh_bad s) (cx_pool cx) (cx_pool_id cx) k in
            let s := set_bad s b in
            if demoted then
              if (max_retries_of <? attempts)%nat then Done s [] (Err e)
              else Next s [] (retries ++ [identity_hash k])
            else Done s [] (Err e)
          else Done s [] (Err e)
      end
  end.

(** The loop, over the attempts' environments; [None] when they run out. *)
Fixpoint chat_loop (envs : list AttemptEnv) (s : Shared) (attempts : nat) (retries : list string)
    : option (Shared * list Event * Result Reply AppError) :=
  match envs with
  | [] => None
  | env :: envs' =>
      match attempt env s (S attempts) retries with
      | Done s evs r => Some (s, evs, r)
      | Next s evs retries =>
          (fun '(s, evs', r) => (s, evs ++ evs', r)) <$> chat_loop envs' s (S attempts) retries
      end
  end.
End Attempt.

(** ** The handler *)

(** The default parameters of the route are added where the client sent none. *)
Definition merge_default_params (params : option Value) (extra : Value) : Value :=
  match params, extra with
  | Some (Object pm), Object ex => Object (foldl (fun ex kv => map_or_insert kv.1 kv.2 ex) ex pm)
  | _, _ => extra
  end.

(** What the request reads outside [Shared] before its first attempt. *)
Record RequestEnv := mkReqEnv {
  re_ts : Z;                          (* clock of the early alert or log *)
  re_cache_now : Z;
  re_pricing : PricingConfig;
  re_router : Router Provider;
  re_registry : list ModelRegistryEntry;
  re_policy : RuntimePolicy;
  re_strip : bool
}.

Section Handler.
Context `{SerdeJson} `{Digest} `{F64Display} `{F64} `{WeightedIndex} `{!DashIter string CacheEntry}.

(** [!is_streaming && req.temperature.unwrap_or(0.0) < 0.01] *)
Definition cacheable (req : ChatCompletionRequest) : bool :=
  negb (unwrap_or (stream req) false) && negb (Qle_bool (1 # 100) (unwrap_or (temperature req) 0%Q)).

Definition lookup_cached (s : Shared) (now : Z) (req : ChatCompletionRequest) : Shared * option ChatCompletionResponse :=
  if cacheable req then
    let '(c, r) := cache_get (sh_cache s) now req in (set_cache s c, r)
  else (s, None).

Definition cached_log (re : RequestEnv) (request_id tenant : string) (h : header_map) (model : string)
    (cached : ChatCompletionResponse) : RequestLog :=
  mkLog request_id (re_ts re) (client_ip_of h) model "cache" "cache-hit" None (Some 200) (Some 0)
    (prompt_tokens <$> usage cached) (completion_tokens <$> usage cached) (total_tokens <$> usage cached)
    false None audit_detail_none None (user_agent_of h) (compute_cost (re_pricing re) model tenant (usage cached)).

(** The request once it is routed: the retry loop on the request as sent. *)
Definition routed (re : RequestEnv) (tenant request_id : string) (h : header_map) (req : ChatCompletionRequest)
    (envs : list AttemptEnv) (s : Shared) : option (Shared * list Event * Result Reply AppError) :=
  let model := model req in
  match resolve (re_router re) model with
  | Err e => Some (s, [], Err e)
  | Ok (provider, route) =>
      match catalog_translate (re_registry re) model req with
      | Err e => Some (s, [], Err e)
      | Ok req =>
          let req := match re_upstream_model route with Some u => set_model req u | None => req end in
          let req := set_extra req (merge_default_params (re_default_params route) (extra req)) in
          chat_loop (mkCtx request_id (client_ip_of h) (user_agent_of h) tenant req provider (re_pool route)
                       (re_pool_id route) (re_policy re) (re_strip re)) envs s 0 []
      end
  end.

(** The concurrency guard is dropped when the handler returns. *)
Definition release (g : ConcurrencyGuard) (o : option (Shared * list Event * Result Reply AppError))
    : option (Shared * list Event * Result Reply AppError) :=
  (fun '(s, evs, r) => (set_conc s (drop_guard (sh_conc s) g), evs, r)) <$> o.

Definition too_many : AppError := Upstream (Some 429) true false "tenant concurrency limit reached".

Definition chat_completions_handler (re : RequestEnv) (tenant request_id : string) (h : header_map)
    (req : ChatCompletionRequest) (envs : list AttemptEnv) (s : Shared)
    : option (Shared * list Event * Result Reply AppError) :=
  let s := set_metrics s (inc_total_requests (sh_metrics s)) in
  let '(c, guard) := acquire (sh_conc s) tenant in
  let s := set_conc s c in
  match guard with
  | None => Some (set_metrics s (inc_failed (sh_metrics s)), [EvAlert (RateLimited (re_ts re) tenant)], Err too_many)
  | Some g =>
      let s := if unwrap_or (stream req) false then set_metrics s (inc_stream (sh_metrics s)) else s in
      let '(s, cached) := lookup_cached s (re_cache_now re) req in
      release g
        match cached with
        | Some cached =>
            Some (set_metrics s (inc_cache_hit (sh_metrics s)),
                  [EvLog (cached_log re request_id tenant h (model req) cached)], Ok (JsonReply cached))
        | None => routed re tenant request_id h req envs s
        end
  end.
End Handler.

(** ** Streams *)

Section Streams.
Context `{SerdeJson} `{F64}.

(** What the client receives. *)
Definition client_stream (strip : bool) (body : list item) : option (list item) :=
  if strip then normalized body else Some body.

(** The inspector task gets the chunks that are not errors, with the times at
    which it sees them. *)
Definition inspected (items : list item) (times : list Z) : list (string * Z) :=
  zip (omap (fun i => match i with Ok b => Some b | Err _ => None end) items) times.

Definition stream_report (ctx : StreamContext) (i : StreamInspector) (latency_ms : Z) : RequestLog * list Event :=
  let u := usage_or_default (sum_usage (finalize i)) in
  let log := mkLog (st_request_id ctx) (st_ts ctx) (st_client_ip ctx) (st_model ctx) (st_pool_id ctx) (st_key_hash ctx)
    (Some (st_upstream ctx)) (Some 200) (Some latency_ms) (Some (prompt_tokens u)) (Some (completion_tokens u))
    (Some (total_tokens u)) true None
    (mkAuditDetail (into_audit i) (mkAuditFromRouter (st_retry_count ctx) (insp_ttft_ms i)) (mkAuditFromAuth (st_tenant_id ctx)))
    None (st_user_agent ctx) (compute_cost (st_pricing ctx) (st_model ctx) (st_tenant_id ctx) (Some u)) in
  (log, if i64 (st_min_latency_ms ctx) <? latency_ms
        then [EvAlert (LatencySpike (st_ts ctx) (st_model ctx) latency_ms (st_min_latency_ms ctx))] else []).

(** [build_stream_response]: what the client gets, and what the task does to the
    metrics and reports once the stream is over. *)
Definition build_stream_response (ctx : StreamContext) (started_at : Z) (body : list item) (times : list Z)
    (closed_at latency_ms : Z) (m : Metrics) : option (list item * Metrics * list Event) :=
  (fun items =>
     let i := inspector_task started_at (inspected items times) closed_at in
     let '(log, spike) := stream_report ctx i latency_ms in
     (items, record_latency_ms m (Z.max latency_ms 0), EvLog log :: spike))
    <$> client_stream (st_strip ctx) body.
End Streams.

(* ------------------------------------------------------------------ *)
(** ** Facts about one attempt *)

Definition out_state (o : Outcome) : Shared := match o with Done s _ _ => s | Next s _ _ => s end.
Definition out_events (o : Outcome) : list Event := match o with Done _ e _ => e | Next _ e _ => e end.

(** What the others do during an attempt, at its awaits. *)
Definition interference (env : AttemptEnv) : list (Shared -> Shared) :=
  [ae_before env; ae_refreshing env; ae_chatting env; ae_logging env].

Definition is_log (e : Event) : bool := match e with EvLog _ => true | EvAlert _ => false end.
Definition logs (evs : list Event) : nat := count_if is_log evs.
Definition is_json (r : Result Reply AppError) : bool := match r with Ok (JsonReply _) => true | _ => false end.
Definition is_exhausted (e : Event) : bool :=
  match e with EvAlert (PoolExhausted _ _) => true | _ => false end.

Section AttemptFacts.
Context `{SJ : SerdeJson} `{DG : Digest} `{FD : F64Display} `{FL : F64} `{WI : WeightedIndex} `{DI : !DashIter string CacheEntry}.
Variable cx : Ctx.

(** An attempt goes on only while attempts are left, and remembers at most one
    more key. *)
Lemma attempt_next env s n retries s' evs retries' :
  attempt cx env s n retries = Next s' evs retries' ->
  (n <= max_retries_of cx)%nat /\ (length retries' <= S (length retries))%nat.
Proof.
  unfold attempt, try_key, upstream_failed, finish_once. intros Ha.
  repeat (case_match; simplify_eq/=; try done); rewrite ?length_app; simpl;
    repeat match goal with E : (_ <? _)%nat = false |- _ => apply Nat.ltb_ge in E end; lia.
Qed.

(** A row is written exactly by the attempts that end with a complete answer. *)
Lemma attempt_logs env s n retries :
  logs (out_events (attempt cx env s n retries))
  = match attempt cx env s n retries with Done _ _ r => if is_json r then 1 else 0 | Next _ _ _ => 0 end%nat.
Proof.
  unfold attempt, try_key, upstream_failed, finish_once.
  repeat (case_match; simplify_eq/=; try done).
Qed.

(** The retry count a row reports is the number of keys given up before. *)
Lemma attempt_retry_count env s n retries l :
  EvLog l ∈ out_events (attempt cx env s n retries) ->
  retry_count (from_router (log_audit l)) = Z.of_nat (length retries).
Proof.
  unfold attempt, try_key, upstream_failed, finish_once. intros Hin.
  repeat (case_match; simplify_eq/=; set_unfold; try naive_solver).
Qed.

(** The limiter and the registry: an attempt changes the registry by demotions
    only, and the limiter not at all. *)
Section Preserved.
Variable Q : ConcurrencyLimiter -> BadKeyRegistry -> Prop.

(** A demotion keeps it, with what the others do in the middle of it. *)
Definition demotes_safely (env : AttemptEnv) : Prop :=
  forall c b k, Q c b -> Q c (try_demote (ae_demoting env) b (cx_pool cx) (cx_pool_id cx) k).1.
Definition kept (s : Shared) : Prop := Q (sh_conc s) (sh_bad s).
Definition respects (env : AttemptEnv) : Prop := Forall (fun f => forall s, kept s -> kept (f s)) (interference env).

Lemma respects_all env : respects env ->
  (forall s, kept s -> kept (ae_before env s)) /\ (forall s, kept s -> kept (ae_refreshing env s))
  /\ (forall s, kept s -> kept (ae_chatting env s)) /\ (forall s, kept s -> kept (ae_logging env s)).
Proof. unfold respects, interference. rewrite !Forall_cons. tauto. Qed.

Lemma kept_ext s s' : sh_conc s = sh_conc s' -> sh_bad s = sh_bad s' -> kept s -> kept s'.
Proof. unfold kept. by intros -> ->. Qed.

Lemma kept_demote env s k : demotes_safely env -> kept s ->
  kept (set_bad s (try_demote (ae_demoting env) (sh_bad s) (cx_pool cx) (cx_pool_id cx) k).1).
Proof. intros Hd. apply Hd. Qed.

Lemma finish_kept env s kh retries r : respects env -> kept s -> kept (out_state (finish_once cx env s kh retries r)).
Proof.
  intros (_ & _ & _ & Hl)%respects_all Hs. unfold finish_once.
  set (s1 := set_metrics (set_metrics s _) _).
  assert (Hk : kept (ae_logging env s1)) by (apply Hl; exact Hs).
  cbn [out_state]. by destruct (0 <? _).
Qed.

Lemma failed_kept env s n retries k st rt bk msg : demotes_safely env -> kept s -> kept (out_state (upstream_failed cx env s n retries k st rt bk msg)).
Proof.
  intros Hsafe Hs. unfold upstream_failed. set (s1 := set_bursts s _).
  assert (Hs1 : kept s1) by exact Hs.
  destruct (_ && _); [|by repeat case_match].
  set (s2 := set_breaker s1 _). assert (Hs2 : kept s2) by exact Hs1.
  pose proof (kept_demote env s2 k Hsafe Hs2) as Hd. clearbody s2.
  destruct (try_demote _ (sh_bad s2) _ _ k) as [b d]. cbn [fst] in Hd.
  destruct d; [|exact Hd]. by repeat case_match.
Qed.

Lemma try_key_kept env s n retries k : respects env -> demotes_safely env -> kept s -> kept (out_state (try_key cx env s n retries k)).
Proof.
  intros Hr Hsafe Hs. pose proof (respects_all _ Hr) as (_ & _ & Hc & _). unfold try_key.
  destruct (allow _ _ _ _) as [cb al]. destruct al; cbn [negb]; [|by case_match].
  pose proof (Hc (set_breaker s cb) Hs) as Hs'.
  destruct (ae_chat env (cx_req cx) k) as [[r|body]|[| | | |st rt bk msg|]]; try exact Hs'.
  - by apply finish_kept.
  - by apply failed_kept.
Qed.

Lemma attempt_kept env s n retries : respects env -> demotes_safely env -> kept s -> kept (out_state (attempt cx env s n retries)).
Proof.
  intros Hr Hsafe Hs. pose proof (respects_all _ Hr) as (Hb & Hf & _). unfold attempt. apply Hb in Hs.
  destruct (pick_key _ _ _ _) as [k|]; [|exact Hs].
  destruct (ae_token_clocks env) as [[t1 t2] t3].
  destruct (ensure_fresh _ _ _ _ _ _ _) as [cr fresh].
  assert (Hs' : kept (ae_refreshing env (set_cred (ae_before env s) cr))) by (apply Hf; exact Hs).
  set (s2 := ae_refreshing env _) in *. clearbody s2.
  destruct fresh as [k'|e]; [by apply try_key_kept|].
  destruct (has_bad_key_hint e); [|exact Hs'].
  pose proof (kept_demote env s2 k Hsafe Hs') as Hd. destruct (try_demote _ (sh_bad s2) _ _ k) as [b d]. cbn [fst] in Hd.
  destruct d; [|exact Hd]. by case_match.
Qed.
End Preserved.

(** Only a pool without a selectable key is reported exhausted. *)
Lemma attempt_exhausted env s n retries :
  is_some (pick_key (sh_bad (ae_before env s)) (cx_pool cx) (cx_pool_id cx) (ae_rng env)) = true ->
  existsb is_exhausted (out_events (attempt cx env s n retries)) = false.
Proof.
  unfold attempt, try_key, upstream_failed, finish_once. destruct (pick_key _ _ _ _); [intros _|done].
  repeat (case_match; simplify_eq/=; try done).
Qed.
End AttemptFacts.

(** ** The loop *)

Section LoopFacts.
Context `{SJ : SerdeJson} `{DG : Digest} `{FD : F64Display} `{FL : F64} `{WI : WeightedIndex} `{DI : !DashIter string CacheEntry}.
Variable cx : Ctx.

Lemma loop_ends envs s n retries :
  (n <= max_retries_of cx)%nat -> (max_retries_of cx < n + length envs)%nat ->
  exists out, chat_loop cx envs s n retries = Some out
              /\ chat_loop cx (take (S (max_retries_of cx) - n) envs) s n retries = Some out.
Proof.
  revert s n retries. induction envs as [|env envs IH]; intros s n retries Hn Hl; [simpl in Hl; lia|].
  replace (S (max_retries_of cx) - n)%nat with (S (max_retries_of cx - n)) by lia. simpl.
  destruct (attempt cx env s (S n) retries) as [s' evs r|s' evs retries'] eqn:Ea; [eauto|].
  apply attempt_next in Ea as [Ha _]. simpl in Hl.
  destruct (IH s' (S n) retries') as ([[s2 evs2] r2] & H1 & H2); [lia..|].
  replace (S (max_retries_of cx) - S n)%nat with (max_retries_of cx - n)%nat in H2 by lia.
  rewrite H1, H2. simpl. eauto.
Qed.

Lemma logs_app a b : logs (a ++ b) = (logs a + logs b)%nat.
Proof. unfold logs, count_if. by rewrite List.filter_app, length_app. Qed.

Lemma loop_logs envs s n retries s' evs r :
  (length retries <= n)%nat -> chat_loop cx envs s n retries = Some (s', evs, r) ->
  logs evs = (if is_json r then 1 else 0)%nat
  /\ (forall l, EvLog l ∈ evs -> 0 <= retry_count (from_router (log_audit l)) <= Z.of_nat (n `max` max_retries_of cx)).
Proof.
  revert s n retries s' evs r. induction envs as [|env envs IH]; intros s n retries s' evs r Hlen; simpl; [done|].
  pose proof (attempt_logs cx env s (S n) retries) as Hlog.
  pose proof (attempt_retry_count cx env s (S n) retries) as Hrc.
  destruct (attempt cx env s (S n) retries) as [s1 e1 r1|s1 e1 retries1] eqn:Ea; simpl in Hlog, Hrc.
  - intros [= <- <- <-]. split; [done|]. intros l Hl. rewrite (Hrc l Hl). lia.
  - pose proof (attempt_next _ _ _ _ _ _ _ _ Ea) as [Hn Hlen'].
    destruct (chat_loop cx envs s1 (S n) retries1) as [[[s2 e2] r2]|] eqn:El; [|done]. simpl.
    intros [= <- <- <-]. apply IH in El as [Hl2 Hr2]; [|lia]. rewrite logs_app, Hlog, Hl2. split; [lia|].
    intros l [Hl|Hl]%elem_of_app; [rewrite (Hrc l Hl); lia|]. specialize (Hr2 l Hl). lia.
Qed.

Lemma loop_kept Q envs s n retries s' evs r :
  Forall (respects Q) envs -> Forall (demotes_safely cx Q) envs -> kept Q s ->
  chat_loop cx envs s n retries = Some (s', evs, r) -> kept Q s'.
Proof.
  intros Hr. revert s n retries s' evs r. induction Hr as [|env envs He _ IH]; intros s n retries s' evs r; [done|].
  intros [Hq Hqs]%Forall_cons Hs. simpl.
  pose proof (attempt_kept cx Q env s (S n) retries He Hq Hs) as Hk.
  destruct (attempt cx env s (S n) retries) as [s1 e1 r1|s1 e1 retries1]; simpl in Hk.
  - by intros [= <- <- <-].
  - destruct (chat_loop cx envs s1 (S n) retries1) as [[[s2 e2] r2]|] eqn:El; [|done]. simpl.
    intros [= <- <- <-]. by eapply IH.
Qed.

(** While the pool keeps a selectable key, no attempt finds it exhausted. *)
Lemma loop_exhausted envs s n retries s' evs r :
  (forall b rng, (1 <= healthy_key_count b (cx_pool cx) (cx_pool_id cx))%nat ->
     is_some (pick_key b (cx_pool cx) (cx_pool_id cx) rng) = true) ->
  let Q := fun _ b => (1 <= healthy_key_count b (cx_pool cx) (cx_pool_id cx))%nat in
  Forall (respects Q) envs -> Forall (demotes_safely cx Q) envs -> kept Q s ->
  chat_loop cx envs s n retries = Some (s', evs, r) -> existsb is_exhausted evs = false.
Proof.
  intros Hpick Q Hr. revert s n retries s' evs r.
  induction Hr as [|env envs He _ IH]; intros s n retries s' evs r; [done|].
  intros [Hq Hqs]%Forall_cons Hs. simpl.
  pose proof (attempt_kept cx Q env s (S n) retries He Hq Hs) as Hk.
  pose proof (respects_all _ _ He) as (Hb & _). apply Hb in Hs.
  pose proof (attempt_exhausted cx env s (S n) retries (Hpick _ (ae_rng env) Hs)) as Hx.
  destruct (attempt cx env s (S n) retries) as [s1 e1 r1|s1 e1 retries1]; simpl in Hk, Hx.
  - by intros [= <- <- <-].
  - destruct (chat_loop cx envs s1 (S n) retries1) as [[[s2 e2] r2]|] eqn:El; [|done]. simpl.
    intros [= <- <- <-]. rewrite existsb_app, Hx. simpl. by eapply IH.
Qed.
End LoopFacts.

(** ** The handler *)

Lemma filter_weight_le (p : KeyEntry -> bool) l :
  Forall (fun k => 0 <= weight k) l ->
  0 <= total_weight (weight <$> List.filter p l) <= total_weight (weight <$> l).
Proof.
  induction 1 as [|k l Hk _ IH]; [done|]. csimpl.
  change (total_weight (weight k :: (weight <$> l))) with (weight k + total_weight (weight <$> l)).
  destruct (p k); csimpl; [|lia].
  change (total_weight (weight k :: (weight <$> List.filter p l))) with (weight k + total_weight (weight <$> List.filter p l)).
  lia.
Qed.

Section HandlerClaims.
Context `{SJ : SerdeJson} `{DG : Digest} `{FD : F64Display} `{FL : F64} `{WI : WeightedIndex} `{DI : !DashIter string CacheEntry}.
Variables (re : RequestEnv) (tenant request_id : string) (h : header_map) (req : ChatCompletionRequest).

Definition policy_retries : nat := Z.to_nat (max_retries (failover (re_policy re))).

(** The loop the handler runs, if it gets there. *)
Lemma routed_cases :
  (exists e, forall envs s, routed re tenant request_id h req envs s = Some (s, [], Err e))
  \/ exists cx route, model_map (re_router re) !! model req = Some route
       /\ cx_pool cx = re_pool route /\ cx_pool_id cx = re_pool_id route /\ cx_policy cx = re_policy re
       /\ forall envs s, routed re tenant request_id h req envs s = chat_loop cx envs s 0 [].
Proof.
  unfold routed, resolve.
  destruct (model_map (re_router re) !! model req) as [route|]; cbn [ok_or]; [|left; by eexists].
  destruct (router_providers (re_router re) !! re_pool_id route); cbn [ok_or]; [|left; by eexists].
  destruct (catalog_translate (re_registry re) (model req) req) as [req'|e]; [|left; by eexists].
  right. by eexists (mkCtx _ _ _ _ _ _ (re_pool route) (re_pool_id route) (re_policy re) _), route.
Qed.

Lemma lookup_cached_frame s now s' r :
  lookup_cached s now req = (s', r) -> sh_conc s' = sh_conc s /\ sh_bad s' = sh_bad s.
Proof.
  unfold lookup_cached. destruct (cacheable req); [|by intros [= <- <-]].
  destruct (cache_get _ _ _). by intros [= <- <-].
Qed.

(** The handler before its loop: the state the loop starts in has the limiter
    with the permits taken and the registry as it was. *)
Lemma handler_cases s :
  (acquire (sh_conc s) tenant).2 = None
     /\ (exists s', sh_conc s' = (acquire (sh_conc s) tenant).1 /\ sh_bad s' = sh_bad s
           /\ forall envs, chat_completions_handler re tenant request_id h req envs s
           = Some (s', [EvAlert (RateLimited (re_ts re) tenant)], Err too_many))
  \/ exists g s1, (acquire (sh_conc s) tenant).2 = Some g
     /\ sh_conc s1 = (acquire (sh_conc s) tenant).1 /\ sh_bad s1 = sh_bad s
     /\ ((exists l c, retry_count (from_router (log_audit l)) = 0 /\ forall envs,
            chat_completions_handler re tenant request_id h req envs s
            = release g (Some (s1, [EvLog l], Ok (JsonReply c))))
         \/ forall envs, chat_completions_handler re tenant request_id h req envs s
            = release g (routed re tenant request_id h req envs s1)).
Proof.
  unfold chat_completions_handler. cbn [sh_conc set_metrics].
  destruct (acquire (sh_conc s) tenant) as [c [g|]] eqn:Ea; cbn [fst snd].
  2:{ left. split; [done|]. eexists. split; [|split]; [..|by intros _]; done. }
  right. set (s0 := if unwrap_or (stream req) false then _ else _).
  assert (H0 : sh_conc s0 = c /\ sh_bad s0 = sh_bad s) by (by subst s0; destruct (unwrap_or _ _)).
  clearbody s0. destruct (lookup_cached s0 (re_cache_now re) req) as [s1 cached] eqn:El.
  apply lookup_cached_frame in El as [Hc Hb]. destruct H0 as [H0c H0b].
  destruct cached as [cached|].
  - exists g, (set_metrics s1 (inc_cache_hit (sh_metrics s1))). cbn. split; [done|].
    split; [congruence|]. split; [congruence|]. left.
    exists (cached_log re request_id tenant h (model req) cached), cached. split; [done|]. by intros envs.
  - exists g, s1. split; [done|]. split; [congruence|]. split; [congruence|]. right. by intros envs.
Qed.

(** Claim C1: a chat request always ends, with an answer or an error, after at
    most [max_retries + 1] attempts, whatever the upstream, the token endpoint,
    the clocks, the random draws and the other requests do: more environments
    than that are never looked at. *)
Theorem handler_bounded_attempts envs s :
  (policy_retries < length envs)%nat ->
  exists out, chat_completions_handler re tenant request_id h req envs s = Some out
    /\ chat_completions_handler re tenant request_id h req (take (S policy_retries) envs) s = Some out.
Proof.
  intros Hl. destruct (handler_cases s) as [(_ & s0 & _ & _ & Hr)|(g & s1 & _ & _ & _ & [(l & c & _ & Hc)|Hc])].
  - rewrite !Hr. eauto.
  - rewrite !Hc. simpl. eauto.
  - rewrite !Hc. destruct routed_cases as [[e He]|(cx & route & _ & _ & _ & Hp & He)]; rewrite !He; simpl; [eauto|].
    destruct (loop_ends cx envs s1 0 []) as ([[s' evs] r] & H1 & H2);
      unfold max_retries_of in *; rewrite Hp in *; fold policy_retries in *; [lia|lia|].
    rewrite Nat.sub_0_r in H2. rewrite H1, H2. simpl. eauto.
Qed.

(** The rows of a request, and their retry counts. *)
Lemma handler_log_rows envs s s' evs r :
  chat_completions_handler re tenant request_id h req envs s = Some (s', evs, r) ->
  logs evs = (if is_json r then 1 else 0)%nat
  /\ forall l, EvLog l ∈ evs -> 0 <= retry_count (from_router (log_audit l)) <= Z.of_nat policy_retries.
Proof.
  intros He. destruct (handler_cases s) as [(_ & s0 & _ & _ & Hr)|(g & s1 & _ & _ & _ & [(l & c & Hrc & Hc)|Hc])].
  - rewrite Hr in He. injection He as <- <- <-. split; [done|]. set_solver.
  - rewrite Hc in He. injection He as <- <- <-. split; [done|]. intros l' Hl'.
    apply list_elem_of_singleton in Hl'. injection Hl' as ->. lia.
  - rewrite Hc in He. destruct routed_cases as [[e Hx]|(cx & route & _ & _ & _ & Hp & Hx)]; rewrite Hx in He.
    + injection He as <- <- <-. split; [done|]. set_solver.
    + destruct (chat_loop cx envs s1 0 []) as [[[s2 e2] r2]|] eqn:El; [|done].
      injection He as <- <- <-. apply loop_logs in El as [Hl1 Hl2]; [|done].
      unfold max_retries_of in Hl2. rewrite Hp in Hl2. fold policy_retries in Hl2. by rewrite Nat.max_0_l in Hl2.
Qed.

(** A request writes one log row exactly when it is answered with a
    complete response, and none when it fails (or streams: the row is then
    written when the stream is over); the retry count of a row never exceeds
    the configured retries. *)
Theorem handler_logs_answers envs s s' evs r :
  chat_completions_handler re tenant request_id h req envs s = Some (s', evs, r) ->
  logs evs = (if is_json r then 1 else 0)%nat
  /\ forall l, EvLog l ∈ evs -> 0 <= retry_count (from_router (log_audit l)) <= Z.of_nat policy_retries.
Proof. apply handler_log_rows. Qed.

(** A request gives back the permits it took, however it ends: unless
    others use the limiter meanwhile, every tenant and the gateway have the
    same permits after it as before. *)
Theorem handler_returns_permits envs s s' evs r t :
  let Q := fun c (_ : BadKeyRegistry) => c = (acquire (sh_conc s) tenant).1 in
  Forall (respects Q) envs ->
  chat_completions_handler re tenant request_id h req envs s = Some (s', evs, r) ->
  available (sh_conc s') t = available (sh_conc s) t /\ global_available (sh_conc s') = global_available (sh_conc s).
Proof.
  intros Q Hr He. pose proof (acquire_release (sh_conc s) tenant t) as Had.
  destruct (handler_cases s) as [(Hno & s0 & H2 & _ & Hx)|(g & s1 & Hg & Hconc & _ & Hrest)].
  - rewrite Hx in He. injection He as <- _ _. rewrite H2.
    destruct (acquire (sh_conc s) tenant) as [c o]. cbn in *. rewrite Hno in Had. tauto.
  - assert (Hrel : forall s2, sh_conc s2 = (acquire (sh_conc s) tenant).1 ->
        available (drop_guard (sh_conc s2) g) t = available (sh_conc s) t
        /\ global_available (drop_guard (sh_conc s2) g) = global_available (sh_conc s)).
    { intros s2 H2. rewrite H2. destruct (acquire (sh_conc s) tenant) as [c o]. cbn in *. subst o. tauto. }
    destruct Hrest as [(l & c & _ & Hc)|Hc]; rewrite Hc in He.
    { injection He as <- _ _. by apply Hrel. }
    destruct routed_cases as [[e Hx]|(cx & route & _ & _ & _ & _ & Hx)]; rewrite Hx in He.
    { injection He as <- _ _. by apply Hrel. }
    destruct (chat_loop cx envs s1 0 []) as [[[s2 e2] r2]|] eqn:El; [|done].
    injection He as <- _ _. apply Hrel. eapply (loop_kept cx Q) in El; [exact El|done| |done].
    apply Forall_true. by intros env c0 b k.
Qed.

Context `{WL : !WeightedIndexLaws}.

(** The others leave two selectable keys, where there were two or more, while this
    request is between counting the keys and marking one. *)
Definition leaves_two (pool : PoolConfig) (pid : string) (env : AttemptEnv) : Prop :=
  forall b, (2 <= healthy_key_count b pool pid)%nat -> (2 <= healthy_key_count (ae_demoting env b) pool pid)%nat.

(** Claim C2: the request does not take the last selectable key of its pool, so it
    never reports the pool exhausted, whatever keys its attempts demote, as long
    as the others let it: at each await they keep a selectable key, and between
    the request's count of the keys and its mark, which are separate steps, they
    leave two keys selectable where there were two.  Without that last condition
    it can empty the pool: [racing_demotion_empties_pool].  (The keys of the pool
    have distinct identities and weights that fit 32 bits together; each scan of
    the registry is one step.) *)
Theorem handler_keeps_pool_alive envs s s' evs r route :
  model_map (re_router re) !! model req = Some route ->
  distinct_hashes (re_pool route) ->
  Forall (fun k => 0 <= weight k) (keys (re_pool route)) -> total_weight (weight <$> keys (re_pool route)) < 2 ^ 32 ->
  let Q := fun (_ : ConcurrencyLimiter) b => (1 <= healthy_key_count b (re_pool route) (re_pool_id route))%nat in
  Forall (respects Q) envs -> Forall (leaves_two (re_pool route) (re_pool_id route)) envs -> kept Q s ->
  chat_completions_handler re tenant request_id h req envs s = Some (s', evs, r) ->
  kept Q s' /\ existsb is_exhausted evs = false.
Proof.
  intros Hroute Hd Hw Ht Q Hr Htwo Hs He.
  destruct (handler_cases s) as [(_ & s0 & _ & H2 & Hx)|(g & s1 & _ & _ & Hbad & Hrest)].
  { rewrite Hx in He. injection He as <- <- _. split; [|done].
    unfold kept in *. by rewrite H2. }
  assert (Hs1 : kept Q s1) by (unfold kept in *; by rewrite Hbad).
  destruct Hrest as [(l & c & _ & Hc)|Hc]; rewrite Hc in He.
  { by injection He as <- <- _. }
  destruct routed_cases as [[e Hx]|(cx & route' & Hroute' & Hp & Hpid & _ & Hx)]; rewrite Hx in He.
  { by injection He as <- <- _. }
  rewrite Hroute in Hroute'. injection Hroute' as <-. unfold Q in *. clear Q. rewrite <- Hp, <- Hpid in *.
  assert (Forall (demotes_safely cx (fun _ b => (1 <= healthy_key_count b (cx_pool cx) (cx_pool_id cx))%nat)) envs) as Hsafe.
  { eapply Forall_impl; [exact Htwo|]. intros env He2 c b k Hb. apply try_demote_leaves_one; [done|done|apply He2]. }
  destruct (chat_loop cx envs s1 0 []) as [[[s2 e2] r2]|] eqn:El; [|done]. injection He as <- <- _. split.
  - eapply (loop_kept cx) in El; [exact El|exact Hr|exact Hsafe|exact Hs1].
  - eapply (loop_exhausted cx) in El; [exact El| |exact Hr|exact Hsafe|exact Hs1].
    intros b rng Hc1. pose proof (pick_key_spec b (cx_pool cx) (cx_pool_id cx) rng Hw) as Hpk.
    destruct (pick_key _ _ _ _); [done|]. exfalso. rewrite Hpk in Hc1; [lia|].
    pose proof (filter_weight_le (healthy b (cx_pool_id cx)) _ Hw). lia.
Qed.
End HandlerClaims.

(** ** The rows of a request *)

(** What a row of the chat handler looks like; a cached answer, which has no
    upstream, is logged for the default tenant. *)
Record log_shape (id tenant : string) (l : RequestLog) : Prop := {
  ls_id : log_id l = id;
  ls_status : log_status_code l = Some 200;
  ls_tenant : audit_tenant_id (from_auth (log_audit l)) = match log_upstream l with Some _ => tenant | None => "default" end
}.

Section Rows.
Context `{SJ : SerdeJson} `{DG : Digest} `{FD : F64Display} `{FL : F64} `{WI : WeightedIndex} `{DI : !DashIter string CacheEntry}.

Definition attempt_row (cx : Ctx) (l : RequestLog) : Prop :=
  log_id l = cx_request_id cx /\ log_status_code l = Some 200 /\ audit_tenant_id (from_auth (log_audit l)) = cx_tenant cx
  /\ is_Some (log_upstream l).

Lemma attempt_rows cx env s n retries l : EvLog l ∈ out_events (attempt cx env s n retries) -> attempt_row cx l.
Proof.
  unfold attempt, try_key, upstream_failed, finish_once, attempt_row. intros Hin.
  repeat (case_match; simplify_eq/=; set_unfold; try naive_solver).
Qed.

Lemma loop_rows cx envs s n retries s' evs r l : chat_loop cx envs s n retries = Some (s', evs, r) -> EvLog l ∈ evs -> attempt_row cx l.
Proof.
  revert s n retries s' evs r. induction envs as [|env envs IH]; intros s n retries s' evs r; [done|]. cbn [chat_loop].
  pose proof (attempt_rows cx env s (S n) retries l) as Ha. destruct (attempt cx env s (S n) retries) as [s1 e1 r1|s1 e1 re1]; cbn [out_events] in Ha.
  - by intros [= <- <- <-].
  - destruct (chat_loop cx envs s1 (S n) re1) as [[[s2 e2] r2]|] eqn:E; [|done]. intros [= <- <- <-] [H|H]%elem_of_app; [auto|by eapply IH].
Qed.

(** Every row a chat request writes. *)
Lemma handler_rows re tenant id h req envs s s' evs r l :
  chat_completions_handler re tenant id h req envs s = Some (s', evs, r) -> EvLog l ∈ evs -> log_shape id tenant l.
Proof.
  unfold chat_completions_handler. destruct (acquire _ tenant) as [c [g|]]; [|intros [= <- <- <-]; set_solver].
  destruct (lookup_cached _ _ _) as [s1 [cached|]]; cbn [release fmap option_fmap option_map].
  { intros [= <- <- <-] Hl%list_elem_of_singleton. injection Hl as ->. done. }
  unfold routed. destruct (resolve _ _) as [[provider route]|e]; [|intros [= <- <- <-]; set_solver].
  destruct (catalog_translate _ _ _) as [req'|e]; [|intros [= <- <- <-]; set_solver]. cbv zeta.
  destruct (chat_loop _ envs s1 0 []) as [[[s2 e2] r2]|] eqn:E; [|done]. intros [= <- <- <-] Hl.
  destruct (loop_rows _ _ _ _ _ _ _ _ l E Hl) as (H1 & H2 & H3 & [u H4]). split; [done|done|]. by rewrite H4.
Qed.

(** The context of a stream has the request's id, tenant and retries. *)
Definition stream_shape (id tenant : string) (bound : nat) (ctx : StreamContext) : Prop :=
  st_request_id ctx = id /\ st_tenant_id ctx = tenant /\ 0 <= st_retry_count ctx <= Z.of_nat bound.

Lemma attempt_stream cx env s n retries s' evs ctx body :
  attempt cx env s n retries = Done s' evs (Ok (StreamReply ctx body)) ->
  stream_shape (cx_request_id cx) (cx_tenant cx) (length retries) ctx.
Proof.
  unfold attempt, try_key, upstream_failed, finish_once, stream_shape. intros H.
  repeat (case_match; simplify_eq/=; try done); (split; [done|]; split; [done|]; lia).
Qed.

Lemma loop_stream cx envs s n retries s' evs ctx body : (length retries <= n)%nat ->
  chat_loop cx envs s n retries = Some (s', evs, Ok (StreamReply ctx body)) ->
  stream_shape (cx_request_id cx) (cx_tenant cx) (n `max` max_retries_of cx) ctx.
Proof.
  revert s n retries s' evs. induction envs as [|env envs IH]; intros s n retries s' evs Hlen; [done|]. cbn [chat_loop].
  destruct (attempt cx env s (S n) retries) as [s1 e1 r1|s1 e1 re1] eqn:Ea.
  - intros [= <- <- ->]. apply attempt_stream in Ea as (H1 & H2 & H3). split; [done|]. split; [done|]. lia.
  - apply attempt_next in Ea as [Hn Hl]. destruct (chat_loop cx envs s1 (S n) re1) as [[[s2 e2] r2]|] eqn:E; [|done].
    intros [= <- <- ->]. apply IH in E as (H1 & H2 & H3); [|lia]. split; [done|]. split; [done|]. lia.
Qed.

Lemma handler_stream re tenant id h req envs s s' evs ctx body :
  chat_completions_handler re tenant id h req envs s = Some (s', evs, Ok (StreamReply ctx body)) ->
  stream_shape id tenant (policy_retries re) ctx.
Proof.
  unfold chat_completions_handler. destruct (acquire _ tenant) as [c [g|]]; [|done].
  destruct (lookup_cached _ _ _) as [s1 [cached|]]; cbn [release fmap option_fmap option_map]; [done|].
  unfold routed. destruct (resolve _ _) as [[provider route]|e]; [|done].
  destruct (catalog_translate _ _ _) as [req'|e]; [|done]. cbv zeta.
  destruct (chat_loop _ envs s1 0 []) as [[[s2 e2] r2]|] eqn:E; [|done]. intros [= <- <- ->].
  by apply loop_stream in E.
Qed.
End Rows.

(* ------------------------------------------------------------------ *)
(** ** Concrete requests *)

Module HandlerDemo.
#[local] Existing Instance exact_f64.
Definition serde : SerdeJson := Cache.Demo.serde.
(** Digests of 32 bytes that keep the first bytes of the text. *)
Definition digest : Digest := {| sha256 := fun s => str_take 32 (s +:+ "................................") |}.
Definition display : F64Display := Cache.Demo.display.
Definition wi : WeightedIndex := RouterDemo.wi.
Definition iter : DashIter string CacheEntry := dash_iter_by_key string CacheEntry.
#[local] Existing Instances serde digest display wi iter.

Definition pool : PoolConfig := mkPool [api_key "k-one" 1; api_key "k-two" 3].
Definition provider : Provider := mkProvider "https://up" (fun _ => default_audit_from_provider).
(** "alias" is served by "big" upstream, "plain" under its own name. *)
Definition router : Router Provider :=
  mkRouter {["alias" := mkRouteEntry "p" pool None (Some "big"); "plain" := mkRouteEntry "p" pool None None]}
           {["p" := provider]}.
Definition policy : RuntimePolicy := mkPolicy default_failover (mkAlertConfig true "" "" 2 1000 (al_channels alert_config_default)) 10 (mkNormalization true).
Definition re : RequestEnv := mkReqEnv 7 1 (mkPricing ∅) router [] policy true.
Definition s0 : Shared :=
  mkShared (conc_new 2 5) (cache_new 10) bad_new with_defaults ∅ metrics_default (cred_new None (mkEndpoints "t" "d" "c")).
Definition req (m : string) (streaming : bool) : ChatCompletionRequest :=
  mkRequest m [mkMessage "user" (Str "hi") None None None] (Some streaming) None None None None None None None None None None (Object []).
Definition answer : ChatCompletionResponse :=
  mkResponse "r1" "chat.completion" 0 "big"
    [mkChoice 0 (mkResponseMessage "assistant" (Some "yo") None None None None None) (Some "stop")] (Some (mkUsage 3 4 7)) None.
(** An attempt that meets the answer [a] while nobody else is active. *)
Definition env (a : Result ProviderResponse AppError) : AttemptEnv :=
  mkEnv id 0 (0, 0, 0) (fun _ _ => Err "down") true id 10 (fun _ _ => a) id (10, 10) id 8 20 (mkPricing ∅) id 30.
Definition ok : AttemptEnv := env (Ok (Once answer)).
Definition rejected : AttemptEnv := env (Err (Upstream (Some 401) true true "no")).
Definition broken : AttemptEnv := env (Err (Upstream (Some 500) true false "oops")).
Definition headers : header_map := [("x-real-ip", " 10.0.0.1 , x")].
Definition run (r : ChatCompletionRequest) (envs : list AttemptEnv) (s : Shared) :=
  chat_completions_handler re "t1" "id" headers r envs s.
Definition logged (o : option (Shared * list Event * Result Reply AppError)) : list (string * string * Z) :=
  match o with
  | Some (_, evs, _) => omap (fun e => match e with
                                       | EvLog l => Some (log_pool_id l, log_model l, retry_count (from_router (log_audit l)))
                                       | _ => None end) evs
  | None => []
  end.
Definition state_after (o : option (Shared * list Event * Result Reply AppError)) : Shared :=
  match o with Some (s, _, _) => s | None => s0 end.
End HandlerDemo.

Section HandlerWitnesses.
Import HandlerDemo.
#[local] Existing Instances exact_f64 serde digest display wi iter.

Example failover_works :
  logged (run (req "plain" false) [rejected; ok] s0) = [("p", "plain", 1)]
  /\ is_bad (sh_bad (state_after (run (req "plain" false) [rejected; ok] s0))) "p" (identity_hash (api_key "k-one" 1)) = true.
Proof. split; vm_compute; reflexivity. Qed.

Theorem handler_bounded_attempts_witness :
  exists out, run (req "plain" false) [rejected; ok; ok] s0 = Some out /\ run (req "plain" false) [rejected; ok] s0 = Some out.
Proof. apply (handler_bounded_attempts re "t1" "id" headers (req "plain" false) [rejected; ok; ok] s0). vm_compute. lia. Defined.

Theorem handler_logs_answers_witness :
  exists s' evs r, run (req "plain" false) [rejected; ok] s0 = Some (s', evs, r) /\ logs evs = 1%nat.
Proof.
  destruct (run (req "plain" false) [rejected; ok] s0) as [[[s' evs] r]|] eqn:E; [|vm_compute in E; done].
  exists s', evs, r. split; [reflexivity|].
  destruct (handler_logs_answers re "t1" "id" headers (req "plain" false) [rejected; ok] s0 s' evs r E) as [H _].
  rewrite H. assert (Hj : (is_json <$> (snd <$> run (req "plain" false) [rejected; ok] s0)) = Some true) by (vm_compute; reflexivity).
  rewrite E in Hj. cbn in Hj. injection Hj as ->. reflexivity.
Defined.

Lemma demo_respects Q a : respects Q (env a).
Proof. unfold respects, interference. rewrite !Forall_cons. done. Qed.

(** A stream holds no permit once its headers are sent: the answer is a stream
    and all permits are back. *)
Theorem handler_returns_permits_witness :
  let o := run (req "plain" true) [env (Ok (Stream [Ok "x"]))] s0 in
  (exists ctx, snd <$> o = Some (Ok (StreamReply ctx [Ok "x"])))
  /\ available (sh_conc (state_after o)) "t1" = 2.
Proof.
  cbn zeta. destruct (run _ _ _) as [[[s' evs] r]|] eqn:E; [|vm_compute in E; done]. split.
  - vm_compute in E. injection E as <- <- <-. eexists. reflexivity.
  - change (available (sh_conc (state_after (Some (s', evs, r)))) "t1") with (available (sh_conc s') "t1").
    destruct (handler_returns_permits re "t1" "id" headers _ _ s0 s' evs r "t1"
                (Forall_cons_2 _ _ _ (demo_respects _ _) (Forall_nil_2 _)) E) as [H _].
    rewrite H. reflexivity.
Defined.

Theorem handler_keeps_pool_alive_witness :
  let o := run (req "plain" false) [rejected; rejected] s0 in
  (1 <= healthy_key_count (sh_bad (state_after o)) pool "p")%nat.
Proof.
  cbn zeta. destruct (run _ _ _) as [[[s' evs] r]|] eqn:E; [|vm_compute in E; done].
  change (state_after (Some (s', evs, r))) with s'.
  destruct (@handler_keeps_pool_alive serde digest display _ wi iter re "t1" "id" headers (req "plain" false)
              RouterDemo.wi_laws [rejected; rejected] s0 s' evs r (mkRouteEntry "p" pool None None)) as [H _];
    [reflexivity| |repeat constructor; simpl; lia|reflexivity| | | |exact E|exact H].
  - refine (bool_decide_unpack _ _). vm_compute. exact I.
  - rewrite !Forall_cons. repeat split; apply demo_respects || constructor.
  - rewrite !Forall_cons. split; [by intros b|]. split; [by intros b|constructor].
  - unfold kept. vm_compute. lia.
Defined.

(** Two requests that both counted two keys demote both: the pool is empty, and the
    next draw reports it exhausted. *)
Definition racing : AttemptEnv :=
  let other b := (try_demote id b pool "p" (api_key "k-two" 3)).1 in
  mkEnv id 0 (0, 0, 0) (fun _ _ => Err "down") true id 10 (fun _ _ => Err (Upstream (Some 401) true true "no")) id (10, 10) other 8 20 (mkPricing ∅) id 30.
Example racing_demotion_empties_pool :
  let o := run (req "plain" false) [racing; ok] s0 in
  healthy_key_count (sh_bad s0) pool "p" = 2%nat /\ healthy_key_count (sh_bad (state_after o)) pool "p" = 0%nat
  /\ snd <$> o = Some (Err (pool_exhausted "p")).
Proof. split; [|split]; vm_compute; reflexivity. Qed.

(** The answer of an aliased model is stored under the upstream's name and
    looked up under the client's: the same request is never a hit, while a
    request for a model served under its own name is. *)
Example aliased_model_never_cached :
  let again m := run (req m false) [ok] (state_after (run (req m false) [ok] s0)) in
  logged (again "alias") = [("p", "big", 0)] /\ logged (again "plain") = [("cache", "plain", 0)].
Proof. split; vm_compute; reflexivity. Qed.

(** A retry after a server error is not counted in the row. *)
Example server_error_retry_not_counted :
  logged (run (req "plain" false) [broken; ok] s0) = [("p", "plain", 0)].
Proof. vm_compute. reflexivity. Qed.

(** An open circuit uses up attempts: the draw may return the same key again,
    and the request fails although another key of the pool is usable. *)
Example open_circuit_uses_up_attempts :
  let kh := identity_hash (api_key "k-one" 1) in
  let cb := foldl (fun cb _ => (record_failure cb "p" kh 5 5).1) with_defaults (seq 0 5) in
  (snd <$> run (req "plain" false) [ok; ok] (set_breaker s0 cb))
  = Some (Err (Upstream (Some 429) true false "circuit breaker open for pool 'p'"))
  /\ healthy_key_count (sh_bad s0) pool "p" = 2%nat
  /\ circuit_state cb "p" (identity_hash (api_key "k-two" 3)) = Closed.
Proof. split; [|split]; vm_compute; reflexivity. Qed.
End HandlerWitnesses.
