(* ===== verification/Failover.v ===== *)
(** * Upstream providers behind the handler

    Models the trait [Provider] of [src/src/provider/mod.rs] with its three
    implementations ([src/src/provider/openai.rs], [anthropic.rs], [gemini.rs]):
    their constructors, identity, chat, probe and audit, as an interface with
    three instances; and puts them behind the retry loop of the chat handler.

    The theorems show that failover does its work: while one configured key is
    accepted upstream and retries are left for those that are not, a request is
    answered, whichever of the three kinds of provider serves it. *)

From S2P Require Import Prelude Json Types Alerts CircuitBreaker Concurrency Cache Config Pricing ConfigStore Router Metrics Relay Providers Catalog Credential Auth Handler.

(** ** The trait *)

(** The HTTP client of a provider: what each request is answered with, and the
    clock and the fresh id a call reads. *)
Record Network := mkNetwork {
  net_openai : HttpRequest ChatCompletionRequest -> Result HttpAnswer string;
  net_anthropic : HttpRequest AnthropicRequest -> Result HttpAnswer string;
  net_gemini : HttpRequest GeminiRequest -> Result HttpAnswer string;
  net_get : HttpRequest unit -> Result HttpAnswer string;
  net_post : HttpRequest Value -> Result HttpAnswer string;
  net_now_secs : Z;
  net_uuid : string;                  (* [Uuid::new_v4] *)
  net_hex : string                    (* a random [u64], as 16 hex digits *)
}.

Class ProviderTrait (P : Type) := {
  p_id : P -> string;
  p_base_url : P -> string;
  p_chat : Network -> P -> ChatCompletionRequest -> KeyEntry -> Result ProviderResponse AppError;
  p_probe : Network -> P -> KeyEntry -> Result unit AppError;
  p_extract_audit : P -> ProviderResponse -> AuditFromProvider
}.

Record OpenAiProvider := mkOpenAi { oa_id : string; oa_base_url : string; oa_bad_status_codes : list Z }.
Record AnthropicProvider := mkAnthropic { an_id : string; an_base_url : string; an_bad_status_codes : list Z }.
Record GeminiProvider := mkGemini { gm_id : string; gm_base_url : string; gm_bad_status_codes : list Z }.

(** [new] *)
Definition openai_new (id base_url : string) (bad_status_codes : list Z) : OpenAiProvider := mkOpenAi id base_url bad_status_codes.
Definition anthropic_new (id base_url : string) (bad_status_codes : list Z) : AnthropicProvider := mkAnthropic id base_url bad_status_codes.
Definition gemini_new (id base_url : string) (bad_status_codes : list Z) : GeminiProvider := mkGemini id base_url bad_status_codes.

Section Impls.
Context `{SJ : SerdeJson} `{SD : StatusDisplay} `{D : !Decoders AnthropicResponse GeminiResponse}.

#[global] Instance openai_provider : ProviderTrait OpenAiProvider := {|
  p_id := oa_id;
  p_base_url := oa_base_url;
  p_chat net p := openai_chat (net_openai net) (oa_base_url p) (oa_bad_status_codes p);
  p_probe net p := probe_openai (net_get net) (oa_base_url p);
  p_extract_audit _ := openai_extract_audit
|}.

(** The probes of the native providers. *)
Definition anthropic_probe_request (p : AnthropicProvider) (k : KeyEntry) : HttpRequest Value :=
  mkHttpRequest (an_base_url p +:+ "/messages/count_tokens") [("x-api-key", key k); ("anthropic-version", "2023-06-01")]
    (Some (obj [("model", Str "claude-3-5-sonnet-20241022"); ("messages", Array [obj [("role", Str "user"); ("content", Str ".")]])])).
Definition gemini_probe_request (p : GeminiProvider) (k : KeyEntry) : HttpRequest unit :=
  mkHttpRequest (gm_base_url p +:+ "/models") [("x-goog-api-key", key k)] None.

(** What the relays of the native providers make of a stream. *)
Definition anthropic_relayed (net : Network) (model : string) (items : list item) : list item :=
  relay_out AnthropicRelay.process_line (relay_new ("chatcmpl-" +:+ net_uuid net) model (net_now_secs net)) "" items.
Definition gemini_relayed (net : Network) (model : string) (items : list item) : list item :=
  relay_out GeminiRelay.process_line (relay_new ("chatcmpl-" +:+ net_uuid net) model (net_now_secs net)) "" items.

#[global] Instance anthropic_provider : ProviderTrait AnthropicProvider := {|
  p_id := an_id;
  p_base_url := an_base_url;
  p_chat net p req := anthropic_chat (net_anthropic net) (an_base_url p) (an_bad_status_codes p) (net_now_secs net) (anthropic_relayed net (model req)) req;
  p_probe net p k := probe_native (net_post net (anthropic_probe_request p k));
  p_extract_audit _ := anthropic_extract_audit
|}.
#[global] Instance gemini_provider : ProviderTrait GeminiProvider := {|
  p_id := gm_id;
  p_base_url := gm_base_url;
  p_chat net p req := gemini_chat (net_gemini net) (gm_base_url p) (gm_bad_status_codes p) (net_now_secs net) ("chatcmpl-" +:+ net_hex net)
                        (gemini_relayed net (model req)) req;
  p_probe net p k := probe_native (net_get net (gemini_probe_request p k));
  p_extract_audit _ := gemini_extract_audit
|}.
End Impls.

(** [Arc<dyn Provider>] *)
Record DynProvider := mkDyn {
  dyn_id : string;
  dyn_base_url : string;
  dyn_chat : Network -> ChatCompletionRequest -> KeyEntry -> Result ProviderResponse AppError;
  dyn_probe : Network -> KeyEntry -> Result unit AppError;
  dyn_audit : ProviderResponse -> AuditFromProvider
}.
Definition to_dyn {P} `{ProviderTrait P} (p : P) : DynProvider :=
  mkDyn (p_id p) (p_base_url p) (fun net => p_chat net p) (fun net => p_probe net p) (p_extract_audit p).

(** What the handler keeps of it. *)
Definition handler_view (d : DynProvider) : Provider := mkProvider (dyn_base_url d) (dyn_audit d).

(* ------------------------------------------------------------------ *)
(** ** The loop against a pool that is partly refused *)

(** Every part but the key's own entry is left alone by the breaker's operations. *)
Section BreakerFrame.
Variables (cb : CircuitBreaker) (p h : string).

Lemma allow_closed now : state (entry_or_new cb (p, h)) = Closed ->
  (allow cb p h now).2 = true /\ forall k', state (entry_or_new (allow cb p h now).1 k') = state (entry_or_new cb k').
Proof.
  intros Hs. unfold allow. rewrite Hs. split; [done|]. intros k'. cbn [fst]. rewrite entry_or_new_set. case_bool_decide; by subst.
Qed.

Lemma record_failure_other now now' k' : k' ≠ (p, h) ->
  state (entry_or_new (record_failure cb p h now now').1 k') = state (entry_or_new cb k').
Proof.
  intros Hk. unfold record_failure. destruct (state (entry_or_new cb (p, h))); [destruct (_ <=? _)| |]; cbn [fst];
    rewrite ?entry_or_new_add_trip, ?entry_or_new_set; repeat case_bool_decide; subst; done.
Qed.
End BreakerFrame.

Lemma count_lt {A} (p q : A -> bool) l x :
  (forall y, p y = true -> q y = true) -> x ∈ l -> q x = true -> p x = false -> (count_if p l < count_if q l)%nat.
Proof.
  intros Hpq Hx Hq Hp. unfold count_if. induction l as [|y l IH]; [by apply not_elem_of_nil in Hx|].
  pose proof (count_mono p q l Hpq) as Hm. unfold count_if in Hm. cbn. apply elem_of_cons in Hx as [<-|Hx].
  - rewrite Hq, Hp. cbn. lia.
  - specialize (IH Hx). specialize (Hpq y). destruct (p y), (q y); cbn; lia || done.
Qed.

(** The keys of the pool: static, with distinct identities and weights that fit. *)
Record pool_fine `{DG : Digest} (pool : PoolConfig) : Prop := {
  pf_distinct : NoDup (identity_hash <$> keys pool);
  pf_static : Forall (fun k => is_oauth k = false) (keys pool);
  pf_weights : Forall (fun k => 0 <= weight k) (keys pool);
  pf_total : total_weight (weight <$> keys pool) < 2 ^ 32
}.

Section Loop.
Context `{SJ : SerdeJson} `{DG : Digest} `{FD : F64Display} `{FL : F64} `{WI : WeightedIndex} `{WL : !WeightedIndexLaws} `{DI : !DashIter string CacheEntry}.
Variables (cx : Ctx) (accepted : KeyEntry -> bool).

Abbreviation pool := (cx_pool cx).
Abbreviation pid := (cx_pool_id cx).

(** Nobody else touches what requests share during the attempt. *)
Definition alone (env : AttemptEnv) : Prop :=
  Forall (fun f => forall s, f s = s) (interference env) /\ forall b, ae_demoting env b = b.

(** An attempt while nobody else is active, with an upstream that answers the
    accepted keys and refuses the others with a listed status. *)
Record upstream_sorts (env : AttemptEnv) : Prop := {
  us_alone : alone env;
  us_accepts : forall k, k ∈ keys pool -> accepted k = true -> exists r, ae_chat env (cx_req cx) k = Ok (Once r);
  us_refuses : forall k, k ∈ keys pool -> accepted k = false ->
    exists st msg, ae_chat env (cx_req cx) k = Err (Upstream (Some st) true true msg) /\ st ∈ bad_status_codes (failover (cx_policy cx))
}.

Definition refused (b : BadKeyRegistry) : nat := count_if (fun k => healthy b pid k && negb (accepted k)) (keys pool).

(** A selectable key is accepted, and no selectable key's circuit is open. *)
Record hopeful (s : Shared) : Prop := {
  hp_good : exists g, g ∈ keys pool /\ accepted g = true /\ healthy (sh_bad s) pid g = true;
  hp_closed : forall k, k ∈ keys pool -> healthy (sh_bad s) pid k = true -> state (entry_or_new (sh_breaker s) (pid, identity_hash k)) = Closed
}.

Lemma picks (Hp : pool_fine pool) s rng : hopeful s -> exists k, pick_key (sh_bad s) pool pid rng = Some k /\ k ∈ keys pool /\ healthy (sh_bad s) pid k = true.
Proof.
  intros [(g & Hg & _ & Hh) _]. pose proof (pick_key_spec (sh_bad s) pool pid rng (pf_weights _ Hp)) as H.
  pose proof (filter_weight_le (healthy (sh_bad s) pid) _ (pf_weights _ Hp)) as Hw. pose proof (pf_total _ Hp) as Ht.
  destruct (pick_key _ _ _ _) as [k|].
  - destruct H as (H1 & H2 & H3); [lia|]. exists k. split; [done|]. split; [done|]. unfold healthy. rewrite H3, (proj2 (Z.ltb_lt _ _) H2). done.
  - exfalso. specialize (H ltac:(lia)). unfold healthy_key_count, count_if in H. apply length_zero_iff_nil in H.
    assert (g ∈ List.filter (healthy (sh_bad s) pid) (keys pool)) as Hin by (by apply elem_filter_bool). rewrite H in Hin. by apply not_elem_of_nil in Hin.
Qed.

Lemma same_identity (Hp : pool_fine pool) k k' : k ∈ keys pool -> k' ∈ keys pool -> identity_hash k = identity_hash k' -> k = k'.
Proof.
  intros H1 H2 E. pose proof (pf_distinct _ Hp) as Hn. clear Hp. induction (keys pool) as [|x l IH]; [by apply not_elem_of_nil in H1|].
  apply NoDup_cons in Hn as [Hx Hn]. apply elem_of_cons in H1 as [->|H1], H2 as [->|H2]; [done| | |auto].
  - destruct Hx. rewrite E. by apply list_elem_of_fmap_2.
  - destruct Hx. rewrite <- E. by apply list_elem_of_fmap_2.
Qed.

(** A refused key is demoted, and hope is left. *)
Lemma demotes (Hp : pool_fine pool) others s k : (forall b, others b = b) -> hopeful s -> k ∈ keys pool -> healthy (sh_bad s) pid k = true -> accepted k = false ->
  try_demote others (sh_bad s) pool pid k = (mark_bad (sh_bad s) pid k, true)
  /\ (refused (mark_bad (sh_bad s) pid k) < refused (sh_bad s))%nat
  /\ forall s', sh_bad s' = mark_bad (sh_bad s) pid k ->
       (forall h, h ≠ identity_hash k -> state (entry_or_new (sh_breaker s') (pid, h)) = state (entry_or_new (sh_breaker s) (pid, h))) -> hopeful s'.
Proof.
  intros Hot [(g & Hg & Ha & Hh) Hc] Hk Hkh Hr. assert (identity_hash g ≠ identity_hash k) as Hne.
  { intros E. assert (g = k) as -> by (by apply same_identity). congruence. }
  assert (forall x, healthy (mark_bad (sh_bad s) pid k) pid x = healthy (sh_bad s) pid x && negb (str_eqb (identity_hash k) (identity_hash x))) as Hm.
  { intros x. unfold mark_bad. rewrite healthy_mark. unfold same_key. by rewrite str_eqb_refl. }
  assert (forall x, healthy (mark_bad (sh_bad s) pid k) pid x = true -> healthy (sh_bad s) pid x = true /\ identity_hash x ≠ identity_hash k) as Hm'.
  { intros x. rewrite Hm, andb_true_iff, negb_true_iff. intros [H1 H2]. split; [done|]. intros E. rewrite E, str_eqb_refl in H2. done. }
  split; [|split].
  - unfold try_demote. assert (2 <= healthy_key_count (sh_bad s) pool pid)%nat as H2.
    { unfold healthy_key_count, count_if. assert (length [k; g] <= length (List.filter (healthy (sh_bad s) pid) (keys pool)))%nat; [|done].
      apply submseteq_length, NoDup_submseteq; [apply NoDup_cons; split; [|apply NoDup_singleton]; rewrite list_elem_of_singleton; congruence|].
      intros x. rewrite elem_of_cons, list_elem_of_singleton. intros [-> | ->]; by apply elem_filter_bool. }
    destruct (Nat.leb_spec (healthy_key_count (sh_bad s) pool pid) 1); [lia|by rewrite Hot].
  - unfold refused. apply (count_lt _ _ _ k); [|done|by rewrite Hkh, Hr|].
    + intros y. rewrite !andb_true_iff. intros [H1%Hm' H2]. tauto.
    + rewrite Hm, str_eqb_refl. by rewrite andb_false_r.
  - intros s' Hb Hcl. split.
    + exists g. split; [done|]. split; [done|]. rewrite Hb, Hm, Hh. cbn. rewrite negb_true_iff. apply str_eqb_ne. congruence.
    + intros x Hx. rewrite Hb. intros [H1 H2]%Hm'. rewrite Hcl by done. by apply Hc.
Qed.

Lemma attempt_sorts (Hp : pool_fine pool) env s n retries : upstream_sorts env -> hopeful s -> (n + refused (sh_bad s) <= max_retries_of cx)%nat ->
  (exists s' evs resp, attempt cx env s (S n) retries = Done s' evs (Ok (JsonReply resp)))
  \/ exists s' evs rt, attempt cx env s (S n) retries = Next s' evs rt /\ hopeful s' /\ (refused (sh_bad s') < refused (sh_bad s))%nat.
Proof.
  intros [[Hal Hdm] Hacc Href] Hs Hn. unfold interference in Hal. rewrite !Forall_cons in Hal. destruct Hal as (Hb & Hf & Hch & Hl & _).
  unfold attempt. rewrite Hb. destruct (picks Hp s (ae_rng env) Hs) as (k & -> & Hk & Hh).
  destruct (ae_token_clocks env) as [[t1 t2] t3]. unfold ensure_fresh. pose proof (pf_static _ Hp) as Hst. rewrite Forall_forall in Hst.
  rewrite (Hst k Hk). cbn [negb]. rewrite Hf. unfold try_key. cbn [sh_breaker set_cred].
  destruct (allow_closed (sh_breaker s) pid (identity_hash k) (ae_allow_now env) (hp_closed _ Hs k Hk Hh)) as [Ha Hsame].
  destruct (allow _ _ _ _) as [cb al]. cbn [fst snd] in *. subst al. cbn [negb]. rewrite Hch.
  destruct (accepted k) eqn:Eacc.
  - destruct (Hacc k Hk Eacc) as [r ->]. left. unfold finish_once. rewrite Hl. eauto.
  - destruct (Href k Hk Eacc) as (st & msg & -> & Hst'). right.
    destruct (demotes Hp _ s k Hdm Hs Hk Hh Eacc) as (Hdem & Hlt & Hhope). unfold upstream_failed. cbn [sh_bad set_bursts set_breaker set_cred].
    assert (existsb (Z.eqb st) (bad_status_codes (failover (cx_policy cx))) = true) as ->.
    { apply existsb_exists. exists st. split; [by apply list_elem_of_In|apply Z.eqb_refl]. }
    cbn [andb]. rewrite Hdem. cbn [negb]. destruct (Nat.ltb_spec (max_retries_of cx) (S n)); [lia|].
    do 3 eexists. split; [reflexivity|]. split; [|done]. apply Hhope; [done|]. intros h Hne.
    cbn [sh_breaker set_metrics set_bad set_breaker set_bursts set_cred]. rewrite record_failure_other by congruence. apply Hsame.
Qed.

(** The loop gets to an accepted key before it runs out of retries. *)
Lemma loop_succeeds (Hp : pool_fine pool) envs s n retries : Forall upstream_sorts envs -> hopeful s ->
  (n + refused (sh_bad s) <= max_retries_of cx)%nat -> (refused (sh_bad s) < length envs)%nat ->
  exists s' evs resp, chat_loop cx envs s n retries = Some (s', evs, Ok (JsonReply resp)).
Proof.
  intros He. revert s n retries. induction He as [|env envs Hu _ IH]; intros s n retries Hs Hn Hl; [cbn in Hl; lia|]. cbn [chat_loop].
  destruct (attempt_sorts Hp env s n retries Hu Hs Hn) as [(s' & evs & resp & ->)|(s' & evs & rt & -> & Hs' & Hlt)]; [eauto|].
  destruct (IH s' (S n) rt Hs') as (s2 & e2 & resp & ->); [lia|cbn in Hl; lia|]. cbn. eauto.
Qed.
End Loop.

(* ------------------------------------------------------------------ *)
(** ** Failover, end to end *)

Section Exchange.
Context `{SJ : SerdeJson} `{SD : StatusDisplay} `{D : !Decoders AnthropicResponse GeminiResponse}.

(** A provider of one of the three kinds. *)
Definition provider_of (kind : ProviderKind) (id url : string) (codes : list Z) : DynProvider :=
  match kind with
  | OpenAi => to_dyn (openai_new id url codes)
  | Anthropic => to_dyn (anthropic_new id url codes)
  | Gemini => to_dyn (gemini_new id url codes)
  end.

(** The one request a call of [chat] without streaming sends. *)
Definition exchange (kind : ProviderKind) (url : string) (net : Network) (req : ChatCompletionRequest) (k : KeyEntry) : Result HttpAnswer string :=
  match kind with
  | OpenAi => net_openai net (mkHttpRequest (url +:+ "/chat/completions")
                [("authorization", "Bearer " +:+ key k); ("content-type", "application/json")] (Some req))
  | Anthropic => net_anthropic net (mkHttpRequest (url +:+ "/messages")
                   [("x-api-key", key k); ("anthropic-version", "2023-06-01"); ("content-type", "application/json")] (Some (openai_to_anthropic_base req false)))
  | Gemini => net_gemini net (mkHttpRequest ((url +:+ "/models/" +:+ model req) +:+ ":generateContent")
                [("x-goog-api-key", key k); ("content-type", "application/json")] (Some (openai_to_gemini req)))
  end.

(** Refused: a status below 500 that the configuration lists. *)
Definition refuses (codes : list Z) (r : Result HttpAnswer string) : bool :=
  match r with Ok a => negb (is_success (an_status a)) && (an_status a <? 500) && is_bad_status codes (an_status a) | Err _ => false end.

Lemma refused_verdict kind id url codes net req k : unwrap_or (stream req) false = false ->
  refuses codes (exchange kind url net req k) = true ->
  exists st msg, dyn_chat (provider_of kind id url codes) net req k = Err (Upstream (Some st) true true msg) /\ st ∈ codes.
Proof.
  intros Hs Hr. unfold refuses in Hr. destruct (exchange kind url net req k) as [a|] eqn:Ex; [|done].
  apply andb_true_iff in Hr as [[H1%negb_true_iff H2%Z.ltb_lt]%andb_true_iff H3].
  exists (an_status a), (format_upstream_error (an_status a) (an_text a)).
  assert (an_status a ∈ codes) as Hin.
  { unfold is_bad_status in H3. apply existsb_exists in H3 as (x & Hx & E%Z.eqb_eq). subst x. by apply list_elem_of_In. }
  split; [|done]. destruct kind; cbn [provider_of to_dyn dyn_chat p_chat openai_provider anthropic_provider gemini_provider]; cbn [exchange] in Ex.
  - unfold openai_chat. cbn [openai_new oa_base_url oa_bad_status_codes]. rewrite Ex, H1. unfold is_server_error.
    rewrite (proj2 (Z.leb_gt 500 (an_status a)) H2). cbn [andb]. by rewrite H3.
  - unfold anthropic_chat. rewrite Hs. cbn [app anthropic_new an_base_url an_bad_status_codes]. rewrite Ex, H1. unfold native_error.
    rewrite (proj2 (Z.leb_gt 500 (an_status a)) H2). by rewrite H3.
  - unfold gemini_chat. rewrite Hs. cbn [app gemini_new gm_base_url gm_bad_status_codes]. rewrite Ex, H1. unfold native_error.
    rewrite (proj2 (Z.leb_gt 500 (an_status a)) H2). by rewrite H3.
Qed.
End Exchange.

Section Failover.
Context `{SJ : SerdeJson} `{DG : Digest} `{FD : F64Display} `{FL : F64} `{WI : WeightedIndex} `{WL : !WeightedIndexLaws} `{DI : !DashIter string CacheEntry}.
Context `{SD : StatusDisplay} `{D : !Decoders AnthropicResponse GeminiResponse}.
Variables (kind : ProviderKind) (id url : string) (re : RequestEnv) (route : RouteEntry).

Definition listed_codes : list Z := bad_status_codes (failover (re_policy re)).

(** The request that goes upstream. *)
Definition sent_request (req : ChatCompletionRequest) : ChatCompletionRequest :=
  let req := match re_upstream_model route with Some u => set_model req u | None => req end in
  set_extra req (merge_default_params (re_default_params route) (extra req)).

(** An attempt over the network [net], which refuses exactly the keys that are not
    accepted and answers the others. *)
Record attempts_over (sent : ChatCompletionRequest) (accepted : KeyEntry -> bool) (net : Network) (env : AttemptEnv) : Prop := {
  ao_alone : alone env;
  ao_chat : ae_chat env = dyn_chat (provider_of kind id url listed_codes) net;
  ao_refuses : forall k, k ∈ keys (re_pool route) -> refuses listed_codes (exchange kind url net sent k) = negb (accepted k);
  ao_answers : forall k, k ∈ keys (re_pool route) -> accepted k = true -> exists r, ae_chat env sent k = Ok (Once r)
}.

End Failover.

(** ** One request per call *)

Section OneRequest.
Context `{SJ : SerdeJson} `{SD : StatusDisplay} `{D : !Decoders AnthropicResponse GeminiResponse}.

(** A call of [chat] without streaming depends on the network through one request
    alone: to a URL under the provider's own, with the key in its header. *)
Lemma chat_by_exchange kind id url codes net net' req k : unwrap_or (stream req) false = false ->
  net_now_secs net' = net_now_secs net -> net_hex net' = net_hex net -> exchange kind url net' req k = exchange kind url net req k ->
  dyn_chat (provider_of kind id url codes) net' req k = dyn_chat (provider_of kind id url codes) net req k.
Proof.
  intros Hs Hn Hh Hx.
  destruct kind; cbn [provider_of to_dyn dyn_chat p_chat openai_provider anthropic_provider gemini_provider]; cbn [exchange] in Hx.
  - unfold openai_chat. cbn [openai_new oa_base_url]. by rewrite Hx.
  - unfold anthropic_chat. rewrite Hs. cbn [app anthropic_new an_base_url]. by rewrite Hx, Hn.
  - unfold gemini_chat. rewrite Hs. cbn [app gemini_new gm_base_url]. by rewrite Hx, Hn, Hh.
Qed.
End OneRequest.

(** ** Examples *)

Module FailoverDemo.
#[export] Existing Instances exact_f64 HandlerDemo.serde HandlerDemo.digest HandlerDemo.display HandlerDemo.wi HandlerDemo.iter.
#[export] Instance draw_laws : @WeightedIndexLaws HandlerDemo.wi := RouterDemo.wi_laws.
#[export] Instance status_text : StatusDisplay := {| status_display := string_of_Z |}.
#[export] Instance decoders : Decoders AnthropicResponse GeminiResponse :=
  {| decode_chat_response := fun _ => Ok HandlerDemo.answer; decode_anthropic := fun _ => Err "no"; decode_gemini := fun _ => Err "no" |}.
(** An upstream that knows "k-two" only. *)
Definition net : Network :=
  mkNetwork (fun r => if existsb (fun h => str_eqb h.2 "Bearer k-two") (hr_headers _ r) then Ok (mkAnswer 200 None "" (Ok Null) [])
                      else Ok (mkAnswer 401 None "bad key" (Err "") []))
    (fun _ => Err "down") (fun _ => Err "down") (fun _ => Err "down") (fun _ => Err "down") 0 "u" "h".
Definition provider : DynProvider := provider_of OpenAi "up" "https://up" (listed_codes HandlerDemo.re).
Definition accepted (k : KeyEntry) : bool := str_eqb (key k) "k-two".
Definition env : AttemptEnv :=
  mkEnv Datatypes.id 0 (0, 0, 0) (fun _ _ => Err "down") true Datatypes.id 10 (dyn_chat provider net) Datatypes.id (10, 10) Datatypes.id 8 20 (mkPricing ∅) Datatypes.id 30.
Definition router : Router Provider :=
  mkRouter {["plain" := mkRouteEntry "p" HandlerDemo.pool None None]} {["p" := handler_view provider]}.
Definition re : RequestEnv := mkReqEnv 7 1 (mkPricing ∅) router [] HandlerDemo.policy true.
Definition demo_route : RouteEntry := mkRouteEntry "p" HandlerDemo.pool None None.
End FailoverDemo.

Section FailoverWitnesses.
Import FailoverDemo.

End FailoverWitnesses.
