(* ===== verification/Wire.v ===== *)
(** * The JSON the gateway reads and writes

    Models the derived decoders and encoders of the types of [src/src/types.rs] and of
    the native formats in [src/src/provider/anthropic.rs] and [gemini.rs]: the body of
    a chat request with the fields it does not know, complete and streamed answers,
    and what goes to the upstreams and comes back.

    The theorems show that an OpenAI upstream reads the request the gateway means to
    send exactly when the default parameters of the route name no typed field, that
    fields the gateway does not know reach it unchanged, that a client reads the
    answer as it is, that what the native relays stream are chunks of the declared
    type, and that the decoders of the native answers promise what the providers
    rely on. *)

From Stdlib Require Import Sorted.
From S2P Require Import Prelude Json Serde Types ThinkTags Config ConfigStore Router Relay Providers Catalog Credential Handler Failover.

(** ** Decoders *)

Section Decoders.
Context {D : Type} `{DE : Deserializer D}.

Definition de_tool_call_function : D -> Result ToolCallFunction string :=
  struct_of (made mkToolCallFunction <*> required "name" de_string <*> required "arguments" de_string).
Definition de_tool_call : D -> Result ToolCall string :=
  struct_of (made mkToolCall <*> required "id" de_string <*> required "type" de_string <*> required "function" de_tool_call_function).

Definition de_message : D -> Result Message string :=
  struct_of (made mkMessage <*> required "role" de_string
             <*> defaulted "content" Null de_value
             <*> optional "name" de_string
             <*> optional "tool_calls" (seq_of de_tool_call)
             <*> optional "tool_call_id" de_string).

(** The typed fields of a request; the others are flattened into [extra]. *)
Definition request_fields : Fields D (Value -> ChatCompletionRequest) :=
  made mkRequest <*> required "model" de_string
  <*> required "messages" (seq_of de_message)
  <*> optional "stream" de_bool
  <*> optional "max_tokens" de_u32
  <*> optional "temperature" de_finite
  <*> optional "top_p" de_finite
  <*> optional "stop" de_value
  <*> optional "presence_penalty" de_finite
  <*> optional "frequency_penalty" de_finite
  <*> optional "user" de_string
  <*> optional "tools" de_value
  <*> optional "tool_choice" de_value
  <*> optional "stream_options" de_value.
Definition de_chat_request : D -> Result ChatCompletionRequest string := flat_struct request_fields.

Definition de_usage : D -> Result Usage string :=
  struct_of (made mkUsage <*> defaulted "prompt_tokens" 0 de_u32 <*> defaulted "completion_tokens" 0 de_u32
             <*> defaulted "total_tokens" 0 de_u32).

Definition default_chat_object : string := "chat.completion".
Definition default_chunk_object : string := "chat.completion.chunk".
Definition default_assistant_role : string := "assistant".

Definition de_response_message : D -> Result ResponseMessage string :=
  struct_of (made mkResponseMessage <*> defaulted "role" default_assistant_role de_string
             <*> optional_default "content" de_string
             <*> optional_default "tool_calls" (seq_of de_tool_call)
             <*> optional_default "reasoning_content" de_string
             <*> optional_default "reasoning" de_string
             <*> optional_default "reasoning_text" de_string
             <*> optional_default "thinking" de_value).
Definition de_choice : D -> Result Choice string :=
  struct_of (made mkChoice <*> defaulted "index" 0 de_u32 <*> required "message" de_response_message
             <*> optional "finish_reason" de_string).
(** [raw_usage_json] is skipped. *)
Definition de_chat_response : D -> Result ChatCompletionResponse string :=
  struct_of (made (fun id object created model choices usage => mkResponse id object created model choices usage None)
             <*> defaulted "id" "" de_string
             <*> defaulted "object" default_chat_object de_string
             <*> defaulted "created" 0 de_u64
             <*> defaulted "model" "" de_string
             <*> required "choices" (seq_of de_choice)
             <*> optional "usage" de_usage).
End Decoders.

(** ** Streamed answers *)

Record DeltaToolCallFunction := mkDeltaFunction { dtf_name : option string; dtf_arguments : option string }.
Record DeltaToolCall := mkDeltaToolCall {
  dtc_index : Z; dtc_id : option string; dtc_type : option string; dtc_function : option DeltaToolCallFunction
}.
Record Delta := mkDelta {
  dl_role : option string;
  dl_content : option string;
  dl_tool_calls : option (list DeltaToolCall);
  dl_reasoning_content : option string;
  dl_reasoning : option string;
  dl_reasoning_text : option string;
  dl_thinking : option Value
}.
Record ChunkChoice := mkChunkChoice { cc_index : Z; cc_delta : Delta; cc_finish_reason : option string }.
Record ChatCompletionChunk := mkChunk {
  ck_id : string; ck_object : string; ck_created : Z; ck_model : string; ck_choices : list ChunkChoice; ck_usage : option Usage
}.

Section ChunkDecoders.
Context {D : Type} `{DE : Deserializer D}.

Definition de_delta_function : D -> Result DeltaToolCallFunction string :=
  struct_of (made mkDeltaFunction <*> optional "name" de_string <*> optional "arguments" de_string).
Definition de_delta_tool_call : D -> Result DeltaToolCall string :=
  struct_of (made mkDeltaToolCall <*> required "index" de_u32 <*> optional "id" de_string <*> optional "type" de_string
             <*> optional "function" de_delta_function).
Definition de_delta : D -> Result Delta string :=
  struct_of (made mkDelta <*> optional "role" de_string
             <*> optional "content" de_string
             <*> optional "tool_calls" (seq_of de_delta_tool_call)
             <*> optional_default "reasoning_content" de_string
             <*> optional_default "reasoning" de_string
             <*> optional_default "reasoning_text" de_string
             <*> optional_default "thinking" de_value).
Definition de_chunk_choice : D -> Result ChunkChoice string :=
  struct_of (made mkChunkChoice <*> defaulted "index" 0 de_u32 <*> required "delta" de_delta <*> optional "finish_reason" de_string).
Definition de_chunk : D -> Result ChatCompletionChunk string :=
  struct_of (made mkChunk <*> defaulted "id" "" de_string
             <*> defaulted "object" default_chunk_object de_string
             <*> defaulted "created" 0 de_u64
             <*> defaulted "model" "" de_string
             <*> required "choices" (seq_of de_chunk_choice)
             <*> optional "usage" de_usage).

(** ** Native answers *)

Definition de_anthropic_content : D -> Result AnthropicContent string :=
  struct_of (made mkAnContent <*> required "type" de_string <*> optional_default "text" de_string <*> optional_default "thinking" de_string).
Definition de_anthropic_response : D -> Result AnthropicResponse string :=
  struct_of (made mkAnResponse <*> required "id" de_string
             <*> required "model" de_string
             <*> required "content" (seq_of de_anthropic_content)
             <*> optional "stop_reason" de_string
             <*> required "usage" de_value).

Definition de_gemini_part : D -> Result GeminiPart string :=
  struct_of (made mkGmPart <*> optional_default "text" de_string <*> defaulted "thought" false de_bool).
(** [GeminiContentResponse] *)
Definition de_gemini_content : D -> Result (list GeminiPart) string := struct_of (required "parts" (seq_of de_gemini_part)).
Definition de_gemini_candidate : D -> Result GeminiCandidate string :=
  struct_of (made mkGmCandidate <*> required "content" de_gemini_content <*> optional "finishReason" de_string).
Definition de_gemini_response : D -> Result GeminiResponse string :=
  struct_of (made mkGmResponse <*> required "candidates" (seq_of de_gemini_candidate) <*> optional "usageMetadata" de_value).
End ChunkDecoders.

(** The providers decode with them. *)
#[export] Instance wire_decoders `{JE : JsonErrors} `{FL : F64} : Decoders AnthropicResponse GeminiResponse := {|
  decode_chat_response := de_chat_response;
  decode_anthropic := de_anthropic_response;
  decode_gemini := de_gemini_response
|}.

(** ** Encoders *)

Definition same (v : Value) : Value := v.

Definition encode_tool_call_function (f : ToolCallFunction) : Value :=
  Object (put "name" (Str (tcf_name f)) ++ put "arguments" (Str (tcf_arguments f))).
Definition encode_tool_call (t : ToolCall) : Value :=
  Object (put "id" (Str (tc_id t)) ++ put "type" (Str (tc_type t)) ++ put "function" (encode_tool_call_function (tc_function t))).
Definition encode_tool_calls (l : list ToolCall) : Value := Array (encode_tool_call <$> l).
Definition encode_message (m : Message) : Value :=
  Object (put "role" (Str (msg_role m)) ++ put "content" (msg_content m) ++ put_some "name" Str (msg_name m)
          ++ put_some "tool_calls" encode_tool_calls (msg_tool_calls m) ++ put_some "tool_call_id" Str (msg_tool_call_id m)).

(** The typed fields. *)
Definition encode_typed (r : ChatCompletionRequest) : list (string * Value) :=
  put "model" (Str (model r)) ++ put_seq "messages" encode_message (messages r) ++ put_some "stream" Bool (stream r)
  ++ put_some "max_tokens" json_int (max_tokens r) ++ put_some "temperature" json_f64 (temperature r) ++ put_some "top_p" json_f64 (top_p r)
  ++ put_some "stop" same (stop r) ++ put_some "presence_penalty" json_f64 (presence_penalty r)
  ++ put_some "frequency_penalty" json_f64 (frequency_penalty r) ++ put_some "user" Str (user r) ++ put_some "tools" same (tools r)
  ++ put_some "tool_choice" same (tool_choice r) ++ put_some "stream_options" same (stream_options r).
(** [flatten]: the entries of [extra] follow; null is skipped, and nothing but an
    object can be flattened. *)
Definition encode_request (r : ChatCompletionRequest) : option Value :=
  match extra r with
  | Object m => Some (Object (encode_typed r ++ m))
  | Null => Some (Object (encode_typed r))
  | _ => None
  end.

Definition encode_usage (u : Usage) : Value :=
  Object (put "prompt_tokens" (json_int (prompt_tokens u)) ++ put "completion_tokens" (json_int (completion_tokens u))
          ++ put "total_tokens" (json_int (total_tokens u))).
Definition encode_response_message (m : ResponseMessage) : Value :=
  Object (put "role" (Str (rm_role m)) ++ put_option "content" Str (content m) ++ put_option "tool_calls" encode_tool_calls (tool_calls m)
          ++ put_some "reasoning_content" Str (reasoning_content m) ++ put_some "reasoning" Str (reasoning m)
          ++ put_some "reasoning_text" Str (reasoning_text m) ++ put_some "thinking" same (thinking m)).
Definition encode_choice (c : Choice) : Value :=
  Object (put "index" (json_int (ch_index c)) ++ put "message" (encode_response_message (message c))
          ++ put_option "finish_reason" Str (finish_reason c)).
Definition encode_response (r : ChatCompletionResponse) : Value :=
  Object (put "id" (Str (resp_id r)) ++ put "object" (Str (object r)) ++ put "created" (json_int (created r)) ++ put "model" (Str (resp_model r))
          ++ put_seq "choices" encode_choice (choices r) ++ put_option "usage" encode_usage (usage r)).

(** A streamed answer, when it is written again. *)
Definition encode_delta_function (f : DeltaToolCallFunction) : Value :=
  Object (put_option "name" Str (dtf_name f) ++ put_option "arguments" Str (dtf_arguments f)).
Definition encode_delta_tool_call (t : DeltaToolCall) : Value :=
  Object (put "index" (json_int (dtc_index t)) ++ put_option "id" Str (dtc_id t) ++ put_option "type" Str (dtc_type t)
          ++ put_option "function" encode_delta_function (dtc_function t)).
Definition encode_delta_tool_calls (l : list DeltaToolCall) : Value := Array (encode_delta_tool_call <$> l).
Definition encode_delta (d : Delta) : Value :=
  Object (put_option "role" Str (dl_role d) ++ put_option "content" Str (dl_content d) ++ put_option "tool_calls" encode_delta_tool_calls (dl_tool_calls d)
          ++ put_some "reasoning_content" Str (dl_reasoning_content d) ++ put_some "reasoning" Str (dl_reasoning d)
          ++ put_some "reasoning_text" Str (dl_reasoning_text d) ++ put_some "thinking" same (dl_thinking d)).
Definition encode_chunk_choice (c : ChunkChoice) : Value :=
  Object (put "index" (json_int (cc_index c)) ++ put "delta" (encode_delta (cc_delta c)) ++ put_option "finish_reason" Str (cc_finish_reason c)).
Definition encode_chunk (c : ChatCompletionChunk) : Value :=
  Object (put "id" (Str (ck_id c)) ++ put "object" (Str (ck_object c)) ++ put "created" (json_int (ck_created c)) ++ put "model" (Str (ck_model c))
          ++ put_seq "choices" encode_chunk_choice (ck_choices c) ++ put_option "usage" encode_usage (ck_usage c)).

(** The listings. *)
Definition encode_strings (l : list string) : Value := Array (Str <$> l).
Definition encode_model (m : Model) : Value :=
  Object (put "id" (Str (m_id m)) ++ put "object" (Str (m_object m)) ++ put "created" (json_int (m_created m)) ++ put "owned_by" (Str (m_owned_by m))).
Definition encode_metadata_pricing (p : ModelMetadataPricing) : Value :=
  Object (put "input_usd_per_million_tokens" (json_f64 (mp_input p)) ++ put "output_usd_per_million_tokens" (json_f64 (mp_output p))
          ++ put "cache_read_usd_per_million_tokens" (json_f64 (mp_cache_read p)) ++ put "cache_write_usd_per_million_tokens" (json_f64 (mp_cache_write p))).
Definition encode_metadata (m : ModelMetadataDto) : Value :=
  Object (put "id" (Str (md_id m)) ++ put "name" (Str (md_name m)) ++ put "context_window" (json_int (md_context_window m))
          ++ put "max_output_tokens" (json_int (md_max_output_tokens m)) ++ put "input_types" (encode_strings (md_input_types m))
          ++ put "reasoning" (Bool (md_reasoning m)) ++ put "thinking_levels" (encode_strings (md_thinking_levels m))
          ++ put_some "thinking_level_map" Object (md_thinking_level_map m) ++ put "supports_tools" (Bool (md_supports_tools m))
          ++ put "supports_vision" (Bool (md_supports_vision m)) ++ put "pricing" (encode_metadata_pricing (md_pricing m))).
Definition encode_models (object : string) (data : list Model) : Value := Object (put "object" (Str object) ++ put_seq "data" encode_model data).
Definition encode_metadata_list (object : string) (data : list ModelMetadataDto) : Value :=
  Object (put "object" (Str object) ++ put_seq "data" encode_metadata data).

(** The bodies of the native requests. *)
Definition encode_anthropic_message (m : AnthropicMessage) : Value :=
  Object (put "role" (Str (am_role m)) ++ put "content" (Str (am_content m))).
Definition encode_anthropic_request (r : AnthropicRequest) : Value :=
  Object (put "model" (Str (anr_model r)) ++ put "max_tokens" (json_int (anr_max_tokens r)) ++ put_option "system" Str (anr_system r)
          ++ put_seq "messages" encode_anthropic_message (anr_messages r) ++ put_some "stop_sequences" encode_strings (anr_stop_sequences r)
          ++ put_some "temperature" json_f64 (anr_temperature r) ++ put_some "top_p" json_f64 (anr_top_p r)
          ++ put_some "thinking" same (anr_thinking r) ++ put "stream" (Bool (anr_stream r))).

Definition encode_gemini_part (text : string) : Value := Object (put "text" (Str text)).
Definition encode_gemini_content (c : GeminiContent) : Value :=
  Object (put "role" (Str (gc_role c)) ++ put_seq "parts" encode_gemini_part (gc_parts c)).
Definition encode_gemini_system (parts : list string) : Value := Object (put_seq "parts" encode_gemini_part parts).
(** [GeminiGenerationConfig], which is always there. *)
Definition encode_generation_config (r : GeminiRequest) : Value :=
  Object (put_some "maxOutputTokens" json_int (gr_max_output_tokens r) ++ put_some "temperature" json_f64 (gr_temperature r)
          ++ put_some "topP" json_f64 (gr_top_p r) ++ put_some "stopSequences" encode_strings (gr_stop_sequences r)
          ++ put_some "thinkingConfig" same (gr_thinking_config r)).
Definition encode_gemini_request (r : GeminiRequest) : Value :=
  Object (put_seq "contents" encode_gemini_content (gr_contents r) ++ put_some "systemInstruction" encode_gemini_system (gr_system r)
          ++ put "generationConfig" (encode_generation_config r)).

(* ------------------------------------------------------------------ *)
(** ** Reading back what was written *)

Section RoundTrip.
Context `{JE : JsonErrors} `{FL : F64}.

Lemma tool_call_reads t : de_tool_call (encode_tool_call t) = Ok t.
Proof. by destruct t as [i ty [n a]]. Qed.
Lemma tool_calls_read l : nullable (seq_of de_tool_call) (encode_tool_calls l) = Ok (Some l).
Proof. apply nullable_some; [|done]. apply seq_encoded, Forall_forall. intros t _. apply tool_call_reads. Qed.
End RoundTrip.
#[export] Hint Resolve tool_call_reads tool_calls_read : roundtrip.

Definition message_wf (m : Message) : Prop := normal (msg_content m) = msg_content m.
Definition u32 (z : Z) : Prop := 0 <= z < 2 ^ 32.

Definition u64 (z : Z) : Prop := 0 <= z < 2 ^ 64.

Section RequestRoundTrip.
Context `{JE : JsonErrors} `{FL : F64}.

Lemma u32_reads z : u32 z -> de_u32 (json_int z) = Ok z.
Proof. apply ranged_int. Qed.
Lemma u64_reads z : u64 z -> de_u64 (json_int z) = Ok z.
Proof. apply ranged_int. Qed.
Lemma u32_option_reads z : u32 z -> nullable de_u32 (json_int z) = Ok (Some z).
Proof. intros H. apply nullable_some; [by apply u32_reads|done]. Qed.
Lemma same_reads v : present v -> nullable de_value (same v) = Ok (Some v).
Proof. apply value_reads. Qed.

Lemma message_reads m : message_wf m -> de_message (encode_message m) = Ok m.
Proof.
  intros Hm. destruct m as [r c n tc id]. unfold message_wf in Hm. cbn in Hm. unfold encode_message. cbn [msg_role msg_content msg_name msg_tool_calls msg_tool_call_id].
  read_struct.
Qed.

Lemma messages_read l : Forall message_wf l -> Forall (fun m => de_message (encode_message m) = Ok m) l.
Proof. intros H. eapply Forall_impl; [exact H|]. apply message_reads. Qed.

Hint Resolve u32_reads u64_reads u32_option_reads same_reads messages_read : roundtrip.

(** A request as decoding makes it: numbers within their types, JSON values in
    order, and in [extra] no name of a typed field. *)
Record request_wf (r : ChatCompletionRequest) : Prop := {
  rw_messages : Forall message_wf (messages r);
  rw_max_tokens : forall z, max_tokens r = Some z -> u32 z;
  rw_stop : forall v, stop r = Some v -> present v;
  rw_tools : forall v, tools r = Some v -> present v;
  rw_tool_choice : forall v, tool_choice r = Some v -> present v;
  rw_stream_options : forall v, stream_options r = Some v -> present v
}.

Definition is_typed (k : string) : bool := is_known (fl_known (request_fields (D := Value))) k.

Lemma request_reads r m : request_wf r -> (forall k, is_typed k = true -> entry k m = None) -> makes request_fields (encode_typed r ++ m)
  (mkRequest (model r) (messages r) (stream r) (max_tokens r) (temperature r) (top_p r) (stop r) (presence_penalty r) (frequency_penalty r)
     (user r) (tools r) (tool_choice r) (stream_options r)).
Proof.
  intros [Hm Ht Hs Htl Htc Hso] Hx. destruct r as [mo me st mt te tp sp pp fp us tl tc so ex].
  cbn [messages max_tokens stop tools tool_choice stream_options] in *. unfold encode_typed.
  cbn [model messages stream max_tokens temperature top_p stop presence_penalty frequency_penalty user tools tool_choice stream_options].
  unfold request_fields.
  repeat (eapply makes_with; [|read_field]). apply makes_made.
Qed.
End RequestRoundTrip.

(* ------------------------------------------------------------------ *)
(** ** The body of a request *)

Section RequestBody.
Context `{JE : JsonErrors} `{FL : F64}.

(** An [extra] as decoding makes it: an object in order, without typed names. *)
Record extra_wf (x : Value) (m : Map) : Prop := {
  xw_object : x = Object m;
  xw_normal : normal x = x;
  xw_untyped : Forall (fun kv : string * Value => is_typed kv.1 = false) m
}.

Lemma normal_null v : normal v = Null -> v = Null.
Proof. by destruct v. Qed.
Lemma fills_value b k : fills (absent_is b k None (nullable de_value)) (fun o => forall v, o = Some v -> present v).
Proof.
  apply fills_absent; [|done]. intros d o. unfold nullable. cbn. destruct (is_null d) eqn:En; [by intros [= <-]|].
  intros [= <-] v [= <-]. split; [|apply normal_idem]. intros H%normal_null. by rewrite H in En.
Qed.
Lemma value_yields : yields (de_value (D := Value)) (fun v => normal v = v).
Proof. intros d v [= <-]. apply normal_idem. Qed.
Lemma u32_yields : yields (de_u32 (D := Value)) u32.
Proof. intros d a. apply yields_ranged. Qed.
Lemma message_yields : yields (de_message (D := Value)) message_wf.
Proof. pose proof value_yields. fill_struct. Qed.

Lemma request_fills : fills request_fields (fun f => forall x, request_wf (f x) /\ extra (f x) = x).
Proof.
  pose proof message_yields. pose proof u32_yields. unfold request_fields.
  repeat (eapply fills_with; [first [apply fills_value | fill]|]). apply fills_made. intros. split; [|done]. split; cbn; assumption.
Qed.

Lemma normal_map m : Forall (fun kv => normal kv.2 = kv.2) m -> normal (Object (map_of_list m)) = Object (map_of_list m).
Proof.
  intros Hm%map_of_list_forall. cbn [normal]. f_equal. transitivity (map_of_list (map_of_list m)); [f_equal|apply map_of_sorted, map_of_list_sorted].
  induction Hm as [|[k v] m' Hk _ IH]; [done|]. cbn in *. by rewrite Hk, IH.
Qed.

Lemma collect_values l :
  collect (fun kv : string * Value => let? v := de_value kv.2 in Ok (kv.1, v)) l = Ok ((fun kv => (kv.1, normal kv.2)) <$> l).
Proof. apply collect_map_ok, Forall_forall. done. Qed.

(** What a body decodes to is well formed. *)
Lemma decoded_request v r : de_chat_request v = Ok r -> request_wf r /\ exists m, extra_wf (extra r) m.
Proof.
  unfold de_chat_request, flat_struct. destruct (de_map v) as [es|]; [|done]. destruct (visit _ _ _ _); [|done].
  destruct (fl_build request_fields v es) as [f|] eqn:Eb; [|done]. destruct (collect _ _) as [rest|] eqn:Er; [|done]. intros [= <-].
  destruct (request_fills _ _ _ Eb (Object (map_of_list rest))) as [Hw Hx]. split; [done|]. rewrite Hx. exists (map_of_list rest).
  rewrite collect_values in Er. injection Er as <-.
  split; [done|apply normal_map; apply Forall_fmap, Forall_forall; intros kv _; apply normal_idem|].
  apply map_of_list_forall, Forall_fmap, Forall_forall. intros kv Hin%list_elem_of_In. apply filter_In in Hin as [_ Hk]. by apply negb_true_iff in Hk.
Qed.

Lemma filter_keeps {A} (p : A -> bool) l : Forall (fun x => p x = true) l -> List.filter p l = l.
Proof. induction 1 as [|x l Hx _ IH]; [done|]. cbn. by rewrite Hx, IH. Qed.
Lemma filter_drops {A} (p : A -> bool) l : Forall (fun x => p x = false) l -> List.filter p l = [].
Proof. induction 1 as [|x l Hx _ IH]; [done|]. cbn. by rewrite Hx. Qed.

Lemma untyped_entry (m : Map) k : Forall (fun kv => is_typed kv.1 = false) m -> is_typed k = true -> entry k m = None.
Proof.
  intros Hm Hk. unfold entry. induction Hm as [|[k' v'] m Hk' _ IH]; [done|]. cbn. destruct (str_eqb k k') eqn:E; [|done].
  apply str_eqb_spec in E as <-. cbn in Hk'. congruence.
Qed.

Lemma typed_entries r : Forall (fun kv => is_typed kv.1 = true) (encode_typed r).
Proof. unfold encode_typed. repeat (apply Forall_app; split); first [by repeat constructor | unfold put_some; case_match; by repeat constructor]. Qed.
Lemma known_split r m : Forall (fun kv => is_typed kv.1 = false) m ->
  known_entries (fl_known request_fields) (encode_typed r ++ m) = encode_typed r /\ other_entries (fl_known request_fields) (encode_typed r ++ m) = m.
Proof.
  intros Hm. unfold known_entries, other_entries. rewrite !List.filter_app. pose proof (typed_entries r) as Ht.
  change (fun kv : string * Value => is_known (fl_known request_fields) kv.1) with (fun kv : string * Value => is_typed kv.1).
  change (fun kv : string * Value => negb (is_known (fl_known request_fields) kv.1)) with (fun kv : string * Value => negb (is_typed kv.1)).
  rewrite (filter_keeps _ (encode_typed r)), (filter_drops _ m), app_nil_r; [|done|done]. split; [done|].
  rewrite (filter_drops _ (encode_typed r)), (filter_keeps _ m); [done|eapply Forall_impl; [exact Hm|]|eapply Forall_impl; [exact Ht|]]; intros kv Hk; cbn in *; by rewrite Hk.
Qed.
Lemma typed_nodup r : NoDup (encode_typed r).*1.
Proof.
  unfold encode_typed. eapply sublist_nodup;
  [ rewrite ?fmap_app; repeat (apply sublist_app; [first [apply put_some_sub | reflexivity]|]); apply put_some_sub
  | apply (bool_decide_unpack _); vm_compute; exact I ].
Qed.

Lemma request_covers : covers (request_fields (D := Value)).
Proof. unfold request_fields. repeat (apply covers_with; [|first [apply covers_required | apply covers_absent]]). apply covers_made. Qed.

(** A well-formed request reads back as it is. *)
Lemma request_roundtrips r m : request_wf r -> extra_wf (extra r) m ->
  encode_request r = Some (Object (encode_typed r ++ m)) /\ de_chat_request (Object (encode_typed r ++ m)) = Ok r.
Proof.
  intros Hr [Hx Hn Hm]. unfold encode_request. rewrite Hx. split; [done|]. unfold de_chat_request, flat_struct. cbn [de_map json_deserializer].
  pose proof (request_reads r m Hr (fun k => untyped_entry m k Hm)) as Hmk. destruct (known_split r m Hm) as [Hk Ho].
  erewrite (visit_covered request_fields); [|exact request_covers|by rewrite Hk; apply typed_nodup|apply Hmk].
  rewrite Hmk, Ho. rewrite Hx in Hn. cbn [normal] in Hn. injection Hn as Hn.
  rewrite collect_values.
  change (map_of_list ((fun kv => (kv.1, normal kv.2)) <$> m)) with (map_of_list (map (fun kv => (kv.1, normal kv.2)) m)). rewrite Hn.
  destruct r; cbn in Hx |- *. by rewrite Hx.
Qed.

(** ** What goes upstream *)

Lemma entry_get k (m : Map) : entry k m = map_get k m.
Proof.
  unfold entry. induction m as [|[k' v] m IH]; [done|]. cbn. destruct (str_eqb k k') eqn:E.
  - apply str_eqb_spec in E as <-. by rewrite bool_decide_true.
  - rewrite bool_decide_false; [done|]. intros ->. by rewrite str_eqb_refl in E.
Qed.

Lemma merged_get k pm ex :
  map_get k (foldl (fun ex kv => map_or_insert kv.1 kv.2 ex) ex pm) = or_else (map_get k ex) (map_get k pm).
Proof.
  revert ex. induction pm as [|[k' v] pm IH]; intros ex; cbn; [by destruct (map_get k ex)|]. rewrite IH, map_get_or_insert.
  destruct (map_get k ex); [done|]. cbn. destruct (decide (k = k')) as [->|Hne]; [by rewrite !bool_decide_true|].
  rewrite !bool_decide_false by congruence. done.
Qed.

(** Objects in order stay so when an entry is inserted. *)
Lemma normal_object m : normal (Object m) = Object m <-> StronglySorted before m /\ Forall (fun kv => normal kv.2 = kv.2) m.
Proof.
  cbn [normal]. split.
  - intros [= H]. split; [rewrite <- H; apply map_of_list_sorted|]. rewrite <- H. apply map_of_list_forall, Forall_forall.
    intros kv ([k v] & -> & _)%list_elem_of_fmap. cbn. apply normal_idem.
  - intros [Hs Hf]. f_equal. rewrite <- (map_of_sorted m Hs) at 2. f_equal. induction Hf as [|[k v] m Hk _ IH]; [done|]. cbn in *.
    rewrite Hk, IH; [done|]. by inversion Hs.
Qed.
Lemma normal_insert k v m : normal (Object m) = Object m -> normal v = v -> normal (Object (map_insert k v m)) = Object (map_insert k v m).
Proof. rewrite !normal_object. intros [Hs Hf] Hv. split; [by apply map_insert_sorted|by apply map_insert_keys]. Qed.
Lemma normal_or_insert k v m : normal (Object m) = Object m -> normal v = v -> normal (Object (map_or_insert k v m)) = Object (map_or_insert k v m).
Proof. intros Hm Hv. unfold map_or_insert. destruct (map_get k m); [done|by apply normal_insert]. Qed.

(** The default parameters of a route, as the configuration has them. *)
Definition params_of (route : RouteEntry) : Map := match re_default_params route with Some (Object pm) => pm | _ => [] end.
Definition params_normal (route : RouteEntry) : Prop := Forall (fun kv => normal kv.2 = kv.2) (params_of route).

Lemma merge_params route m : exists m', merge_default_params (re_default_params route) (Object m) = Object m'
  /\ m' = foldl (fun ex kv => map_or_insert kv.1 kv.2 ex) m (params_of route).
Proof. unfold merge_default_params, params_of. destruct (re_default_params route) as [[]|]; eauto. Qed.

Lemma merged_normal pm m : Forall (fun kv => normal kv.2 = kv.2) pm -> normal (Object m) = Object m ->
  normal (Object (foldl (fun ex kv => map_or_insert kv.1 kv.2 ex) m pm)) = Object (foldl (fun ex kv => map_or_insert kv.1 kv.2 ex) m pm).
Proof. intros Hp. revert m. induction Hp as [|kv pm Hk _ IH]; intros m Hm; [done|]. cbn. apply IH. by apply normal_or_insert. Qed.
Lemma merged_keys (P : string * Value -> Prop) pm m : Forall P pm -> Forall P m -> Forall P (foldl (fun ex kv => map_or_insert kv.1 kv.2 ex) m pm).
Proof.
  intros Hp. revert m. induction Hp as [|[k v] pm Hk _ IH]; intros m Hm; [done|]. cbn. apply IH. unfold map_or_insert.
  destruct (map_get k m); [done|by apply map_insert_keys].
Qed.

(** The catalog changes at most [reasoning_effort]. *)
Lemma translate_extra `{SJ : SerdeJson} e m x : translate_reasoning_effort e (Object m) = Ok x ->
  x = Object m \/ exists level, x = Object (map_insert "reasoning_effort" (Str level) m).
Proof.
  unfold translate_reasoning_effort. intros H. repeat (case_match; try discriminate); injection H as <-; eauto.
Qed.
Lemma translated_request `{SJ : SerdeJson} reg mdl req req1 m : request_wf req -> extra_wf (extra req) m -> catalog_translate reg mdl req = Ok req1 ->
  exists m1, req1 = set_extra req (Object m1) /\ extra_wf (Object m1) m1 /\ forall k, k ≠ "reasoning_effort" -> map_get k m1 = map_get k m.
Proof.
  intros Hr [Hx Hn Hu]. unfold catalog_translate. assert (req = set_extra req (Object m)) as Hs by (destruct req; cbn in *; by subst).
  rewrite Hx in Hn |- *. destruct (registry_entry reg mdl) as [e|]; [|intros [= <-]; exists m; by rewrite <- Hs].
  destruct (translate_reasoning_effort e (Object m)) as [x|] eqn:Et; [|done]. intros [= <-].
  apply translate_extra in Et as [->|[level ->]]; [by exists m|]. exists (map_insert "reasoning_effort" (Str level) m). split; [done|]. split.
  - split; [done|by apply normal_insert|by apply map_insert_keys].
  - intros k Hk. by apply map_get_insert_ne.
Qed.

(** A name that is not typed has in [extra] the value of its last entry. *)
Lemma filtered_get (p : string -> bool) k (l : Map) m m' : p k = true -> map_get k m = map_get k m' ->
  map_get k (foldl (fun m kv => map_insert kv.1 kv.2 m) m ((fun kv => (kv.1, normal kv.2)) <$> List.filter (fun kv => p kv.1) l))
  = map_get k (foldl (fun m kv => map_insert kv.1 kv.2 m) m' (map (fun kv => (kv.1, normal kv.2)) l)).
Proof.
  intros Hk. revert m m'. induction l as [|[k' v] l IH]; intros m m' Hm; [done|]. cbn [List.filter map fst]. destruct (p k') eqn:E.
  - cbn. apply IH. destruct (decide (k = k')) as [->|Hne]; [by rewrite !map_get_insert_eq|by rewrite !map_get_insert_ne by congruence].
  - cbn. apply IH. rewrite map_get_insert_ne; [done|congruence].
Qed.
Lemma decoded_extra v r k : de_chat_request v = Ok r -> is_typed k = false -> get k (extra r) = get k (normal v).
Proof.
  unfold de_chat_request, flat_struct. destruct (de_map v) as [es|] eqn:Ev; [|done]. assert (v = Object es) as -> by (destruct v; try done; by injection Ev as ->).
  destruct (visit _ _ _ _); [|done].
  destruct (fl_build request_fields _ es) as [f|] eqn:Eb; [|done]. destruct (collect _ _) as [rest|] eqn:Er; [|done]. intros [= <-] Hk.
  destruct (request_fills _ _ _ Eb (Object (map_of_list rest))) as [_ ->]. rewrite collect_values in Er. injection Er as <-.
  cbn [get normal]. apply (filtered_get (fun k => negb (is_typed k)) k es [] []); [by rewrite Hk|done].
Qed.

Lemma typed_absent r k : is_typed k = false -> entry k (encode_typed r) = None.
Proof.
  intros Hk. pose proof (typed_entries r) as Ht. unfold entry. induction Ht as [|[k' v] l Hk' _ IH]; [done|]. cbn.
  destruct (str_eqb k k') eqn:E; [|done]. apply str_eqb_spec in E as <-. cbn in Hk'. congruence.
Qed.

(** A typed name that comes twice is refused. *)
Lemma repeated_refused k es es' v v' : is_typed k = true -> entry k es = Some v -> entry k es' = Some v' ->
  exists e, de_chat_request (Object (es ++ es')) = Err e.
Proof.
  intros Hk Hv Hv'. unfold de_chat_request, flat_struct. cbn [de_map json_deserializer]. destruct (visit _ _ _ _) as [[]|e] eqn:Ev; [|by eexists].
  exfalso. apply visit_spec in Ev as (Hn & _ & _). rewrite <- (entry_known (fl_known request_fields) k) in Hv, Hv' by done.
  unfold known_entries in *. rewrite List.filter_app, fmap_app in Hn. apply NoDup_app in Hn as (_ & Hd & _).
  assert (forall (l : Map) w, entry k l = Some w -> k ∈ l.*1) as Hin.
  { intros l w. unfold entry. destruct (List.find _ l) as [[k' w']|] eqn:E; [|done]. intros _. apply find_some in E as [Hi He%str_eqb_spec].
    cbn in He. subst k'. apply (list_elem_of_fmap_2 fst _ (k, w')). by apply list_elem_of_In. }
  exact (Hd k (Hin _ _ Hv) (Hin _ _ Hv')).
Qed.

Lemma set_extra_wf r x : request_wf r -> request_wf (set_extra r x).
Proof. by intros []. Qed.
Lemma set_model_wf r x : request_wf r -> request_wf (set_model r x).
Proof. by intros []. Qed.

(** What [openai_chat] posts: the request itself, which [encode_request] writes. *)
Definition posted (url : string) (sent : ChatCompletionRequest) (k : KeyEntry) : HttpRequest ChatCompletionRequest :=
  mkHttpRequest (url +:+ "/chat/completions") [("authorization", "Bearer " +:+ key k); ("content-type", "application/json")] (Some sent).

(** Claim C5: what goes to an upstream of the OpenAI kind is what the client asked for.
    For a body that decodes, all that such a provider asks of the network is one post of
    the request; it is the client's with the upstream's name for the model; in its body
    a field the gateway does not know has the client's (last) value, and only when the
    client left it out the default parameter of the route ([reasoning_effort] apart,
    which the catalog translates).  The upstream reads exactly that request when no
    default parameter has the name of a typed field; if one has, and the client sent the
    field too, the body has the name twice and is refused.  (Anthropic and Gemini
    upstreams get a translation instead, without the unknown fields and most of the
    typed ones; nothing is said of them here.) *)
Theorem upstream_reads_request `{SJ : SerdeJson} `{SD : StatusDisplay} body req reg req1 route :
  de_chat_request body = Ok req -> catalog_translate reg (model req) req = Ok req1 -> params_normal route ->
  let sent := sent_request route req1 in
  exists out, encode_request sent = Some (Object out)
  /\ (forall id url codes net net' k, net_openai net (posted url sent k) = net_openai net' (posted url sent k) ->
        dyn_chat (provider_of OpenAi id url codes) net sent k = dyn_chat (provider_of OpenAi id url codes) net' sent k)
  /\ sent = set_extra (set_model req (unwrap_or (re_upstream_model route) (model req))) (extra sent)
  /\ (forall k, is_typed k = false -> k ≠ "reasoning_effort" ->
        entry k out = or_else (get k (normal body)) (map_get k (params_of route)))
  /\ (Forall (fun kv => is_typed kv.1 = false) (params_of route) -> de_chat_request (Object out) = Ok sent)
  /\ (forall k, is_typed k = true -> map_get k (params_of route) ≠ None -> entry k (encode_typed sent) ≠ None ->
        exists e, de_chat_request (Object out) = Err e).
Proof.
  intros Hd Hc Hp. destruct (decoded_request _ _ Hd) as [Hw [m Hm]]. destruct (translated_request _ _ _ _ _ Hw Hm Hc) as (m1 & -> & Hm1 & Hg).
  destruct (merge_params route m1) as (m2 & He & Hm2). set (sent := sent_request route _).
  assert (extra sent = Object m2) as Hx by (unfold sent, sent_request; destruct (re_upstream_model route); cbn; exact He).
  assert (request_wf sent) as Hs.
  { unfold sent, sent_request. destruct (re_upstream_model route); repeat first [apply set_extra_wf|apply set_model_wf]; done. }
  exists (encode_typed sent ++ m2). split_and!.
  - unfold encode_request. by rewrite Hx.
  - intros id url codes net net' k Hnet. cbn [provider_of to_dyn dyn_chat p_chat openai_provider]. unfold openai_chat.
    cbn [openai_new oa_base_url]. unfold posted in Hnet. by rewrite Hnet.
  - unfold sent, sent_request. destruct req, (re_upstream_model route); reflexivity.
  - intros k Hk Hr. rewrite entry_app, typed_absent, entry_get, Hm2, merged_get by done. cbn [or_else]. rewrite Hg by done.
    rewrite <- (decoded_extra _ _ _ Hd Hk). by rewrite (xw_object _ _ Hm).
  - intros Ht. assert (extra_wf (extra sent) m2) as Hm'.
    { rewrite Hx. split; [done|rewrite Hm2; apply merged_normal; [done|apply Hm1]|]. rewrite Hm2. apply merged_keys; [done|apply Hm1]. }
    apply request_roundtrips; done.
  - intros k Hk Hpk Hke. destruct (entry k (encode_typed sent)) as [v|] eqn:Ev; [|done]. destruct (map_get k (params_of route)) as [v'|] eqn:Ep; [|done].
    assert (map_get k m1 = None) as Hk1 by (rewrite <- entry_get; apply (untyped_entry _ _ (xw_untyped _ _ Hm1) Hk)).
    apply (repeated_refused k _ _ v v'); [done|done|]. by rewrite entry_get, Hm2, merged_get, Hk1, Ep.
Qed.
End RequestBody.

(* ------------------------------------------------------------------ *)
(** ** Answers *)

(** A response as decoding and the translations make it. *)
Definition choice_wf (c : Choice) : Prop := u32 (ch_index c) /\ forall v, thinking (message c) = Some v -> present v.
Record response_wf (r : ChatCompletionResponse) : Prop := {
  pw_created : u64 (created r);
  pw_choices : Forall choice_wf (choices r);
  pw_usage : forall u, usage r = Some u -> usage_wf u
}.

Definition delta_wf (d : Delta) : Prop :=
  (forall l, dl_tool_calls d = Some l -> Forall (fun t => u32 (dtc_index t)) l) /\ forall v, dl_thinking d = Some v -> present v.
Record chunk_wf (c : ChatCompletionChunk) : Prop := {
  kw_created : u64 (ck_created c);
  kw_choices : Forall (fun ch => u32 (cc_index ch) /\ delta_wf (cc_delta ch)) (ck_choices c);
  kw_usage : forall u, ck_usage c = Some u -> usage_wf u
}.

Section Answers.
Context `{JE : JsonErrors} `{FL : F64}.

#[local] Hint Resolve u32_reads u64_reads u32_option_reads same_reads : roundtrip.

Lemma encoded_usage_reads u : usage_wf u -> nullable de_usage (encode_usage u) = Ok (Some u).
Proof.
  intros (Hp & Hc & Ht). apply nullable_some; [|done]. destruct u as [p c t]. cbn in Hp, Hc, Ht. unfold encode_usage. cbn [prompt_tokens completion_tokens total_tokens].
  read_struct.
Qed.
Lemma response_message_reads m : (forall v, thinking m = Some v -> present v) -> de_response_message (encode_response_message m) = Ok m.
Proof.
  intros Ht. destruct m as [r c tc rc rs rt th]. cbn in Ht. unfold encode_response_message.
  cbn [rm_role content tool_calls reasoning_content reasoning reasoning_text thinking]. read_struct.
Qed.
#[local] Hint Resolve response_message_reads encoded_usage_reads : roundtrip.
Lemma choice_reads c : choice_wf c -> de_choice (encode_choice c) = Ok c.
Proof.
  intros [Hi Ht]. destruct c as [i m f]. cbn in Hi, Ht. unfold encode_choice. cbn [ch_index message finish_reason]. read_struct.
Qed.
Lemma choices_read l : Forall choice_wf l -> Forall (fun c => de_choice (encode_choice c) = Ok c) l.
Proof. intros H. eapply Forall_impl; [exact H|]. apply choice_reads. Qed.
#[local] Hint Resolve choices_read : roundtrip.
Lemma response_reads r : response_wf r -> de_chat_response (encode_response r) = Ok (set_raw_usage r None).
Proof.
  intros [Hc Hch Hu]. destruct r as [i o c m ch u raw]. cbn in Hc, Hch, Hu. unfold encode_response, set_raw_usage.
  cbn [resp_id object created resp_model choices usage].
  set (mk := fun id object created model choices usage => mkResponse id object created model choices usage None).
  change (mkResponse i o c m ch u None) with (mk i o c m ch u). unfold de_chat_response. fold mk. read_struct.
Qed.

(** A chunk reads back as it is. *)
Lemma delta_function_reads f : nullable de_delta_function (encode_delta_function f) = Ok (Some f).
Proof. apply nullable_some; [|done]. destruct f as [n a]. unfold encode_delta_function. cbn [dtf_name dtf_arguments]. read_struct. Qed.
#[local] Hint Resolve delta_function_reads : roundtrip.
Lemma delta_tool_call_reads t : u32 (dtc_index t) -> de_delta_tool_call (encode_delta_tool_call t) = Ok t.
Proof.
  intros Hi. destruct t as [i id ty f]. cbn in Hi. unfold encode_delta_tool_call. cbn [dtc_index dtc_id dtc_type dtc_function]. read_struct.
Qed.
Lemma delta_tool_calls_read l : Forall (fun t => u32 (dtc_index t)) l -> nullable (seq_of de_delta_tool_call) (encode_delta_tool_calls l) = Ok (Some l).
Proof.
  intros H. apply nullable_some; [|done]. apply seq_encoded. eapply Forall_impl; [exact H|]. apply delta_tool_call_reads.
Qed.
#[local] Hint Resolve delta_tool_calls_read : roundtrip.
Lemma encoded_delta_reads d : delta_wf d -> de_delta (encode_delta d) = Ok d.
Proof.
  intros [Ht Hv]. destruct d as [r c tc rc rs rt th]. cbn in Ht, Hv. unfold encode_delta.
  cbn [dl_role dl_content dl_tool_calls dl_reasoning_content dl_reasoning dl_reasoning_text dl_thinking]. read_struct.
Qed.
#[local] Hint Resolve encoded_delta_reads : roundtrip.
Lemma chunk_choices_read l : Forall (fun ch => u32 (cc_index ch) /\ delta_wf (cc_delta ch)) l ->
  Forall (fun ch => de_chunk_choice (encode_chunk_choice ch) = Ok ch) l.
Proof.
  intros H. eapply Forall_impl; [exact H|]. intros [i d f] [Hi Hd]. cbn in Hi, Hd. unfold encode_chunk_choice. cbn [cc_index cc_delta cc_finish_reason].
  read_struct.
Qed.
#[local] Hint Resolve chunk_choices_read : roundtrip.
Lemma chunk_reads c : chunk_wf c -> de_chunk (encode_chunk c) = Ok c.
Proof.
  intros [Hc Hch Hu]. destruct c as [i o cr m ch u]. cbn in Hc, Hch, Hu. unfold encode_chunk. cbn [ck_id ck_object ck_created ck_model ck_choices ck_usage].
  read_struct.
Qed.

(** What an upstream's answer decodes to. *)
Lemma response_message_yields : yields (de_response_message (D := Value)) (fun m => forall v, thinking m = Some v -> present v).
Proof. apply yields_struct. repeat (eapply fills_with; [first [apply fills_value | fill]|]). apply fills_made. intros. eauto. Qed.
Lemma choice_yields : yields (de_choice (D := Value)) choice_wf.
Proof.
  pose proof response_message_yields. pose proof u32_yields. apply yields_struct. repeat (eapply fills_with; [fill|]). apply fills_made.
  intros. by split.
Qed.
Lemma usage_yields : yields (de_usage (D := Value)) usage_wf.
Proof. pose proof u32_yields. apply yields_struct. repeat (eapply fills_with; [fill|]). apply fills_made. intros. split; [assumption|split; assumption]. Qed.
Lemma response_yields : yields (de_chat_response (D := Value)) response_wf.
Proof.
  pose proof choice_yields. pose proof usage_yields. assert (yields (de_u64 (D := Value)) u64) by (intros d a; apply yields_ranged).
  apply yields_struct. repeat (eapply fills_with; [fill|]). apply fills_made. intros. by split.
Qed.

Lemma u32_wrap z : u32 (wrap 32 z).
Proof. unfold u32, wrap. by apply Z.mod_pos_bound. Qed.
Lemma assistant_wf id now mdl text reasoning fin u : u64 now -> usage_wf u -> response_wf (assistant_response id now mdl text reasoning fin u).
Proof. intros Hn Hu. split; [done| |by intros ? [= <-]]. repeat constructor; done. Qed.
Lemma raw_usage_wf r raw : response_wf r -> response_wf (set_raw_usage r raw).
Proof. by intros []. Qed.

(** Normalising keeps a response well formed. *)
Lemma normalized_wf r : response_wf r -> response_wf (normalize_chat_response r).
Proof.
  intros [Hc Hch Hu]. split; [done| |done]. cbn. apply Forall_fmap. eapply Forall_impl; [exact Hch|]. intros c [Hi Ht].
  assert (forall v, thinking (fold_message_reasoning (message c)) = Some v -> present v) as Hf.
  { unfold fold_message_reasoning. destruct (thinking (message c)) as [[]|] eqn:E; cbn; try (intros v Hv; apply Ht; congruence).
    destruct (negb _); cbn; [done|]. intros v Hv. apply Ht. congruence. }
  unfold normalize_choice, compose. destruct (content _) as [text|]; [|by split]. destruct (str_is_empty text); [by split|].
  destruct (extract_think_tags _ _). by split.
Qed.

(** Every provider makes well-formed responses. *)
Lemma provider_answer_wf `{SJ : SerdeJson} `{SD : StatusDisplay} kind id url codes net req k r : u64 (net_now_secs net) ->
  dyn_chat (provider_of kind id url codes) net req k = Ok (Once r) -> response_wf r.
Proof.
  intros Hn. destruct kind; cbn [provider_of to_dyn dyn_chat p_chat openai_provider anthropic_provider gemini_provider].
  - unfold openai_chat. repeat (case_match; try discriminate). intros [= <-]. apply raw_usage_wf. match goal with H : decode_chat_response _ = Ok _ |- _ => exact (response_yields _ _ H) end.
  - unfold anthropic_chat. repeat (case_match; try discriminate). intros [= <-]. apply raw_usage_wf, assistant_wf; [done|]. split; [|split]; apply u32_wrap.
  - unfold gemini_chat. repeat (case_match; try discriminate). intros [= <-]. apply raw_usage_wf, assistant_wf; [done|].
    split; [|split]; [apply u32_wrap..|]. cbn. case_match; apply u32_wrap.
Qed.

(** Claim C35: the client reads the answer the gateway means: whatever an upstream of
    any of the three kinds answers, the body sent to the client, with think tags
    separated or not, decodes to the response the provider made of it (without the
    upstream's usage object, which is not sent). *)
Theorem client_reads_answer `{SJ : SerdeJson} `{SD : StatusDisplay} kind id url codes net req k r (strip : bool) : u64 (net_now_secs net) ->
  dyn_chat (provider_of kind id url codes) net req k = Ok (Once r) ->
  let shown := if strip then normalize_chat_response r else r in
  de_chat_response (encode_response shown) = Ok (set_raw_usage shown None).
Proof.
  intros Hn Hc. apply response_reads. pose proof (provider_answer_wf _ _ _ _ _ _ _ _ Hn Hc) as Hr.
  destruct strip; [by apply normalized_wf|done].
Qed.
End Answers.

(* ------------------------------------------------------------------ *)
(** ** What the native relays stream *)

Section Relays.
Context `{JE : JsonErrors} `{FL : F64}.

Definition empty_delta : Delta := mkDelta None None None None None None None.
(** What a client reads of the delta of [emit_chunk]. *)
Definition read_delta (text : string) (reasoning : bool) : Delta :=
  if str_eqb text "assistant" then mkDelta (Some "assistant") None None None None None None
  else if reasoning then mkDelta None None None (Some text) None None None
  else if str_is_empty text then empty_delta
  else mkDelta None (Some text) None None None None None.
Definition read_chunk (d : RelayData) (delta : Delta) (finish : option string) (u : option Usage) : ChatCompletionChunk :=
  mkChunk (message_id d) default_chunk_object (relay_created d) (relay_model d) [mkChunkChoice (content_idx d) delta finish] u.

Lemma delta_reads text reasoning : de_delta (chunk_delta text reasoning) = Ok (read_delta text reasoning).
Proof. unfold chunk_delta, read_delta. by repeat case_match. Qed.

(** The object of a chunk, with its names in order. *)
Definition choice_object (d : RelayData) (delta : Value) (finish : option string) : Value :=
  Object (put "delta" delta ++ put_option "finish_reason" Str finish ++ put "index" (json_int (content_idx d))).
Definition usage_object (u : Usage) : Value :=
  Object (put "completion_tokens" (json_int (completion_tokens u)) ++ put "prompt_tokens" (json_int (prompt_tokens u))
          ++ put "total_tokens" (json_int (total_tokens u))).
Definition chunk_object (d : RelayData) (delta : Value) (finish : option string) (u : option Usage) : Value :=
  Object (put "choices" (Array [choice_object d delta finish]) ++ put "created" (json_int (relay_created d)) ++ put "id" (Str (message_id d))
          ++ put "model" (Str (relay_model d)) ++ put "object" (Str default_chunk_object) ++ put_some "usage" usage_object u).

#[local] Hint Resolve u32_reads u64_reads : roundtrip.

Lemma choice_object_reads d delta rd finish : u32 (content_idx d) -> de_delta delta = Ok rd ->
  de_chunk_choice (choice_object d delta finish) = Ok (mkChunkChoice (content_idx d) rd finish).
Proof. intros Hi Hd. unfold choice_object. read_struct. Qed.

Lemma seq_one {A} (f : Value -> Result A string) v a : f v = Ok a -> seq_of f (Array [v]) = Ok [a].
Proof. intros H. unfold seq_of. cbn. by rewrite H. Qed.

Lemma usage_object_reads u : usage_wf u -> nullable de_usage (usage_object u) = Ok (Some u).
Proof.
  intros (Hp & Hc & Ht). apply nullable_some; [|done]. destruct u as [p c t]. cbn in Hp, Hc, Ht. unfold usage_object. cbn [prompt_tokens completion_tokens total_tokens].
  read_struct.
Qed.
#[local] Hint Resolve usage_object_reads : roundtrip.

Lemma chunk_object_reads d delta rd finish u : u64 (relay_created d) -> u32 (content_idx d) -> de_delta delta = Ok rd ->
  (forall v, u = Some v -> usage_wf v) -> de_chunk (chunk_object d delta finish u) = Ok (read_chunk d rd finish u).
Proof.
  intros Hc Hi Hd Hu. unfold chunk_object, read_chunk.
  assert (seq_of de_chunk_choice (Array [choice_object d delta finish]) = Ok [mkChunkChoice (content_idx d) rd finish]) as Hs
    by (apply seq_one; by apply choice_object_reads).
  read_struct.
Qed.

(** A text of the stream is the event of a JSON value that a client reads as [ck]. *)
Definition reads_as `{SJ : SerdeJson} (s : string) (ck : ChatCompletionChunk) : Prop :=
  exists v, s = sse_data v /\ de_chunk v = Ok ck.

Lemma emit_reads `{SJ : SerdeJson} d text finish reasoning : u64 (relay_created d) -> u32 (content_idx d) ->
  reads_as (emit_chunk d text finish reasoning) (read_chunk d (read_delta text reasoning) finish None).
Proof.
  intros Hc Hi. eexists. split; [reflexivity|].
  change (obj _) with (chunk_object d (chunk_delta text reasoning) finish None). apply chunk_object_reads; [done|done|apply delta_reads|done].
Qed.
Lemma final_reads `{SJ : SerdeJson} d p c t : u64 (relay_created d) -> u32 (content_idx d) -> u32 p -> u32 c -> u32 t ->
  reads_as (final_chunk d p c t) (read_chunk d empty_delta (relay_finish d) (Some (mkUsage p c t))).
Proof.
  intros Hd Hi Hp Hc Ht. eexists. split; [reflexivity|].
  change (obj _) with (chunk_object d (obj []) (relay_finish d) (Some (mkUsage p c t))).
  apply chunk_object_reads; [done|done|done|]. intros v [= <-]. split; [|split]; done.
Qed.

(** The lines of what arrives before the first error, as the relay takes them. *)
Fixpoint ok_bytes (upstream : list item) : string :=
  match upstream with Ok b :: up => b +:+ ok_bytes up | _ => "" end.
Definition taken (line : string) : string := trim (if utf8_valid line then line else "").
Definition stream_lines (buf : string) (upstream : list item) : list string := taken <$> (drain_lines (buf +:+ ok_bytes upstream)).1.

(** An invariant of the relay's data holds at every line. *)
Section Invariant.
Variables (process_line : translation) (line_ok : string -> Prop) (inv : RelayData -> Prop) (good : string -> Prop).
Hypothesis line_inv : forall d q line, line_ok line -> inv d -> inv (process_line d q line).1 /\ Forall good (process_line d q line).2.

Lemma relayed_line st line : line_ok (taken line) -> inv st.1 -> Forall good st.2 ->
  inv (relay_line process_line st line).1 /\ Forall good (relay_line process_line st line).2.
Proof.
  intros Hl Hi Hg. unfold relay_line. fold (taken line). destruct (str_is_empty _); [done|].
  destruct (line_inv st.1 (match st.2 with [] => true | _ => false end) (taken line) Hl Hi) as [Hi' Hg'].
  destruct (process_line _ _ _) as [d c]. cbn. split; [done|by apply Forall_app].
Qed.
Lemma relayed_lines ls : Forall line_ok (taken <$> ls) -> forall st, inv st.1 -> Forall good st.2 ->
  inv (foldl (relay_line process_line) st ls).1 /\ Forall good (foldl (relay_line process_line) st ls).2.
Proof.
  induction ls as [|l ls IH]; intros Hl st Hi Hg; [done|]. apply Forall_cons in Hl as [Hl Hls]. cbn. by apply IH; [|apply relayed_line..].
Qed.

Lemma relayed_items upstream : forall d buf, Forall line_ok (stream_lines buf upstream) -> inv d ->
  Forall (fun i => match i with Err e => Err e ∈ upstream | Ok s => s = DONE \/ good s end) (relay_out process_line d buf upstream).
Proof.
  unfold stream_lines. induction upstream as [|[b|e] up IH]; intros d buf Hl Hi; cbn [relay_out]; (destruct (done d); [constructor|]).
  - repeat constructor.
  - cbn [ok_bytes] in Hl. rewrite app_assoc_str, (drain_lines_app (buf +:+ b)) in Hl. destruct (drain_lines (buf +:+ b)) as [ls rest].
    specialize (IH (foldl (relay_line process_line) (d, []) ls).1 rest). destruct (drain_lines (rest +:+ ok_bytes up)) as [ls2 rest2].
    cbn in Hl, IH. rewrite fmap_app in Hl. apply Forall_app in Hl as [Hl1 Hl2].
    destruct (relayed_lines ls Hl1 (d, []) Hi (Forall_nil_2 _)) as [Hi' Hg].
    destruct (foldl _ _ ls) as [d' chunks]. cbn in Hi', Hg, IH. apply Forall_app. split.
    + apply Forall_fmap. eapply Forall_impl; [exact Hg|]. intros s Hs. by right.
    + eapply Forall_impl; [by apply IH|]. intros [s|e] Hs; [done|by right].
  - repeat constructor.
Qed.
End Invariant.

(** The counters of a relay fit their types; [created] is the time of the start, and
    [index] holds of the index of the choice. *)
Record relay_wf (start : Z) (index : Z -> Prop) (d : RelayData) : Prop := {
  rl_index : index (content_idx d);
  rl_fits : u32 (content_idx d);
  rl_created : relay_created d = start;
  rl_start : u64 start;
  rl_streamed : u32 (streamed_tokens d);
  rl_prompt : u32 (relay_prompt_tokens d)
}.
Lemma relay_fields start index d : relay_wf start index d -> u64 (relay_created d) /\ u32 (content_idx d).
Proof. by intros [_ Hf -> Hs _ _]. Qed.
Lemma tokens_wf o old : u32 old -> u32 (match o with Some z => wrap 32 z | None => old end).
Proof. destruct o; [intros _; apply u32_wrap|done]. Qed.

(** *** Anthropic *)

(** The events of an upstream: the JSON values behind [data: ] of its lines. *)
Definition line_event `{SJ : SerdeJson} (line : string) : option Value :=
  strip_prefix "data: " line ≫= fun data => if str_is_empty data then None else from_str data.
Definition events `{SJ : SerdeJson} (upstream : list item) : list Value := omap line_event (stream_lines "" upstream).
Definition event_kind (v : Value) : option string := get_str "type" v.
Definition block_index (v : Value) : Z := unwrap_or (get "index" v ≫= as_u64) 0.

(** What a client reads of a block's text: the text of the delta, or its thoughts. *)
Definition block_text (v : Value) : Delta :=
  let delta := get "delta" v in
  if decide (delta ≫= get_str "type" = Some "thinking_delta") then read_delta (default "" (delta ≫= get_str "thinking")) true
  else read_delta (default "" (delta ≫= get_str "text")) false.

(** The chunk that an event of the upstream is read as: [index] of its one choice, the
    delta, the reason and the usage are those of the event. *)
Definition told (start : Z) (index : Z -> Prop) (v : Value) (ck : ChatCompletionChunk) : Prop :=
  exists id mdl n delta finish u, ck = mkChunk id default_chunk_object start mdl [mkChunkChoice n delta finish] u /\ index n /\
  ((event_kind v = Some "message_start" /\ delta = mkDelta (Some "assistant") None None None None None None /\ finish = None /\ u = None)
   \/ (event_kind v = Some "content_block_delta" /\ n = block_index v /\ delta = block_text v /\ finish = None /\ u = None)
   \/ (event_kind v = Some "message_delta" /\ delta = empty_delta
       /\ finish = AnthropicRelay.stop_reason <$> (get "delta" v ≫= get_str "stop_reason") /\ u = None)
   \/ (event_kind v = Some "message_stop" /\ delta = empty_delta /\ exists t, u = Some (mkUsage 0 t t))).

Lemma event_type_is v s : str_eqb (unwrap_or (get_str "type" v) "") s = true -> s <> "" -> event_kind v = Some s.
Proof. unfold event_kind. intros <-%str_eqb_spec Hs. by destruct (get_str "type" v). Qed.

Lemma anthropic_line_wf `{SJ : SerdeJson} start (seen : Value -> Prop) index d q line : (forall v, seen v -> u32 (block_index v) /\ index (block_index v)) ->
  (forall v, line_event line = Some v -> seen v) -> relay_wf start index d ->
  relay_wf start index (AnthropicRelay.process_line d q line).1
  /\ Forall (fun s => exists v ck, seen v /\ told start index v ck /\ reads_as s ck) (AnthropicRelay.process_line d q line).2.
Proof.
  intros Hseen Hline Hw. unfold AnthropicRelay.process_line. unfold line_event in Hline. destruct (strip_prefix _ _) as [data|]; [|done].
  cbn in Hline. destruct (str_is_empty data); [done|]. destruct (from_str data) as [v|]; [|done]. specialize (Hline v eq_refl). cbv zeta.
  destruct (str_eqb _ "message_start") eqn:E1; [|destruct (str_eqb _ "content_block_delta") eqn:E2;
    [|destruct (str_eqb _ "message_delta") eqn:E3; [|destruct (str_eqb _ "message_stop") eqn:E4; [|done]]]].
  - apply event_type_is in E1; [|done].
    assert (relay_wf start index (AnthropicRelay.message_start d v)) as H1 by (unfold AnthropicRelay.message_start; destruct (get _ v); destruct Hw; by split).
    destruct (relay_fields _ _ _ H1) as [? ?]. split; [exact H1|]. repeat constructor. eexists v, _. split; [done|]. split; [|by apply emit_reads].
    eexists _, _, _, _, _, _. split; [unfold read_chunk; by rewrite (rl_created _ _ _ H1)|]. split; [apply H1|]. by left.
  - apply event_type_is in E2; [|done]. destruct (AnthropicRelay.block_delta d v) as [[d2 text] th] eqn:Eb. unfold AnthropicRelay.block_delta in Eb.
    assert (relay_wf start index d2) as H2 by (injection Eb as <- _ _; destruct (Hseen v Hline), Hw; by split).
    destruct (relay_fields _ _ _ H2) as [? ?]. split; [exact H2|]. repeat constructor. eexists v, _. split; [done|]. split; [|by apply emit_reads].
    eexists _, _, _, _, _, _. split; [unfold read_chunk; by rewrite (rl_created _ _ _ H2)|]. split; [apply H2|]. right. left.
    injection Eb as <- <- <-. split; [done|]. split; [done|]. split; [|done]. unfold block_text.
    destruct (get "delta" v) as [dv|]; [|done]. cbn [option_bind mbind]. destruct (get_str "type" dv) as [t|]; [|rewrite decide_False by done; cbn [unwrap_or]; change (str_eqb "" "thinking_delta") with false; by destruct (get_str "text" dv)].
    cbn [unwrap_or]. destruct (str_eqb t "thinking_delta") eqn:Et.
    + apply str_eqb_spec in Et as ->. rewrite decide_True by done. by destruct (get_str "thinking" dv).
    + rewrite decide_False by (intros [= ->]; by rewrite str_eqb_refl in Et). by destruct (get_str "text" dv).
  - apply event_type_is in E3; [|done].
    assert (relay_wf start index (AnthropicRelay.message_delta d v)) as H3 by (destruct Hw; split; [done|done|done|done|by apply tokens_wf|done]).
    destruct (relay_fields _ _ _ H3) as [? ?]. split; [exact H3|]. repeat constructor. eexists v, _. split; [done|]. split; [|by apply emit_reads].
    eexists _, _, _, _, _, _. split; [unfold read_chunk; by rewrite (rl_created _ _ _ H3)|]. split; [apply H3|]. right. right. by left.
  - apply event_type_is in E4; [|done]. destruct (relay_fields _ _ _ Hw) as [? ?].
    split; [destruct Hw; by split|]. repeat constructor. eexists v, _. split; [done|]. split; [|apply final_reads; [done|done|done|apply Hw|apply Hw]].
    eexists _, _, _, _, _, _. split; [unfold read_chunk; by rewrite (rl_created _ _ _ Hw)|]. split; [apply Hw|]. right. right. right. eauto.
Qed.

(** *** Gemini *)

(** A chunk of the stream: of the declared type, made at the start, with one choice. *)
Definition stream_chunk `{SJ : SerdeJson} (start : Z) (s : string) : Prop :=
  exists id mdl delta finish u, reads_as s (mkChunk id default_chunk_object start mdl [mkChunkChoice 0 delta finish] u).

Lemma stream_emit `{SJ : SerdeJson} start d text finish reasoning : relay_wf start (eq 0) d -> stream_chunk start (emit_chunk d text finish reasoning).
Proof.
  intros Hw. destruct (relay_fields _ _ _ Hw) as [Hc Hi]. pose proof (emit_reads d text finish reasoning Hc Hi) as H. unfold read_chunk in H.
  rewrite <- (rl_index _ _ _ Hw), (rl_created _ _ _ Hw) in H. by eexists _, _, _, _, _.
Qed.
Lemma stream_final `{SJ : SerdeJson} start d p c t : relay_wf start (eq 0) d -> u32 p -> u32 c -> u32 t -> stream_chunk start (final_chunk d p c t).
Proof.
  intros Hw Hp Hc Ht. destruct (relay_fields _ _ _ Hw) as [Hd Hi]. pose proof (final_reads d p c t Hd Hi Hp Hc Ht) as H. unfold read_chunk in H.
  rewrite <- (rl_index _ _ _ Hw), (rl_created _ _ _ Hw) in H. by eexists _, _, _, _, _.
Qed.

Lemma candidate_wf `{SJ : SerdeJson} start d q c : relay_wf start (eq 0) d ->
  relay_wf start (eq 0) (GeminiRelay.process_candidate d q c).1 /\ Forall (stream_chunk start) (GeminiRelay.process_candidate d q c).2.
Proof.
  intros Hw. unfold GeminiRelay.process_candidate. destruct (_ ≫= as_array) as [parts|]; [|done]. destruct (GeminiRelay.parts_text parts) as [text th]. cbv zeta.
  set (d1 := mkRelay _ _ _ _ _ _ (or_else _ _) _). assert (relay_wf start (eq 0) d1) as H1 by (destruct Hw; by split).
  assert (relay_wf start (eq 0) (AnthropicRelay.set_done d1)) as H2 by (destruct Hw; by split).
  pose proof (fun t f r => stream_emit start d1 t f r H1) as He.
  assert (stream_chunk start (final_chunk d1 (relay_prompt_tokens d1) (streamed_tokens d1) (wadd 32 (relay_prompt_tokens d1) (streamed_tokens d1)))) as Hf
    by (apply stream_final; [done|apply H1|apply H1|apply u32_wrap]).
  destruct (relay_finish d1); (split; [done|]); repeat (apply Forall_app; split); repeat case_match; by repeat constructor.
Qed.
Lemma candidates_wf `{SJ : SerdeJson} start cs : forall d q, relay_wf start (eq 0) d ->
  relay_wf start (eq 0) (GeminiRelay.process_candidates d q cs).1 /\ Forall (stream_chunk start) (GeminiRelay.process_candidates d q cs).2.
Proof.
  induction cs as [|c cs IH]; intros d q Hw; [done|]. cbn [GeminiRelay.process_candidates]. destruct (candidate_wf start d q c Hw) as [Hw1 Hf1].
  destruct (GeminiRelay.process_candidate d q c) as [d1 out]. cbn in Hw1, Hf1. specialize (IH d1 (q && match out with [] => true | _ => false end) Hw1).
  destruct (GeminiRelay.process_candidates d1 _ cs) as [d2 out2]. cbn in *. destruct IH. split; [done|by apply Forall_app].
Qed.
Lemma gemini_line_wf `{SJ : SerdeJson} start d q line : relay_wf start (eq 0) d ->
  relay_wf start (eq 0) (GeminiRelay.process_line d q line).1 /\ Forall (stream_chunk start) (GeminiRelay.process_line d q line).2.
Proof.
  intros Hw. unfold GeminiRelay.process_line. destruct (from_str line) as [v|]; [|done].
  assert (relay_wf start (eq 0) (GeminiRelay.update_usage d v)) as H1
    by (unfold GeminiRelay.update_usage; destruct (get _ v); [|done]; destruct Hw; split; [done|done|done|done|by apply tokens_wf|by apply tokens_wf]).
  destruct (_ ≫= as_array); [by apply candidates_wf|done].
Qed.

(** Claim C36: what the native relays stream are chunks of the declared type.  For any
    upstream, polling comes to an end, and every item is an error of the upstream, an
    end marker, or the event of a JSON value that a client decodes to a
    [ChatCompletionChunk] made at the start of the stream, with one choice.  When the
    upstream is Anthropic, and the block index of each of its events fits the 32 bits of
    the field, the chunk is what one of those events says: the role at the start of the
    message, the text or the thoughts of a block, under the index of the block, the
    reason it stopped, or at the end the usage; its index is always 0 or that of an
    event.  (A text that is exactly [assistant] is read as the role.)  When it is
    Gemini, the index is 0. *)
Theorem relayed_chunks_read `{SJ : SerdeJson} id start upstream mdl : u64 start ->
  (Forall (fun v => u32 (block_index v)) (events upstream) ->
   exists fuel items, AnthropicRelay.relay_anthropic_stream fuel id start upstream mdl = Some items
   /\ Forall (fun i => match i with
                       | Err e => Err e ∈ upstream
                       | Ok s => s = DONE \/ exists v ck, v ∈ events upstream /\ reads_as s ck
                                 /\ told start (fun n => n = 0 \/ n ∈ block_index <$> events upstream) v ck
                       end) items)
  /\ (exists fuel items, GeminiRelay.relay_gemini_stream fuel id start upstream mdl = Some items
   /\ Forall (fun i => match i with Err e => Err e ∈ upstream | Ok s => s = DONE \/ stream_chunk start s end) items).
Proof.
  intros Hs. assert (forall index : Z -> Prop, index 0 -> relay_wf start index (relay_new id mdl start)) as Hn by (intros; by split). split.
  - intros Hfit. destruct (relay_reference AnthropicRelay.process_line upstream (relay_new id mdl start) "") as [fuel Hf]. eexists fuel, _. split; [exact Hf|].
    set (index := fun n => n = 0 \/ n ∈ block_index <$> events upstream). rewrite Forall_forall in Hfit.
    eapply Forall_impl; [eapply (relayed_items _ (fun l => forall v, line_event l = Some v -> v ∈ events upstream) (relay_wf start index))|].
    + intros d q line Hl Hd. apply (anthropic_line_wf start (fun v => v ∈ events upstream)); [|exact Hl|exact Hd].
      intros v Hv. split; [by apply Hfit|]. right. by apply list_elem_of_fmap_2.
    + apply Forall_forall. intros l Hl v Hv. apply list_elem_of_omap. eauto.
    + apply Hn. by left.
    + intros [s|e]; [|done]. intros [->|(v & ck & Hv & Ht & Hr)]; [by left|right; eauto].
  - destruct (relay_reference GeminiRelay.process_line upstream (relay_new id mdl start) "") as [fuel Hf]. eexists fuel, _. split; [exact Hf|].
    eapply (relayed_items _ (fun _ => True) (relay_wf start (eq 0))); [intros d q line _; apply gemini_line_wf|by apply Forall_true|by apply Hn].
Qed.

(** A line of an event stream that holds data, or none. *)
Definition data_line (l : string) : Prop :=
  let t := trim (if utf8_valid l then l else "") in t = "" \/ starts_with t "data:" = true.

Section SseLost.
Context `{SJ : SerdeJson}.
Hypothesis data_not_json : forall s, starts_with s "data:" = true -> from_str s = None.

Lemma data_lines_skipped d ls : Forall data_line ls -> foldl (relay_line GeminiRelay.process_line) (d, []) ls = (d, []).
Proof.
  induction 1 as [|l ls Hx _ IH]; [done|]. cbn [foldl]. unfold relay_line at 2. destruct Hx as [->|Hx]; [done|].
  destruct (str_is_empty _); [done|]. cbn [fst snd]. unfold GeminiRelay.process_line at 2. by rewrite (data_not_json _ Hx).
Qed.
Lemma sse_stream_skipped d bs : done d = false -> forall buf, drain_lines buf = ([], buf) ->
  Forall data_line (drain_lines (buf +:+ str_concat bs)).1 -> relay_out GeminiRelay.process_line d buf (Ok <$> bs) = [Ok DONE; Ok DONE].
Proof.
  intros Hd. induction bs as [|b bs IH]; intros buf Hb Hl; cbn [relay_out fmap list_fmap]; rewrite Hd; [done|].
  change (str_concat (b :: bs)) with (b +:+ str_concat bs) in Hl. rewrite app_assoc_str, (drain_lines_app (buf +:+ b)) in Hl.
  pose proof (drain_lines_rest (buf +:+ b)) as Hr. destruct (drain_lines (buf +:+ b)) as [ls rest].
  destruct (drain_lines (rest +:+ str_concat bs)) as [ls2 rest2] eqn:E2. cbn [fst snd] in Hl, Hr.
  apply Forall_app in Hl as [Hl1 Hl2]. rewrite (data_lines_skipped d ls Hl1). apply IH; [done|]. by rewrite E2.
Qed.

(** Events that begin with their field name are not JSON; the Gemini relay reads
    nothing of a stream of them. *)
Theorem gemini_sse_lost id start mdl bs : Forall data_line (drain_lines (str_concat bs)).1 ->
  exists fuel, GeminiRelay.relay_gemini_stream fuel id start (Ok <$> bs) mdl = Some [Ok DONE; Ok DONE].
Proof.
  intros Hl. destruct (relay_reference GeminiRelay.process_line (Ok <$> bs) (relay_new id mdl start) "") as [fuel Hf]. exists fuel.
  unfold GeminiRelay.relay_gemini_stream. rewrite Hf. f_equal. by apply sse_stream_skipped.
Qed.
End SseLost.
End Relays.

(* ------------------------------------------------------------------ *)
(** ** Examples *)

(** Texts of errors. *)
Definition demo_errors : JsonErrors := {|
  je_type v what := "invalid type, expected " +:+ what;
  je_missing v k := "missing field `" +:+ k +:+ "`";
  je_duplicate v k := "duplicate field `" +:+ k +:+ "`";
  je_variant v s names := "unknown variant `" +:+ s +:+ "`";
  je_range v z := "invalid value"
|}.

Module WireDemo.
#[export] Existing Instances demo_errors exact_f64.
(** A reader that knows one event. *)
Definition event : Value :=
  obj [("type", Str "content_block_delta"); ("index", json_int 1); ("delta", obj [("type", Str "text_delta"); ("text", Str "Hi")])].
#[export] Instance serde : SerdeJson := {| from_str s := if str_eqb s "EVENT" then Some event else None; to_string v := "json" |}.
#[export] Instance status_text : StatusDisplay := {| status_display := string_of_Z |}.

(** A body with a field the gateway does not know, twice, and an unknown field in a
    message. *)
Definition body : Value :=
  Object [("seed", json_int 1); ("model", Str "gpt");
          ("messages", Array [Object [("role", Str "user"); ("cache_control", Str "ephemeral"); ("content", Str "hello")]]);
          ("temperature", json_f64 (1 # 2)); ("seed", json_int 2)].
Definition hello : Message := mkMessage "user" (Str "hello") None None None.
Definition parsed : ChatCompletionRequest :=
  mkRequest "gpt" [hello] None None (Some (1 # 2)) None None None None None None None None (Object [("seed", json_int 2)]).
(** A route with default parameters. *)
Definition param_route (params : Map) : RouteEntry := mkRouteEntry "p" (mkPool []) (Some (Object params)) (Some "gpt-upstream").

Definition raw_answer : Value :=
  obj [("id", Str "r1"); ("choices", Array [obj [("message", obj [("content", Str "<think>a</think>b")])]]);
       ("usage", obj [("prompt_tokens", json_int 3)])].
Definition net : Network :=
  mkNetwork (fun _ => Ok (mkAnswer 200 None "" (Ok raw_answer) [])) (fun _ => Err "down") (fun _ => Err "down") (fun _ => Err "down")
    (fun _ => Err "down") 7 "u" "h".
End WireDemo.

Section WireExamples.
Import WireDemo.

(** The last of two entries counts; what a message has beyond its fields is lost. *)
Example body_parsed : de_chat_request body = Ok parsed.
Proof. vm_compute. reflexivity. Qed.
Example message_field_lost : encode_message hello = Object [("role", Str "user"); ("content", Str "hello")].
Proof. reflexivity. Qed.

(** A default temperature comes next to the client's, and the body is refused. *)
Example default_sent_twice :
  option_map de_chat_request (encode_request (sent_request (param_route [("temperature", json_f64 0)]) parsed)) = Some (Err "duplicate field `temperature`").
Proof. vm_compute. reflexivity. Qed.

Lemma upstream_reads_request_witness : exists out, encode_request (sent_request (param_route [("seed", json_int 9); ("top_k", json_int 5)]) parsed) = Some (Object out)
  /\ entry "seed" out = Some (json_int 2) /\ entry "top_k" out = Some (json_int 5)
  /\ de_chat_request (Object out) = Ok (sent_request (param_route [("seed", json_int 9); ("top_k", json_int 5)]) parsed).
Proof.
  destruct (upstream_reads_request body parsed [] parsed (param_route [("seed", json_int 9); ("top_k", json_int 5)])) as (out & He & _ & _ & Hk & Hd & _).
  - vm_compute. reflexivity.
  - reflexivity.
  - repeat constructor.
  - exists out. split; [exact He|]. split; [|split].
    + rewrite (Hk "seed"); [vm_compute; reflexivity|vm_compute; reflexivity|done].
    + rewrite (Hk "top_k"); [vm_compute; reflexivity|vm_compute; reflexivity|done].
    + apply Hd. repeat constructor.
Defined.

Lemma client_reads_answer_witness : exists r, dyn_chat (provider_of OpenAi "up" "https://up" [401]) net parsed ProviderDemo.k = Ok (Once r)
  /\ de_chat_response (encode_response (normalize_chat_response r)) = Ok (set_raw_usage (normalize_chat_response r) None).
Proof.
  eexists. split; [vm_compute; reflexivity|].
  apply (client_reads_answer OpenAi "up" "https://up" [401] net parsed ProviderDemo.k _ true); [by split|vm_compute; reflexivity].
Defined.

(** The text of the second block is sent in choice 1. *)
Example block_is_choice : (AnthropicRelay.process_line (relay_new "m" "claude" 7) true "data: EVENT").1
  = mkRelay "m" "claude" 7 1 0 0 None false.
Proof. vm_compute. reflexivity. Qed.

Lemma relayed_chunks_read_witness : let upstream := [Ok ("data: EVENT" +:+ lf); Err (Internal "cut")] in
  events upstream = [event] /\ block_index event = 1 /\ block_text event = mkDelta None (Some "Hi") None None None None None /\
  exists fuel items, AnthropicRelay.relay_anthropic_stream fuel "m" 7 upstream "claude" = Some items
  /\ Forall (fun i => match i with
                      | Err e => Err e ∈ upstream
                      | Ok s => s = DONE \/ exists v ck, v ∈ events upstream /\ reads_as s ck
                                /\ told 7 (fun n => n = 0 \/ n ∈ block_index <$> events upstream) v ck
                      end) items.
Proof.
  intros upstream. assert (events upstream = [event]) as He by (vm_compute; reflexivity). split; [exact He|]. split; [vm_compute; reflexivity|].
  split; [vm_compute; reflexivity|].
  apply (proj1 (relayed_chunks_read "m" 7 upstream "claude" ltac:(unfold u64; lia))). rewrite He. repeat constructor; vm_compute; congruence.
Defined.

(** A stream of events, of which nothing arrives. *)
Example gemini_sse_lost_witness : exists fuel, GeminiRelay.relay_gemini_stream fuel "m" 7 (Ok <$> ["data: {}" +:+ lf +:+ lf]) "gemini" = Some [Ok DONE; Ok DONE].
Proof.
  apply gemini_sse_lost.
  - intros s Hs. cbn. destruct (str_eqb s "EVENT") eqn:E; [|done]. apply str_eqb_spec in E as ->. vm_compute in Hs. done.
  - replace (drain_lines (str_concat ["data: {}" +:+ lf +:+ lf])).1 with ["data: {}"; ""] by (vm_compute; reflexivity).
    constructor; [right; vm_compute; reflexivity|]. constructor; [left; vm_compute; reflexivity|constructor].
Qed.
End WireExamples.
