(* ===== verification/LogDb.v ===== *)
(** * The request log and its hourly totals

    Models [src/src/db/mod.rs] ([RequestLog] as the row [log_request] writes),
    [src/src/aggregator/mod.rs] (the upsert into [audit_hourly]) and
    [src/src/db_maintenance.rs] (retention, the search index), on the tables of
    the migrations 0001, 0002, 0004, 0005, 0006, 0010, 0011 and 0017.

    [SUM] over integers adds at 64 bits and the statement fails when it
    overflows; [GROUP BY] gives one group per key; without [ORDER BY] the rows
    come in any order ([scan]).  The theorems show what the aggregation leaves in
    the table, that running it again changes nothing, and that over a range of
    hours the table's totals are the log's. *)

From stdpp Require Import sorting.
From S2P Require Import Prelude Json Types Config Pricing Db ConfigStore Handler.

(** ** Integers of SQL and Rust *)

Definition fits_i64 (z : Z) : bool := (- 2 ^ 63 <=? z) && (z <? 2 ^ 63).

Definition zsum (l : list Z) : Z := foldr Z.add 0 l.
Definition zsum_of {A} (f : A -> Z) (l : list A) : Z := zsum (f <$> l).

(** [iter.sum::<i64>()] *)
Definition sum_i64 {A} (f : A -> Z) (l : list A) : Z := foldl (fun a x => i64 (a + f x)) 0 l.

Definition integer_overflow : DbError := Driver "integer overflow".

(** [SUM(..)] over non-null integers. *)
Fixpoint sum_loop (acc : Z) (l : list Z) : Result Z DbError :=
  match l with
  | [] => Ok acc
  | z :: l' => if fits_i64 (acc + z) then sum_loop (acc + z) l' else Err integer_overflow
  end.
Definition sql_sum (l : list Z) : Result Z DbError := sum_loop 0 l.

(** [SUM(..)] over reals: SQLite's summation algorithm is its own. *)
Class SumReal := { sum_real : list Q -> Q }.

(** [GROUP BY key] *)
Definition group_by {K A} `{EqDecision K} (key : A -> K) (l : list A) : list (K * list A) :=
  (fun k => (k, List.filter (fun x => bool_decide (key x = k)) l)) <$> remove_dups (key <$> l).

(** [?n IS NULL OR column = ?n] *)
Definition matches {A} `{EqDecision A} (wanted : option A) (v : A) : bool :=
  match wanted with None => true | Some w => bool_decide (v = w) end.
(** The same on a nullable column: a comparison with NULL is not true. *)
Definition matches_opt {A} `{EqDecision A} (wanted : option A) (v : option A) : bool :=
  match wanted with None => true | Some w => bool_decide (v = Some w) end.

(** ** Tables *)

Record LogRow := mkLogRow {
  lr_id : string; lr_ts : Z; lr_client_ip : option string; lr_model : string; lr_pool_id : string;
  lr_key_hash : string; lr_upstream : option string; lr_status_code : option Z; lr_latency_ms : option Z;
  lr_prompt_tokens : option Z; lr_completion_tokens : option Z; lr_total_tokens : option Z;
  lr_is_stream : Z; lr_error : option string; lr_cached_tokens : option Z; lr_cache_creation_tokens : option Z;
  lr_cache_source : option string; lr_reasoning_tokens : option Z; lr_audio_tokens : option Z;
  lr_ttft_ms : option Z; lr_upstream_model : option string; lr_system_fingerprint : option string;
  lr_finish_reason : option string; lr_error_code : option string; lr_retry_count : option Z;
  lr_tenant_id : option string; lr_user_agent : option string; lr_cost_usd : option Q
}.

(** The dimensions of [audit_hourly] beside the hour; with it they are unique. *)
Record Dims := mkDims {
  d_model : string; d_pool_id : string; d_key_hash : string; d_cache_source : string; d_error_code : string;
  d_finish_reason : string; d_upstream_model : string; d_tenant_id : string
}.
#[global] Instance Dims_eq : EqDecision Dims.
Proof. solve_decision. Defined.

Record AuditRow := mkAuditRow {
  ar_hour : Z; ar_dims : Dims;
  ar_request_count : Z; ar_success_count : Z; ar_retry_total : Z; ar_prompt_tokens : Z;
  ar_completion_tokens : Z; ar_total_tokens : Z; ar_cached_tokens : Z; ar_reasoning_tokens : Z;
  ar_audio_tokens : Z; ar_cost_usd : Q; ar_latency_ms_sum : Z; ar_ttft_ms_sum : Z; ar_stream_count : Z
}.

Record UiEventRow := mkUiEvent { ue_id : Z; ue_name : string; ue_created_at : Z }.

Record AlertEventRow := mkAlertEvent {
  ae_id : Z; ae_ts_secs : Z; ae_type : string; ae_pool_id : option string; ae_tenant_id : option string;
  ae_key_hash : option string; ae_model : option string; ae_error_code : option string;
  ae_status : option Z; ae_msg : option string; ae_payload : option string
}.

Record LogDb := mkLogDb {
  request_log : list LogRow;
  audit_hourly : list AuditRow;
  alert_event : list AlertEventRow;
  ui_event_log : list UiEventRow;
  data_retention_policy : list (string * Z);
  request_log_fts : list (string * string);
  fts_watermark : option Z               (* the row with id = 1 *)
}.

Definition set_request_log (d : LogDb) x : LogDb :=
  mkLogDb x (audit_hourly d) (alert_event d) (ui_event_log d) (data_retention_policy d) (request_log_fts d) (fts_watermark d).
Definition set_audit_hourly (d : LogDb) x : LogDb :=
  mkLogDb (request_log d) x (alert_event d) (ui_event_log d) (data_retention_policy d) (request_log_fts d) (fts_watermark d).
Definition set_ui_event_log (d : LogDb) x : LogDb :=
  mkLogDb (request_log d) (audit_hourly d) (alert_event d) x (data_retention_policy d) (request_log_fts d) (fts_watermark d).
Definition set_fts (d : LogDb) x : LogDb :=
  mkLogDb (request_log d) (audit_hourly d) (alert_event d) (ui_event_log d) (data_retention_policy d) x (fts_watermark d).
Definition set_watermark (d : LogDb) x : LogDb :=
  mkLogDb (request_log d) (audit_hourly d) (alert_event d) (ui_event_log d) (data_retention_policy d) (request_log_fts d) x.

(** ** Statements *)

(** A statement fails of itself ([Err]) or because the driver does: the head of
    the list of faults is what the next statement meets. *)
Record LogWorld := mkLogWorld { lw_faults : list (option string); lw_db : LogDb }.

Definition LM (A : Type) : Type := LogWorld -> LogWorld * Result A AppError.

#[global] Instance LM_ret : MRet LM := fun A a w => (w, Ok a).
#[global] Instance LM_bind : MBind LM := fun A B k m w =>
  match m w with (w', Ok a) => k a w' | (w', Err e) => (w', Err e) end.

Definition exec {A} (on_err : DbError -> AppError) (q : LogDb -> Result (LogDb * A) DbError) : LM A := fun w =>
  let go fs := match q (lw_db w) with
               | Ok (d, a) => (mkLogWorld fs d, Ok a)
               | Err e => (mkLogWorld fs (lw_db w), Err (on_err e))
               end in
  match lw_faults w with
  | [] => go []
  | None :: fs => go fs
  | Some msg :: fs => (mkLogWorld fs (lw_db w), Err (on_err (Driver msg)))
  end.

(** A [SELECT]. *)
Definition fetch {A} (on_err : DbError -> AppError) (q : LogDb -> Result A DbError) : LM A :=
  exec on_err (fun d => let? a := q d in Ok (d, a)).

(** [match stmt.await { Ok(a) => Some(a), Err(e) => { tracing::..; None } }] *)
Definition attempted {A} (m : LM A) : LM (option A) := fun w =>
  match m w with (w', Ok a) => (w', Ok (Some a)) | (w', Err _) => (w', Ok None) end.

Lemma LM_bind_Ok {A B} (m : LM A) (k : A -> LM B) w w' a : m w = (w', Ok a) -> (m ≫= k) w = k a w'.
Proof. unfold mbind, LM_bind. by intros ->. Qed.

Fixpoint each {A} (f : A -> LM unit) (l : list A) : LM unit :=
  match l with [] => mret tt | x :: l' => f x ≫= fun _ => each f l' end.

Section Log.
Context `{SX : Sqlx} `{SR : SumReal}.

(** ** Writing the log *)

Definition cache_source_of (k : ProviderCacheKind) : option string :=
  match k with CacheNone => None | other => Some (cache_kind_to_string other) end.

(** The bound parameters, column by column. *)
Definition row_of_log (l : RequestLog) : LogRow :=
  let a := log_audit l in
  let p := from_provider a in
  mkLogRow (log_id l) (log_ts l) (log_client_ip l) (log_model l) (log_pool_id l) (log_key_hash l)
    (log_upstream l) (log_status_code l) (log_latency_ms l) (log_prompt_tokens l) (log_completion_tokens l)
    (log_total_tokens l) (if log_is_stream l then 1 else 0) (log_error l)
    (hit_tokens (cache p)) (creation_tokens (cache p)) (cache_source_of (source (cache p)))
    (reasoning_tokens p) (audio_tokens p) (ttft_ms (from_router a)) (Types.upstream_model p) (system_fingerprint p)
    (audit_finish_reason p) (log_error_code l) (Some (retry_count (from_router a)))
    (Some (audit_tenant_id (from_auth a))) (log_user_agent l) (log_cost_usd l).

Definition insert_log_row (r : LogRow) (d : LogDb) : Result (LogDb * unit) DbError :=
  if existsb (fun q => str_eqb (lr_id q) (lr_id r)) (request_log d) then Err UniqueViolation
  else Ok (set_request_log d (request_log d ++ [r]), tt).

Definition log_request (l : RequestLog) : LM unit :=
  exec (internal "Failed to log request") (insert_log_row (row_of_log l)).

(** ** Aggregation *)

Definition coalesce {A} (o : option A) (d : A) : A := unwrap_or o d.

Definition dims_of (r : LogRow) : Dims :=
  mkDims (lr_model r) (lr_pool_id r) (lr_key_hash r) (coalesce (lr_cache_source r) "")
    (coalesce (lr_error_code r) "") (coalesce (lr_finish_reason r) "") (coalesce (lr_upstream_model r) "")
    (coalesce (lr_tenant_id r) "default").

Definition is_2xx (s : option Z) : bool :=
  match s with Some c => (200 <=? c) && (c <? 300) | None => false end.

(** The summed integer columns. *)
Inductive Column : Type :=
| RequestCount | SuccessCount | RetryTotal | PromptTokens | CompletionTokens | TotalTokens | CachedTokens
| ReasoningTokens | AudioTokens | LatencyMsSum | TtftMsSum | StreamCount.

Definition log_value (c : Column) (r : LogRow) : Z :=
  match c with
  | RequestCount => 1
  | SuccessCount => if is_2xx (lr_status_code r) then 1 else 0
  | RetryTotal => coalesce (lr_retry_count r) 0
  | PromptTokens => coalesce (lr_prompt_tokens r) 0
  | CompletionTokens => coalesce (lr_completion_tokens r) 0
  | TotalTokens => coalesce (lr_total_tokens r) 0
  | CachedTokens => coalesce (lr_cached_tokens r) 0
  | ReasoningTokens => coalesce (lr_reasoning_tokens r) 0
  | AudioTokens => coalesce (lr_audio_tokens r) 0
  | LatencyMsSum => coalesce (lr_latency_ms r) 0
  | TtftMsSum => coalesce (lr_ttft_ms r) 0
  | StreamCount => if lr_is_stream r =? 0 then 0 else 1
  end.

Definition audit_value (c : Column) (r : AuditRow) : Z :=
  match c with
  | RequestCount => ar_request_count r
  | SuccessCount => ar_success_count r
  | RetryTotal => ar_retry_total r
  | PromptTokens => ar_prompt_tokens r
  | CompletionTokens => ar_completion_tokens r
  | TotalTokens => ar_total_tokens r
  | CachedTokens => ar_cached_tokens r
  | ReasoningTokens => ar_reasoning_tokens r
  | AudioTokens => ar_audio_tokens r
  | LatencyMsSum => ar_latency_ms_sum r
  | TtftMsSum => ar_ttft_ms_sum r
  | StreamCount => ar_stream_count r
  end.

(** One group of the [SELECT]. *)
Definition audit_row (hour : Z) (kg : Dims * list LogRow) : Result AuditRow DbError :=
  let '(k, g) := kg in
  let sum c := sql_sum (log_value c <$> g) in
  let? success := sum SuccessCount in
  let? retries := sum RetryTotal in
  let? prompt := sum PromptTokens in
  let? completion := sum CompletionTokens in
  let? total := sum TotalTokens in
  let? cached := sum CachedTokens in
  let? reasoning := sum ReasoningTokens in
  let? audio := sum AudioTokens in
  let? latency := sum LatencyMsSum in
  let? ttft := sum TtftMsSum in
  let? streams := sum StreamCount in
  Ok (mkAuditRow hour k (Z.of_nat (length g)) success retries prompt completion total cached reasoning audio
        (sum_real ((fun r => coalesce (lr_cost_usd r) 0%Q) <$> g)) latency ttft streams).

(** [INSERT .. ON CONFLICT(hour, dimensions) DO UPDATE]: every counter is replaced. *)
Definition same_bucket (a b : AuditRow) : bool := bool_decide (ar_hour a = ar_hour b /\ ar_dims a = ar_dims b).
Definition upsert_audit (tbl : list AuditRow) (r : AuditRow) : list AuditRow :=
  if existsb (same_bucket r) tbl then (fun q => if same_bucket r q then r else q) <$> tbl else tbl ++ [r].

Definition in_hour (hour : Z) (r : LogRow) : bool := (hour * 1000 <=? lr_ts r) && (lr_ts r <? (hour + 3600) * 1000).

Definition aggregate_hour (hour : Z) (d : LogDb) : Result (LogDb * unit) DbError :=
  let rows := List.filter (in_hour hour) (request_log d) in
  let? new := collect (audit_row hour) (scan (group_by dims_of rows)) in
  Ok (set_audit_hourly d (foldl upsert_audit (audit_hourly d) new), tt).

(** The hour that ended last. [now] is the clock in seconds. *)
Definition last_hour (now : Z) : Z := (Z.quot now 3600 - 1) * 3600.

Definition aggregate_last_hour (now : Z) : LM unit :=
  exec (internal "aggregation failed") (aggregate_hour (last_hour now)).

(** The task: a failure is logged, the next tick comes an hour later. *)
Definition aggregator_tick (now : Z) : LM unit :=
  attempted (aggregate_last_hour now) ≫= fun _ => mret tt.
Definition spawn_aggregator (ticks : list Z) : LM unit := each aggregator_tick ticks.

(** ** Retention *)

Definition no_such_column : DbError := Driver "no such column".

(** [DELETE FROM {table} WHERE {column} < ?1], on the columns the migrations declare. *)
Definition delete_older (table column : string) (cutoff : Z) (d : LogDb) : Result (LogDb * unit) DbError :=
  if str_eqb table "request_log" && str_eqb column "ts" then
    Ok (set_request_log d (List.filter (fun r => negb (lr_ts r <? cutoff)) (request_log d)), tt)
  else if str_eqb table "audit_hourly" && str_eqb column "hour" then
    Ok (set_audit_hourly d (List.filter (fun r => negb (ar_hour r <? cutoff)) (audit_hourly d)), tt)
  else if str_eqb table "ui_event_log" && str_eqb column "created_at" then
    Ok (set_ui_event_log d (List.filter (fun r => negb (ue_created_at r <? cutoff)) (ui_event_log d)), tt)
  else Err no_such_column.

Definition ts_column (table_name : string) : option (string * bool) :=
  if str_eqb table_name "request_log" then Some ("ts", true)
  else if str_eqb table_name "audit_hourly" then Some ("hour_ts", true)
  else if str_eqb table_name "ui_event_log" then Some ("created_at", true)
  else if str_eqb table_name "alert_event" then Some ("created_at", true)
  else None.

Definition purge_table (now_ms : Z) (policy : string * Z) : LM unit :=
  let '(table_name, retention_days) := policy in
  match ts_column table_name with
  | None => mret tt
  | Some (column, is_ms) =>
      let cutoff := if is_ms : bool then i64 (now_ms - i64 (retention_days * 86400000))
                    else i64 (Z.quot now_ms 1000 - i64 (retention_days * 86400)) in
      attempted (exec (internal "Failed to purge expired rows") (delete_older table_name column cutoff)) ≫= fun _ => mret tt
  end.

Definition purge_expired (now_ms : Z) : LM unit :=
  policies ← attempted (fetch (internal "Failed to read retention policies, skipping purge")
                               (fun d => Ok (scan (data_retention_policy d))));
  match policies with None => mret tt | Some policies => each (purge_table now_ms) policies end.

(** ** The search index *)

(** [INSERT OR REPLACE] into an FTS5 table: the table has no key but its rowid,
    so nothing is replaced. *)
Definition fts_insert (e : string * string) (d : LogDb) : Result (LogDb * unit) DbError :=
  Ok (set_fts d (request_log_fts d ++ [e]), tt).

Definition older_first (a b : LogRow) : Prop := lr_ts a <= lr_ts b.
#[global] Instance older_first_dec a b : Decision (older_first a b).
Proof. unfold older_first. apply _. Defined.

Definition fts_batch (watermark : Z) (d : LogDb) : list LogRow :=
  take 1000 (merge_sort older_first (scan (List.filter (fun r => watermark <? lr_ts r) (request_log d)))).

Definition fts_entry (r : LogRow) : string * string := (lr_id r, "model:" +:+ lr_model r).

Definition index_row (r : LogRow) : LM unit :=
  attempted (exec (internal "FTS index insert failed") (fts_insert (fts_entry r))) ≫= fun _ => mret tt.

Definition set_watermark_row (ts : Z) (d : LogDb) : Result (LogDb * unit) DbError :=
  Ok (set_watermark d (match fts_watermark d with Some _ => Some ts | None => None end), tt).

Definition rebuild_fts : LM unit :=
  found ← attempted (fetch (internal "FTS watermark") (fun d => Ok (fts_watermark d)));
  let watermark_ts := match found with Some (Some w) => w | _ => 0 end in
  rows ← attempted (fetch (internal "FTS rebuild: failed to read request_log") (fun d => Ok (fts_batch watermark_ts d)));
  match rows with
  | None | Some [] => mret tt
  | Some rows =>
      let max_processed_ts := match last rows with Some r => lr_ts r | None => watermark_ts end in
      _ ← each index_row rows;
      attempted (exec (internal "FTS watermark update failed") (set_watermark_row max_processed_ts)) ≫= fun _ => mret tt
  end.
End Log.

(* ------------------------------------------------------------------ *)
(** ** Sums *)

Lemma zsum_app a b : zsum (a ++ b) = zsum a + zsum b.
Proof. unfold zsum. induction a; simpl; lia. Qed.

#[global] Instance zsum_perm : Proper ((≡ₚ) ==> (=)) zsum.
Proof. intros a b. unfold zsum. induction 1; simpl; lia. Qed.
#[global] Instance zsum_of_perm {A} (f : A -> Z) : Proper ((≡ₚ) ==> (=)) (zsum_of f).
Proof. intros a b H. unfold zsum_of. by rewrite H. Qed.

Lemma zsum_of_nil {A} (f : A -> Z) : zsum_of f [] = 0.
Proof. done. Qed.
Lemma zsum_of_cons {A} (f : A -> Z) x l : zsum_of f (x :: l) = f x + zsum_of f l.
Proof. done. Qed.
Lemma zsum_of_app {A} (f : A -> Z) a b : zsum_of f (a ++ b) = zsum_of f a + zsum_of f b.
Proof. unfold zsum_of. by rewrite fmap_app, zsum_app. Qed.
Lemma zsum_of_add {A} (f g : A -> Z) l : zsum_of (fun x => f x + g x) l = zsum_of f l + zsum_of g l.
Proof. induction l; [done|]. rewrite !zsum_of_cons. lia. Qed.
Lemma zsum_of_ext {A} (f g : A -> Z) l : (forall x, x ∈ l -> f x = g x) -> zsum_of f l = zsum_of g l.
Proof.
  induction l as [|x l IH]; [done|]. intros H. rewrite !zsum_of_cons, IH; [|set_solver].
  by rewrite (H x); [|set_solver].
Qed.
Lemma zsum_of_zero {A} (f : A -> Z) l : (forall x, x ∈ l -> f x = 0) -> zsum_of f l = 0.
Proof. intros H. rewrite (zsum_of_ext f (fun _ => 0)); [|done]. clear H. by induction l. Qed.
Lemma zsum_of_fmap {A B} (f : B -> Z) (g : A -> B) l : zsum_of f (g <$> l) = zsum_of (fun x => f (g x)) l.
Proof. unfold zsum_of. by rewrite <- list_fmap_compose. Qed.
Lemma zsum_of_concat {A} (f : A -> Z) ls : zsum_of f (concat ls) = zsum_of (zsum_of f) ls.
Proof. induction ls as [|l ls IH]; [done|]. simpl. by rewrite zsum_of_app, zsum_of_cons, IH. Qed.
Lemma zsum_of_one {A} (l : list A) : zsum_of (fun _ => 1) l = Z.of_nat (length l).
Proof. induction l; [done|]. rewrite zsum_of_cons. simpl length. lia. Qed.
Lemma zsum_of_filter {A} (f : A -> Z) p l : zsum_of f (List.filter p l) = zsum_of (fun x => if p x : bool then f x else 0) l.
Proof. induction l as [|x l IH]; [done|]. simpl. rewrite zsum_of_cons, <- IH. by destruct (p x). Qed.
Lemma zsum_of_nonneg {A} (f : A -> Z) l : (forall x, x ∈ l -> 0 <= f x) -> 0 <= zsum_of f l.
Proof.
  induction l as [|x l IH]; [done|]. intros H. rewrite zsum_of_cons.
  assert (0 <= f x) by (apply H; set_solver). assert (0 <= zsum_of f l) by (apply IH; set_solver). lia.
Qed.

(** Wrapping sums are the wrapped sum. *)
Lemma sum_i64_spec {A} (f : A -> Z) l : sum_i64 f l = i64 (zsum_of f l).
Proof.
  unfold sum_i64. change 0 with (i64 0) at 1. rewrite <- (Z.add_0_l (zsum_of f l)). generalize 0 as a.
  induction l as [|x l IH]; intros a; [by rewrite zsum_of_nil, Z.add_0_r|].
  cbn [foldl]. rewrite i64_add_l, IH, zsum_of_cons. f_equal. lia.
Qed.

(** Non-negative numbers whose sum is an [i64]. *)
Definition fits {A} (f : A -> Z) (l : list A) : Prop := (forall x, x ∈ l -> 0 <= f x) /\ zsum_of f l < 2 ^ 63.

Lemma fits_filter {A} (f : A -> Z) p l : fits f l -> fits f (List.filter p l).
Proof.
  intros [H1 H2]. split; [intros x [Hx _]%elem_filter_bool; auto|]. eapply Z.le_lt_trans; [|exact H2].
  rewrite zsum_of_filter. clear H2. induction l as [|x l IH]; [done|]. rewrite !zsum_of_cons.
  assert (0 <= f x) by (apply H1; set_solver). assert (zsum_of (fun y => if p y then f y else 0) l <= zsum_of f l)
    by (apply IH; set_solver). destruct (p x); lia.
Qed.

Lemma sum_loop_fits {A} (f : A -> Z) l acc : 0 <= acc -> (forall x, x ∈ l -> 0 <= f x) -> acc + zsum_of f l < 2 ^ 63 ->
  sum_loop acc (f <$> l) = Ok (acc + zsum_of f l).
Proof.
  revert acc. induction l as [|x l IH]; intros acc Ha H Hs; [rewrite zsum_of_nil, Z.add_0_r; done|].
  rewrite zsum_of_cons in Hs. csimpl. assert (0 <= f x) by (apply H; set_solver).
  assert (0 <= zsum_of f l) by (apply zsum_of_nonneg; set_solver). unfold fits_i64.
  rewrite (proj2 (Z.leb_le _ _)), (proj2 (Z.ltb_lt _ _)) by lia. simpl. rewrite IH; [|lia|set_solver|lia].
  f_equal. rewrite zsum_of_cons. lia.
Qed.

Lemma sql_sum_fits {A} (f : A -> Z) l : fits f l -> sql_sum (f <$> l) = Ok (zsum_of f l).
Proof. intros [H1 H2]. unfold sql_sum. by rewrite sum_loop_fits. Qed.

Lemma sql_sum_Ok {A} (f : A -> Z) l z : sql_sum (f <$> l) = Ok z -> z = zsum_of f l.
Proof.
  unfold sql_sum. rewrite <- (Z.add_0_l (zsum_of f l)). generalize 0 as acc.
  induction l as [|x l IH]; intros acc; [intros [= <-]; rewrite zsum_of_nil; lia|].
  csimpl. destruct (fits_i64 _); [|done]. intros ->%IH. rewrite zsum_of_cons. lia.
Qed.

(** ** Groups *)

Lemma group_by_keys {K A} `{EqDecision K} (key : A -> K) l : (group_by key l).*1 = remove_dups (key <$> l).
Proof. unfold group_by. rewrite <- list_fmap_compose. apply list_fmap_id. Qed.

Lemma group_by_nodup {K A} `{EqDecision K} (key : A -> K) l : NoDup (group_by key l).*1.
Proof. rewrite group_by_keys. apply NoDup_remove_dups. Qed.

Lemma group_by_elem {K A} `{EqDecision K} (key : A -> K) l k g :
  (k, g) ∈ group_by key l <-> g = List.filter (fun x => bool_decide (key x = k)) l /\ k ∈ key <$> l.
Proof.
  unfold group_by. rewrite list_elem_of_fmap. setoid_rewrite elem_of_remove_dups. naive_solver.
Qed.

Lemma zsum_of_single {K} `{EqDecision K} (ks : list K) k v : NoDup ks -> k ∈ ks ->
  zsum_of (fun k' => if bool_decide (k = k') then v else 0) ks = v.
Proof.
  induction ks as [|k' ks IH]; [set_solver|]. intros [Hk' Hn]%NoDup_cons Hin. rewrite zsum_of_cons.
  destruct (decide (k = k')) as [->|Hne].
  - rewrite bool_decide_true by done. rewrite zsum_of_zero; [lia|]. intros x Hx. rewrite bool_decide_false; [done|]. by intros ->.
  - rewrite bool_decide_false by done. rewrite IH; [lia|done|set_solver].
Qed.

(** Summing per group and then over the groups is summing. *)
Lemma zsum_of_partition {K A} `{EqDecision K} (f : A -> Z) (key : A -> K) ks l :
  NoDup ks -> (forall x, x ∈ l -> key x ∈ ks) ->
  zsum_of (fun k => zsum_of f (List.filter (fun x => bool_decide (key x = k)) l)) ks = zsum_of f l.
Proof.
  intros Hn. induction l as [|x l IH]; intros Hc; [by apply zsum_of_zero|].
  rewrite zsum_of_cons, <- IH; [|set_solver]. rewrite <- (zsum_of_single ks (key x) (f x)) by (try done; set_solver).
  rewrite <- zsum_of_add. apply zsum_of_ext. intros k _. cbn [List.filter].
  destruct (bool_decide (key x = k)); [by rewrite zsum_of_cons|lia].
Qed.

Lemma group_by_sum {K A} `{EqDecision K} (f : A -> Z) (key : A -> K) l :
  zsum_of (fun kg => zsum_of f kg.2) (group_by key l) = zsum_of f l.
Proof.
  unfold group_by. rewrite zsum_of_fmap. cbn [snd]. apply zsum_of_partition; [apply NoDup_remove_dups|].
  intros x Hx. apply elem_of_remove_dups. by apply list_elem_of_fmap_2.
Qed.

(* ------------------------------------------------------------------ *)
(** ** What the aggregation leaves in the table *)

Section Aggregation.
Context `{SX : Sqlx} `{SR : SumReal}.

(** The row of a bucket, with exact sums. *)
Definition summary (hour : Z) (kg : Dims * list LogRow) : AuditRow :=
  let '(k, g) := kg in
  let sum c := zsum_of (log_value c) g in
  mkAuditRow hour k (sum RequestCount) (sum SuccessCount) (sum RetryTotal) (sum PromptTokens) (sum CompletionTokens)
    (sum TotalTokens) (sum CachedTokens) (sum ReasoningTokens) (sum AudioTokens)
    (sum_real ((fun r => coalesce (lr_cost_usd r) 0%Q) <$> g)) (sum LatencyMsSum) (sum TtftMsSum) (sum StreamCount).

Lemma summary_value c hour kg : audit_value c (summary hour kg) = zsum_of (log_value c) kg.2.
Proof. destruct kg as [k g]. by destruct c. Qed.

(** The counters of the log can be added up. *)
Definition log_fits (log : list LogRow) : Prop := forall c, fits (log_value c) log.

Lemma audit_row_fits hour k g : log_fits g -> audit_row hour (k, g) = Ok (summary hour (k, g)).
Proof.
  intros H. unfold audit_row. rewrite !sql_sum_fits by apply H. unfold summary.
  change (log_value RequestCount) with (fun _ : LogRow => 1). by rewrite zsum_of_one.
Qed.

(** The rows of the log that belong to a bucket. *)
Definition bucket (log : list LogRow) (hour : Z) (k : Dims) : list LogRow :=
  List.filter (fun r => bool_decide (dims_of r = k)) (List.filter (in_hour hour) log).

Definition ar_key (r : AuditRow) : Z * Dims := (ar_hour r, ar_dims r).
Definition unique_keys (tbl : list AuditRow) : Prop := NoDup (ar_key <$> tbl).
Definition row_at (tbl : list AuditRow) (k : Z * Dims) : option AuditRow :=
  List.find (fun q => bool_decide (ar_key q = k)) tbl.

Lemma row_at_Some tbl k r : unique_keys tbl -> row_at tbl k = Some r <-> r ∈ tbl /\ ar_key r = k.
Proof.
  unfold unique_keys, row_at. induction tbl as [|q tbl IH]; csimpl; [set_solver|]. intros [Hq Hn]%NoDup_cons.
  destruct (bool_decide (ar_key q = k)) eqn:E.
  - apply bool_decide_eq_true in E as <-. split; [intros [= <-]; set_solver|].
    intros [[->|Hr]%elem_of_cons He]; [done|]. destruct Hq. rewrite <- He. by apply list_elem_of_fmap_2.
  - apply bool_decide_eq_false in E. rewrite (IH Hn), elem_of_cons. naive_solver.
Qed.

Lemma row_at_None tbl k : row_at tbl k = None <-> k ∉ ar_key <$> tbl.
Proof.
  unfold row_at. induction tbl as [|q tbl IH]; csimpl; [set_solver|]. case_bool_decide; [set_solver|].
  rewrite IH. set_solver.
Qed.

Lemma same_bucket_spec a b : same_bucket a b = true <-> ar_key a = ar_key b.
Proof. unfold same_bucket, ar_key. rewrite bool_decide_eq_true. split; [intros [-> ->]|intros [=]]; auto. Qed.

Lemma existsb_key r tbl : existsb (same_bucket r) tbl = true <-> ar_key r ∈ ar_key <$> tbl.
Proof.
  rewrite existsb_exists, list_elem_of_fmap. setoid_rewrite same_bucket_spec. setoid_rewrite <- list_elem_of_In.
  split; intros (q & ? & ?); eauto.
Qed.

Lemma upsert_keys tbl r : ar_key <$> upsert_audit tbl r =
  if existsb (same_bucket r) tbl then ar_key <$> tbl else (ar_key <$> tbl) ++ [ar_key r].
Proof.
  unfold upsert_audit. destruct (existsb _ tbl); [|by rewrite fmap_app]. rewrite <- list_fmap_compose.
  apply list_fmap_ext. intros _ q _. unfold compose. destruct (same_bucket r q) eqn:E; [|done]. by apply same_bucket_spec in E.
Qed.

Lemma upsert_unique tbl r : unique_keys tbl -> unique_keys (upsert_audit tbl r).
Proof.
  unfold unique_keys. rewrite upsert_keys. destruct (existsb _ tbl) eqn:E; [done|].
  intros H. apply NoDup_snoc; [done|]. rewrite <- existsb_key, E. done.
Qed.

Lemma row_at_upsert tbl r k : unique_keys tbl ->
  row_at (upsert_audit tbl r) k = if bool_decide (ar_key r = k) then Some r else row_at tbl k.
Proof.
  intros Hu. pose proof (upsert_unique tbl r Hu) as Hu'. case_bool_decide as Hk.
  - apply row_at_Some; [done|]. split; [|done]. unfold upsert_audit. destruct (existsb _ tbl) eqn:E.
    + apply existsb_key, list_elem_of_fmap in E as (q & Hq & Hin). apply list_elem_of_fmap. exists q. split; [|done].
      by rewrite (proj2 (same_bucket_spec r q)).
    + set_solver.
  - destruct (row_at tbl k) as [q|] eqn:E.
    + apply row_at_Some in E as [Hin Hq]; [|done]. apply row_at_Some; [done|]. split; [|done]. unfold upsert_audit.
      destruct (existsb _ tbl); [|set_solver]. apply list_elem_of_fmap. exists q. split; [|done].
      destruct (same_bucket r q) eqn:E; [|done]. apply same_bucket_spec in E. congruence.
    + apply row_at_None. apply row_at_None in E. rewrite upsert_keys. destruct (existsb _ tbl); set_solver.
Qed.

Lemma upserts_unique tbl new : unique_keys tbl -> unique_keys (foldl upsert_audit tbl new).
Proof. revert tbl. induction new as [|r new IH]; intros tbl H; [done|]. apply IH. by apply upsert_unique. Qed.

Lemma row_at_upserts tbl new k : unique_keys tbl -> unique_keys new ->
  row_at (foldl upsert_audit tbl new) k = or_else (row_at new k) (row_at tbl k).
Proof.
  revert tbl. induction new as [|r new IH]; intros tbl Hu; [done|]. intros Hn. pose proof Hn as [Hr Hn']%NoDup_cons.
  cbn [foldl]. rewrite IH; [|by apply upsert_unique|done]. rewrite row_at_upsert by done.
  unfold row_at at 3. cbn [List.find]. case_bool_decide as Hk; [|done].
  replace (row_at new k) with (@None AuditRow); [done|]. symmetry. apply row_at_None. by rewrite <- Hk.
Qed.

(** A table that holds the rows already is left as it is. *)
Lemma upserts_same tbl new : unique_keys tbl -> (forall r, r ∈ new -> r ∈ tbl) -> foldl upsert_audit tbl new = tbl.
Proof.
  intros Hu. induction new as [|r new IH]; [done|]. intros Hin. cbn [foldl].
  replace (upsert_audit tbl r) with tbl; [apply IH; set_solver|]. assert (r ∈ tbl) as Hr by set_solver.
  unfold upsert_audit. rewrite (proj2 (existsb_key r tbl)) by by apply list_elem_of_fmap_2.
  symmetry. rewrite <- (list_fmap_id tbl) at 2. apply list_fmap_ext. intros _ q Hq%list_elem_of_lookup_2.
  destruct (same_bucket r q) eqn:E; [|done]. apply same_bucket_spec in E.
  unfold id. enough (Some r = Some q) by congruence. transitivity (row_at tbl (ar_key r)); [symmetry|]; by apply row_at_Some.
Qed.

(** The rows one run writes. *)
Definition hour_rows (hour : Z) (log : list LogRow) : list AuditRow :=
  summary hour <$> scan (group_by dims_of (List.filter (in_hour hour) log)).

Lemma collect_fits hour (gs : list (Dims * list LogRow)) : (forall k g, (k, g) ∈ gs -> log_fits g) ->
  collect (audit_row hour) gs = Ok (summary hour <$> gs).
Proof.
  induction gs as [|[k g] gs IH]; [done|]. intros H. cbn [collect]. rewrite audit_row_fits by (eapply H, list_elem_of_here).
  rewrite IH; [done|]. intros k' g' Hk. eapply H. by apply list_elem_of_further.
Qed.

Lemma aggregate_hour_fits hour d : log_fits (request_log d) ->
  aggregate_hour hour d = Ok (set_audit_hourly d (foldl upsert_audit (audit_hourly d) (hour_rows hour (request_log d))), tt).
Proof.
  intros H. unfold aggregate_hour. rewrite collect_fits; [done|]. intros k g Hg. rewrite scan_perm in Hg.
  apply group_by_elem in Hg as [-> _]. intros c. by do 2 apply fits_filter.
Qed.

Lemma hour_rows_elem hour log r :
  r ∈ hour_rows hour log <-> exists k, r = summary hour (k, bucket log hour k) /\ bucket log hour k ≠ [].
Proof.
  unfold hour_rows. rewrite list_elem_of_fmap. setoid_rewrite scan_perm. split.
  - intros ([k g] & -> & [-> Hk]%group_by_elem). exists k. split; [done|]. apply list_elem_of_fmap in Hk as (x & -> & Hx).
    intros E. apply (not_elem_of_nil x). unfold bucket in E. rewrite <- E. apply elem_filter_bool. by rewrite bool_decide_true.
  - intros (k & -> & Hne). exists (k, bucket log hour k). split; [done|]. apply group_by_elem. split; [done|].
    destruct (bucket log hour k) as [|x l] eqn:E; [done|]. assert (x ∈ bucket log hour k) as Hx by (rewrite E; set_solver).
    apply elem_filter_bool in Hx as [Hx Hd]. apply bool_decide_eq_true in Hd as <-. by apply list_elem_of_fmap_2.
Qed.

Lemma hour_rows_unique hour log : unique_keys (hour_rows hour log).
Proof.
  unfold unique_keys, hour_rows. rewrite scan_perm, <- list_fmap_compose.
  rewrite (list_fmap_ext _ (pair hour ∘ fst)); [|by intros _ [k g] _].
  rewrite list_fmap_compose. apply NoDup_fmap_2; [intros ?? [=]; done|]. apply group_by_nodup.
Qed.

Lemma hour_rows_row_at hour log h k :
  row_at (hour_rows hour log) (h, k) =
  if bool_decide (h = hour /\ bucket log hour k ≠ []) then Some (summary hour (k, bucket log hour k)) else None.
Proof.
  case_bool_decide as H.
  - destruct H as [-> Hne]. apply row_at_Some; [apply hour_rows_unique|]. split; [|done]. apply hour_rows_elem. eauto.
  - apply row_at_None. intros (r & Hk & (k' & -> & Hne)%hour_rows_elem)%list_elem_of_fmap.
    unfold ar_key in Hk. cbn [summary ar_hour ar_dims] in Hk. simplify_eq. tauto.
Qed.

Lemma aggregate_row_at hour d h k : unique_keys (audit_hourly d) ->
  row_at (foldl upsert_audit (audit_hourly d) (hour_rows hour (request_log d))) (h, k) =
  if bool_decide (h = hour /\ bucket (request_log d) hour k ≠ [])
  then Some (summary hour (k, bucket (request_log d) hour k)) else row_at (audit_hourly d) (h, k).
Proof. intros Hu. rewrite row_at_upserts by (done || apply hour_rows_unique). rewrite hour_rows_row_at. by case_bool_decide. Qed.

Lemma aggregate_again hour d d' : log_fits (request_log d) -> unique_keys (audit_hourly d) ->
  aggregate_hour hour d = Ok (d', tt) -> aggregate_hour hour d' = Ok (d', tt).
Proof.
  intros Hf Hu. rewrite aggregate_hour_fits by done. intros [= <-]. rewrite aggregate_hour_fits by done.
  cbn [audit_hourly request_log set_audit_hourly]. rewrite (upserts_same (foldl _ _ _)); [done|by apply upserts_unique|].
  intros r (k & -> & Hne)%hour_rows_elem. apply (row_at_Some _ (hour, k)); [by apply upserts_unique|].
  rewrite aggregate_row_at by done. by rewrite bool_decide_true.
Qed.

(** No failure of the driver ahead. *)
Definition quiet (w : LogWorld) : Prop := Forall (eq None) (lw_faults w).

Lemma exec_quiet {A} on_err (q : LogDb -> Result (LogDb * A) DbError) w d a : quiet w -> q (lw_db w) = Ok (d, a) ->
  exec on_err q w = (mkLogWorld (tail (lw_faults w)) d, Ok a).
Proof. unfold exec, quiet. intros H ->. destruct (lw_faults w) as [|[] fs]; [done| |done]. by inversion H. Qed.

Lemma exec_err {A} on_err (q : LogDb -> Result (LogDb * A) DbError) w w' e : exec on_err q w = (w', Err e) -> lw_db w' = lw_db w.
Proof. unfold exec. intros. repeat case_match; simplify_eq/=; done. Qed.

Lemma quiet_tail w d : quiet w -> quiet (mkLogWorld (tail (lw_faults w)) d).
Proof. unfold quiet. cbn [lw_faults]. destruct (lw_faults w); [done|]. by intros [_ ?]%Forall_cons. Qed.

(** ** Over many hours *)

(** The hour a row was logged in, and the bucket it belongs to. *)
Definition hour_of (r : LogRow) : Z := lr_ts r / 3600000 * 3600.
Definition log_key (r : LogRow) : Z * Dims := (hour_of r, dims_of r).

Lemma in_hour_spec hour r : (3600 | hour) -> in_hour hour r = bool_decide (hour_of r = hour).
Proof.
  intros [n ->]. unfold in_hour, hour_of. apply eq_true_iff_eq. rewrite andb_true_iff, Z.leb_le, Z.ltb_lt, bool_decide_eq_true.
  pose proof (Z.div_mod (lr_ts r) 3600000 ltac:(lia)). pose proof (Z.mod_pos_bound (lr_ts r) 3600000 ltac:(lia)). nia.
Qed.

Lemma last_hour_div now : (3600 | last_hour now).
Proof. unfold last_hour. apply Z.divide_factor_r. Qed.

(** The table holds the totals of the hours [hs], and nothing else. *)
Definition table_exact (log : list LogRow) (hs : list Z) (tbl : list AuditRow) : Prop :=
  unique_keys tbl /\
  forall h k, row_at tbl (h, k) =
    if bool_decide (h ∈ hs /\ bucket log h k ≠ []) then Some (summary h (k, bucket log h k)) else None.

Lemma table_exact_nil log : table_exact log [] [].
Proof. split; [constructor|]. intros h k. rewrite bool_decide_false; [done|]. set_solver. Qed.

Lemma table_exact_step log hs hour d : request_log d = log -> table_exact log hs (audit_hourly d) ->
  table_exact log (hour :: hs) (foldl upsert_audit (audit_hourly d) (hour_rows hour log)).
Proof.
  intros <- [Hu Hr]. split; [by apply upserts_unique|]. intros h k. rewrite aggregate_row_at by done. rewrite Hr.
  repeat case_bool_decide; try done; set_solver.
Qed.

Lemma tick_exact log hs now w : quiet w -> log_fits log -> request_log (lw_db w) = log -> table_exact log hs (audit_hourly (lw_db w)) ->
  exists w', aggregator_tick now w = (w', Ok tt) /\ quiet w' /\ request_log (lw_db w') = log /\
    table_exact log (last_hour now :: hs) (audit_hourly (lw_db w')).
Proof.
  intros Hq Hf <- He. eexists. split.
  - unfold aggregator_tick, attempted, aggregate_last_hour, mbind, LM_bind.
    erewrite exec_quiet; [reflexivity|done|]. by apply aggregate_hour_fits.
  - split; [by apply quiet_tail|]. split; [done|]. by apply (table_exact_step _ hs (last_hour now) (lw_db w)).
Qed.

Lemma ticks_exact log ticks hs w : quiet w -> log_fits log -> request_log (lw_db w) = log -> table_exact log hs (audit_hourly (lw_db w)) ->
  exists w', spawn_aggregator ticks w = (w', Ok tt) /\ quiet w' /\ request_log (lw_db w') = log /\
    table_exact log (rev (last_hour <$> ticks) ++ hs) (audit_hourly (lw_db w')).
Proof.
  revert hs w. induction ticks as [|now ticks IH]; intros hs w Hq Hf Hl He; [by exists w|].
  destruct (tick_exact log hs now w) as (w1 & E1 & Hq1 & Hl1 & He1); [done..|].
  destruct (IH (last_hour now :: hs) w1) as (w2 & E2 & Hq2 & Hl2 & He2); [done..|]. exists w2.
  split; [|split; [done|split; [done|]]].
  - unfold spawn_aggregator. cbn [each]. unfold mbind, LM_bind. by rewrite E1.
  - csimpl. by rewrite <- app_assoc.
Qed.

Lemma filter_andb {A} (p q : A -> bool) l : List.filter p (List.filter q l) = List.filter (fun x => q x && p x) l.
Proof. induction l as [|x l IH]; [done|]. cbn [List.filter]. destruct (q x); cbn [List.filter andb]; by rewrite IH. Qed.

Lemma bucket_key log hs h k : Forall (Z.divide 3600) hs -> h ∈ hs ->
  bucket log h k = List.filter (fun r => bool_decide (log_key r = (h, k))) (List.filter (fun r => bool_decide (hour_of r ∈ hs)) log).
Proof.
  intros Hd Hh. unfold bucket. rewrite Forall_forall in Hd. rewrite !filter_andb. apply filter_ext. intros r.
  rewrite in_hour_spec by auto. unfold log_key. repeat case_bool_decide; simpl; congruence || naive_solver.
Qed.

(** The table, as groups of the log. *)
Lemma table_exact_perm log hs tbl : Forall (Z.divide 3600) hs -> table_exact log hs tbl ->
  tbl ≡ₚ (fun kg => summary kg.1.1 (kg.1.2, kg.2)) <$> group_by log_key (List.filter (fun r => bool_decide (hour_of r ∈ hs)) log).
Proof.
  intros Hd [Hu Hr]. apply NoDup_Permutation.
  - by apply (NoDup_fmap_1 ar_key).
  - apply (NoDup_fmap_1 ar_key). rewrite <- list_fmap_compose, (list_fmap_ext _ fst); [apply group_by_nodup|].
    by intros _ [[h k] g] _.
  - intros r. split.
    + intros Hin. destruct (ar_key r) as [h k] eqn:Ek. assert (row_at tbl (h, k) = Some r) as E by by apply row_at_Some.
      rewrite Hr in E. case_bool_decide as Hc; [|done]. destruct Hc as [Hh Hne]. injection E as <-.
      apply list_elem_of_fmap. exists (h, k, bucket log h k). split; [done|]. apply group_by_elem.
      rewrite (bucket_key log hs) in Hne |- * by done. split; [done|].
      destruct (List.filter _ (List.filter _ log)) as [|x l] eqn:E; [done|].
      assert (x ∈ x :: l) as Hx by set_solver. rewrite <- E in Hx. apply elem_filter_bool in Hx as [Hx Hk].
      apply bool_decide_eq_true in Hk as <-. by apply list_elem_of_fmap_2.
    + intros ([[h k] g] & -> & [-> Hk]%group_by_elem)%list_elem_of_fmap. cbn [fst snd].
      apply list_elem_of_fmap in Hk as (x & Hxk & Hx). pose proof Hx as [Hxl Hxh]%elem_filter_bool.
      apply bool_decide_eq_true in Hxh. assert (h = hour_of x) as -> by (by injection Hxk).
      apply (row_at_Some _ (hour_of x, k)); [done|]. rewrite Hr, <- bucket_key by done. rewrite bool_decide_true; [done|].
      split; [done|]. rewrite (bucket_key log hs) by done. intros E. apply (not_elem_of_nil x). rewrite <- E.
      apply elem_filter_bool. by rewrite bool_decide_true.
Qed.

(** Over the aggregated hours the table's totals are the log's. *)
Lemma table_exact_total log hs tbl (p : Z * Dims -> bool) c : Forall (Z.divide 3600) hs -> table_exact log hs tbl ->
  zsum_of (audit_value c) (List.filter (fun r => p (ar_key r)) tbl) =
  zsum_of (log_value c) (List.filter (fun r => bool_decide (hour_of r ∈ hs) && p (log_key r)) log).
Proof.
  intros Hd He. rewrite zsum_of_filter, (table_exact_perm log hs) by done. rewrite zsum_of_fmap.
  rewrite (zsum_of_ext _ (fun kg => zsum_of (fun r => if p (log_key r) then log_value c r else 0) kg.2)).
  - rewrite group_by_sum, zsum_of_filter, zsum_of_filter. apply zsum_of_ext. intros r _. by destruct (bool_decide _), (p _).
  - intros [[h k] g] [-> _]%group_by_elem. rewrite summary_value. cbn [fst snd].
    change (ar_key (summary h (k, _))) with (h, k). destruct (p (h, k)) eqn:E.
    + apply zsum_of_ext. intros x [_ Hx]%elem_filter_bool. apply bool_decide_eq_true in Hx as ->. by rewrite E.
    + symmetry. apply zsum_of_zero. intros x [_ Hx]%elem_filter_bool. apply bool_decide_eq_true in Hx as ->. by rewrite E.
Qed.

(** ** Retention *)

Definition cutoff_ms (now_ms retention_days : Z) : Z := i64 (now_ms - i64 (retention_days * 86400000)).

Definition kept (now_ms : Z) (ps : list (string * Z)) (r : LogRow) : Prop :=
  forall days, ("request_log", days) ∈ ps -> cutoff_ms now_ms days <= lr_ts r.

(** A logged statement on a quiet driver. *)
Lemma attempted_exec {A} on_err (q : LogDb -> Result (LogDb * A) DbError) w : quiet w ->
  exists w' o, attempted (exec on_err q) w = (w', Ok o) /\ quiet w' /\
    lw_db w' = match q (lw_db w) with Ok (d, _) => d | Err _ => lw_db w end.
Proof.
  intros Hq. destruct (q (lw_db w)) as [[d a]|e] eqn:E.
  - eexists _, _. unfold attempted. erewrite exec_quiet by done. split; [done|]. split; [by apply quiet_tail|done].
  - unfold attempted, exec. rewrite E. unfold quiet in *.
    destruct (lw_faults w) as [|[] fs]; [|by inversion Hq|]; eexists _, _; inversion Hq; done.
Qed.

(** The deletions that do happen leave the totals and the alerts alone. *)
Lemma delete_older_frame t col ms cutoff d : ts_column t = Some (col, ms) ->
  let d' := match delete_older t col cutoff d with Ok (d', _) => d' | Err _ => d end in
  audit_hourly d' = audit_hourly d /\ alert_event d' = alert_event d /\
  request_log d' = if str_eqb t "request_log" then List.filter (fun r => negb (lr_ts r <? cutoff)) (request_log d) else request_log d.
Proof.
  unfold ts_column, delete_older. destruct (str_eqb t "request_log"); [by intros [= <- <-]|].
  destruct (str_eqb t "audit_hourly") eqn:E; [intros [= <- <-]; apply str_eqb_spec in E as ->; done|].
  destruct (str_eqb t "ui_event_log"); [by intros [= <- <-]|]. destruct (str_eqb t "alert_event"); [by intros [= <- <-]|done].
Qed.

Lemma purge_table_spec now_ms p w : quiet w -> exists w', purge_table now_ms p w = (w', Ok tt) /\ quiet w' /\
  (forall r, r ∈ request_log (lw_db w') <-> r ∈ request_log (lw_db w) /\ kept now_ms [p] r) /\
  audit_hourly (lw_db w') = audit_hourly (lw_db w) /\ alert_event (lw_db w') = alert_event (lw_db w).
Proof.
  intros Hq. destruct p as [t days]. unfold purge_table.
  assert (Hk : forall r, kept now_ms [(t, days)] r <-> (str_eqb t "request_log" = true -> cutoff_ms now_ms days <= lr_ts r)).
  { intros r. unfold kept. setoid_rewrite list_elem_of_singleton. rewrite str_eqb_spec. naive_solver. }
  setoid_rewrite Hk. destruct (ts_column t) as [[col ms]|] eqn:E.
  - match goal with |- context [attempted (exec ?e ?q)] => destruct (attempted_exec e q w Hq) as (w' & o & Ew & Hq' & Hd) end.
    exists w'. split; [unfold mbind, LM_bind; by rewrite Ew|]. split; [done|].
    match type of Hd with context [delete_older _ _ ?c _] => destruct (delete_older_frame t col ms c (lw_db w) E) as (Ha & He & Hl) end.
    rewrite <- Hd in Ha, He, Hl. split; [|done]. intros r. rewrite Hl. destruct (str_eqb t "request_log") eqn:Et; [|naive_solver].
    unfold ts_column in E. rewrite Et in E. injection E as <- <-. rewrite elem_filter_bool, negb_true_iff, Z.ltb_ge. naive_solver.
  - exists w. do 2 (split; [done|]). split; [|done]. intros r. unfold ts_column in E. destruct (str_eqb t "request_log"); naive_solver.
Qed.

Lemma purge_tables_spec now_ms ps w : quiet w -> exists w', each (purge_table now_ms) ps w = (w', Ok tt) /\
  (forall r, r ∈ request_log (lw_db w') <-> r ∈ request_log (lw_db w) /\ kept now_ms ps r) /\
  audit_hourly (lw_db w') = audit_hourly (lw_db w) /\ alert_event (lw_db w') = alert_event (lw_db w).
Proof.
  revert w. induction ps as [|p ps IH]; intros w Hq.
  - exists w. split; [done|]. split; [|done]. intros r. split; [|tauto]. intros. split; [done|]. intros ? []%not_elem_of_nil.
  - destruct (purge_table_spec now_ms p w Hq) as (w1 & E1 & Hq1 & Hr1 & Ha1 & He1).
    destruct (IH w1 Hq1) as (w2 & E2 & Hr2 & Ha2 & He2). exists w2. split; [cbn [each]; unfold mbind, LM_bind; by rewrite E1|].
    rewrite Ha2, He2. split; [|done]. intros r. rewrite Hr2, Hr1. unfold kept. setoid_rewrite elem_of_cons.
    setoid_rewrite elem_of_nil. naive_solver.
Qed.

(** What one hourly purge does: rows of the log older than their retention go,
    and only they; the hourly totals and the alerts stay whatever their policy
    says, since the columns named for them do not exist. *)
Theorem purge_expired_spec now_ms w : quiet w -> exists w', purge_expired now_ms w = (w', Ok tt) /\
  (forall r, r ∈ request_log (lw_db w') <->
     r ∈ request_log (lw_db w) /\ kept now_ms (data_retention_policy (lw_db w)) r) /\
  audit_hourly (lw_db w') = audit_hourly (lw_db w) /\ alert_event (lw_db w') = alert_event (lw_db w).
Proof.
  intros Hq. unfold purge_expired.
  assert (exists w1, attempted (fetch (internal "Failed to read retention policies, skipping purge")
            (fun d => Ok (scan (data_retention_policy d)))) w = (w1, Ok (Some (scan (data_retention_policy (lw_db w)))))
          /\ quiet w1 /\ lw_db w1 = lw_db w) as (w1 & E1 & Hq1 & Hd1).
  { eexists. unfold attempted, fetch. erewrite exec_quiet by done. split; [done|]. split; [by apply quiet_tail|done]. }
  destruct (purge_tables_spec now_ms (scan (data_retention_policy (lw_db w))) w1 Hq1) as (w2 & E2 & Hr & Ha & He).
  exists w2. split; [unfold mbind, LM_bind; by rewrite E1|]. rewrite Hd1 in *. split; [|done]. intros r. rewrite Hr.
  unfold kept. setoid_rewrite scan_perm. done.
Qed.

(** ** The search index *)

#[local] Instance older_first_total : Total older_first.
Proof. intros a b. unfold older_first. lia. Qed.
#[local] Instance older_first_trans : Transitive older_first.
Proof. intros a b c. unfold older_first. lia. Qed.

Lemma nodup_fmap_eq {A B} (f : A -> B) l x y : NoDup (f <$> l) -> x ∈ l -> y ∈ l -> f x = f y -> x = y.
Proof.
  induction l as [|z l IH]; [set_solver|]. intros [Hz Hn]%NoDup_cons. rewrite !elem_of_cons.
  intros [->|Hx] [->|Hy] E; auto; destruct Hz; [rewrite E|rewrite <- E]; by apply list_elem_of_fmap_2.
Qed.

(** With distinct timestamps a batch holds every new row up to its last one. *)
Lemma fts_batch_complete watermark d r m : NoDup (lr_ts <$> request_log d) ->
  r ∈ request_log d -> watermark < lr_ts r -> last (fts_batch watermark d) = Some m -> lr_ts r <= lr_ts m ->
  r ∈ fts_batch watermark d.
Proof.
  intros Hn Hr Hw Hm Hle. apply last_Some_elem_of in Hm. unfold fts_batch in *.
  set (l := merge_sort older_first _) in *.
  assert (r ∈ l) as Hl by (unfold l; rewrite merge_sort_Permutation, scan_perm; apply elem_filter_bool; by rewrite Z.ltb_lt).
  rewrite <- (take_drop 1000 l) in Hl. apply elem_of_app in Hl as [|Hd]; [done|].
  assert (older_first m r) as Ho.
  { eapply (StronglySorted_app_1_elem_of _ (take 1000 l) (drop 1000 l)); [|done..]. rewrite take_drop. by apply StronglySorted_merge_sort; apply _. }
  assert (m ∈ request_log d) as Hmd.
  { assert (m ∈ l) as H by by eapply subseteq_take. unfold l in H. rewrite merge_sort_Permutation, scan_perm in H.
    by apply elem_filter_bool in H as [? _]. }
  assert (r = m) as ->; [|done]. unfold older_first in Ho.
  eapply (nodup_fmap_eq lr_ts); [exact Hn|done..|lia].
Qed.

Lemma index_rows rows w : quiet w -> exists w', each index_row rows w = (w', Ok tt)
  /\ quiet w' /\ lw_db w' = set_fts (lw_db w) (request_log_fts (lw_db w) ++ (fts_entry <$> rows)).
Proof.
  revert w. induction rows as [|r rows IH]; intros w Hq.
  - exists w. split; [done|]. split; [done|]. csimpl. rewrite app_nil_r. by destruct w as [? []].
  - destruct (attempted_exec (internal "FTS index insert failed") (fts_insert (fts_entry r)) w Hq) as (w1 & o & E1 & Hq1 & Hd1).
    destruct (IH w1 Hq1) as (w2 & E2 & Hq2 & Hd2). exists w2. cbn [each].
    erewrite LM_bind_Ok by (unfold index_row; erewrite LM_bind_Ok by exact E1; reflexivity).
    split; [done|]. split; [done|]. rewrite Hd2, Hd1. csimpl. by rewrite <- app_assoc.
Qed.

Lemma attempted_fetch {A} on_err (q : LogDb -> Result A DbError) w a : quiet w -> q (lw_db w) = Ok a ->
  exists w', attempted (fetch on_err q) w = (w', Ok (Some a)) /\ quiet w' /\ lw_db w' = lw_db w.
Proof.
  intros Hq E. eexists. unfold attempted, fetch. erewrite exec_quiet; [|done|by rewrite E].
  split; [done|]. split; [by apply quiet_tail|done].
Qed.

(** One rebuild indexes a batch and moves the watermark to its last row; with
    distinct timestamps no row up to the new watermark is left out. *)
Theorem rebuild_fts_spec w watermark : quiet w -> fts_watermark (lw_db w) = Some watermark ->
  exists w' watermark', rebuild_fts w = (w', Ok tt) /\ fts_watermark (lw_db w') = Some watermark' /\
    request_log_fts (lw_db w') = request_log_fts (lw_db w) ++ (fts_entry <$> fts_batch watermark (lw_db w)) /\
    (NoDup (lr_ts <$> request_log (lw_db w)) -> forall r, r ∈ request_log (lw_db w) ->
       watermark < lr_ts r <= watermark' -> fts_entry r ∈ request_log_fts (lw_db w')).
Proof.
  intros Hq Hw. unfold rebuild_fts.
  destruct (attempted_fetch (internal "FTS watermark") (fun d => Ok (fts_watermark d)) w (Some watermark) Hq ltac:(cbv beta; by rewrite Hw)) as (w1 & E1 & Hq1 & Hd1).
  destruct (attempted_fetch (internal "FTS rebuild: failed to read request_log") (fun d => Ok (fts_batch watermark d)) w1 _ Hq1 eq_refl) as (w2 & E2 & Hq2 & Hd2).
  erewrite LM_bind_Ok by exact E1. erewrite LM_bind_Ok by exact E2. rewrite Hd1 in *. clear E1 E2 Hq1 Hd1 w1.
  destruct (fts_batch watermark (lw_db w)) as [|b0 bs] eqn:Eb.
  - exists w2, watermark. split; [done|]. rewrite Hd2. split; [done|]. split; [by rewrite app_nil_r|]. lia.
  - destruct (last (b0 :: bs)) as [m|] eqn:Em; [|by apply last_None in Em].
    destruct (index_rows (b0 :: bs) w2 Hq2) as (w3 & E3 & Hq3 & Hd3).
    destruct (attempted_exec (internal "FTS watermark update failed") (set_watermark_row (lr_ts m)) w3 Hq3) as (w4 & o & E4 & _ & Hd4).
    exists w4, (lr_ts m). split; [erewrite LM_bind_Ok by exact E3; by erewrite LM_bind_Ok by exact E4|].
    rewrite Hd4, Hd3, Hd2. cbn. rewrite Hw. split; [done|]. split; [done|]. intros Hn r Hr [Hlo Hhi].
    apply elem_of_app. right. apply (list_elem_of_fmap_2 fts_entry (b0 :: bs)). rewrite <- Eb in *. by eapply fts_batch_complete.
Qed.

(** What one run of the aggregator does.  A run that fails leaves the database as
    it was.  When the driver works and the counters can be added up, it succeeds;
    each bucket of the hour that ended last then holds exactly the totals of its
    log rows, whatever it held before, buckets of the hour without log rows and all
    buckets of other hours are as they were, keys stay unique, the log is not
    touched, and running it again within the hour changes nothing.*)
Theorem aggregation_spec now w :
  (forall w' e, aggregate_last_hour now w = (w', Err e) -> lw_db w' = lw_db w) /\
  (quiet w -> log_fits (request_log (lw_db w)) -> unique_keys (audit_hourly (lw_db w)) ->
   exists w', aggregate_last_hour now w = (w', Ok tt) /\
     request_log (lw_db w') = request_log (lw_db w) /\ unique_keys (audit_hourly (lw_db w')) /\
     (forall k, row_at (audit_hourly (lw_db w')) (last_hour now, k) =
        match bucket (request_log (lw_db w)) (last_hour now) k with
        | [] => row_at (audit_hourly (lw_db w)) (last_hour now, k)
        | g => Some (summary (last_hour now) (k, g))
        end) /\
     (forall h k, h ≠ last_hour now -> row_at (audit_hourly (lw_db w')) (h, k) = row_at (audit_hourly (lw_db w)) (h, k)) /\
     (forall now', last_hour now' = last_hour now ->
        exists w'', aggregate_last_hour now' w' = (w'', Ok tt) /\ lw_db w'' = lw_db w')).
Proof.
  split; [intros w' e; apply exec_err|]. intros Hq Hf Hu. eexists.
  split; [apply exec_quiet; [done|by apply aggregate_hour_fits]|]. cbn [lw_db request_log audit_hourly set_audit_hourly].
  split; [done|]. split; [by apply upserts_unique|]. repeat split.
  - intros k. rewrite aggregate_row_at by done. destruct (bucket _ _ k); [rewrite bool_decide_false by tauto|rewrite bool_decide_true by done]; done.
  - intros h k Hne. rewrite aggregate_row_at by done. rewrite bool_decide_false; [done|tauto].
  - intros now' E. unfold aggregate_last_hour. rewrite E. eexists. split; [apply exec_quiet; [by apply quiet_tail|]|reflexivity].
    cbn [lw_db]. eapply aggregate_again; [done..|]. by apply aggregate_hour_fits.
Qed.
End Aggregation.

(* ------------------------------------------------------------------ *)
(** ** Instances *)

Module LogDemo.
Definition sums : SumReal := {| sum_real := foldr Qplus 0%Q |}.

Definition entry (id : string) (ts : Z) (model tenant : string) (status prompt completion cached latency : Z) : LogRow :=
  mkLogRow id ts None model "p" "k1" None (Some status) (Some latency) (Some prompt) (Some completion)
    (Some (prompt + completion)) 0 None (Some cached) None (Some "OpenAiPromptCache") None None None None None
    (Some "stop") None (Some 0) (Some tenant) None (Some 0%Q).

(** Two hours of log: 1970-01-02, 00:00 to 02:00. *)
Definition log : list LogRow :=
  [entry "r1" 86400000 "gpt" "default" 200 100 20 50 10; entry "r2" 86400500 "gpt" "default" 200 300 40 0 30;
   entry "r3" 86401000 "claude" "acme" 500 10 0 0 5; entry "r4" 90000000 "gpt" "acme" 200 7 3 0 8].

Definition policies : list (string * Z) :=
  [("request_log", 90); ("audit_hourly", 365); ("audit_trail", 730); ("ui_event_log", 90); ("alert_event", 365)].
Definition w0 : LogWorld := mkLogWorld [] (mkLogDb log [] [] [] policies [] (Some 0)).
End LogDemo.

Section LogWitnesses.
Import StoreDemo LogDemo.
#[local] Existing Instances sqlx sums.

Lemma demo_fits : log_fits log.
Proof. intros c. split; [|by destruct c]. intros r Hr. repeat (apply elem_of_cons in Hr as [->|Hr]; [by destruct c|]). by apply not_elem_of_nil in Hr. Qed.

Theorem aggregation_spec_witness : exists w', aggregate_last_hour 90000 LogDemo.w0 = (w', Ok tt) /\
  request_log (lw_db w') = log /\ unique_keys (audit_hourly (lw_db w')) /\
  audit_value PromptTokens <$> row_at (audit_hourly (lw_db w')) (86400, dims_of (entry "r1" 0 "gpt" "default" 200 0 0 0 0)) = Some 400.
Proof.
  destruct (proj2 (aggregation_spec 90000 LogDemo.w0)) as (w' & E & Hl & Hu & Hr & _).
  - constructor.
  - apply demo_fits.
  - constructor.
  - exists w'. split; [exact E|]. split; [exact Hl|]. split; [exact Hu|].
    change 86400 with (last_hour 90000). rewrite Hr. reflexivity.
Defined.

(** The totals of a year ago and alerts stay, although their policies are 365 days. *)
Definition old_totals : LogWorld :=
  mkLogWorld [] (mkLogDb log [summary 86400 (dims_of (entry "r1" 0 "gpt" "default" 200 0 0 0 0), log)]
                         [mkAlertEvent 1 86400 "PoolExhausted" None None None None None None None None] [] policies [] (Some 0)).
Example purge_misses_totals : let d := lw_db (purge_expired (2000 * 86400000) old_totals).1 in
  request_log d = [] /\ length (audit_hourly d) = 1%nat /\ length (alert_event d) = 1%nat.
Proof. vm_compute. done. Qed.

(** Rows that share the timestamp at which a full batch ends are never indexed. *)
Definition busy : LogWorld :=
  mkLogWorld [] (mkLogDb (replicate 1001 (entry "r" 5 "gpt" "default" 200 0 0 0 0)) [] [] [] [] [] (Some 0)).
Example fts_skips_ties : let w1 := (rebuild_fts busy).1 in
  length (request_log_fts (lw_db w1)) = 1000%nat /\ lw_db (rebuild_fts w1).1 = lw_db w1.
Proof. vm_compute. done. Qed.
End LogWitnesses.
