(* ===== verification/Csv.v ===== *)
(** * CSV

    Models [src/src/dashboard/csv.rs] ([csv_quote]) and the lines the dashboard
    builds with it.  A reader of RFC 4180 records, as a state machine on bytes,
    is the specification: it reads back every record the writer makes. *)

From S2P Require Import Prelude.

Definition QUOTE : ascii := chr 34.
Definition COMMA : ascii := chr 44.

(** [s.contains(c)], for an ASCII [c] *)
Fixpoint has_char (c : ascii) (s : string) : bool :=
  match s with EmptyString => false | String x s' => Ascii.eqb x c || has_char c s' end.

(** [s.replace(c, cc)], the character doubled *)
Fixpoint double_char (c : ascii) (s : string) : string :=
  match s with
  | EmptyString => EmptyString
  | String x s' => if Ascii.eqb x c then String x (String x (double_char c s')) else String x (double_char c s')
  end.

Definition needs_quotes (s : string) : bool :=
  has_char COMMA s || has_char QUOTE s || has_char LF s || has_char CR s.

Definition csv_quote (s : string) : string :=
  if needs_quotes s then String QUOTE (double_char QUOTE s +:+ String QUOTE EmptyString) else s.

(** A record: fields separated by commas, ended by a line feed. *)
Definition csv_line (fields : list string) : string := str_join (String COMMA EmptyString) fields +:+ lf.

(** ** The reader *)

Inductive CsvState : Type := AtStart | InPlain | InQuotes | AfterQuote.

(** [field] and [row] are what was read of the current field (reversed) and record
    (reversed). *)
Fixpoint csv_read (st : CsvState) (field : string) (row : list string) (s : string) : option (list (list string)) :=
  match s with
  | EmptyString => match st, row with AtStart, [] => Some [] | _, _ => None end
  | String c s' =>
      let ends_field := Ascii.eqb c COMMA in
      let ends_row := Ascii.eqb c LF in
      match st with
      | InQuotes => if Ascii.eqb c QUOTE then csv_read AfterQuote field row s' else csv_read InQuotes (String c field) row s'
      | AtStart | InPlain | AfterQuote =>
          if ends_field then csv_read AtStart EmptyString (str_rev field :: row) s'
          else if ends_row then
            match csv_read AtStart EmptyString [] s' with
            | Some rows => Some (rev (str_rev field :: row) :: rows)
            | None => None
            end
          else if Ascii.eqb c QUOTE then
            match st with
            | AtStart => csv_read InQuotes EmptyString row s'
            | AfterQuote => csv_read InQuotes (String c field) row s'
            | _ => None
            end
          else match st with AfterQuote => None | _ => csv_read InPlain (String c field) row s' end
      end
  end.

Definition csv_parse (s : string) : option (list (list string)) := csv_read AtStart EmptyString [] s.

(** ** The round trip *)

Definition plain (s : string) : bool := negb (needs_quotes s).

Lemma plain_cons c s : plain (String c s) = true ->
  Ascii.eqb c COMMA = false /\ Ascii.eqb c QUOTE = false /\ Ascii.eqb c LF = false /\ plain s = true.
Proof.
  unfold plain, needs_quotes. cbn [has_char]. destruct (Ascii.eqb c COMMA), (Ascii.eqb c QUOTE), (Ascii.eqb c LF), (Ascii.eqb c CR);
    rewrite ?orb_true_r; try done. 
Qed.

Lemma str_rev_snoc c s : str_rev (String c s) = str_rev s +:+ String c EmptyString.
Proof. unfold str_rev. cbn [str_rev_app]. rewrite str_rev_app_spec. done. Qed.

(** Inside quotes, up to the closing one. *)
Lemma read_quoted s field row rest :
  csv_read InQuotes field row (double_char QUOTE s +:+ String QUOTE rest) = csv_read AfterQuote (str_rev s +:+ field) row rest.
Proof.
  revert field. induction s as [|c s IH]; intros field; [done|]. cbn [double_char]. rewrite str_rev_snoc, <- app_assoc_str.
  destruct (Ascii.eqb c QUOTE) eqn:E; cbn [String.append csv_read].
  - apply Ascii.eqb_eq in E as ->. change (Ascii.eqb QUOTE QUOTE) with true. change (Ascii.eqb QUOTE COMMA) with false.
    change (Ascii.eqb QUOTE LF) with false. cbn iota. apply IH.
  - rewrite E. apply IH.
Qed.

(** A plain field, up to the separator. *)
Lemma read_plain s st field row c rest : plain s = true -> (st = AtStart \/ st = InPlain) -> c = COMMA \/ c = LF ->
  csv_read st field row (s +:+ String c rest) = csv_read InPlain (str_rev s +:+ field) row (String c rest).
Proof.
  intros Hp Hst Hc. revert st field Hp Hst. induction s as [|x s IH]; intros st field Hp Hst.
  - by destruct Hst as [-> | ->], Hc as [-> | ->].
  - apply plain_cons in Hp as (H1 & H2 & H3 & Hp). transitivity (csv_read InPlain (String x field) row (s +:+ String c rest)).
    + cbn [String.append csv_read]. rewrite H1, H2, H3. by destruct Hst as [-> | ->].
    + rewrite IH by auto. by rewrite str_rev_snoc, <- app_assoc_str.
Qed.

(** What a separator does after a whole field. *)
Definition after_field (c : ascii) (s : string) (row : list string) (rest : string) : option (list (list string)) :=
  if Ascii.eqb c COMMA then csv_read AtStart EmptyString (s :: row) rest
  else match csv_read AtStart EmptyString [] rest with Some rows => Some (rev (s :: row) :: rows) | None => None end.

Lemma read_field s row c rest : c = COMMA \/ c = LF ->
  csv_read AtStart EmptyString row (csv_quote s +:+ String c rest) = after_field c s row rest.
Proof.
  intros Hc. unfold csv_quote. destruct (needs_quotes s) eqn:E.
  - cbn [String.append csv_read]. change (Ascii.eqb QUOTE COMMA) with false. change (Ascii.eqb QUOTE LF) with false.
    change (Ascii.eqb QUOTE QUOTE) with true. cbn iota. rewrite <- app_assoc_str. cbn [String.append].
    rewrite read_quoted, app_nil_r_str. unfold after_field.
    destruct Hc as [-> | ->]; cbn [csv_read]; rewrite str_rev_involutive; done.
  - rewrite read_plain by (auto; unfold plain; by rewrite E). rewrite app_nil_r_str. unfold after_field.
    destruct Hc as [-> | ->]; cbn [csv_read]; rewrite str_rev_involutive; done.
Qed.

Lemma read_line fields row rest : fields ≠ [] ->
  csv_read AtStart EmptyString row (csv_line (csv_quote <$> fields) +:+ rest) =
  match csv_read AtStart EmptyString [] rest with Some rows => Some ((rev row ++ fields) :: rows) | None => None end.
Proof.
  unfold csv_line. revert row. induction fields as [|f fields IH]; intros row Hne; [done|]. destruct fields as [|g fields].
  - cbn [fmap list_fmap str_join]. rewrite <- app_assoc_str. unfold lf. cbn [String.append].
    rewrite read_field by auto. done.
  - specialize (IH (f :: row) ltac:(done)). 
    change (str_join (String COMMA "") (csv_quote <$> f :: g :: fields))
      with (csv_quote f +:+ String COMMA "" +:+ str_join (String COMMA "") (csv_quote <$> g :: fields)).
    set (tail := str_join _ (csv_quote <$> g :: fields)) in *. rewrite <- !app_assoc_str in *. cbn [String.append].
    rewrite read_field by auto. unfold after_field. change (Ascii.eqb COMMA COMMA) with true. cbn iota.
    rewrite IH. cbn [rev]. by rewrite <- app_assoc.
Qed.

(** Every field of every record is read back as it was. *)
Lemma csv_parse_lines rows : Forall (fun r => r ≠ []) rows ->
  csv_parse (str_concat ((fun r => csv_line (csv_quote <$> r)) <$> rows)) = Some rows.
Proof.
  unfold csv_parse, str_concat. induction rows as [|r rows IH]; [done|]. intros [Hr Hrs]%Forall_cons.
  cbn [fmap list_fmap foldr]. rewrite read_line by done. by rewrite IH.
Qed.

(** Fields written without [csv_quote] because they need none. *)
Lemma csv_quote_plain s : plain s = true -> csv_quote s = s.
Proof. unfold plain, csv_quote. by destruct (needs_quotes s). Qed.

Lemma plain_app a b : plain (a +:+ b) = plain a && plain b.
Proof.
  assert (H : forall c x y, has_char c (x +:+ y) = has_char c x || has_char c y).
  { intros c x y. induction x as [|? x IH]; [done|]. cbn [String.append has_char]. by rewrite IH, orb_assoc. }
  unfold plain, needs_quotes. rewrite !H. by destruct (has_char COMMA a), (has_char QUOTE a), (has_char LF a), (has_char CR a),
    (has_char COMMA b), (has_char QUOTE b), (has_char LF b), (has_char CR b).
Qed.

Lemma plain_digit n : (n < 10)%N -> plain (String (ascii_of_N (48 + n)) "") = true.
Proof. intros H. by do 10 (destruct n as [|n] using N.peano_ind; [vm_compute; done|clear IHn; try lia]). Qed.

Lemma plain_dec fuel n acc : plain acc = true -> plain (dec_digits fuel n acc) = true.
Proof.
  revert n acc. induction fuel as [|f IH]; intros n acc H; [done|]. cbn [dec_digits].
  assert (plain (String (ascii_of_N (48 + n mod 10)) acc) = true) as Hd.
  { change (String ?c acc) with (String c "" +:+ acc). rewrite plain_app, H, plain_digit; [done|]. by apply N.mod_lt. }
  destruct (n <? 10)%N; [done|]. by apply IH.
Qed.

Lemma plain_string_of_N n : plain (string_of_N n) = true.
Proof. by apply plain_dec. Qed.
Lemma plain_string_of_Z z : plain (string_of_Z z) = true.
Proof. unfold string_of_Z. destruct (z <? 0); [|apply plain_string_of_N]. by rewrite plain_app, plain_string_of_N. Qed.
