(* ===== verification/Dashboard.v ===== *)
(** * The dashboard's screens

    Models the read side of the dashboard: [src/src/dashboard/queries.rs],
    [requests.rs] (list, pages, CSV, detail), [usage.rs], [cost.rs],
    [cost_drilldown.rs], [traffic.rs], [keys.rs], [alerts.rs], [export.rs] and the
    event of [live.rs], on the tables of [LogDb.v].  A screen runs its queries one
    after the other; between them the tables do not change here.

    The theorems show that pages partition the filtered log, that the CSV of the
    request list reads back, that the usage screen reports what the log holds once
    its hours are aggregated, and that the usage and the cost screen agree. *)

From stdpp Require Import sorting.
From S2P Require Import Prelude Json Types Alerts Config Pricing Db ConfigStore Router Handler LogDb Csv.

(** [format!("{x:.n}")] of a float; a float truncated by [as] (the value's integer
    part, at the width). *)
Class FixedDisplay := {
  fixed : nat -> Q -> string;
  fixed_plain : forall n q, plain (fixed n q) = true
}.
Definition trunc (lo hi : Z) (q : Q) : Z := Z.max lo (Z.min hi (Z.quot (Qnum q) (Zpos (Qden q)))).
Definition f64_as_i64 (q : Q) : Z := trunc (- 2 ^ 63) (2 ^ 63 - 1) q.
Definition f64_as_u32 (q : Q) : Z := trunc 0 u32_max q.

(** An [INTEGER] read as an [i16]. *)
Class DecodeI16 := {
  decode_i16 : Z -> Result Z DbError;
  decode_i16_ok : forall z, - 2 ^ 15 <= z < 2 ^ 15 -> decode_i16 z = Ok z
}.

(** The UTF-8 of the dash shown for an absent value, and of the day sign. *)
Definition absent : string := em_dash.
Definition day_sign : string := String (chr 0xE6) (String (chr 0x97) (String (chr 0xA5) "")).

Definition clamp (z lo hi : Z) : Z := if z <? lo then lo else if hi <? z then hi else z.

(** [format!("{n:02}")] of a non-negative number *)
Definition two_digits (n : Z) : string := if n <? 10 then "0" +:+ string_of_Z n else string_of_Z n.

Definition str_le (a b : string) : Prop := String.compare a b ≠ Gt.
#[global] Instance str_le_dec a b : Decision (str_le a b).
Proof. unfold str_le. apply _. Defined.

(** A nullable column through a decoder. *)
Definition decode_opt {A B} (f : A -> Result B DbError) (o : option A) : Result (option B) DbError :=
  match o with None => Ok None | Some a => let? b := f a in Ok (Some b) end.

Definition refuse {A} (e : AppError) : LM A := fun w => (w, Err e).

Section Screens.
Context `{SX : Sqlx} `{FD : FixedDisplay} `{FL : F64} `{DI16 : DecodeI16}.

(** ** Tenants *)

(** [SELECT DISTINCT tenant_id .. ORDER BY tenant_id] into [String]s: a NULL does not decode. *)
Definition query_tenant_list : LM (list string) :=
  fetch (internal "tenant list query") (fun d =>
    let? ts := collect (fun o => match o with Some t => Ok t | None => Err (Driver "unexpected null") end)
                 (remove_dups (lr_tenant_id <$> request_log d)) in
    Ok (merge_sort str_le ts)).

(** ** Requests *)

Record RequestFilter := mkFilter {
  f_tenant : option string; f_format : option string; f_model : option string; f_pool_id : option string;
  f_finish_reason : option string; f_error_code : option string; f_min_retry : option Z; f_has_stream : option Z;
  f_hours : option Z; f_offset : option Z; f_limit : option Z
}.

Record RequestRow := mkRequestRow {
  rr_id : string; rr_ts : Z; rr_model : string; rr_pool_id : string; rr_key_hash : string; rr_tenant_id : string;
  rr_status_code : string; rr_prompt_tokens : string; rr_completion_tokens : string; rr_cached_tokens : string;
  rr_finish_reason : option string; rr_error_code : option string; rr_latency_ms : Z; rr_ttft_ms : option string;
  rr_retry_count : Z; rr_is_stream : bool; rr_cost_usd : option Q
}.

Record RequestsResponse := mkRequests {
  rs_rows : list RequestRow; rs_filter : RequestFilter; rs_tenants : list string; rs_total : Z; rs_has_more : bool
}.

Inductive Screen (A : Type) : Type := JsonScreen (a : A) | CsvScreen (body : string).

Definition format_ts (ts : Z) : string :=
  if 0 <? ts then
    let secs := Z.quot ts 1000 in
    two_digits (Z.rem (Z.quot secs 3600) 24) +:+ ":" +:+ two_digits (Z.rem (Z.quot secs 60) 60) +:+ ":" +:+ two_digits (Z.rem secs 60)
  else "-".

(** [now_ms] is the clock. *)
Definition window_since (now_ms : Z) (hours : option Z) : Z :=
  match hours with
  | Some h => if h =? 0 then 0 else if 0 <? h then i64 (now_ms - i64 (i64 (h * 3600) * 1000)) else i64 (now_ms - 24 * 3600 * 1000)
  | None => i64 (now_ms - 24 * 3600 * 1000)
  end.

Definition page_limit (limit : option Z) (csv : bool) : Z := clamp (unwrap_or limit (if csv then 1000 else 50)) 1 1000.

Definition is_csv (format : option string) : bool := match format with Some f => str_eqb f "csv" | None => false end.

(** [LIST_WHERE] *)
Definition list_where (since : Z) (f : RequestFilter) (r : LogRow) : bool :=
  (since <=? lr_ts r) && matches (f_model f) (lr_model r) && matches (f_pool_id f) (lr_pool_id r) &&
  matches_opt (f_finish_reason f) (lr_finish_reason r) && matches_opt (f_error_code f) (lr_error_code r) &&
  match f_min_retry f, lr_retry_count r with None, _ => true | Some n, Some c => n <=? c | Some _, None => false end &&
  matches (f_has_stream f) (lr_is_stream r) && matches_opt (f_tenant f) (lr_tenant_id r).

(** [ORDER BY ts DESC] *)
Definition newest_first (a b : LogRow) : Prop := lr_ts b <= lr_ts a.
#[global] Instance newest_first_dec a b : Decision (newest_first a b).
Proof. unfold newest_first. apply _. Defined.

Definition listed (since : Z) (f : RequestFilter) (d : LogDb) : list LogRow :=
  merge_sort newest_first (scan (List.filter (list_where since f) (request_log d))).

Definition text_of (o : option Z) : string := match o with Some z => string_of_Z z | None => "" end.

(** [DbRow] decoded and turned into the row shown. *)
Definition request_row (r : LogRow) : Result RequestRow DbError :=
  let? status := decode_opt decode_i32 (lr_status_code r) in
  let? retry := decode_opt decode_i32 (lr_retry_count r) in
  let? stream := decode_i32 (lr_is_stream r) in
  Ok (mkRequestRow (lr_id r) (lr_ts r) (lr_model r) (lr_pool_id r) (lr_key_hash r) (unwrap_or (lr_tenant_id r) "")
        (text_of status) (text_of (lr_prompt_tokens r)) (text_of (lr_completion_tokens r)) (text_of (lr_cached_tokens r))
        (lr_finish_reason r) (lr_error_code r) (unwrap_or (lr_latency_ms r) 0)
        ((fun t => string_of_Z t +:+ "ms") <$> lr_ttft_ms r) (unwrap_or retry 0) (negb (stream =? 0)) (lr_cost_usd r)).

Definition page {A} (offset limit : Z) (l : list A) : list A := take (Z.to_nat limit) (drop (Z.to_nat offset) l).

Definition filter_offset (f : RequestFilter) : Z := Z.max (unwrap_or (f_offset f) 0) 0.

Definition query_requests (now_ms : Z) (f : RequestFilter) : LM (list RequestRow * Z) :=
  let since := window_since now_ms (f_hours f) in
  let limit := page_limit (f_limit f) (is_csv (f_format f)) in
  total ← fetch (internal "request count") (fun d => Ok (Z.of_nat (length (List.filter (list_where since f) (request_log d)))));
  rows ← fetch (internal "request query") (fun d => collect request_row (page (filter_offset f) limit (listed since f d)));
  mret (rows, total).

Definition requests_header : list string :=
  ["id"; "time"; "model"; "pool"; "key_hash"; "tenant"; "status"; "prompt"; "completion"; "cache"; "finish_reason";
   "error_code"; "latency_ms"; "ttft_ms"; "retry"; "stream"; "cost_usd"].

Definition requests_csv_row (r : RequestRow) : list string :=
  [csv_quote (rr_id r); csv_quote (format_ts (rr_ts r)); csv_quote (rr_model r); csv_quote (rr_pool_id r);
   csv_quote (rr_key_hash r); csv_quote (rr_tenant_id r); csv_quote (rr_status_code r); csv_quote (rr_prompt_tokens r);
   csv_quote (rr_completion_tokens r); csv_quote (rr_cached_tokens r); csv_quote (unwrap_or (rr_finish_reason r) "");
   csv_quote (unwrap_or (rr_error_code r) ""); string_of_Z (rr_latency_ms r); csv_quote (unwrap_or (rr_ttft_ms r) "");
   string_of_Z (rr_retry_count r); if rr_is_stream r then "1" else "0"; unwrap_or (fixed 6 <$> rr_cost_usd r) ""].

Definition requests_csv (rows : list RequestRow) : string :=
  csv_line requests_header +:+ str_concat ((fun r => csv_line (requests_csv_row r)) <$> rows).

Definition request_list_handler (now_ms : Z) (f : RequestFilter) : LM (Screen RequestsResponse) :=
  tenants ← query_tenant_list;
  found ← query_requests now_ms f;
  let '(rows, total) := found in
  let has_more := i64 (filter_offset f + Z.of_nat (length rows)) <? total in
  if is_csv (f_format f) then mret (CsvScreen _ (requests_csv rows))
  else mret (JsonScreen _ (mkRequests rows f tenants total has_more)).

(** [RequestDetail] is the row with its booleans and defaults filled in. *)
Record RequestDetail := mkDetail {
  rd_row : LogRow; rd_status_code : option Z; rd_is_stream : bool; rd_retry_count : Z; rd_tenant_id : string
}.

Definition request_detail_handler (id : string) : LM RequestDetail :=
  found ← fetch (internal "request detail") (fun d =>
    match List.find (fun r => str_eqb (lr_id r) id) (request_log d) with
    | None => Ok None
    | Some r =>
        let? status := decode_opt decode_i32 (lr_status_code r) in
        let? retry := decode_opt decode_i32 (lr_retry_count r) in
        let? stream := decode_i32 (lr_is_stream r) in
        Ok (Some (mkDetail r status (negb (stream =? 0)) (unwrap_or retry 0) (unwrap_or (lr_tenant_id r) "")))
    end);
  match found with
  | Some r => mret r
  | None => refuse (NotFound ("request " +:+ id))
  end.

(** ** Totals per group *)

(** [SUM(column)] over a group of [audit_hourly]. *)
Definition SUM (c : Column) (g : list AuditRow) : Result Z DbError := sql_sum (audit_value c <$> g).

(** [SELECT key, .. WHERE p GROUP BY key] *)
Definition select {K R} `{EqDecision K} (key : AuditRow -> K) (p : AuditRow -> bool) (row : K * list AuditRow -> Result R DbError)
    (d : LogDb) : Result (list R) DbError :=
  collect row (scan (group_by key (List.filter p (audit_hourly d)))).

Definition tenant_is (tenant : option string) (r : AuditRow) : bool := matches tenant (d_tenant_id (ar_dims r)).
Definition since_hour (start : Z) (tenant : option string) (r : AuditRow) : bool := (start <=? ar_hour r) && tenant_is tenant r.

Definition div (a b : Z) : Z := if 0 <? b then Z.quot a b else 0.

Definition model_cost (pricing : PricingConfig) (model : string) (tenant : option string) (prompt completion : Z) : Q :=
  unwrap_or (cost_usd pricing model tenant prompt completion) 0%Q.

(** [iter.sum::<f64>()]: from zero, left to right. *)
Definition sum_f64 {A} (f : A -> Q) (l : list A) : Q := foldl (fun a x => fadd a (f x)) 0%Q l.

(** ** Usage *)

Record ModelRow := mkModelRow {
  mo_model : string; mo_requests : Z; mo_success : Z; mo_latency_ms_sum : Z; mo_prompt_tokens : Z;
  mo_completion_tokens : Z; mo_cached_tokens : Z
}.

Definition model_row (kg : string * list AuditRow) : Result ModelRow DbError :=
  let '(k, g) := kg in
  let? requests := SUM RequestCount g in
  let? success := SUM SuccessCount g in
  let? latency := SUM LatencyMsSum g in
  let? prompt := SUM PromptTokens g in
  let? completion := SUM CompletionTokens g in
  let? cached := SUM CachedTokens g in
  Ok (mkModelRow k requests success latency prompt completion cached).

Record HourRow := mkHourRow {
  ho_hour : Z; ho_requests : Z; ho_success : Z; ho_latency_ms_sum : Z; ho_prompt_tokens : Z;
  ho_completion_tokens : Z; ho_cached_tokens : Z
}.

Definition hour_row (kg : Z * list AuditRow) : Result HourRow DbError :=
  let '(k, g) := kg in
  let? requests := SUM RequestCount g in
  let? success := SUM SuccessCount g in
  let? latency := SUM LatencyMsSum g in
  let? prompt := SUM PromptTokens g in
  let? completion := SUM CompletionTokens g in
  let? cached := SUM CachedTokens g in
  Ok (mkHourRow k requests success latency prompt completion cached).

Record UsageSummary := mkUsageSummary {
  us_requests : Z; us_errors : Z; us_prompt_tokens : Z; us_completion_tokens : Z; us_cached_tokens : Z;
  us_avg_latency_ms : Z; us_cost_usd : Q
}.

Definition summarize (rows : list ModelRow) (pricing : PricingConfig) (tenant : option string) : UsageSummary :=
  let requests := sum_i64 mo_requests rows in
  let success := sum_i64 mo_success rows in
  let latency_ms_sum := sum_i64 mo_latency_ms_sum rows in
  mkUsageSummary requests (i64 (requests - success)) (sum_i64 mo_prompt_tokens rows) (sum_i64 mo_completion_tokens rows)
    (sum_i64 mo_cached_tokens rows) (div latency_ms_sum requests)
    (sum_f64 (fun r => model_cost pricing (mo_model r) tenant (mo_prompt_tokens r) (mo_completion_tokens r)) rows).

Record UsagePoint := mkPoint {
  up_ts : Z; up_label : string; up_requests : Z; up_errors : Z; up_avg_latency_ms : Z; up_prompt_tokens : Z;
  up_completion_tokens : Z; up_cached_tokens : Z; up_cost_usd : Q
}.

Record UsageModelRow := mkUsageModel {
  um_model : string; um_requests : Z; um_errors : Z; um_prompt_tokens : Z; um_completion_tokens : Z;
  um_cached_tokens : Z; um_avg_latency_ms : Z; um_cost_usd : Q; um_cache_hit_rate : Q
}.

Record UsageResponse := mkUsageResponse {
  ur_hours : Z; ur_today : UsageSummary; ur_total : UsageSummary; ur_trend : list UsagePoint;
  ur_models : list UsageModelRow; ur_tenants : list string; ur_selected_tenant : option string
}.

Definition hour_label (hour : Z) : string :=
  let secs_of_day := hour mod 86400 in
  two_digits (Z.quot secs_of_day 3600) +:+ ":" +:+ two_digits (Z.quot (Z.rem secs_of_day 3600) 60).

(** The costs of the hours; the pairs of a map, looked up by hour. *)
Definition hour_cost_row (kg : (Z * string) * list AuditRow) : Result (Z * string * Z * Z) DbError :=
  let '((h, m), g) := kg in
  let? prompt := SUM PromptTokens g in
  let? completion := SUM CompletionTokens g in
  Ok (h, m, prompt, completion).

Definition add_hour_cost (pricing : PricingConfig) (tenant : option string) (costs : gmap Z Q) (r : Z * string * Z * Z) : gmap Z Q :=
  let '(h, m, prompt, completion) := r in
  <[h := fadd (unwrap_or (costs !! h) 0%Q) (model_cost pricing m tenant prompt completion)]> costs.

Definition hourly_costs (now_secs hours : Z) (pricing : PricingConfig) (tenant : option string) : LM (gmap Z Q) :=
  let start := (Z.quot now_secs 3600 - hours) * 3600 in
  rows ← fetch (internal "usage hourly cost query")
           (select (fun r => (ar_hour r, d_model (ar_dims r))) (since_hour start tenant) hour_cost_row);
  mret (foldl (add_hour_cost pricing tenant) ∅ rows).

Definition usage_point (r : HourRow) : UsagePoint :=
  mkPoint (ho_hour r) (hour_label (ho_hour r)) (ho_requests r) (i64 (ho_requests r - ho_success r))
    (div (ho_latency_ms_sum r) (ho_requests r)) (ho_prompt_tokens r) (ho_completion_tokens r) (ho_cached_tokens r) 0%Q.

Definition set_point_cost (costs : gmap Z Q) (p : UsagePoint) : UsagePoint :=
  mkPoint (up_ts p) (up_label p) (up_requests p) (up_errors p) (up_avg_latency_ms p) (up_prompt_tokens p)
    (up_completion_tokens p) (up_cached_tokens p) (unwrap_or (costs !! up_ts p) 0%Q).

Definition usage_model (pricing : PricingConfig) (tenant : option string) (r : ModelRow) : UsageModelRow :=
  mkUsageModel (mo_model r) (mo_requests r) (i64 (mo_requests r - mo_success r)) (mo_prompt_tokens r)
    (mo_completion_tokens r) (mo_cached_tokens r) (div (mo_latency_ms_sum r) (mo_requests r))
    (model_cost pricing (mo_model r) tenant (mo_prompt_tokens r) (mo_completion_tokens r))
    (if 0 <? mo_prompt_tokens r
     then fmul (fdiv (f64_of_Z (mo_cached_tokens r)) (f64_of_Z (mo_prompt_tokens r))) 100 else 0%Q).

Definition earlier_hour (a b : HourRow) : Prop := ho_hour a <= ho_hour b.
#[global] Instance earlier_hour_dec a b : Decision (earlier_hour a b).
Proof. unfold earlier_hour. apply _. Defined.
Definition busier (a b : ModelRow) : Prop := mo_requests b <= mo_requests a.
#[global] Instance busier_dec a b : Decision (busier a b).
Proof. unfold busier. apply _. Defined.

Definition by_model (r : AuditRow) : string := d_model (ar_dims r).

(** [now_secs] is the clock of the handler, [pricing] the store's table. *)
Definition admin_api_usage (now_secs : Z) (pricing : PricingConfig) (q_hours : option Z) (q_tenant : option string) : LM UsageResponse :=
  let hours := clamp (unwrap_or q_hours 168) 1 (24 * 365) in
  tenants ← query_tenant_list;
  let now_hour := Z.quot now_secs 3600 in
  let day_start := Z.quot now_secs 86400 * 86400 in
  let trend_start := (now_hour - hours) * 3600 in
  hour_rows ← fetch (internal "usage trend query")
    (fun d => let? l := select ar_hour (since_hour trend_start q_tenant) hour_row d in Ok (merge_sort earlier_hour l));
  trend_costs ← hourly_costs now_secs hours pricing q_tenant;
  let trend := (fun r => set_point_cost trend_costs (usage_point r)) <$> hour_rows in
  model_rows ← fetch (internal "usage model query")
    (fun d => let? l := select by_model (since_hour trend_start q_tenant) model_row d in Ok (merge_sort busier l));
  let models := usage_model pricing q_tenant <$> model_rows in
  let total := summarize model_rows pricing q_tenant in
  today_rows ← fetch (internal "usage today query") (select by_model (since_hour day_start q_tenant) model_row);
  mret (mkUsageResponse hours (summarize today_rows pricing q_tenant) total trend models tenants q_tenant).

(** ** Cost overview *)

Record CostRow := mkCostRow {
  co_model : string; co_pool_id : string; co_prompt_tokens : Z; co_completion_tokens : Z; co_cached_tokens : Z;
  co_requests : Z; co_errors : Z; co_cost_usd : string
}.

Record CostStats := mkCostStats {
  ct_total_requests : string; ct_total_cost : string; ct_avg_latency : string; ct_error_rate : string;
  ct_total_errors : Z; ct_prompt_tokens : Z; ct_completion_tokens : Z; ct_cached_tokens : Z
}.

Record CostResponse := mkCostResponse {
  cr_rows : list CostRow; cr_tenants : list string; cr_selected_tenant : option string; cr_stats : CostStats
}.

Definition cost_hours (q_hours : option Z) : Z := clamp (unwrap_or q_hours 24) 1 (24 * 365).
Definition in_hours (start stop : Z) (tenant : option string) (r : AuditRow) : bool :=
  (start <=? ar_hour r) && (ar_hour r <? stop) && tenant_is tenant r.
Definition cost_window (now_secs : Z) (q_hours : option Z) (tenant : option string) : AuditRow -> bool :=
  in_hours ((Z.quot now_secs 3600 - cost_hours q_hours) * 3600) ((Z.quot now_secs 3600 + 1) * 3600) tenant.

Definition cost_row (pricing : PricingConfig) (tenant : option string) (kg : (string * string) * list AuditRow) : Result CostRow DbError :=
  let '((model, pool), g) := kg in
  let? requests := SUM RequestCount g in
  let? success := SUM SuccessCount g in
  let? prompt := SUM PromptTokens g in
  let? completion := SUM CompletionTokens g in
  let? cached := SUM CachedTokens g in
  let cost := match cost_usd pricing model tenant prompt completion with Some c => "$" +:+ fixed 6 c | None => "?" end in
  Ok (mkCostRow model pool prompt completion cached requests (i64 (requests - success)) cost).

Definition by_model_pool (r : AuditRow) : string * string := (d_model (ar_dims r), d_pool_id (ar_dims r)).

Definition model_order (a b : CostRow) : Prop := str_le (co_model a) (co_model b).
#[global] Instance model_order_dec a b : Decision (model_order a b).
Proof. unfold model_order. apply _. Defined.

Definition query_cost (now_secs : Z) (pricing : PricingConfig) (q_hours : option Z) (q_tenant : option string) : LM (list CostRow) :=
  rows ← fetch (internal "cost query") (select by_model_pool (cost_window now_secs q_hours q_tenant) (cost_row pricing q_tenant));
  mret (merge_sort model_order rows).

Definition cost_sum (pricing : PricingConfig) (tenant : option string) (rows : list CostRow) : Q :=
  sum_f64 (fun r => model_cost pricing (co_model r) tenant (co_prompt_tokens r) (co_completion_tokens r)) rows.

Definition query_cost_stats (now_secs : Z) (pricing : PricingConfig) (q_hours : option Z) (q_tenant : option string) : LM CostStats :=
  row ← fetch (internal "stats query") (fun d =>
    let g := scan (List.filter (cost_window now_secs q_hours q_tenant) (audit_hourly d)) in
    let? requests := SUM RequestCount g in
    let? success := SUM SuccessCount g in
    let? latency := SUM LatencyMsSum g in
    Ok (requests, success, latency));
  let '(total_requests, success, latency_ms_sum) := row in
  let total_errors := i64 (total_requests - success) in
  let avg_latency := if 0 <? total_requests then string_of_Z (Z.quot latency_ms_sum total_requests) +:+ "ms" else absent in
  let error_rate := if 0 <? total_requests
    then fixed 1 (fmul (fdiv (f64_of_Z (i64 (total_requests - success))) (f64_of_Z total_requests)) 100) +:+ "%" else absent in
  rows ← query_cost now_secs pricing q_hours q_tenant;
  let total_cost := match rows with
    | [] => absent
    | _ => let sum := cost_sum pricing q_tenant rows in if negb (Qle_bool sum 0) then "$" +:+ fixed 4 sum else "?"
    end in
  mret (mkCostStats (string_of_Z total_requests) total_cost avg_latency error_rate total_errors
          (sum_i64 co_prompt_tokens rows) (sum_i64 co_completion_tokens rows) (sum_i64 co_cached_tokens rows)).

Definition cost_header : list string :=
  ["model"; "pool"; "prompt_tokens"; "completion_tokens"; "cached_tokens"; "requests"; "errors"; "cost_usd"].
Definition cost_csv_row (r : CostRow) : list string :=
  [csv_quote (co_model r); csv_quote (co_pool_id r); string_of_Z (co_prompt_tokens r); string_of_Z (co_completion_tokens r);
   string_of_Z (co_cached_tokens r); string_of_Z (co_requests r); string_of_Z (co_errors r); csv_quote (co_cost_usd r)].

Definition cost_overview_handler (now_secs : Z) (pricing : PricingConfig) (q_hours : option Z) (q_tenant q_format : option string)
    : LM (Screen CostResponse) :=
  tenants ← query_tenant_list;
  rows ← query_cost now_secs pricing q_hours q_tenant;
  stats ← query_cost_stats now_secs pricing q_hours q_tenant;
  if is_csv q_format
  then mret (CsvScreen _ (csv_line cost_header +:+ str_concat ((fun r => csv_line (cost_csv_row r)) <$> rows)))
  else mret (JsonScreen _ (mkCostResponse rows tenants q_tenant stats)).

(** ** Traffic *)

Record LineData := mkLine { ld_points : string; ld_color : string }.
Record LabelData := mkLabel { lb_x : Z; lb_text : string }.
Record ChartData := mkChart { ch_lines : list LineData; ch_labels : list LabelData }.

Record DayRow := mkDayRow { dr_day : Z; dr_rqs : Z; dr_lat_sum : Z; dr_cnt : Z }.

Definition day_row (kg : Z * list AuditRow) : Result DayRow DbError :=
  let '(day, g) := kg in
  let? rqs := SUM RequestCount g in
  let? lat := SUM LatencyMsSum g in
  let? cnt := SUM RequestCount g in
  Ok (mkDayRow day rqs lat cnt).

Definition day_of (r : AuditRow) : Z := Z.quot (ar_hour r) 86400 * 86400.

Definition earlier_day (a b : DayRow) : Prop := dr_day a <= dr_day b.
#[global] Instance earlier_day_dec a b : Decision (earlier_day a b).
Proof. unfold earlier_day. apply _. Defined.

Definition query_traffic_raw (now_secs days : Z) (tenant : option string) : LM (list DayRow) :=
  let start := (Z.quot now_secs 3600 - days * 24) * 3600 in
  fetch (internal "traffic query")
    (fun d => let? l := select day_of (since_hour start tenant) day_row d in Ok (merge_sort earlier_day l)).

(** [iter.max().unwrap_or(1).max(1)] *)
Definition max_or_1 (l : list Z) : Z := Z.max (match l with [] => 1 | z :: l' => foldl Z.max z l' end) 1.

Definition avg_latency_of (r : DayRow) : Z := div (dr_lat_sum r) (dr_cnt r).

(** [base - (v as f64 / max as f64 * height) as i64] *)
Definition chart_y (base height v max : Z) : Z :=
  i64 (base - f64_as_i64 (fmul (fdiv (f64_of_Z v) (f64_of_Z max)) (inject_Z height))).

Definition point (x y : Z) : string := " " +:+ string_of_Z x +:+ "," +:+ string_of_Z y.

Definition day_label (day : Z) : string :=
  if 0 <? day then string_of_Z (Z.rem (Z.quot day 86400) 31 + 1) +:+ day_sign else "?".

Definition traffic_chart (days : Z) (rows : list DayRow) : ChartData :=
  match rows with
  | [] => mkChart [] []
  | _ =>
      let max_rqs := max_or_1 (dr_rqs <$> rows) in
      let max_lat := max_or_1 (avg_latency_of <$> rows) in
      let x (i : nat) := 40 + Z.of_nat i * Z.max (Z.min 50 days) 3 in
      mkChart
        [mkLine ("40,200" +:+ str_concat (imap (fun i r => point (x i) (chart_y 200 160 (dr_rqs r) max_rqs)) rows)) "#2563eb";
         mkLine ("40,200" +:+ str_concat (imap (fun i r => point (x i) (chart_y 200 160 (avg_latency_of r) max_lat)) rows)) "#dc2626"]
        (imap (fun i r => mkLabel (x i) (day_label (dr_day r))) rows)
  end.

Record TrafficResponse := mkTraffic {
  tf_chart : ChartData; tf_days : Z; tf_w : Z; tf_tenants : list string; tf_selected_tenant : option string
}.

Definition traffic_trend_handler (now_secs : Z) (q_days : option Z) (q_tenant q_format : option string) : LM (Screen TrafficResponse) :=
  tenants ← query_tenant_list;
  let days := clamp (unwrap_or q_days 7) 1 90 in
  rows ← query_traffic_raw now_secs days q_tenant;
  let chart := traffic_chart days rows in
  let w := 40 + Z.max days 7 * 50 in
  if is_csv q_format then
    raw ← query_traffic_raw now_secs days q_tenant;
    mret (CsvScreen _ (csv_line ["day"; "requests"; "avg_latency_ms"] +:+
      str_concat ((fun r => csv_line [string_of_Z (dr_day r); string_of_Z (dr_rqs r); string_of_Z (avg_latency_of r)]) <$> raw)))
  else mret (JsonScreen _ (mkTraffic chart days w tenants q_tenant)).

(** ** Cost of one model over three days *)

Record DrillHour := mkDrillHour { dh_requests : Z; dh_success : Z; dh_billable : Z; dh_completion : Z; dh_cached : Z; dh_latency : Z }.
Record DrilldownStats := mkDrillStats { ds_cost : string; ds_hit_rate : string; ds_avg_latency : string }.

Definition cache_discount (source : string) : Q :=
  if str_eqb source "OpenAiPromptCache" then 1 # 2
  else if str_eqb source "DeepSeekPromptCache" then rnd (1 # 10)
  else if str_eqb source "AnthropicCacheControl" then rnd (1 # 10)
  else if str_eqb source "GeminiCachedContent" then 1 # 4
  else 1.

Record DrillRow := mkDrillRow {
  dw_hour : Z; dw_source : string; dw_requests : Z; dw_success : Z; dw_prompt : Z; dw_completion : Z; dw_cached : Z; dw_latency : Z
}.

Definition drill_row (kg : (Z * string) * list AuditRow) : Result DrillRow DbError :=
  let '((h, s), g) := kg in
  let? requests := SUM RequestCount g in
  let? success := SUM SuccessCount g in
  let? prompt := SUM PromptTokens g in
  let? completion := SUM CompletionTokens g in
  let? cached := SUM CachedTokens g in
  let? latency := SUM LatencyMsSum g in
  Ok (mkDrillRow h s requests success prompt completion cached latency).

Definition billable_prompt (r : DrillRow) : Z :=
  i64 (i64 (dw_prompt r - dw_cached r) + f64_as_i64 (fmul (f64_of_Z (dw_cached r)) (cache_discount (dw_source r)))).

Definition add_drill (hourly : gmap Z DrillHour) (r : DrillRow) : gmap Z DrillHour :=
  let e := unwrap_or (hourly !! dw_hour r) (mkDrillHour 0 0 0 0 0 0) in
  <[dw_hour r := mkDrillHour (i64 (dh_requests e + dw_requests r)) (i64 (dh_success e + dw_success r))
      (i64 (dh_billable e + billable_prompt r)) (i64 (dh_completion e + dw_completion r))
      (i64 (dh_cached e + dw_cached r)) (i64 (dh_latency e + dw_latency r))]> hourly.

(** The statistics of the hours' values. *)
Definition drill_stats (pricing : PricingConfig) (model : string) (tenant : option string) (vs : list DrillHour) : DrilldownStats :=
  let total_requests := sum_i64 dh_requests vs in
  let total_billable_prompt := sum_i64 dh_billable vs in
  let total_completion := sum_i64 dh_completion vs in
  let total_cached := sum_i64 dh_cached vs in
  let total_latency := sum_i64 dh_latency vs in
  let price := lookup_price pricing model tenant in
  let prompt_price := fdiv (price_prompt price) 1000000 in
  let completion_price := fdiv (price_completion price) 1000000 in
  let total_cost :=
    if negb (Qle_bool prompt_price 0) || negb (Qle_bool completion_price 0)
    then "$" +:+ fixed 6 (fadd (fmul (f64_of_Z total_billable_prompt) prompt_price) (fmul (f64_of_Z total_completion) completion_price))
    else "?" in
  let total_prompt := i64 (total_billable_prompt + total_cached) in
  let hit_rate := if 0 <? total_prompt
    then fixed 1 (fmul (fdiv (f64_of_Z total_cached) (f64_of_Z total_prompt)) 100) +:+ "%" else absent in
  let avg_latency := if 0 <? total_requests then string_of_Z (Z.quot total_latency total_requests) +:+ "ms" else absent in
  mkDrillStats total_cost hit_rate avg_latency.

Definition drill_chart (hours : list (Z * DrillHour)) : ChartData :=
  let max_rq := max_or_1 ((fun hv => dh_requests hv.2) <$> hours) in
  let max_tok := max_or_1 ((fun hv => Z.max (dh_billable hv.2) (dh_completion hv.2)) <$> hours) in
  let x (i : nat) := 40 + Z.max (Z.of_nat i * 10) 3 in
  let line (f : DrillHour -> Z) (top : Z) := "40,180" +:+ str_concat (imap (fun i hv => point (x i) (chart_y 180 140 (f hv.2) top)) hours) in
  mkChart [mkLine (line dh_requests max_rq) "#3b82f6"; mkLine (line dh_billable max_tok) "#ef4444"; mkLine (line dh_completion max_tok) "#10b981"]
    (imap (fun i hv => mkLabel (x i) (two_digits (Z.rem (Z.quot hv.1 3600) 24))) hours).

Definition hour_le (a b : Z * DrillHour) : Prop := a.1 <= b.1.
#[global] Instance hour_le_dec a b : Decision (hour_le a b).
Proof. unfold hour_le. apply _. Defined.

(** The map's values are summed in any order; the hours are sorted for the chart. *)
Definition query_drilldown (now_secs : Z) (pricing : PricingConfig) (model : string) (tenant : option string) : LM (DrilldownStats * ChartData) :=
  let window_start := (Z.quot now_secs 3600 - 72) * 3600 in
  let window_end := (Z.quot now_secs 3600 + 1) * 3600 in
  rows ← fetch (internal "drilldown query")
    (select (fun r => (ar_hour r, d_cache_source (ar_dims r)))
            (fun r => str_eqb (d_model (ar_dims r)) model && in_hours window_start window_end tenant r) drill_row);
  let hourly := map_to_list (foldl add_drill ∅ rows) in
  mret (drill_stats pricing model tenant (snd <$> hourly), drill_chart (merge_sort hour_le hourly)).

(** ** Keys *)

Record KeyView := mkKeyView { kv_key_hash : string; kv_weight : Z; kv_healthy : bool; kv_sparkline : list Z; kv_success_rate : string }.

Definition day_bucket (kg : Z * list AuditRow) : Result (Z * Z * Z) DbError :=
  let '(day, g) := kg in
  let? success := SUM SuccessCount g in
  let? total := SUM RequestCount g in
  Ok (day, success, total).

Definition bucket_le (a b : Z * Z * Z) : Prop := a.1.1 <= b.1.1.
#[global] Instance bucket_le_dec a b : Decision (bucket_le a b).
Proof. unfold bucket_le. apply _. Defined.

Definition key_success_rate (now_secs : Z) (key_hash : string) : LM (list Z * string) :=
  let window_start := (Z.quot now_secs 3600 - 7 * 24) * 3600 in
  rows ← attempted (fetch (internal "key rate") (fun d =>
    let? l := select day_of (fun r => str_eqb (d_key_hash (ar_dims r)) key_hash && (window_start <=? ar_hour r)) day_bucket d in
    Ok (merge_sort bucket_le l)));
  match rows with
  | None => mret ([], absent)
  | Some rows =>
      let max_total := max_or_1 (snd <$> rows) in
      let sparkline := (fun r => f64_as_u32 (fmul (fdiv (f64_of_Z r.1.2) (f64_of_Z max_total)) 20)) <$> rows in
      let total_success := sum_i64 (fun r => r.1.2) rows in
      let total_all := sum_i64 snd rows in
      let rate := if 0 <? total_all
        then fixed 1 (fmul (fdiv (f64_of_Z total_success) (f64_of_Z total_all)) 100) +:+ "%" else absent in
      mret (sparkline, rate)
  end.

Fixpoint each_map {A B} (f : A -> LM B) (l : list A) : LM (list B) :=
  match l with [] => mret [] | x :: l' => y ← f x; ys ← each_map f l'; mret (y :: ys) end.

(** [snaps] is [pool_snapshot] of the current router. *)
Definition key_health_handler (now_secs : Z) (snaps : list PoolSnapshot) : LM (list (string * list KeyView)) :=
  each_map (fun snap =>
    keys ← each_map (fun ks => sr ← key_success_rate now_secs (ks_key_hash ks);
                               mret (mkKeyView (ks_key_hash ks) (ks_weight ks) (ks_healthy ks) sr.1 sr.2)) (ps_keys snap);
    mret (ps_pool_id snap, keys)) snaps.

(** ** Alerts *)

Definition alert_newest (a b : AlertEventRow) : Prop := ae_ts_secs b <= ae_ts_secs a.
#[global] Instance alert_newest_dec a b : Decision (alert_newest a b).
Proof. unfold alert_newest. apply _. Defined.

Definition query_alert_events (limit : Z) (type_filter tenant_filter : option string) (ts_from ts_to : option Z) : LM (list AlertEventRow) :=
  fetch (internal "alert query") (fun d => Ok (take (Z.to_nat limit) (merge_sort alert_newest (scan (List.filter (fun r =>
    matches type_filter (ae_type r) && matches_opt tenant_filter (ae_tenant_id r) &&
    match ts_from with None => true | Some t => t <=? ae_ts_secs r end &&
    match ts_to with None => true | Some t => ae_ts_secs r <=? t end) (alert_event d)))))).

Record AlertDisplayRow := mkAlertDisplay {
  ad_id : Z; ad_ts : Z; ad_event_type : string; ad_pool_id : string; ad_tenant_id : string; ad_model : string;
  ad_error_code : string; ad_msg : string
}.
Record AlertsResponse := mkAlertsResponse {
  al_events : list AlertDisplayRow; al_event_count : nat; al_selected_type : option string; al_tenant_filter : string;
  al_ts_from : string; al_ts_to : string
}.

Definition alert_display (r : AlertEventRow) : AlertDisplayRow :=
  mkAlertDisplay (ae_id r) (ae_ts_secs r) (ae_type r) (unwrap_or (ae_pool_id r) "") (unwrap_or (ae_tenant_id r) "")
    (unwrap_or (ae_model r) "") (unwrap_or (ae_error_code r) "") (unwrap_or (ae_msg r) "").

Definition alerts_handler (type_filter tenant : option string) (ts_from ts_to : option Z) : LM AlertsResponse :=
  rows ← attempted (query_alert_events 100 type_filter tenant ts_from ts_to);
  let rows := unwrap_or rows [] in
  mret (mkAlertsResponse (alert_display <$> rows) (length rows) type_filter (unwrap_or tenant "") (text_of ts_from) (text_of ts_to)).

(** ** Log export *)

Record ExportRow := mkExportRow {
  ex_row : LogRow; ex_status_code : option Z; ex_prompt_tokens : option Z; ex_completion_tokens : option Z;
  ex_total_tokens : option Z; ex_is_stream : Z
}.

Definition export_row (r : LogRow) : Result ExportRow DbError :=
  let? status := decode_opt decode_i16 (lr_status_code r) in
  let? prompt := decode_opt decode_i32 (lr_prompt_tokens r) in
  let? completion := decode_opt decode_i32 (lr_completion_tokens r) in
  let? total := decode_opt decode_i32 (lr_total_tokens r) in
  let? stream := decode_i32 (lr_is_stream r) in
  Ok (mkExportRow r status prompt completion total stream).

Definition json_opt {A} (f : A -> Value) (o : option A) : Value := match o with Some a => f a | None => Null end.

Definition export_json (e : ExportRow) : Value :=
  let r := ex_row e in
  obj [("id", Str (lr_id r)); ("ts", json_int (lr_ts r)); ("client_ip", json_opt Str (lr_client_ip r));
       ("model", Str (lr_model r)); ("pool_id", Str (lr_pool_id r)); ("key_hash", Str (lr_key_hash r));
       ("status_code", json_opt json_int (ex_status_code e)); ("latency_ms", json_opt json_int (lr_latency_ms r));
       ("prompt_tokens", json_opt json_int (ex_prompt_tokens e)); ("completion_tokens", json_opt json_int (ex_completion_tokens e));
       ("total_tokens", json_opt json_int (ex_total_tokens e)); ("is_stream", Bool (negb (ex_is_stream e =? 0)));
       ("error_code", json_opt Str (lr_error_code r)); ("tenant_id", json_opt Str (lr_tenant_id r));
       ("cost_usd", json_opt (fun q => Number (Float q)) (lr_cost_usd r))].

Inductive ExportBody : Type :=
| Jsonl (body : string)
| JsonDocument (v : Value)               (* pretty-printed *)
| ParquetStub (v : Value).

Definition export_handler `{SJ : SerdeJson} (now_ms : Z) (format : string) (hours : Z) : LM ExportBody :=
  let cutoff := i64 (now_ms - hours * 3600 * 1000) in
  rows ← fetch (internal "export query failed") (fun d =>
    collect export_row (take (Z.to_nat 10000) (merge_sort newest_first (scan (List.filter (fun r => cutoff <? lr_ts r) (request_log d))))));
  if str_eqb format "jsonl" then mret (Jsonl (str_concat ((fun r => to_string (export_json r) +:+ lf) <$> rows)))
  else if str_eqb format "json" then mret (JsonDocument (Array (export_json <$> rows)))
  else if str_eqb format "parquet" then
    mret (ParquetStub (obj [("error", Str "parquet export requires additional native dependencies")]))
  else refuse (BadRequest ("unsupported export format '" +:+ format +:+ "'. use jsonl, json, or parquet")).
End Screens.

(** ** The live event of a logged request *)

Record LiveRequestEvent := mkLive {
  le_event_type : string; le_request_id : string; le_model : string; le_pool_id : string; le_status_code : Z;
  le_latency_ms : Z; le_tokens : option Z; le_ts : Z; le_tenant_id : string; le_key_hash : string;
  le_error_code : option string; le_is_stream : bool; le_cost_usd : option Q
}.

Definition broadcast_request_log (l : RequestLog) : LiveRequestEvent :=
  mkLive "request" (log_id l) (log_model l) (log_pool_id l) (Z.max (unwrap_or (log_status_code l) 0) 0)
    (unwrap_or (log_latency_ms l) 0) ((fun t => if in_range 32 t then t else u32_max) <$> log_total_tokens l)
    (log_ts l) (audit_tenant_id (from_auth (log_audit l))) (log_key_hash l) (log_error_code l) (log_is_stream l) (log_cost_usd l).

(* ------------------------------------------------------------------ *)
(** ** Queries on a quiet driver *)

(** On the tables [d] the screen answers [a] and changes nothing. *)
Definition answers {A} (m : LM A) (d : LogDb) (a : A) : Prop :=
  forall w, quiet w -> lw_db w = d -> exists w', m w = (w', Ok a) /\ quiet w' /\ lw_db w' = d.

Lemma answers_ret {A} (a : A) d : answers (mret a) d a.
Proof. intros w Hq Hd. by exists w. Qed.

Lemma answers_bind {A B} (m : LM A) (k : A -> LM B) d a b : answers m d a -> answers (k a) d b -> answers (m ≫= k) d b.
Proof.
  intros Hm Hk w Hq Hd. destruct (Hm w Hq Hd) as (w1 & E1 & Hq1 & Hd1). destruct (Hk w1 Hq1 Hd1) as (w2 & E2 & ?).
  exists w2. by rewrite (LM_bind_Ok _ _ _ _ _ E1).
Qed.

Lemma answers_fetch {A} on_err (q : LogDb -> Result A DbError) d a : q d = Ok a -> answers (fetch on_err q) d a.
Proof.
  intros E w Hq <-. eexists. split; [apply exec_quiet; [done|by rewrite E]|]. split; [by apply quiet_tail|done].
Qed.

Lemma collect_Ok {A B E} (f : A -> Result B E) (g : A -> B) l : (forall x, x ∈ l -> f x = Ok (g x)) -> collect f l = Ok (g <$> l).
Proof.
  induction l as [|x l IH]; [done|]. intros H. cbn [collect]. rewrite (H x) by apply list_elem_of_here.
  rewrite IH; [done|]. intros y Hy. apply H. by apply list_elem_of_further.
Qed.

Section RequestList.
Context `{SX : Sqlx} `{FD : FixedDisplay}.

(** A row every column of which decodes, as rows written by [log_request] do. *)
Definition decodable (r : LogRow) : Prop :=
  is_Some (lr_tenant_id r) /\
  (forall z, lr_status_code r = Some z \/ lr_retry_count r = Some z \/ lr_is_stream r = z -> - 2 ^ 31 <= z < 2 ^ 31).

(** The row shown for a row of the log. *)
Definition row_view (r : LogRow) : RequestRow :=
  mkRequestRow (lr_id r) (lr_ts r) (lr_model r) (lr_pool_id r) (lr_key_hash r) (unwrap_or (lr_tenant_id r) "")
    (text_of (lr_status_code r)) (text_of (lr_prompt_tokens r)) (text_of (lr_completion_tokens r)) (text_of (lr_cached_tokens r))
    (lr_finish_reason r) (lr_error_code r) (unwrap_or (lr_latency_ms r) 0)
    ((fun t => string_of_Z t +:+ "ms") <$> lr_ttft_ms r) (unwrap_or (lr_retry_count r) 0) (negb (lr_is_stream r =? 0)) (lr_cost_usd r).

Lemma decode_opt_ok o : (forall z, o = Some z -> - 2 ^ 31 <= z < 2 ^ 31) -> decode_opt decode_i32 o = Ok o.
Proof. destruct o as [z|]; [|done]. intros H. cbn [decode_opt]. by rewrite decode_i32_ok by auto. Qed.

Lemma request_row_ok r : decodable r -> request_row r = Ok (row_view r).
Proof.
  intros [_ H]. unfold request_row. rewrite !decode_opt_ok by auto. by rewrite decode_i32_ok by auto.
Qed.

Definition tenants_of (d : LogDb) : list string :=
  merge_sort str_le ((fun o => unwrap_or o "") <$> remove_dups (lr_tenant_id <$> request_log d)).

Lemma tenants_ok d : Forall decodable (request_log d) -> answers query_tenant_list d (tenants_of d).
Proof.
  intros H. apply answers_fetch. rewrite (collect_Ok _ (fun o => unwrap_or o "")); [reflexivity|].
  intros o Ho. apply elem_of_remove_dups, list_elem_of_fmap in Ho as (r & -> & Hr).
  rewrite Forall_forall in H. by destruct (H r Hr) as [[t ->] _].
Qed.

Lemma page_elem {A} offset limit (l : list A) x : x ∈ page offset limit l -> x ∈ l.
Proof. intros H. eapply subseteq_drop, subseteq_take. exact H. Qed.

Lemma listed_perm since f d : listed since f d ≡ₚ List.filter (list_where since f) (request_log d).
Proof. unfold listed. by rewrite merge_sort_Permutation, scan_perm. Qed.

(** What the list handler answers, when the driver and the rows are fine. *)
Lemma request_list_ok now_ms f d : Forall decodable (request_log d) ->
  let rows := listed (window_since now_ms (f_hours f)) f d in
  let shown := row_view <$> page (filter_offset f) (page_limit (f_limit f) (is_csv (f_format f))) rows in
  answers (request_list_handler now_ms f) d
    (if is_csv (f_format f) then CsvScreen _ (requests_csv shown)
     else JsonScreen _ (mkRequests shown f (tenants_of d) (Z.of_nat (length rows))
            (i64 (filter_offset f + Z.of_nat (length shown)) <? Z.of_nat (length rows)))).
Proof.
  intros Hd rows shown. eapply answers_bind; [by apply tenants_ok|]. eapply (answers_bind _ _ _ (shown, Z.of_nat (length rows))).
  - eapply answers_bind; [by apply answers_fetch|]. eapply answers_bind; [apply answers_fetch, (collect_Ok _ row_view)|].
    + intros r Hr. apply request_row_ok. rewrite Forall_forall in Hd. apply Hd.
      apply page_elem in Hr. rewrite listed_perm in Hr. by apply elem_filter_bool in Hr as [? _].
    + unfold rows. rewrite (Permutation_length (listed_perm _ f d)). apply answers_ret.
  - cbn beta iota. destruct (is_csv (f_format f)); apply answers_ret.
Qed.

(** The fields of a record, unquoted. *)
Definition requests_fields (r : RequestRow) : list string :=
  [rr_id r; format_ts (rr_ts r); rr_model r; rr_pool_id r; rr_key_hash r; rr_tenant_id r; rr_status_code r; rr_prompt_tokens r;
   rr_completion_tokens r; rr_cached_tokens r; unwrap_or (rr_finish_reason r) ""; unwrap_or (rr_error_code r) "";
   string_of_Z (rr_latency_ms r); unwrap_or (rr_ttft_ms r) ""; string_of_Z (rr_retry_count r);
   if rr_is_stream r then "1" else "0"; unwrap_or (fixed 6 <$> rr_cost_usd r) ""].

Lemma requests_csv_row_quote r : requests_csv_row r = csv_quote <$> requests_fields r.
Proof.
  unfold requests_csv_row, requests_fields. cbn [fmap list_fmap]. repeat f_equal; symmetry; apply csv_quote_plain;
    try apply plain_string_of_Z; [by destruct (rr_is_stream r)|]. destruct (rr_cost_usd r); [apply fixed_plain|done].
Qed.

Lemma requests_csv_parse rows : csv_parse (requests_csv rows) = Some (requests_header :: (requests_fields <$> rows)).
Proof.
  rewrite <- (csv_parse_lines (requests_header :: (requests_fields <$> rows))).
  - f_equal. unfold requests_csv, str_concat. cbn [fmap list_fmap foldr]. f_equal.
    f_equal. rewrite <- list_fmap_compose. apply list_fmap_ext. intros _ r _.
    unfold compose. by rewrite requests_csv_row_quote.
  - constructor; [done|]. by apply Forall_fmap, Forall_true.
Qed.

(** ** Pages *)

Definition at_offset (f : RequestFilter) (o : Z) : RequestFilter :=
  mkFilter (f_tenant f) (f_format f) (f_model f) (f_pool_id f) (f_finish_reason f) (f_error_code f) (f_min_retry f)
    (f_has_stream f) (f_hours f) (Some o) (f_limit f).

Lemma page_limit_range limit csv : 1 <= page_limit limit csv <= 1000.
Proof. unfold page_limit, clamp. repeat case_match; lia. Qed.

Lemma page_nat {A} (i l : nat) (rows : list A) : page (Z.of_nat i * Z.of_nat l) (Z.of_nat l) rows = take l (drop (i * l) rows).
Proof. unfold page. by rewrite <- Nat2Z.inj_mul, !Nat2Z.id. Qed.

(** The first pages, one after the other, are a prefix. *)
Lemma pages_prefix {A} (l n : nat) (rows : list A) :
  concat ((fun i => take l (drop (i * l) rows)) <$> seq 0 n) = take (n * l) rows.
Proof.
  induction n as [|n IH]; [done|]. rewrite seq_S, fmap_app, concat_app, IH. cbn [fmap list_fmap concat]. rewrite app_nil_r.
  rewrite Nat.mul_succ_l. simpl. apply take_take_drop.
Qed.

#[local] Instance newest_first_total : Total newest_first.
Proof. intros a b. unfold newest_first. lia. Qed.
#[local] Instance newest_first_trans : Transitive newest_first.
Proof. intros a b c. unfold newest_first. lia. Qed.

Lemma listed_sorted since f d : StronglySorted newest_first (listed since f d).
Proof. apply StronglySorted_merge_sort; apply _. Qed.

Lemma has_more_spec {A} (rows : list A) (i l : nat) : (0 < l)%nat -> Z.of_nat (i * l) + Z.of_nat l < 2 ^ 63 ->
  (i64 (Z.of_nat (i * l) + Z.of_nat (length (take l (drop (i * l) rows)))) <? Z.of_nat (length rows)) = true <->
  take l (drop (S i * l) rows) ≠ [].
Proof.
  intros Hl Hb. rewrite length_take, length_drop, i64_small by lia. rewrite Z.ltb_lt.
  assert (take l (drop (S i * l) rows) ≠ [] <-> (S i * l < length rows)%nat) as ->.
  { rewrite <- length_zero_iff_nil, length_take, length_drop. lia. }
  destruct (decide (i * l <= length rows)%nat); lia.
Qed.

(** The pages of the request list, for a filter, a clock and a page size: page [i]
    holds the rows [i] page sizes down the filtered log, newest first, with the
    whole count; it announces more exactly when the next page has a row; and
    enough pages in a row are the filtered log, every row once.*)
Theorem request_pages now_ms f d : Forall decodable (request_log d) -> is_csv (f_format f) = false ->
  let rows := listed (window_since now_ms (f_hours f)) f d in
  let size := Z.to_nat (page_limit (f_limit f) false) in
  let page_rows i := take size (drop (i * size) rows) in
  (forall i, Z.of_nat (i * size) + Z.of_nat size < 2 ^ 63 ->
     exists resp, answers (request_list_handler now_ms (at_offset f (Z.of_nat (i * size)))) d (JsonScreen _ resp) /\
       rs_rows resp = row_view <$> page_rows i /\ rs_total resp = Z.of_nat (length rows) /\
       (rs_has_more resp = true <-> page_rows (S i) ≠ [])) /\
  (forall n, (length rows <= n * size)%nat -> concat (page_rows <$> seq 0 n) = rows) /\
  rows ≡ₚ List.filter (list_where (window_since now_ms (f_hours f)) f) (request_log d) /\
  StronglySorted newest_first rows.
Proof.
  intros Hd Hc rows size page_rows. pose proof (page_limit_range (f_limit f) false) as Hr.
  split; [|split; [|split; [apply listed_perm|apply listed_sorted]]].
  - intros i Hb. set (f' := at_offset f (Z.of_nat (i * size))).
    assert (Hl : listed (window_since now_ms (f_hours f')) f' d = rows) by done.
    pose proof (request_list_ok now_ms f' d Hd) as Ha. cbv zeta in Ha. rewrite Hl in Ha. cbn [f_format f' at_offset] in Ha.
    rewrite Hc in Ha. replace (filter_offset f') with (Z.of_nat (i * size)) in Ha by (unfold filter_offset; cbn; lia).
    cbn [f_limit f' at_offset] in Ha.
    replace (page (Z.of_nat (i * size)) (page_limit (f_limit f) false) rows) with (page_rows i) in Ha
      by (unfold page; by rewrite Nat2Z.id).
    eexists. split; [exact Ha|]. cbn [rs_rows rs_total rs_has_more]. split; [done|]. split; [done|].
    rewrite length_fmap. apply has_more_spec; [lia|done].
  - intros n Hn. unfold page_rows. rewrite pages_prefix. by apply take_ge.
Qed.

(** The CSV of the request list, read by RFC 4180, is the header and then, field
    by field and whatever characters they hold, the rows the list shows.*)
Theorem requests_csv_roundtrip now_ms f d : Forall decodable (request_log d) -> is_csv (f_format f) = true ->
  exists body, answers (request_list_handler now_ms f) d (CsvScreen _ body) /\
    csv_parse body = Some (requests_header :: (requests_fields <$>
      (row_view <$> page (filter_offset f) (page_limit (f_limit f) true) (listed (window_since now_ms (f_hours f)) f d)))).
Proof.
  intros Hd Hc. pose proof (request_list_ok now_ms f d Hd) as Ha. cbv zeta in Ha. rewrite Hc in Ha.
  eexists. split; [exact Ha|]. apply requests_csv_parse.
Qed.
End RequestList.

(* ------------------------------------------------------------------ *)
(** ** Totals *)

(** The counters of the table can be added up. *)
Definition audit_fits (tbl : list AuditRow) : Prop := forall c, fits (audit_value c) tbl.

Lemma audit_fits_filter p tbl : audit_fits tbl -> audit_fits (List.filter p tbl).
Proof. intros H c. by apply fits_filter. Qed.

Section Totals.
Context `{SX : Sqlx} `{FL : F64}.

Definition total (c : Column) (g : list AuditRow) : Z := zsum_of (audit_value c) g.

Lemma SUM_ok c g : audit_fits g -> SUM c g = Ok (total c g).
Proof. intros H. by apply sql_sum_fits. Qed.

Lemma total_range c g : audit_fits g -> 0 <= total c g < 2 ^ 63.
Proof. intros H. destruct (H c) as [H0 H1]. split; [by apply zsum_of_nonneg|done]. Qed.

(** The rows of the grouped queries, with exact sums. *)
Definition model_view (kg : string * list AuditRow) : ModelRow :=
  let '(k, g) := kg in
  mkModelRow k (total RequestCount g) (total SuccessCount g) (total LatencyMsSum g) (total PromptTokens g)
    (total CompletionTokens g) (total CachedTokens g).
Definition hour_view (kg : Z * list AuditRow) : HourRow :=
  let '(k, g) := kg in
  mkHourRow k (total RequestCount g) (total SuccessCount g) (total LatencyMsSum g) (total PromptTokens g)
    (total CompletionTokens g) (total CachedTokens g).
Definition hour_cost_view (kg : (Z * string) * list AuditRow) : Z * string * Z * Z :=
  let '((h, m), g) := kg in (h, m, total PromptTokens g, total CompletionTokens g).

Lemma model_row_ok k g : audit_fits g -> model_row (k, g) = Ok (model_view (k, g)).
Proof. intros H. unfold model_row. by rewrite !SUM_ok by done. Qed.
Lemma hour_row_ok k g : audit_fits g -> hour_row (k, g) = Ok (hour_view (k, g)).
Proof. intros H. unfold hour_row. by rewrite !SUM_ok by done. Qed.
Lemma hour_cost_row_ok k g : audit_fits g -> hour_cost_row (k, g) = Ok (hour_cost_view (k, g)).
Proof. intros H. destruct k. unfold hour_cost_row. by rewrite !SUM_ok by done. Qed.

Lemma select_ok {K R} `{EqDecision K} (key : AuditRow -> K) p row (view : K * list AuditRow -> R) d :
  audit_fits (audit_hourly d) -> (forall k g, audit_fits g -> row (k, g) = Ok (view (k, g))) ->
  select key p row d = Ok (view <$> scan (group_by key (List.filter p (audit_hourly d)))).
Proof.
  intros Hf Hrow. apply collect_Ok. intros [k g] Hg. rewrite scan_perm in Hg. apply group_by_elem in Hg as [-> _].
  by apply Hrow, audit_fits_filter, audit_fits_filter.
Qed.

(** The groups' sums add up to the sum over the rows selected. *)
Lemma select_total {K R} `{EqDecision K} (key : AuditRow -> K) (view : K * list AuditRow -> R) (f : R -> Z) c g l :
  (forall kg, f (view kg) = total c kg.2) -> l ≡ₚ view <$> scan (group_by key g) -> zsum_of f l = total c g.
Proof.
  intros Hf ->. rewrite zsum_of_fmap, scan_perm. rewrite (zsum_of_ext _ (fun kg => zsum_of (audit_value c) kg.2)); [|auto].
  apply group_by_sum.
Qed.

(** What the usage screen answers. *)
Definition usage_start (now_secs : Z) (q_hours : option Z) : Z :=
  (Z.quot now_secs 3600 - clamp (unwrap_or q_hours 168) 1 (24 * 365)) * 3600.
Definition usage_rows (now_secs : Z) (q_hours : option Z) (q_tenant : option string) (d : LogDb) : list AuditRow :=
  List.filter (since_hour (usage_start now_secs q_hours) q_tenant) (audit_hourly d).

Lemma usage_ok now_secs pricing q_hours q_tenant d : audit_fits (audit_hourly d) -> Forall decodable (request_log d) ->
  exists resp rows, answers (admin_api_usage now_secs pricing q_hours q_tenant) d resp /\
    rows ≡ₚ model_view <$> scan (group_by by_model (usage_rows now_secs q_hours q_tenant d)) /\
    ur_total resp = summarize rows pricing q_tenant /\ ur_models resp = usage_model pricing q_tenant <$> rows /\
    (exists hours costs, hours ≡ₚ hour_view <$> scan (group_by ar_hour (usage_rows now_secs q_hours q_tenant d)) /\
      ur_trend resp = (fun r => set_point_cost costs (usage_point r)) <$> hours) /\
    exists today, today ≡ₚ model_view <$> scan (group_by by_model (List.filter (since_hour (Z.quot now_secs 86400 * 86400) q_tenant) (audit_hourly d))) /\
      ur_today resp = summarize today pricing q_tenant.
Proof.
  intros Hf Hd. eexists _, _. split.
  - unfold admin_api_usage, hourly_costs. eapply answers_bind; [by apply tenants_ok|].
    eapply answers_bind; [apply answers_fetch; rewrite (select_ok _ _ _ hour_view) by (done || apply hour_row_ok); reflexivity|].
    eapply answers_bind.
    { eapply answers_bind; [apply answers_fetch, (select_ok _ _ _ hour_cost_view); [done|apply hour_cost_row_ok]|apply answers_ret]. }
    eapply answers_bind; [apply answers_fetch; rewrite (select_ok _ _ _ model_view) by (done || apply model_row_ok); reflexivity|].
    eapply answers_bind; [apply answers_fetch, (select_ok _ _ _ model_view); [done|apply model_row_ok]|]. apply answers_ret.
  - cbn [ur_total ur_models ur_trend ur_today]. split; [apply (merge_sort_Permutation busier)|]. split; [done|]. split; [done|]. split.
    + eexists _, _. split; [|reflexivity]. apply (merge_sort_Permutation earlier_hour).
    + eexists _. split; [|reflexivity]. done.
Qed.

(** The counters of the window, on a table that fits. *)
Lemma summarize_totals rows g pricing tenant : audit_fits g -> rows ≡ₚ model_view <$> scan (group_by by_model g) ->
  let s := summarize rows pricing tenant in
  us_requests s = total RequestCount g /\ us_errors s = i64 (total RequestCount g - total SuccessCount g) /\
  us_prompt_tokens s = total PromptTokens g /\ us_completion_tokens s = total CompletionTokens g /\
  us_cached_tokens s = total CachedTokens g /\ us_avg_latency_ms s = div (total LatencyMsSum g) (total RequestCount g).
Proof.
  intros Hf Hp. unfold summarize. rewrite !sum_i64_spec. cbn [us_requests us_errors us_prompt_tokens us_completion_tokens us_cached_tokens us_avg_latency_ms].
  assert (T : forall f c, (forall kg, f (model_view kg) = total c kg.2) -> i64 (zsum_of f rows) = total c g).
  { intros f c Hfc. rewrite (select_total by_model model_view f c g) by done. apply i64_small. pose proof (total_range c g Hf). lia. }
  rewrite (T mo_requests RequestCount), (T mo_success SuccessCount), (T mo_prompt_tokens PromptTokens),
    (T mo_completion_tokens CompletionTokens), (T mo_cached_tokens CachedTokens), (T mo_latency_ms_sum LatencyMsSum) by (by intros []).
  done.
Qed.
End Totals.

Section UsageOfLog.
Context `{SX : Sqlx} `{FL : F64} `{SR : SumReal}.

Lemma filter_true {A} (l : list A) : List.filter (fun _ => true) l = l.
Proof. induction l; simpl; congruence. Qed.

Lemma table_exact_fits log hs tbl : Forall (Z.divide 3600) hs -> log_fits log -> table_exact log hs tbl -> audit_fits tbl.
Proof.
  intros Hd Hf He c. split.
  - intros r Hr. rewrite (table_exact_perm log hs tbl Hd He) in Hr. apply list_elem_of_fmap in Hr as ([[h k] g] & -> & Hg).
    apply group_by_elem in Hg as [-> _]. rewrite summary_value. apply zsum_of_nonneg. intros x [Hx _]%elem_filter_bool.
    apply elem_filter_bool in Hx as [Hx _]. by apply (Hf c).
  - pose proof (table_exact_total log hs tbl (fun _ => true) c Hd He) as E. rewrite filter_true in E. rewrite E. by apply fits_filter.
Qed.

Lemma hours_divide ticks : Forall (Z.divide 3600) (rev (last_hour <$> ticks) ++ []).
Proof. rewrite app_nil_r. apply Forall_rev, Forall_fmap, Forall_forall. intros now _. apply last_hour_div. Qed.

(** The rows of the log a screen speaks of: aggregated, since [start], of the tenant. *)
Definition counted (ticks : list Z) (start : Z) (q_tenant : option string) (r : LogRow) : bool :=
  bool_decide (hour_of r ∈ last_hour <$> ticks) && ((start <=? hour_of r) && matches q_tenant (d_tenant_id (dims_of r))).

(** The totals over a part of the table, given by hour and dimensions, are the log's. *)
Lemma counted_totals ticks start q_tenant log d (p : Z * Dims -> bool) c : table_exact log (rev (last_hour <$> ticks) ++ []) (audit_hourly d) ->
  total c (List.filter (fun r => p (ar_key r)) (List.filter (since_hour start q_tenant) (audit_hourly d)))
  = zsum_of (log_value c) (List.filter (fun r => p (log_key r)) (List.filter (counted ticks start q_tenant) log)).
Proof.
  intros He. unfold total. rewrite !filter_andb.
  etransitivity; [apply (table_exact_total log (rev (last_hour <$> ticks) ++ []) (audit_hourly d)
    (fun hk => (start <=? hk.1) && matches q_tenant (d_tenant_id hk.2) && p hk) c); [apply hours_divide|done]|].
  f_equal. apply filter_ext. intros r. unfold counted. cbn [log_key fst snd]. rewrite !andb_assoc. do 3 f_equal.
  apply bool_decide_ext. rewrite app_nil_r, !list_elem_of_In, <- in_rev. done.
Qed.

Lemma errors_count rows : zsum_of (log_value RequestCount) rows - zsum_of (log_value SuccessCount) rows =
  Z.of_nat (count_if (fun r => negb (is_2xx (lr_status_code r))) rows).
Proof.
  unfold count_if. induction rows as [|r rows IH]; [done|]. rewrite !zsum_of_cons. cbn [log_value List.filter].
  destruct (is_2xx (lr_status_code r)); cbn [negb]; [|cbn [length]]; lia.
Qed.

(** What a line of a screen reports of some rows of the log: how many they are, how many
    of them failed, their tokens, their mean latency in whole milliseconds. *)
Record reports (rows : list LogRow) (requests errors prompt completion cached latency : Z) : Prop := {
  rp_requests : requests = Z.of_nat (length rows);
  rp_errors : errors = Z.of_nat (count_if (fun r => negb (is_2xx (lr_status_code r))) rows);
  rp_prompt : prompt = zsum_of (log_value PromptTokens) rows;
  rp_completion : completion = zsum_of (log_value CompletionTokens) rows;
  rp_cached : cached = zsum_of (log_value CachedTokens) rows;
  rp_latency : latency = Z.quot (zsum_of (log_value LatencyMsSum) rows) (Z.of_nat (length rows))
}.

Lemma totals_report g rows : audit_fits g -> (forall c, total c g = zsum_of (log_value c) rows) ->
  reports rows (total RequestCount g) (i64 (total RequestCount g - total SuccessCount g)) (total PromptTokens g) (total CompletionTokens g)
    (total CachedTokens g) (div (total LatencyMsSum g) (total RequestCount g)).
Proof.
  intros Hf HT. assert (total RequestCount g = Z.of_nat (length rows)) as Hn
    by (rewrite HT; change (log_value RequestCount) with (fun _ : LogRow => 1); apply zsum_of_one).
  split; try (by apply HT); [done| |].
  - rewrite !HT, errors_count. apply i64_small. pose proof (total_range RequestCount g Hf) as Hr. rewrite Hn in Hr.
    pose proof (filter_length_le (fun r => negb (is_2xx (lr_status_code r))) rows). unfold count_if. lia.
  - rewrite Hn, HT. unfold div. destruct (Z.ltb_spec 0 (Z.of_nat (length rows))); [done|].
    assert (Z.of_nat (length rows) = 0) as -> by lia. symmetry; by apply Z.quot_0_r_ext.
Qed.

Lemma summary_report rows g pricing tenant part : audit_fits g -> rows ≡ₚ model_view <$> scan (group_by by_model g) ->
  (forall c, total c g = zsum_of (log_value c) part) ->
  let s := summarize rows pricing tenant in
  reports part (us_requests s) (us_errors s) (us_prompt_tokens s) (us_completion_tokens s) (us_cached_tokens s) (us_avg_latency_ms s).
Proof.
  intros Hf Hp HT s. destruct (summarize_totals rows g pricing tenant Hf Hp) as (E1 & E2 & E3 & E4 & E5 & E6). fold s in E1, E2, E3, E4, E5, E6.
  rewrite E1, E2, E3, E4, E5, E6. by apply totals_report.
Qed.

(** The rows of an hour, of a model. *)
Definition in_point (p : UsagePoint) (r : LogRow) : bool := bool_decide (hour_of r = up_ts p).
Definition of_model (m : UsageModelRow) (r : LogRow) : bool := bool_decide (lr_model r = um_model m).

(** Claim C26: from the log to the screen, while the log's database does not fail.  Start
    from a log and no totals, let the aggregator run at the given times, then ask for
    the usage of a window, with or without a tenant: the total of the answer reports
    exactly the log rows of the aggregated hours in the window (and of the tenant):
    their number, the failures among them, the prompt, completion and cached
    tokens, the mean latency; so does the summary of today, for the rows since
    midnight; each point of the hourly trend reports so the rows of its hour, each
    line of the table of models those of its model with their price, no hour and no
    model is listed twice, and the lines account for all the rows. *)
Theorem usage_reports_log ticks now_secs pricing q_hours q_tenant w :
  quiet w -> audit_hourly (lw_db w) = [] -> log_fits (request_log (lw_db w)) -> Forall decodable (request_log (lw_db w)) ->
  let since start := List.filter (counted ticks start q_tenant) (request_log (lw_db w)) in
  let rows := since (usage_start now_secs q_hours) in
  exists w' resp, spawn_aggregator ticks w = (w', Ok tt) /\
    answers (admin_api_usage now_secs pricing q_hours q_tenant) (lw_db w') resp /\
    (let t := ur_total resp in
     reports rows (us_requests t) (us_errors t) (us_prompt_tokens t) (us_completion_tokens t) (us_cached_tokens t) (us_avg_latency_ms t)) /\
    (let t := ur_today resp in
     reports (since (Z.quot now_secs 86400 * 86400)) (us_requests t) (us_errors t) (us_prompt_tokens t) (us_completion_tokens t)
       (us_cached_tokens t) (us_avg_latency_ms t)) /\
    (forall p, p ∈ ur_trend resp ->
       reports (List.filter (in_point p) rows) (up_requests p) (up_errors p) (up_prompt_tokens p) (up_completion_tokens p)
         (up_cached_tokens p) (up_avg_latency_ms p)) /\
    NoDup (up_ts <$> ur_trend resp) /\ zsum_of up_requests (ur_trend resp) = Z.of_nat (length rows) /\
    (forall m, m ∈ ur_models resp ->
       reports (List.filter (of_model m) rows) (um_requests m) (um_errors m) (um_prompt_tokens m) (um_completion_tokens m)
         (um_cached_tokens m) (um_avg_latency_ms m)
       /\ um_cost_usd m = unwrap_or (cost_usd pricing (um_model m) q_tenant (um_prompt_tokens m) (um_completion_tokens m)) 0%Q) /\
    NoDup (um_model <$> ur_models resp) /\ zsum_of um_requests (ur_models resp) = Z.of_nat (length rows).
Proof.
  intros Hq H0 Hf Hd since rows. set (log := request_log (lw_db w)) in *.
  destruct (ticks_exact log ticks [] w) as (w' & E & Hq' & Hl & He); [done..|by rewrite H0; apply table_exact_nil|].
  pose proof (table_exact_fits _ _ _ (hours_divide ticks) Hf He) as Ha.
  destruct (usage_ok now_secs pricing q_hours q_tenant (lw_db w') Ha) as (resp & mrows & Hans & Hm & Ht & Hu & (hours & costs & Hh & Htr) & (today & Htd & Hty)); [by rewrite Hl|].
  exists w', resp. split; [done|]. split; [done|]. set (g := usage_rows now_secs q_hours q_tenant (lw_db w')) in *.
  assert (audit_fits g) as Hg by (by apply audit_fits_filter).
  assert (forall start c, total c (List.filter (since_hour start q_tenant) (audit_hourly (lw_db w'))) = zsum_of (log_value c) (since start)) as HT.
  { intros start c. pose proof (counted_totals ticks start q_tenant log (lw_db w') (fun _ => true) c He) as H. by rewrite !filter_true in H. }
  assert (total RequestCount g = Z.of_nat (length rows)) as Hn.
  { unfold g, usage_rows. rewrite HT. change (log_value RequestCount) with (fun _ : LogRow => 1). apply zsum_of_one. }
  split; [rewrite Ht; apply (summary_report mrows g); [done|exact Hm|intros c; apply HT]|]. split; [rewrite Hty; eapply summary_report; [|exact Htd|apply HT]; by apply audit_fits_filter|].
  split; [|split; [|split; [|split; [|split]]]].
  - rewrite Htr. intros p (r & -> & Hr)%list_elem_of_fmap. rewrite Hh in Hr. apply list_elem_of_fmap in Hr as ([h gr] & -> & Hgr).
    rewrite scan_perm in Hgr. apply group_by_elem in Hgr as [-> _]. cbn -[total i64 div]. apply totals_report; [by apply audit_fits_filter|]. intros c.
    exact (counted_totals ticks (usage_start now_secs q_hours) q_tenant log (lw_db w') (fun hk : Z * Dims => bool_decide (hk.1 = h)) c He).
  - rewrite Htr, <- list_fmap_compose, Hh, <- list_fmap_compose, (list_fmap_ext _ fst), scan_perm; [apply group_by_nodup|]. by intros i [h gr] _.
  - rewrite Htr, zsum_of_fmap, <- Hn. by apply (select_total ar_hour hour_view ho_requests); [intros []|].
  - rewrite Hu. intros m (r & -> & Hr)%list_elem_of_fmap. rewrite Hm in Hr. apply list_elem_of_fmap in Hr as ([h gr] & -> & Hgr).
    rewrite scan_perm in Hgr. apply group_by_elem in Hgr as [-> _]. cbn -[total i64 div fmul fdiv]. split; [|done].
    apply totals_report; [by apply audit_fits_filter|]. intros c.
    exact (counted_totals ticks (usage_start now_secs q_hours) q_tenant log (lw_db w') (fun hk : Z * Dims => bool_decide (d_model hk.2 = h)) c He).
  - rewrite Hu, <- list_fmap_compose, Hm, <- list_fmap_compose, (list_fmap_ext _ fst), scan_perm; [apply group_by_nodup|]. by intros i [h gr] _.
  - rewrite Hu, zsum_of_fmap, <- Hn. by apply (select_total by_model model_view mo_requests); [intros []|].
Qed.
End UsageOfLog.

(* ------------------------------------------------------------------ *)
(** ** Two screens, one total *)

Section Agreement.
Context `{SX : Sqlx} `{FD : FixedDisplay}.

Definition qsum_of {A} (f : A -> Q) (l : list A) : Q := foldr (fun x q => (f x + q)%Q) 0%Q l.

Lemma qsum_of_cons {A} (f : A -> Q) x l : qsum_of f (x :: l) = (f x + qsum_of f l)%Q.
Proof. done. Qed.
Lemma qsum_of_ext {A} (f g : A -> Q) l : (forall x, x ∈ l -> (f x == g x)%Q) -> (qsum_of f l == qsum_of g l)%Q.
Proof.
  induction l as [|x l IH]; [done|]. intros H. rewrite !qsum_of_cons, (H x) by apply list_elem_of_here. rewrite IH; [done|]. intros y Hy. apply H. by apply list_elem_of_further.
Qed.
Lemma qsum_of_perm {A} (f : A -> Q) l l' : l ≡ₚ l' -> (qsum_of f l == qsum_of f l')%Q.
Proof. induction 1; rewrite ?qsum_of_cons; [done|by rewrite IHPermutation|ring|by etransitivity]. Qed.
Lemma qsum_of_add {A} (f g : A -> Q) l : (qsum_of (fun x => f x + g x) l == qsum_of f l + qsum_of g l)%Q.
Proof. induction l as [|x l IH]; [done|]. rewrite !qsum_of_cons, IH. ring. Qed.
Lemma qsum_of_scale {A} (f : A -> Z) (u : Q) l : (qsum_of (fun x => inject_Z (f x) * u) l == inject_Z (zsum_of f l) * u)%Q.
Proof.
  induction l as [|x l IH]; [done|]. rewrite qsum_of_cons, IH, zsum_of_cons, inject_Z_plus. ring.
Qed.
Lemma qsum_of_fmap {A B} (f : B -> Q) (g : A -> B) l : qsum_of f (g <$> l) = qsum_of (fun x => f (g x)) l.
Proof. induction l as [|x l IH]; [done|]. csimpl. by rewrite IH. Qed.

#[local] Existing Instance exact_f64.

Lemma sum_f64_exact {A} (f : A -> Q) l : (sum_f64 f l == qsum_of f l)%Q.
Proof.
  unfold sum_f64. assert (H : forall a, (foldl (fun a x => fadd a (f x)) a l == a + qsum_of f l)%Q); [|rewrite H; ring].
  induction l as [|x l IH]; intros a; [cbn; ring|]. cbn [foldl]. rewrite IH, qsum_of_cons. unfold fadd, rnd; cbn [exact_f64]. ring.
Qed.

(** Without rounding, the cost of a model is linear in its tokens. *)
Definition prompt_rate (pricing : PricingConfig) (m : string) (t : option string) : Q := (price_prompt (lookup_price pricing m t) / 1000000)%Q.
Definition completion_rate (pricing : PricingConfig) (m : string) (t : option string) : Q := (price_completion (lookup_price pricing m t) / 1000000)%Q.

Lemma model_cost_linear pricing m t p c :
  (model_cost pricing m t p c == inject_Z p * prompt_rate pricing m t + inject_Z c * completion_rate pricing m t)%Q.
Proof.
  unfold model_cost, cost_usd, prompt_rate, completion_rate. set (pr := lookup_price pricing m t).
  destruct (Qeq_bool (price_prompt pr) 0 && Qeq_bool (price_completion pr) 0) eqn:E.
  - apply andb_true_iff in E as [E1%Qeq_bool_eq E2%Qeq_bool_eq]. cbn [unwrap_or]. rewrite E1, E2. field.
  - cbn [unwrap_or]. unfold fadd, fdiv, fmul, f64_of_Z, rnd; cbn. field.
Qed.

(** The cost of a row of totals, for its own model. *)
Definition row_cost (pricing : PricingConfig) (t : option string) (r : AuditRow) : Q :=
  (inject_Z (ar_prompt_tokens r) * prompt_rate pricing (by_model r) t + inject_Z (ar_completion_tokens r) * completion_rate pricing (by_model r) t)%Q.

Lemma group_cost pricing t m g : (forall r, r ∈ g -> by_model r = m) ->
  (model_cost pricing m t (total PromptTokens g) (total CompletionTokens g) == qsum_of (row_cost pricing t) g)%Q.
Proof.
  intros Hm. rewrite model_cost_linear. unfold total. rewrite <- !qsum_of_scale, <- qsum_of_add. apply qsum_of_ext.
  intros r Hr. unfold row_cost. by rewrite (Hm r Hr).
Qed.

Lemma qsum_of_single {K} `{EqDecision K} (ks : list K) k v : NoDup ks -> k ∈ ks ->
  (qsum_of (fun k' => if bool_decide (k = k') then v else 0) ks == v)%Q.
Proof.
  induction ks as [|k' ks IH]; [set_solver|]. intros [Hk' Hn]%NoDup_cons Hin. rewrite qsum_of_cons.
  destruct (decide (k = k')) as [->|Hne].
  - rewrite bool_decide_true by done.
    rewrite (qsum_of_ext _ (fun x => inject_Z 0 * 0)%Q); [rewrite (qsum_of_scale (fun _ : K => 0)); ring|].
    intros x Hx. rewrite bool_decide_false; [done|]. by intros ->.
  - rewrite bool_decide_false by done.
    rewrite IH; [ring|done|set_solver].
Qed.

Lemma group_by_qsum {K A} `{EqDecision K} (f : A -> Q) (key : A -> K) l :
  (qsum_of (fun kg => qsum_of f kg.2) (group_by key l) == qsum_of f l)%Q.
Proof.
  unfold group_by. rewrite qsum_of_fmap. cbn [snd].
  enough (H : forall ks l, NoDup ks -> (forall x, x ∈ l -> key x ∈ ks) ->
    (qsum_of (fun k => qsum_of f (List.filter (fun x => bool_decide (key x = k)) l)) ks == qsum_of f l)%Q).
  { apply H; [apply NoDup_remove_dups|]. intros x Hx. apply elem_of_remove_dups. by apply list_elem_of_fmap_2. }
  clear l. intros ks l Hn. induction l as [|x l IH]; intros Hc.
  - rewrite (qsum_of_ext _ (fun _ => inject_Z 0 * 0)%Q) by done. rewrite (qsum_of_scale (fun _ : K => 0)). cbn. ring.
  - transitivity (f x + qsum_of f l)%Q; [|done]. rewrite <- IH by set_solver.
    rewrite <- (qsum_of_single ks (key x) (f x)) by (try done; set_solver). rewrite <- qsum_of_add. apply qsum_of_ext.
    intros k _. cbn [List.filter]. destruct (bool_decide (key x = k)); [done|ring].
Qed.

(** The rows of the cost screen, with exact sums. *)
Definition cost_view (pricing : PricingConfig) (t : option string) (kg : (string * string) * list AuditRow) : CostRow :=
  let '((m, p), g) := kg in
  mkCostRow m p (total PromptTokens g) (total CompletionTokens g) (total CachedTokens g) (total RequestCount g)
    (i64 (total RequestCount g - total SuccessCount g))
    (match cost_usd pricing m t (total PromptTokens g) (total CompletionTokens g) with Some c => "$" +:+ fixed 6 c | None => "?" end).

Lemma cost_row_ok pricing t k g : audit_fits g -> cost_row pricing t (k, g) = Ok (cost_view pricing t (k, g)).
Proof. intros H. destruct k. unfold cost_row. by rewrite !SUM_ok by done. Qed.

Definition cost_rows (now_secs : Z) (q_hours : option Z) (t : option string) (d : LogDb) : list AuditRow :=
  List.filter (cost_window now_secs q_hours t) (audit_hourly d).

Lemma query_cost_ok now_secs pricing q_hours t d : audit_fits (audit_hourly d) ->
  exists rows, answers (query_cost now_secs pricing q_hours t) d rows /\
    rows ≡ₚ cost_view pricing t <$> scan (group_by by_model_pool (cost_rows now_secs q_hours t d)).
Proof.
  intros Hf. eexists. split.
  - eapply answers_bind; [apply answers_fetch, (select_ok _ _ _ (cost_view pricing t)); [done|apply cost_row_ok]|apply answers_ret].
  - apply (merge_sort_Permutation model_order).
Qed.

Lemma query_cost_stats_ok now_secs pricing q_hours t d rows : audit_fits (audit_hourly d) ->
  answers (query_cost now_secs pricing q_hours t) d rows ->
  exists stats, answers (query_cost_stats now_secs pricing q_hours t) d stats /\
    let g := cost_rows now_secs q_hours t d in
    ct_total_requests stats = string_of_Z (total RequestCount g) /\
    ct_total_errors stats = i64 (total RequestCount g - total SuccessCount g) /\
    ct_avg_latency stats = (if 0 <? total RequestCount g
      then string_of_Z (Z.quot (total LatencyMsSum g) (total RequestCount g)) +:+ "ms" else absent) /\
    ct_prompt_tokens stats = sum_i64 co_prompt_tokens rows /\
    ct_completion_tokens stats = sum_i64 co_completion_tokens rows /\ ct_cached_tokens stats = sum_i64 co_cached_tokens rows.
Proof.
  intros Hf Hr. eexists. split.
  - unfold query_cost_stats. eapply answers_bind.
    + apply answers_fetch. unfold SUM. rewrite !sql_sum_fits; [reflexivity|..]; rewrite ?scan_perm;
        (split; [intros x; rewrite scan_perm; apply (fits_filter (audit_value _)), Hf|rewrite scan_perm; apply fits_filter, Hf]).
    + cbn beta iota. eapply answers_bind; [exact Hr|]. apply answers_ret.
  - cbn zeta. cbn [ct_total_requests ct_total_errors ct_avg_latency ct_prompt_tokens ct_completion_tokens ct_cached_tokens].
    unfold total, cost_rows. rewrite !scan_perm. done.
Qed.

Lemma windows_agree now_secs h t d : (forall r, r ∈ audit_hourly d -> ar_hour r < (Z.quot now_secs 3600 + 1) * 3600) ->
  cost_rows now_secs (Some h) t d = usage_rows now_secs (Some h) t d.
Proof.
  intros Hn. apply filter_ext_forall. intros r Hr. unfold cost_window, in_hours, since_hour, usage_start, cost_hours. cbn [unwrap_or].
  apply Hn, Z.ltb_lt in Hr. rewrite Hr. by rewrite andb_true_r.
Qed.

Lemma costs_agree pricing t g mrows crows : mrows ≡ₚ model_view <$> scan (group_by by_model g) ->
  crows ≡ₚ cost_view pricing t <$> scan (group_by by_model_pool g) ->
  (cost_sum pricing t crows == us_cost_usd (summarize mrows pricing t))%Q.
Proof.
  intros Hm Hc. unfold cost_sum, summarize. cbn [us_cost_usd]. rewrite !sum_f64_exact.
  transitivity (qsum_of (row_cost pricing t) g); [|symmetry].
  - rewrite (qsum_of_perm _ _ _ Hc), qsum_of_fmap, (qsum_of_perm _ _ _ (scan_perm _ _)), <- (group_by_qsum _ by_model_pool).
    apply qsum_of_ext. intros [[m p] g'] [-> _]%group_by_elem. apply group_cost. intros r [_ Hr]%elem_filter_bool.
    apply bool_decide_eq_true in Hr. by injection Hr.
  - rewrite (qsum_of_perm _ _ _ Hm), qsum_of_fmap, (qsum_of_perm _ _ _ (scan_perm _ _)), <- (group_by_qsum _ by_model).
    apply qsum_of_ext. intros [m g'] [-> _]%group_by_elem. apply group_cost. intros r [_ Hr]%elem_filter_bool.
    by apply bool_decide_eq_true in Hr.
Qed.

(** The usage and the cost screen, asked about the same window and tenant, tell the
    same: the same number of requests and of failures, the same tokens, the same mean
    latency, and, up to the rounding of floats, the same cost, although one adds up
    per model and the other per model and pool.  The table must hold no hour of
    the future.*)
Theorem cost_and_usage_agree now_secs pricing h t d : audit_fits (audit_hourly d) -> Forall decodable (request_log d) ->
  (forall r, r ∈ audit_hourly d -> ar_hour r < (Z.quot now_secs 3600 + 1) * 3600) ->
  exists resp rows stats,
    answers (admin_api_usage now_secs pricing (Some h) t) d resp /\
    answers (query_cost now_secs pricing (Some h) t) d rows /\
    answers (query_cost_stats now_secs pricing (Some h) t) d stats /\
    let u := ur_total resp in
    ct_total_requests stats = string_of_Z (us_requests u) /\ ct_total_errors stats = us_errors u /\
    ct_prompt_tokens stats = us_prompt_tokens u /\ ct_completion_tokens stats = us_completion_tokens u /\
    ct_cached_tokens stats = us_cached_tokens u /\
    ct_avg_latency stats = (if 0 <? us_requests u then string_of_Z (us_avg_latency_ms u) +:+ "ms" else absent) /\
    (cost_sum pricing t rows == us_cost_usd u)%Q.
Proof.
  intros Hf Hd Hn. destruct (usage_ok now_secs pricing (Some h) t d Hf Hd) as (resp & mrows & Ha & Hm & Ht & _).
  destruct (query_cost_ok now_secs pricing (Some h) t d Hf) as (rows & Hr & Hp).
  destruct (query_cost_stats_ok now_secs pricing (Some h) t d rows Hf Hr) as (stats & Hs & E1 & E2 & E3 & E4 & E5 & E6).
  rewrite windows_agree in * by done. exists resp, rows, stats. do 3 (split; [done|]). rewrite Ht.
  set (g := usage_rows now_secs (Some h) t d) in *. assert (audit_fits g) as Hg by by apply audit_fits_filter.
  destruct (summarize_totals mrows g pricing t Hg Hm) as (S1 & S2 & S3 & S4 & S5 & S6). cbn zeta. rewrite S1, S2, S3, S4, S5, S6.
  assert (T : forall f c, (forall kg, f (cost_view pricing t kg) = total c kg.2) -> sum_i64 f rows = total c g).
  { intros f c Hfc. rewrite sum_i64_spec, (select_total by_model_pool (cost_view pricing t) f c g) by done.
    apply i64_small. pose proof (total_range c g Hg). lia. }
  rewrite E1, E2, E3, E4, E5, E6, (T co_prompt_tokens PromptTokens), (T co_completion_tokens CompletionTokens), (T co_cached_tokens CachedTokens)
    by (by intros [[]]).
  do 5 (split; [done|]). split; [unfold div; by destruct (0 <? total RequestCount g)|]. by apply (costs_agree pricing t g).
Qed.
End Agreement.

(* ------------------------------------------------------------------ *)
(** ** Instances *)

Module DashDemo.
Definition fixed_demo (n : nat) (q : Q) : string :=
  let z := Z.quot (Qnum q * 10 ^ Z.of_nat n) (Zpos (Qden q)) in
  string_of_Z (Z.quot z (10 ^ Z.of_nat n)) +:+ "." +:+ string_of_Z (Z.abs (Z.rem z (10 ^ Z.of_nat n))).
Definition display : FixedDisplay.
Proof. refine {| fixed := fixed_demo |}. intros n q. unfold fixed_demo. by rewrite !plain_app, !plain_string_of_Z. Defined.
Definition narrow : DecodeI16.
Proof.
  refine {| decode_i16 := fun z => if (- 2 ^ 15 <=? z) && (z <? 2 ^ 15) then Ok z else Err (Driver "integer out of range") |}.
  intros z [H1 H2]. apply Z.leb_le in H1. apply Z.ltb_lt in H2. by rewrite H1, H2.
Defined.

Definition d0 : LogDb := lw_db LogDemo.w0.
(** Three rows a page: all of the log, two at a time. *)
Definition everything : RequestFilter := mkFilter None None None None None None None None (Some 0) None (Some 2).
Definition as_csv : RequestFilter := mkFilter None (Some "csv") None None None None None None (Some 0) None None.
Definition prices : PricingConfig := mkPricing {["gpt" := mkModelPricing (mkPrice 2 8) ∅]}.
Definition hour_table : LogDb :=
  let row pool tenant p c := mkAuditRow 86400 (mkDims "gpt" pool "k" "" "" "" "" tenant) 1 1 0 p c (p + c) 0 0 0 0 10 0 0 in
  set_audit_hourly d0 [row "p" "default" 100 20; row "q" "default" 300 40; row "p" "acme" 7 3].
End DashDemo.

Section DashWitnesses.
Import StoreDemo LogDemo DashDemo.
#[local] Existing Instances sqlx sums display narrow exact_f64.

Lemma demo_decodable : Forall decodable (request_log d0).
Proof.
  apply Forall_forall. intros r Hr. repeat (apply elem_of_cons in Hr as [->|Hr]; [split; [by eexists|]; intros z [H|[H|H]]; cbn in H; simplify_eq; lia|]).
  by apply not_elem_of_nil in Hr.
Qed.

Theorem request_pages_witness :
  concat ((fun i => take 2 (drop (i * 2) (listed 0 everything d0))) <$> seq 0 2) = listed 0 everything d0 /\
  (lr_id <$> listed 0 everything d0) = ["r4"; "r3"; "r2"; "r1"].
Proof.
  split; [|vm_compute; done].
  apply (proj1 (proj2 (request_pages 0 everything d0 demo_decodable eq_refl)) 2%nat). apply Nat.leb_le. vm_compute. reflexivity.
Defined.

Theorem requests_csv_roundtrip_witness : exists body, answers (request_list_handler 0 as_csv) d0 (CsvScreen _ body) /\
  csv_parse body = Some (requests_header :: (requests_fields <$> (row_view <$> listed 0 as_csv d0))).
Proof.
  destruct (requests_csv_roundtrip 0 as_csv d0 demo_decodable eq_refl) as (body & Ha & Hp).
  exists body. split; [exact Ha|]. rewrite Hp. vm_compute. done.
Defined.

Theorem usage_reports_log_witness : exists w' resp, spawn_aggregator [90000; 93600] LogDemo.w0 = (w', Ok tt) /\
  answers (admin_api_usage 93600 prices (Some 24) None) (lw_db w') resp /\
  us_requests (ur_total resp) = 4 /\ us_errors (ur_total resp) = 1 /\ us_prompt_tokens (ur_total resp) = 417.
Proof.
  destruct (usage_reports_log [90000; 93600] 93600 prices (Some 24) None LogDemo.w0) as (w' & resp & E & Ha & [H1 H2 H3 _ _ _] & _).
  - constructor.
  - reflexivity.
  - apply demo_fits.
  - apply demo_decodable.
  - exists w', resp. split; [exact E|]. split; [exact Ha|]. rewrite H1, H2, H3. vm_compute. done.
Defined.

Theorem cost_and_usage_agree_witness : exists resp rows stats,
  answers (admin_api_usage 90000 prices (Some 24) None) hour_table resp /\
  answers (query_cost 90000 prices (Some 24) None) hour_table rows /\
  answers (query_cost_stats 90000 prices (Some 24) None) hour_table stats /\
  ct_total_requests stats = string_of_Z (us_requests (ur_total resp)) /\
  (cost_sum prices None rows == us_cost_usd (ur_total resp))%Q.
Proof.
  destruct (cost_and_usage_agree 90000 prices 24 None hour_table) as (resp & rows & stats & Ha & Hr & Hs & E & _ & _ & _ & _ & _ & Hc).
  - intros c. split; [|by destruct c]. intros r Hr. repeat (apply elem_of_cons in Hr as [->|Hr]; [by destruct c|]). by apply not_elem_of_nil in Hr.
  - apply demo_decodable.
  - intros r Hr. repeat (apply elem_of_cons in Hr as [->|Hr]; [vm_compute; done|]). by apply not_elem_of_nil in Hr.
  - exists resp, rows, stats. auto.
Defined.

(** A model whose prompts are cached entirely is shown with a hit rate of two thirds:
    the discounted tokens are counted beside the cached ones. *)
Example drilldown_hit_rate :
  ds_hit_rate (drill_stats prices "gpt" None
    [mkDrillHour 1 1 (billable_prompt (mkDrillRow 0 "OpenAiPromptCache" 1 1 100 0 100 5)) 0 100 5]) = "66.6%".
Proof. vm_compute. done. Qed.

(** A window of so many hours that the product wraps asks for the future. *)
Example huge_window_is_empty : listed (window_since 1700000000000 (Some 3000000000000)) everything d0 = [].
Proof. vm_compute. done. Qed.

(** Without a tenant filter, a tenant's own price is not applied. *)
Example untenanted_cost_uses_default_price :
  let own := mkPricing {["gpt" := mkModelPricing (mkPrice 2 8) {["acme" := mkPrice 1000 1000]}]} in
  (model_cost own "gpt" None 1000000 0 == 2)%Q /\ (model_cost own "gpt" (Some "acme") 1000000 0 == 1000)%Q.
Proof. vm_compute. done. Qed.
End DashWitnesses.
