(* ===== verification/Cli.v ===== *)
(** * The command line

    Models the commands of [src/src/cli.rs] that work on the database or decide
    something: the pricing commands ([list], [set], [unset], [backfill]), the OAuth
    commands (what is posted, the fallback to the local database, the import from
    another tool) and the helpers on URLs and numbers.  A command runs on the
    [World] of the config store (its own snapshot, the shared database) or on the
    log; its error is a text.

    The theorems show that a price set takes effect at the next refresh of the
    gateway, that no history of pricing commands stacks rows, what a backfill
    rewrites, and what the local fallback of a login leaves in the tables. *)

From stdpp Require Import sorting.
From S2P Require Import Prelude Json Types Config Pricing Db ConfigStore Providers Handler LogDb.

Definition CM (A : Type) : Type := World -> World * Result A string.

#[global] Instance CM_ret : MRet CM := fun A a w => (w, Ok a).
#[global] Instance CM_bind : MBind CM := fun A B k m w =>
  match m w with (w', Ok a) => k a w' | (w', Err e) => (w', Err e) end.

Section Cli.
Context `{SX : Sqlx} `{SJ : SerdeJson} `{DG : Digest} `{FL : F64}.
Context `{DP : !DashIter string ModelPricing} `{DE : !DashIter string PriceEntry}.
Context `{DR : !DashIter string ModelRouting} `{DO : !DashIter string PoolConfig}.

(** [.map_err(|e| format!("{what}: {e}"))] *)
Definition sql {A} (what : string) (q : Stmt A) : CM A := fun w =>
  match take_fault w with
  | (Some msg, w) => (w, Err (what +:+ ": " +:+ db_display (Driver msg)))
  | (None, w) => match q (w_db w) with
                 | Ok (d, a) => (set_db w d, Ok a)
                 | Err e => (w, Err (what +:+ ": " +:+ db_display e))
                 end
  end.

(** A call into the library, its error turned into text. *)
Definition call {A} (show : AppError -> string) (m : M A) : CM A := fun w =>
  match m w with (w', Ok a) => (w', Ok a) | (w', Err e) => (w', Err (show e)) end.

Definition stop {A} (e : string) : CM A := fun w => (w, Err e).

(** [SqlitePool::connect] *)
Definition open_db : CM unit := sql "database" (read (fun _ => tt)).

(** ** Prices *)

(** [store.pricing()] *)
Definition current_pricing : CM PricingConfig := fun w => (w, Ok (cs_pricing (w_store w))).

Definition effective_pricing (now_ms : Z) : CM PricingConfig :=
  _ ← open_db;
  _ ← call (fun e => "config store: " +:+ app_error_to_string e) (load now_ms);
  current_pricing.

Definition pricing_source (model : string) : CM string :=
  has_tenant_override ← sql "pricing_override probe"
    (read (fun d => existsb (fun r => str_eqb (po_model_id r) model && is_some (po_tenant_id r)) (pricing_override_tbl d)));
  if has_tenant_override : bool then mret "override(tenant)" else
  has_global_override ← sql "pricing_override probe"
    (read (fun d => existsb (fun r => str_eqb (po_model_id r) model && negb (is_some (po_tenant_id r))) (pricing_override_tbl d)));
  if has_global_override : bool then mret "override(global)" else mret "catalog".

Definition str_before (a b : string) : Prop := String.compare a b ≠ Gt.
#[global] Instance str_before_dec a b : Decision (str_before a b).
Proof. unfold str_before. apply _. Defined.

(** The lines printed: model, price, source. *)
Fixpoint pricing_lines (pricing : PricingConfig) (models : list string) : CM (list (string * PriceEntry * string)) :=
  match models with
  | [] => mret []
  | model :: rest =>
      let price := lookup_price pricing model None in
      source ← pricing_source model;
      let source := if Qeq_bool (price_prompt price) 0 && Qeq_bool (price_completion price) 0 then "unpriced" else source in
      lines ← pricing_lines pricing rest;
      mret ((model, price, source) :: lines)
  end.

Definition pricing_list (now_ms : Z) (only_model : option string) : CM (list (string * PriceEntry * string)) :=
  pricing ← effective_pricing now_ms;
  models ← match only_model with
           | Some m => mret [m]
           | None => sql "model_registry" (read (fun d => merge_sort str_before (mr_id <$> model_registry_tbl d)))
           end;
  pricing_lines pricing models.

Definition same_target (model : string) (tenant : option string) (r : OverrideRow) : bool :=
  str_eqb (po_model_id r) model && bool_decide (po_tenant_id r = tenant).

Definition reprice (input output : Q) (from : Z) (until : option Z) (r : OverrideRow) : OverrideRow :=
  mkOverrideRow (po_id r) (po_model_id r) (po_tenant_id r) input output from until.

Definition update_override (id : Z) (f : OverrideRow -> OverrideRow) : Stmt unit :=
  write (fun d => set_overrides d ((fun r => if po_id r =? id then f r else r) <$> pricing_override_tbl d) (override_seq d)).

Definition insert_override (r : Z -> OverrideRow) : Stmt unit :=
  write (fun d => set_overrides d (pricing_override_tbl d ++ [r (override_seq d + 1)]) (override_seq d + 1)).

Definition pricing_set (model : string) (input output : Q) (tenant : option string) (effective_from : Z) (effective_until : option Z) : CM unit :=
  _ ← open_db;
  existing ← sql "pricing_override lookup"
    (read (fun d => po_id <$> head (scan (List.filter (same_target model tenant) (pricing_override_tbl d)))));
  match existing with
  | Some id => sql "pricing_override update" (update_override id (reprice input output effective_from effective_until))
  | None => sql "pricing_override insert"
              (insert_override (fun id => mkOverrideRow id model tenant input output effective_from effective_until))
  end.

Definition pricing_unset (model : string) (tenant : option string) : CM unit :=
  _ ← open_db;
  let gone r := match tenant with
                | Some t => str_eqb (po_model_id r) model && bool_decide (po_tenant_id r = Some t)
                | None => str_eqb (po_model_id r) model
                end in
  sql "pricing_override delete"
    (write (fun d => set_overrides d (List.filter (fun r => negb (gone r)) (pricing_override_tbl d)) (override_seq d))).

(** The checks of [pricing set]; the numbers are finite. *)
Definition run_pricing_set (now_ms : Z) (model : string) (input output : Q) (tenant : option string)
    (effective_from effective_until : option Z) : CM unit :=
  if negb (Qle_bool 0 input) || negb (Qle_bool 0 output) then stop "--input/--output must be finite, non-negative numbers"
  else if match effective_from, effective_until with Some from, Some until => until <=? from | _, _ => false end
  then stop "--effective-until must be after --effective-from"
  else pricing_set model input output tenant (unwrap_or effective_from now_ms) effective_until.

(** ** Backfill *)

Definition log_sql {A} (what : string) (q : LogDb -> Result (LogDb * A) DbError) (w : LogWorld) : LogWorld * Result A string :=
  match exec (fun e => Internal (db_display e)) q w with
  | (w', Ok a) => (w', Ok a)
  | (w', Err (Internal m)) => (w', Err (what +:+ ": " +:+ m))
  | (w', Err _) => (w', Err what)
  end.

Record BackfillReport := mkBackfill { bf_priced : Z; bf_unpriced : Z; bf_total : Q }.

Definition backfill_where (overwrite : bool) (r : LogRow) : bool :=
  (overwrite || negb (is_some (lr_cost_usd r))) && is_some (lr_prompt_tokens r) && is_some (lr_completion_tokens r).

Definition row_price (pricing : PricingConfig) (r : LogRow) : option Q :=
  cost_usd pricing (lr_model r) (lr_tenant_id r) (unwrap_or (lr_prompt_tokens r) 0) (unwrap_or (lr_completion_tokens r) 0).

Definition set_cost (r : LogRow) (cost : Q) : LogRow :=
  mkLogRow (lr_id r) (lr_ts r) (lr_client_ip r) (lr_model r) (lr_pool_id r) (lr_key_hash r) (lr_upstream r) (lr_status_code r)
    (lr_latency_ms r) (lr_prompt_tokens r) (lr_completion_tokens r) (lr_total_tokens r) (lr_is_stream r) (lr_error r)
    (lr_cached_tokens r) (lr_cache_creation_tokens r) (lr_cache_source r) (lr_reasoning_tokens r) (lr_audio_tokens r)
    (lr_ttft_ms r) (lr_upstream_model r) (lr_system_fingerprint r) (lr_finish_reason r) (lr_error_code r) (lr_retry_count r)
    (lr_tenant_id r) (lr_user_agent r) (Some cost).

Definition update_cost (id : string) (cost : Q) (d : LogDb) : Result (LogDb * unit) DbError :=
  Ok (set_request_log d ((fun q => if str_eqb (lr_id q) id then set_cost q cost else q) <$> request_log d), tt).

Fixpoint backfill_loop (pricing : PricingConfig) (dry_run : bool) (rows : list LogRow) (rep : BackfillReport) (w : LogWorld)
    : LogWorld * Result BackfillReport string :=
  match rows with
  | [] => (w, Ok rep)
  | r :: rows' =>
      match row_price pricing r with
      | None => backfill_loop pricing dry_run rows' (mkBackfill (bf_priced rep) (bf_unpriced rep + 1) (bf_total rep)) w
      | Some cost =>
          let rep := mkBackfill (bf_priced rep + 1) (bf_unpriced rep) (fadd (bf_total rep) cost) in
          if dry_run then backfill_loop pricing dry_run rows' rep w
          else match log_sql "request_log update" (update_cost (lr_id r) cost) w with
               | (w', Ok _) => backfill_loop pricing dry_run rows' rep w'
               | (w', Err e) => (w', Err e)
               end
      end
  end.

(** [pricing] is what [effective_pricing] returned; the log is in the same file. *)
Definition pricing_backfill (pricing : PricingConfig) (overwrite dry_run : bool) (w : LogWorld) : LogWorld * Result BackfillReport string :=
  match log_sql "request_log scan" (fun d => Ok (d, scan (List.filter (backfill_where overwrite) (request_log d)))) w with
  | (w', Ok rows) => backfill_loop pricing dry_run rows (mkBackfill 0 0 0%Q) w'
  | (w', Err e) => (w', Err e)
  end.

(** ** URLs and numbers *)

Fixpoint trim_slashes_rev (s : string) : string :=
  match s with String c s' => if Ascii.eqb c (chr 47) then trim_slashes_rev s' else s | EmptyString => s end.
(** [s.trim_end_matches('/')] *)
Definition trim_end_slashes (s : string) : string := str_rev (trim_slashes_rev (str_rev s)).

(** [from_config] is the address the configuration file names, if it can be read. *)
Definition candidate_base_urls (cli_base : string) (from_config : option string) : list string :=
  let first := trim_end_slashes cli_base in
  first :: match from_config with Some u => if str_eqb first u then [] else [u] | None => [] end.

(** The [server] section of the file. *)
Definition base_url_of_server (host : option string) (port : option Z) : option string :=
  let host := unwrap_or host "127.0.0.1" in
  let host := if str_eqb host "0.0.0.0" then "127.0.0.1" else host in
  port ≫= fun port => Some ("http://" +:+ host +:+ ":" +:+ string_of_Z port).

Definition default_cli_base_url (env from_config : option string) : string :=
  unwrap_or (or_else (opt_filter (fun s => negb (str_is_empty s)) ((fun s => trim_end_slashes (trim s)) <$> env)) from_config)
    "http://127.0.0.1:8080".

Definition http_to_ws (url : string) : string :=
  match strip_prefix "https://" url with
  | Some rest => "wss://" +:+ rest
  | None => match strip_prefix "http://" url with Some rest => "ws://" +:+ rest | None => url end
  end.

(** [one_decimal] is [format!("{:.1}")]. *)
Definition format_num (one_decimal : Q -> string) (n : Z) : string :=
  if 1000000 <=? n then one_decimal (fdiv (f64_of_Z n) 1000000) +:+ "M"
  else if 1000 <=? n then one_decimal (fdiv (f64_of_Z n) 1000) +:+ "K"
  else string_of_Z n.

(** ** OAuth *)

Definition import_pi_xai (auth_json : Value) : Result KeyEntry string :=
  let? xai := ok_or (get "xai" auth_json) "no xai entry in auth.json" in
  let cred_type := unwrap_or (get "type" xai ≫= as_str) "" in
  if negb (str_eqb cred_type "oauth") then Err "xai entry in auth.json is not oauth" else
  let? access := ok_or (get "access" xai ≫= as_str) "xai.access missing" in
  let? refresh := ok_or (get "refresh" xai ≫= as_str) "xai.refresh missing" in
  Ok (oauth access refresh "xai" 1 (get "expires" xai ≫= as_i64)).

(** [begin], a body, [commit]: a failure undoes the body. *)
Definition in_transaction (body : CM unit) : CM unit := fun w =>
  match take_fault w with
  | (Some msg, w) => (w, Err ("begin: " +:+ db_display (Driver msg)))
  | (None, w0) =>
      match body w0 with
      | (w1, Err e) => (set_db w1 (w_db w0), Err e)
      | (w1, Ok a) => match take_fault w1 with
                      | (Some msg, w2) => (set_db w2 (w_db w0), Err ("commit: " +:+ db_display (Driver msg)))
                      | (None, w2) => (w2, Ok a)
                      end
      end
  end.

Definition grok : string := "grok-4.6".

(** The route of the model to the pool. *)
Definition route_grok (pool_id : string) : CM unit :=
  routed ← sql "lookup routing"
    (read (fun d => existsb (fun r => str_eqb (rc_logical_model r) grok && is_one (rc_enabled r)) (routing_config_tbl d)));
  if routed : bool then
    sql "update routing" (fun d =>
      if pool_known d pool_id then
        Ok (set_routing_config d ((fun r => if str_eqb (rc_logical_model r) grok
              then mkRoutingRow (rc_logical_model r) pool_id (rc_default_params r) (rc_upstream_model r) (rc_enabled r) else r)
              <$> routing_config_tbl d), tt)
      else Err ForeignKeyViolation)
  else sql "insert routing" (insert_routing_row (mkRoutingRow grok pool_id None None 1)).

(** The part of [persist_oauth_local] that works on the database. *)
Definition persist_oauth_local (pool_id : string) (entry : KeyEntry) : CM unit :=
  _ ← open_db;
  _ ← sql "insert pool" (insert_or_ignore_pool (mkPoolRow pool_id "weighted_random" 1));
  existing ← sql "lookup key"
    (read (fun d => existsb (fun r => str_eqb (ke_pool_id r) pool_id && str_eqb (ke_key_hash r) (identity_hash entry)) (key_entry_tbl d)));
  _ ← (if existing : bool then mret tt
       else in_transaction (call app_error_to_string (insert_key_entry pool_id entry)));
  _ ← sql "insert provider" (insert_or_ignore_provider (mkProviderRow "xai" "openai" "https://api.x.ai/v1" pool_id 1 (Some "{}")));
  route_grok pool_id.

(** [do_post]: the answer, or a text that starts with the status. *)
Definition post_body (entry : KeyEntry) : Value :=
  obj [("key", Str (key entry)); ("weight", json_int (weight entry)); ("type", Str (cred_type_str entry));
       ("refresh", match refresh entry with Some r => Str r | None => Null end);
       ("expires", match expires entry with Some e => json_int e | None => Null end);
       ("issuer", match issuer entry with Some i => Str i | None => Null end)].

Inductive Applied : Type := ViaGateway (base : string) | CreatedPool (base : string) | LocalDatabase.

Fixpoint apply_via (post : string -> Value -> Result string string) (pool : string) (body : Value) (bases : list string) : option Applied :=
  match bases with
  | [] => None
  | base :: rest =>
      match post (base +:+ "/admin/api/pools/" +:+ pool +:+ "/keys") body with
      | Ok _ => Some (ViaGateway base)
      | Err e =>
          if str_contains "HTTP 404" e then
            match post (base +:+ "/admin/api/pools")
                       (obj [("id", Str pool); ("strategy", Str "weighted_random"); ("keys", Array [body])]) with
            | Ok _ => Some (CreatedPool base)
            | Err _ => apply_via post pool body rest
            end
          else apply_via post pool body rest
      end
  end.

Definition apply_oauth_key (post : string -> Value -> Result string string) (base_url : string) (from_config : option string)
    (pool : string) (entry : KeyEntry) : CM Applied :=
  match apply_via post pool (post_body entry) (candidate_base_urls base_url from_config) with
  | Some how => mret how
  | None => _ ← persist_oauth_local pool entry; mret LocalDatabase
  end.
End Cli.

(* ------------------------------------------------------------------ *)
(** ** The rows of the overrides *)

Section Prices.
Context `{SX : Sqlx}.

Lemma sql_quiet {A} what (q : Stmt A) w : ConfigStore.quiet w ->
  sql what q w = match q (w_db w) with Ok (d, a) => (set_db w d, Ok a) | Err e => (w, Err (what +:+ ": " +:+ db_display e)) end.
Proof. intros H. unfold sql. by rewrite take_fault_quiet. Qed.

Lemma sql_cases {A} what (q : Stmt A) w :
  match sql what q w with
  | (w', Ok a) => q (w_db w) = Ok (w_db w', a)
  | (w', Err _) => w_db w' = w_db w
  end.
Proof.
  unfold sql. destruct (take_fault w) as [[msg|] w1] eqn:E; apply take_fault_cases in E as [Hd _]; [done|].
  rewrite <- Hd. by destruct (q (w_db w1)) as [[d a]|e].
Qed.

Lemma CM_bind_Ok {A B} (m : CM A) (k : A -> CM B) w w' a : m w = (w', Ok a) -> (m ≫= k) w = k a w'.
Proof. unfold mbind, CM_bind. by intros ->. Qed.

(** [m] preserves a property of the database, whatever fails. *)
Definition db_kept (P : Database -> Prop) {A} (m : CM A) : Prop := forall w, P (w_db w) -> P (w_db (m w).1).

Lemma kept_sql P {A} what (q : Stmt A) : stmt_keeps P q -> db_kept P (sql what q).
Proof.
  intros Hq w Hw. pose proof (sql_cases what q w) as H. destruct (sql what q w) as [w' [a|e]]; cbn; [by eapply Hq|by rewrite H].
Qed.
Lemma kept_bind P {A B} (m : CM A) (k : A -> CM B) : db_kept P m -> (forall a, db_kept P (k a)) -> db_kept P (m ≫= k).
Proof.
  intros Hm Hk w Hw. specialize (Hm w Hw). unfold mbind, CM_bind. destruct (m w) as [w' [a|e]]; [|done]. by apply Hk.
Qed.
Lemma kept_read P {A} (f : Database -> A) : stmt_keeps P (read f).
Proof. intros d d' a Hd [= <- _]. done. Qed.
Lemma kept_write P f : (forall d, P d -> P (f d)) -> stmt_keeps P (write f).
Proof. intros H d d' a Hd [= <- _]. auto. Qed.

Definition target (r : OverrideRow) : string * option string := (po_model_id r, po_tenant_id r).

(** One row per model and tenant; ids as AUTOINCREMENT gives them. *)
Record overrides_ok (d : Database) : Prop := {
  ids_unique : NoDup (po_id <$> pricing_override_tbl d);
  ids_given : Forall (fun r => po_id r <= override_seq d) (pricing_override_tbl d);
  targets_unique : NoDup (target <$> pricing_override_tbl d)
}.

Lemma same_target_spec model tenant r : same_target model tenant r = true <-> target r = (model, tenant).
Proof.
  unfold same_target, target. rewrite andb_true_iff, str_eqb_spec, bool_decide_eq_true.
  split; [intros [-> ->]|intros [=]]; auto.
Qed.

(** What [pricing_set] makes of the tables. *)
Definition priced_db (model : string) (input output : Q) (tenant : option string) (from : Z) (until : option Z) (d : Database) : Database :=
  match head (scan (List.filter (same_target model tenant) (pricing_override_tbl d))) with
  | Some r0 => set_overrides d ((fun r => if po_id r =? po_id r0 then reprice input output from until r else r)
                                <$> pricing_override_tbl d) (override_seq d)
  | None => set_overrides d (pricing_override_tbl d ++ [mkOverrideRow (override_seq d + 1) model tenant input output from until])
                          (override_seq d + 1)
  end.

Lemma pricing_set_quiet model input output tenant from until w : ConfigStore.quiet w ->
  pricing_set model input output tenant from until w = (set_db w (priced_db model input output tenant from until (w_db w)), Ok tt).
Proof.
  intros Hq. unfold pricing_set, open_db. erewrite CM_bind_Ok by (by rewrite sql_quiet). unfold read.
  erewrite CM_bind_Ok by (by rewrite sql_quiet). cbn [set_db w_db]. unfold priced_db.
  destruct (head _) as [r0|]; cbn [fmap option_fmap option_map]; by rewrite sql_quiet.
Qed.

Lemma head_scan_Some {A} (l : list A) x : head (scan l) = Some x -> x ∈ l.
Proof. intros H. rewrite <- (scan_perm A l). by apply head_Some_elem_of. Qed.
Lemma head_scan_None {A} (l : list A) : head (scan l) = None -> l = [].
Proof. intros H%head_None. apply Permutation_nil. rewrite <- H. apply scan_perm. Qed.

(** Repricing touches neither ids nor targets. *)
Lemma repriced_fmap {B} (g : OverrideRow -> B) input output from until id (l : list OverrideRow) : (forall r, g (reprice input output from until r) = g r) ->
  g <$> ((fun r => if po_id r =? id then reprice input output from until r else r) <$> l) = g <$> l.
Proof.
  intros H. rewrite <- list_fmap_compose. apply list_fmap_ext. intros _ r _. unfold compose. by destruct (po_id r =? id).
Qed.

Lemma filter_nil_target model tenant l : List.filter (same_target model tenant) l = [] -> (model, tenant) ∉ target <$> l.
Proof.
  intros H (r & Hr & Hin)%list_elem_of_fmap. apply (not_elem_of_nil r). rewrite <- H. apply elem_filter_bool.
  split; [done|]. by apply same_target_spec.
Qed.

Lemma priced_ok model input output tenant from until d : overrides_ok d -> overrides_ok (priced_db model input output tenant from until d).
Proof.
  intros [Hi Hg Ht]. unfold priced_db. destruct (head _) as [r0|] eqn:E; split; cbn [pricing_override_tbl override_seq set_overrides].
  - by rewrite repriced_fmap.
  - apply Forall_fmap. eapply Forall_impl; [exact Hg|]. intros r Hr. unfold compose. by destruct (po_id r =? po_id r0).
  - by rewrite repriced_fmap.
  - rewrite fmap_app. apply NoDup_snoc; [done|]. intros (r & Hr & Hin)%list_elem_of_fmap. rewrite Forall_forall in Hg.
    specialize (Hg r Hin). cbn in Hr. lia.
  - apply Forall_app. split; [|by constructor; [cbn; lia|]]. eapply Forall_impl; [exact Hg|]. cbn. lia.
  - rewrite fmap_app. apply NoDup_snoc; [done|]. apply head_scan_None in E. by apply filter_nil_target.
Qed.

(** Afterwards the target has the new price, and no other row changed. *)
Lemma priced_rows model input output tenant from until d o : overrides_ok d ->
  o ∈ db_overrides (priced_db model input output tenant from until d) <->
  o = mkOverride model tenant input output from until \/ ((ov_model_id o, ov_tenant_id o) ≠ (model, tenant) /\ o ∈ db_overrides d).
Proof.
  intros [Hi Hg Ht]. unfold db_overrides. rewrite !list_elem_of_fmap. setoid_rewrite scan_perm. unfold priced_db.
  destruct (head _) as [r0|] eqn:E; cbn [pricing_override_tbl set_overrides].
  - apply head_scan_Some, elem_filter_bool in E as [Hr0 Hs]. apply same_target_spec in Hs. split.
    + intros (r & -> & (q & -> & Hq)%list_elem_of_fmap). destruct (Z.eqb_spec (po_id q) (po_id r0)) as [Hid|Hid].
      * assert (q = r0) as -> by by eapply (nodup_fmap_eq po_id). left. unfold override_of_row, reprice, target in *. cbn. congruence.
      * right. split; [|by eauto]. cbn. intros Heq. apply Hid. f_equal. eapply (nodup_fmap_eq target); [exact Ht|done..|]. by rewrite Hs.
    + intros [->|[Hne (q & -> & Hq)]].
      * exists (reprice input output from until r0). split; [unfold override_of_row, reprice, target in *; cbn; congruence|].
        apply list_elem_of_fmap. exists r0. by rewrite Z.eqb_refl.
      * exists q. split; [done|]. apply list_elem_of_fmap. exists q. split; [|done]. destruct (Z.eqb_spec (po_id q) (po_id r0)) as [Hid|]; [|done].
        destruct Hne. assert (q = r0) as -> by by eapply (nodup_fmap_eq po_id). done.
  - apply head_scan_None, filter_nil_target in E. setoid_rewrite elem_of_app. setoid_rewrite list_elem_of_singleton. split.
    + intros (r & -> & [Hr| ->]); [right|by left]. split; [|by eauto]. cbn. intros Heq. apply E. rewrite <- Heq.
      by apply (list_elem_of_fmap_2 target).
    + intros [->|[Hne (q & -> & Hq)]]; [|by eauto]. eexists. split; [|by right]. done.
Qed.

Lemma overrides_unique d o o' : overrides_ok d -> o ∈ db_overrides d -> o' ∈ db_overrides d ->
  ov_model_id o = ov_model_id o' -> ov_tenant_id o = ov_tenant_id o' -> o = o'.
Proof.
  intros [_ _ Ht]. unfold db_overrides. rewrite !list_elem_of_fmap. setoid_rewrite scan_perm.
  intros (r & -> & Hr) (r' & -> & Hr') Hm Hn. f_equal. eapply (nodup_fmap_eq target); [exact Ht|done..|].
  cbn in Hm, Hn. unfold target. congruence.
Qed.

(** A search with one hit at most does not depend on the order. *)
Lemma find_last_only {A} (p : A -> bool) l x : x ∈ l -> p x = true -> (forall y, y ∈ l -> p y = true -> y = x) -> find_last p l = Some x.
Proof.
  intros Hx Hp Hu. destruct (find_last p l) as [y|] eqn:E.
  - apply find_last_Some in E as [Hy Hpy]. by rewrite (Hu y).
  - exfalso. unfold find_last in E. apply (find_none _ _) with (x := x) in E; [congruence|]. apply in_rev. rewrite rev_involutive. by apply list_elem_of_In.
Qed.

Lemma find_last_same {A} (p : A -> bool) l l' : (forall x, p x = true -> x ∈ l <-> x ∈ l') ->
  (forall x y, x ∈ l -> y ∈ l -> p x = true -> p y = true -> x = y) -> find_last p l' = find_last p l.
Proof.
  intros He Hu. destruct (find_last p l) as [x|] eqn:E.
  - apply find_last_Some in E as [Hx Hp]. apply find_last_only; [by apply He|done|]. intros y Hy Hpy. apply Hu; auto. by apply He.
  - destruct (find_last p l') as [y|] eqn:E'; [|done]. apply find_last_Some in E' as [Hy Hpy]. apply He in Hy; [|done].
    unfold find_last in E. apply (find_none _ _) with (x := y) in E; [congruence|]. apply in_rev. rewrite rev_involutive. by apply list_elem_of_In.
Qed.
End Prices.

Section Effect.
Context `{SX : Sqlx} `{SJ : SerdeJson} `{DG : Digest}.
Context `{DP : !DashIter string ModelPricing} `{DE : !DashIter string PriceEntry}.

Lemma matches_global_target m now o : matches_global m now o = true -> ov_model_id o = m /\ ov_tenant_id o = None.
Proof. unfold matches_global. rewrite !andb_true_iff, str_eqb_spec. destruct (ov_tenant_id o); cbn; intuition congruence. Qed.
Lemma matches_tenant_target m t now o : matches_tenant m t now o = true -> ov_model_id o = m /\ ov_tenant_id o = Some t.
Proof. unfold matches_tenant. rewrite !andb_true_iff, str_eqb_spec, bool_decide_eq_true. tauto. Qed.

Definition in_force (from : Z) (until : option Z) (now : Z) : Prop := from <= now /\ match until with Some u => now < u | None => True end.

Lemma in_force_effective m t i o from until now : in_force from until now -> is_effective_at (mkOverride m t i o from until) now = true.
Proof.
  intros [Hf Hu]. unfold is_effective_at. cbn. rewrite (proj2 (Z.ltb_ge _ _)) by done. destruct until as [u|]; [by apply Z.ltb_lt|done].
Qed.

(** The price of the target after a set. *)
Lemma priced_lookup boot reg model input output tenant from until now d : overrides_ok d -> in_force from until now ->
  lookup_price (compose_pricing boot reg (db_overrides (priced_db model input output tenant from until d)) now) model tenant = mkPrice input output.
Proof.
  intros Hok Hf. rewrite compose_reference. unfold reference_price, reference_default. set (d' := priced_db model input output tenant from until d).
  set (new := mkOverride model tenant input output from until). assert (new ∈ db_overrides d') as Hin by (apply priced_rows; auto).
  assert (Hu : forall y, y ∈ db_overrides d' -> ov_model_id y = model -> ov_tenant_id y = tenant -> y = new).
  { intros y Hy Hm Ht. by apply (overrides_unique d'); [apply priced_ok|..]. }
  pose proof (in_force_effective model tenant input output from until now Hf) as He. destruct tenant as [t|].
  - rewrite (find_last_only _ _ new); [done|done| |].
    + unfold matches_tenant. fold new in He. rewrite He. cbn. by rewrite bool_decide_true, str_eqb_refl.
    + intros y Hy [Hm Ht]%matches_tenant_target. auto.
  - rewrite (find_last_only _ _ new); [done|done| |].
    + unfold matches_global. fold new in He. rewrite He. cbn. by rewrite str_eqb_refl.
    + intros y Hy [Hm Ht]%matches_global_target. auto.
Qed.

(** The rows of other targets are as before. *)
Lemma priced_same model input output tenant from until d (p : PricingOverride -> bool) m t : overrides_ok d ->
  (forall o, p o = true -> ov_model_id o = m /\ ov_tenant_id o = t) -> (m, t) ≠ (model, tenant) ->
  find_last p (db_overrides (priced_db model input output tenant from until d)) = find_last p (db_overrides d).
Proof.
  intros Hok Hp Hne. apply find_last_same.
  - intros o [<- <-]%Hp. rewrite priced_rows by done. split; [auto|]. intros [->|[_ ?]]; done.
  - intros x y Hx Hy [Hx1 Hx2]%Hp [Hy1 Hy2]%Hp. apply (overrides_unique d); congruence.
Qed.

(** The tenant has a price of its own: an effective row, or one of the document. *)
Definition own_price (boot : PricingConfig) (overrides : list PricingOverride) (now : Z) (model t : string) : bool :=
  existsb (matches_tenant model t now) overrides || is_some (yaml_tenant boot model t).

(** Whom a price set for [tenant] is charged to: the tenant it is set for; set for
    all, those who have no price of their own. *)
Definition charged (tenant : option string) (own : string -> bool) (t : option string) : bool :=
  match tenant, t with
  | Some u, Some v => str_eqb u v
  | Some _, None => false
  | None, Some v => negb (own v)
  | None, None => true
  end.

Lemma priced_all boot reg model input output tenant from until now d m t : overrides_ok d -> in_force from until now ->
  lookup_price (compose_pricing boot reg (db_overrides (priced_db model input output tenant from until d)) now) m t
  = if str_eqb m model && charged tenant (own_price boot (db_overrides d) now model) t then mkPrice input output
    else lookup_price (compose_pricing boot reg (db_overrides d) now) m t.
Proof.
  intros Hok Hf.
  assert (forall m t, (m, Some t) ≠ (model, tenant) -> find_last (matches_tenant m t now) (db_overrides (priced_db model input output tenant from until d))
    = find_last (matches_tenant m t now) (db_overrides d)) as Ht by (intros m' t' Hne; eapply priced_same; [done|apply matches_tenant_target|done]).
  assert (forall m, (m, None) ≠ (model, tenant) -> reference_default boot reg (db_overrides (priced_db model input output tenant from until d)) now m
    = reference_default boot reg (db_overrides d) now m) as Hg
    by (intros m' Hne; unfold reference_default; erewrite priced_same; [done|done|apply matches_global_target|done]).
  pose proof (priced_lookup boot reg model input output tenant from until now d Hok Hf) as Hset. rewrite compose_reference in Hset.
  rewrite !compose_reference. destruct (str_eqb m model) eqn:Em; cbn [andb].
  2:{ unfold reference_price. assert (m ≠ model) as Hne by (intros ->; by rewrite str_eqb_refl in Em).
      rewrite Hg by congruence. destruct t as [t|]; [|done]. by rewrite Ht by congruence. }
  apply str_eqb_spec in Em as ->. destruct tenant as [u|], t as [v|]; cbn [charged].
  - destruct (str_eqb u v) eqn:Euv; [by apply str_eqb_spec in Euv as <-|]. assert (u ≠ v) as Hne by (intros ->; by rewrite str_eqb_refl in Euv).
    unfold reference_price. by rewrite Hg, Ht by congruence.
  - unfold reference_price. by apply Hg.
  - unfold reference_price at 1 2. rewrite Ht by done. unfold own_price.
    destruct (find_last (matches_tenant model v now) (db_overrides d)) as [o|] eqn:El.
    + apply find_last_Some in El as [Ho Hm]. assert (existsb (matches_tenant model v now) (db_overrides d) = true) as -> by (apply existsb_exists; exists o; split; [by apply list_elem_of_In|done]). done.
    + assert (existsb (matches_tenant model v now) (db_overrides d) = false) as ->.
      { apply not_true_iff_false. rewrite existsb_exists. intros (o & Ho & Hm). unfold find_last in El.
        apply (find_none _ _) with (x := o) in El; [congruence|]. by apply in_rev; rewrite rev_involutive. }
      cbn [orb]. destruct (yaml_tenant boot model v) as [pe|]; cbn [is_some negb unwrap_or]; [done|exact Hset].
  - exact Hset.
Qed.

(** Claim C31: a price set on the command line takes effect, and where.  When the gateway can
    load its configuration and the database does not fail, then after [pricing set]
    and the next refresh at a time within the period, a request is charged the price
    set exactly if it is for the model and, when the price was set for a tenant, of that
    tenant; when it was set for all, of a tenant without a price of its own (an
    effective row of the table for it, or a price for it in the document, which thus
    outranks the override).  All other requests are charged what they would have
    been, and the table still has one row per model and tenant. *)
Theorem pricing_set_effective model input output tenant from until now w s :
  ConfigStore.quiet w -> overrides_ok (w_db w) -> in_force from until now -> snapshot_of now (w_store w) (w_db w) = Ok s ->
  exists w1 w2, pricing_set model input output tenant from until w = (w1, Ok tt) /\ overrides_ok (w_db w1) /\
    refresh_from_db now w1 = (w2, Ok tt) /\
    forall m t, lookup_price (cs_pricing (w_store w2)) m t
      = if str_eqb m model && charged tenant (own_price (cs_bootstrap_pricing (w_store w)) (db_overrides (w_db w)) now model) t
        then mkPrice input output else lookup_price (cs_pricing s) m t.
Proof.
  intros Hq Hok Hf Hs. rewrite pricing_set_quiet by done. set (d' := priced_db model input output tenant from until (w_db w)).
  assert (Hp : enabled_providers d' = enabled_providers (w_db w) /\ db_registry d' = db_registry (w_db w))
    by (unfold d', priced_db; by destruct (head _)).
  unfold snapshot_of in Hs. destruct (collect _ _) as [ps|] eqn:Ep; [|done]. destruct (db_registry (w_db w)) as [reg|] eqn:Er; [|done].
  injection Hs as <-. eexists (set_db w d'), _. split; [done|]. split; [by apply priced_ok|]. rewrite refresh_quiet by done.
  unfold snapshot_of. cbn [w_db w_store set_db]. destruct Hp as [-> ->]. rewrite Ep. split; [reflexivity|].
  cbn [w_store set_store cs_pricing install]. intros m t. by apply priced_all.
Qed.

(** ** Histories *)

Inductive PricingCommand : Type :=
| CmdSet (model : string) (input output : Q) (tenant : option string) (from until : option Z)
| CmdUnset (model : string) (tenant : option string).

Definition run_command (now_ms : Z) (c : PricingCommand) : CM unit :=
  match c with
  | CmdSet m i o t from until => run_pricing_set now_ms m i o t from until
  | CmdUnset m t => pricing_unset m t
  end.

Lemma kept_update id i o from until : stmt_keeps overrides_ok (update_override id (reprice i o from until)).
Proof.
  apply kept_write. intros d [Hi Hg Ht]. split; cbn [pricing_override_tbl override_seq set_overrides]; [by rewrite repriced_fmap| |by rewrite repriced_fmap].
  apply Forall_fmap. eapply Forall_impl; [exact Hg|]. intros r Hr. unfold compose. by destruct (po_id r =? id).
Qed.

(** The lookup and the write are two statements: the row found decides. *)
Lemma pricing_set_kept m i o t from until : db_kept overrides_ok (pricing_set m i o t from until).
Proof.
  intros w Hw. unfold pricing_set, open_db. unfold mbind at 1, CM_bind at 1.
  pose proof (sql_cases "database" (read (fun _ => tt)) w) as H1. destruct (sql "database" _ w) as [w1 [[]|e]]; cbn; [|by rewrite H1].
  injection H1 as H1. rewrite H1 in Hw. unfold mbind, CM_bind.
  match goal with |- context [sql "pricing_override lookup" ?q w1] => pose proof (sql_cases "pricing_override lookup" q w1) as H2;
    destruct (sql "pricing_override lookup" q w1) as [w2 [ex|e]] end; cbn; [|by rewrite H2]. injection H2 as H2 H3. rewrite H2 in Hw, H3.
  destruct ex as [id|]; [by apply (kept_sql overrides_ok _ _ (kept_update id i o from until))|].
  match goal with |- context [sql "pricing_override insert" ?q w2] => pose proof (sql_cases "pricing_override insert" q w2) as H4;
    destruct (sql "pricing_override insert" q w2) as [w3 [[]|e]] end; cbn; [|by rewrite H4].
  injection H4 as H4. rewrite <- H4. pose proof (priced_ok m i o t from until _ Hw) as Hp. unfold priced_db in Hp.
  destruct (head _) as [r0|]; [done|exact Hp].
Qed.

(** No history of pricing commands, whatever statements fail, leaves two rows for one
    model and tenant. *)
Theorem pricing_history_ok (cmds : list (Z * PricingCommand)) w : overrides_ok (w_db w) ->
  overrides_ok (w_db (foldl (fun w c => (run_command c.1 c.2 w).1) w cmds)).
Proof.
  revert w. induction cmds as [|[now c] cmds IH]; intros w Hw; [done|]. apply IH. clear IH cmds. cbn [fst snd].
  destruct c as [m i o t from until|m t]; cbn [run_command].
  - unfold run_pricing_set. destruct (_ || _); [done|]. match goal with |- context [if ?b then stop _ else _] => destruct b end; [done|]. by apply pricing_set_kept.
  - revert w Hw. change (db_kept overrides_ok (pricing_unset m t)). apply kept_bind; [apply kept_sql, kept_read|]. intros _.
    apply kept_sql, kept_write. intros d [Hi Hg Ht].
    split; cbn [pricing_override_tbl override_seq set_overrides]; [by apply NoDup_fmap_filter|by apply Forall_filter_bool|by apply NoDup_fmap_filter].
Qed.
End Effect.

(* ------------------------------------------------------------------ *)
(** ** What a backfill rewrites *)

Section Backfill.
Context `{SX : Sqlx} `{FL : F64}.

Lemma log_sql_quiet {A} what (q : LogDb -> Result (LogDb * A) DbError) w d a : LogDb.quiet w -> q (lw_db w) = Ok (d, a) ->
  log_sql what q w = (mkLogWorld (tail (lw_faults w)) d, Ok a).
Proof. intros Hq E. unfold log_sql. by erewrite exec_quiet. Qed.

(** The row of the log after the rows [l] were priced. *)
Definition repriced (pricing : PricingConfig) (l : list LogRow) (q : LogRow) : LogRow :=
  match List.find (fun r => str_eqb (lr_id r) (lr_id q)) l with
  | Some r => match row_price pricing r with Some c => set_cost q c | None => q end
  | None => q
  end.

Lemma find_absent (l : list LogRow) id : id ∉ lr_id <$> l -> List.find (fun r => str_eqb (lr_id r) id) l = None.
Proof.
  intros H. destruct (List.find _ l) as [x|] eqn:E; [|done]. apply find_some in E as [Hin Hid]. apply str_eqb_spec in Hid as <-.
  destruct H. apply list_elem_of_fmap_2. by apply list_elem_of_In.
Qed.

(** What is counted. *)
Definition count_row (pricing : PricingConfig) (rep : BackfillReport) (r : LogRow) : BackfillReport :=
  match row_price pricing r with
  | Some cost => mkBackfill (bf_priced rep + 1) (bf_unpriced rep) (fadd (bf_total rep) cost)
  | None => mkBackfill (bf_priced rep) (bf_unpriced rep + 1) (bf_total rep)
  end.

Lemma backfill_dry pricing rows rep w : backfill_loop pricing true rows rep w = (w, Ok (foldl (count_row pricing) rep rows)).
Proof.
  revert rep. induction rows as [|r rows IH]; intros rep; [done|]. cbn [backfill_loop foldl]. unfold count_row at 2.
  by destruct (row_price pricing r).
Qed.

Lemma repriced_cons pricing r rows q : lr_id r ∉ lr_id <$> rows ->
  repriced pricing (r :: rows) q =
  repriced pricing rows (match row_price pricing r with Some c => if str_eqb (lr_id q) (lr_id r) then set_cost q c else q | None => q end).
Proof.
  intros Hr. unfold repriced at 1. cbn [List.find]. destruct (decide (lr_id r = lr_id q)) as [E|Hne].
  - rewrite E, str_eqb_refl. destruct (row_price pricing r) as [c|]; unfold repriced; by rewrite find_absent by (cbn; congruence).
  - rewrite !str_eqb_ne by congruence. by destruct (row_price pricing r).
Qed.

Lemma backfill_writes pricing rows rep w : LogDb.quiet w -> NoDup (lr_id <$> rows) ->
  exists w', backfill_loop pricing false rows rep w = (w', Ok (foldl (count_row pricing) rep rows)) /\
    lw_db w' = set_request_log (lw_db w) (repriced pricing rows <$> request_log (lw_db w)).
Proof.
  revert rep w. induction rows as [|r rows IH]; intros rep w Hq Hn.
  - exists w. split; [done|]. rewrite (list_fmap_ext _ id), list_fmap_id by done. by destruct w as [? []].
  - apply NoDup_cons in Hn as [Hr Hn]. cbn [backfill_loop foldl]. unfold count_row at 2.
    destruct (row_price pricing r) as [cost|] eqn:E.
    + erewrite log_sql_quiet by done. edestruct IH as (w' & E1 & E2); [apply (quiet_tail w), Hq|exact Hn|].
      exists w'. split; [exact E1|]. rewrite E2. cbn. unfold set_request_log. cbn. f_equal. rewrite <- list_fmap_compose.
      apply list_fmap_ext. intros _ q _. unfold compose. by rewrite repriced_cons, E by done.
    + destruct (IH (mkBackfill (bf_priced rep) (bf_unpriced rep + 1) (bf_total rep)) w Hq Hn) as (w' & E1 & E2).
      exists w'. split; [exact E1|]. rewrite E2. f_equal. apply list_fmap_ext. intros _ q _. by rewrite repriced_cons, E by done.
Qed.

(** What [pricing backfill] does to a log with unique ids: every row with token
    counts (and, without [--overwrite], without a cost) whose model has a price gets
    the cost of its tokens for its tenant; every other row, and every other column,
    is as it was.  A dry run reports the same and writes nothing. *)
Theorem pricing_backfill_spec pricing overwrite w : LogDb.quiet w -> NoDup (lr_id <$> request_log (lw_db w)) ->
  exists w' w2 rep, pricing_backfill pricing overwrite false w = (w', Ok rep) /\
    pricing_backfill pricing overwrite true w = (w2, Ok rep) /\ lw_db w2 = lw_db w /\
    lw_db w' = set_request_log (lw_db w) ((fun r =>
      if backfill_where overwrite r then match row_price pricing r with Some c => set_cost r c | None => r end else r)
      <$> request_log (lw_db w)).
Proof.
  intros Hq Hn. unfold pricing_backfill. erewrite log_sql_quiet by done. set (rows := scan _).
  assert (Hrows : NoDup (lr_id <$> rows)) by (unfold rows; rewrite scan_perm; by apply NoDup_fmap_filter).
  edestruct (backfill_writes pricing rows) as (w' & E1 & E2); [apply (quiet_tail w), Hq|exact Hrows|].
  eexists w', _, _. split; [exact E1|]. rewrite backfill_dry. split; [reflexivity|]. split; [done|]. rewrite E2. cbn [lw_db]. f_equal.
  apply list_fmap_ext. intros _ q Hq'%list_elem_of_lookup_2. unfold repriced. destruct (backfill_where overwrite q) eqn:Ew.
  - assert (q ∈ rows) as Hin by (unfold rows; rewrite scan_perm; by apply elem_filter_bool).
    destruct (List.find _ rows) as [x|] eqn:Ef.
    + apply find_some in Ef as [Hx Hid]. apply list_elem_of_In in Hx. apply str_eqb_spec in Hid.
      by rewrite (nodup_fmap_eq lr_id rows x q) by done.
    + apply (find_none _ _) with (x := q) in Ef; [by rewrite str_eqb_refl in Ef|by apply list_elem_of_In].
  - rewrite find_absent; [done|]. intros (x & Hx & Hin)%list_elem_of_fmap. unfold rows in Hin. rewrite scan_perm in Hin.
    apply elem_filter_bool in Hin as [Hin Hw]. rewrite (nodup_fmap_eq lr_id (request_log (lw_db w)) q x) in Ew by done. congruence.
Qed.
End Backfill.

(* ------------------------------------------------------------------ *)
(** ** The local fallback of a login *)

Section Login.
Context `{SX : Sqlx} `{SJ : SerdeJson} `{DG : Digest}.

(** [m] succeeds on [w] and takes the tables to [d]. *)
Definition reaches {A} (m : CM A) (w : World) (a : A) (d : Database) : Prop := m w = (set_db w d, Ok a).

Lemma reaches_bind {A B} (m : CM A) (k : A -> CM B) w a d b d' : ConfigStore.quiet w ->
  reaches m w a d -> reaches (k a) (set_db w d) b d' -> reaches (m ≫= k) w b d'.
Proof. unfold reaches. intros Hq Hm Hk. rewrite (CM_bind_Ok _ _ _ _ _ Hm), Hk. done. Qed.

Lemma reaches_sql {A} what (q : Stmt A) w d a : ConfigStore.quiet w -> q (w_db w) = Ok (d, a) -> reaches (sql what q) w a d.
Proof. intros Hq E. unfold reaches. rewrite sql_quiet by done. by rewrite E. Qed.

Definition pooled_key (pool_id hash : string) (d : Database) : bool :=
  existsb (fun r => str_eqb (ke_pool_id r) pool_id && str_eqb (ke_key_hash r) hash) (key_entry_tbl d).

Lemma pool_row_reached pool_id strategy w : ConfigStore.quiet w -> exists d, reaches (sql "insert pool"
    (insert_or_ignore_pool (mkPoolRow pool_id strategy 1))) w tt d /\ pool_known d pool_id = true.
Proof.
  intros Hq. destruct (pool_known (w_db w) pool_id) eqn:E.
  - exists (w_db w). split; [|done]. apply reaches_sql; [done|]. unfold insert_or_ignore_pool. cbn [kp_id]. by rewrite E.
  - eexists. split; [apply reaches_sql; [done|]; unfold insert_or_ignore_pool; cbn [kp_id]; by rewrite E|].
    unfold pool_known. cbn. rewrite existsb_app. cbn. by rewrite str_eqb_refl, orb_true_r.
Qed.

Lemma key_row_reached pool_id entry w : ConfigStore.quiet w -> pool_known (w_db w) pool_id = true -> exists d,
  reaches (if pooled_key pool_id (identity_hash entry) (w_db w) then mret tt
           else in_transaction (call app_error_to_string (insert_key_entry pool_id entry))) w tt d /\
  pool_known d pool_id = true /\ pooled_key pool_id (identity_hash entry) d = true.
Proof.
  intros Hq Hp. destruct (pooled_key _ _ (w_db w)) eqn:E; [exists (w_db w); by destruct w|].
  eexists. split.
  - unfold reaches, in_transaction, call, insert_key_entry. rewrite take_fault_quiet, run_quiet by done.
    unfold insert_key_row. cbn [ke_pool_id key_row]. rewrite Hp. cbn [set_db w_db].
    rewrite take_fault_quiet by done. reflexivity.
  - split; [done|]. unfold pooled_key. cbn. rewrite existsb_app. cbn. by rewrite !str_eqb_refl, orb_true_r.
Qed.

Lemma provider_row_reached r w : ConfigStore.quiet w -> exists d, reaches (sql "insert provider" (insert_or_ignore_provider r)) w tt d /\
  provider_known_db d (pc_id r) = true /\ key_pool_tbl d = key_pool_tbl (w_db w) /\ key_entry_tbl d = key_entry_tbl (w_db w).
Proof.
  intros Hq. destruct (provider_known_db (w_db w) (pc_id r)) eqn:E.
  - exists (w_db w). split; [|done]. apply reaches_sql; [done|]. unfold insert_or_ignore_provider. by rewrite E.
  - eexists. split; [apply reaches_sql; [done|]; unfold insert_or_ignore_provider; by rewrite E|]. split; [|done].
    unfold provider_known_db. cbn. rewrite existsb_app. cbn. by rewrite str_eqb_refl, orb_true_r.
Qed.

Definition routes_to (pool_id : string) (d : Database) : Prop :=
  (exists r, r ∈ routing_config_tbl d /\ rc_logical_model r = grok /\ rc_enabled r = 1) /\
  forall r, r ∈ routing_config_tbl d -> rc_logical_model r = grok -> rc_enabled r = 1 -> rc_pool_id r = pool_id.

Lemma route_reached pool_id w : ConfigStore.quiet w -> pool_known (w_db w) pool_id = true -> exists d,
  reaches (route_grok pool_id) w tt d /\
  routes_to pool_id d /\ key_pool_tbl d = key_pool_tbl (w_db w) /\ key_entry_tbl d = key_entry_tbl (w_db w) /\
  provider_config_tbl d = provider_config_tbl (w_db w).
Proof.
  intros Hq Hp. set (p := fun r => str_eqb (rc_logical_model r) grok && is_one (rc_enabled r)).
  assert (Hpr : forall r, p r = true <-> rc_logical_model r = grok /\ rc_enabled r = 1)
    by (intros r; unfold p, is_one; by rewrite andb_true_iff, str_eqb_spec, Z.eqb_eq).
  destruct (existsb p (routing_config_tbl (w_db w))) eqn:E; eexists; (split;
    [eapply reaches_bind; [done|apply reaches_sql; [done|unfold read; fold p; rewrite E; reflexivity]|];
     apply reaches_sql; [done|]; unfold insert_routing_row; cbn [w_db set_db rc_pool_id]; rewrite Hp; reflexivity|]); (split; [|done]); cbn.
  - apply existsb_exists in E as (r & Hr & Hpre). apply Hpr in Hpre as [Hm He]. apply list_elem_of_In in Hr. split.
    + eexists. split; [apply list_elem_of_fmap; exists r; split; [reflexivity|done]|]. by rewrite Hm, str_eqb_refl.
    + intros q (r' & -> & _)%list_elem_of_fmap. destruct (str_eqb (rc_logical_model r') grok) eqn:Em; [done|].
      intros Hg _. by rewrite Hg, str_eqb_refl in Em.
  - split; [eexists; split; [apply elem_of_app; right; apply list_elem_of_here|done]|]. intros r [Hr|Hr]%elem_of_app Hm He.
    + exfalso. enough (existsb p (routing_config_tbl (w_db w)) = true) by congruence. apply existsb_exists. exists r.
      split; [by apply list_elem_of_In|by apply Hpr].
    + apply list_elem_of_singleton in Hr as ->. done.
Qed.

(** When no gateway takes the key and no statement fails, the local fallback leaves
    in the tables the pool, the key of the login in that pool, the xAI provider, and
    the model routed to that pool and to no other. *)
Theorem persist_oauth_local_spec pool_id entry w : ConfigStore.quiet w -> exists d,
  persist_oauth_local pool_id entry w = (set_db w d, Ok tt) /\ pool_known d pool_id = true /\
  pooled_key pool_id (identity_hash entry) d = true /\ provider_known_db d "xai" = true /\ routes_to pool_id d.
Proof.
  intros Hq. destruct (pool_row_reached pool_id "weighted_random" w Hq) as (d1 & R1 & K1).
  destruct (key_row_reached pool_id entry (set_db w d1) Hq K1) as (d2 & R2 & K2 & P2).
  destruct (provider_row_reached (mkProviderRow "xai" "openai" "https://api.x.ai/v1" pool_id 1 (Some "{}")) (set_db w d2) Hq) as (d3 & R3 & K3 & T3 & E3).
  assert (pool_known d3 pool_id = true) as K3' by (unfold pool_known; by rewrite T3).
  destruct (route_reached pool_id (set_db w d3) Hq K3') as (d4 & R4 & H4 & T4 & E4 & V4).
  cbn [w_db set_db] in *. exists d4. split; [|unfold pool_known, pooled_key, provider_known_db in *; by rewrite T4, E4, V4, T3, E3].
  eapply (reaches_bind _ _ _ tt (w_db w)); [done|by apply reaches_sql|]. replace (set_db w (w_db w)) with w by by destruct w.
  eapply reaches_bind; [done|exact R1|]. eapply (reaches_bind _ _ _ (pooled_key pool_id (identity_hash entry) d1)); [done|by apply reaches_sql|].
  eapply reaches_bind; [done|exact R2|]. eapply reaches_bind; [done|exact R3|]. exact R4.
Qed.
End Login.

(* ------------------------------------------------------------------ *)
(** ** Instances *)

Section CliWitnesses.
Import StoreDemo.
#[local] Existing Instances sqlx serde digest it_prices it_entries it_routes it_pools exact_f64.

(** A gateway whose YAML prices the model for one tenant and for all. *)
Definition yaml_prices : PricingConfig := mkPricing {["gpt" := mkModelPricing (mkPrice 5 5) {["acme" := mkPrice 7 7]}]}.
Definition gateway : World :=
  mkWorld [] empty_db (mkSnapshot [] ∅ ∅ [] metadata_default yaml_prices yaml_prices runtime_default 0).

Lemma empty_overrides_ok : overrides_ok empty_db.
Proof. split; constructor. Qed.

(** A price for all is charged to "beta", and not to "acme", which the document prices. *)
Theorem pricing_set_effective_witness : exists w1 w2,
  pricing_set "gpt" 1 2 None 10 (Some 20) gateway = (w1, Ok tt) /\ refresh_from_db 15 w1 = (w2, Ok tt) /\
  lookup_price (cs_pricing (w_store w2)) "gpt" (Some "beta") = mkPrice 1 2 /\ lookup_price (cs_pricing (w_store w2)) "gpt" (Some "acme") = mkPrice 7 7.
Proof.
  destruct (snapshot_of 15 (w_store gateway) (w_db gateway)) as [s|] eqn:E; [|vm_compute in E; discriminate E].
  destruct (pricing_set_effective "gpt" 1 2 None 10 (Some 20) 15 gateway s) as (w1 & w2 & E1 & _ & E2 & E3).
  - reflexivity.
  - apply empty_overrides_ok.
  - split; lia.
  - exact E.
  - exists w1, w2. split; [exact E1|]. split; [exact E2|]. rewrite !E3. split; [vm_compute; reflexivity|].
    vm_compute in E. injection E as <-. vm_compute. reflexivity.
Defined.

(** Setting twice replaces; the lookup after a refresh is the second price. *)
Example set_twice : let w := (pricing_set "gpt" 3 4 None 0 None (pricing_set "gpt" 1 2 None 0 None gateway).1).1 in
  length (pricing_override_tbl (w_db w)) = 1%nat /\ po_input <$> head (pricing_override_tbl (w_db w)) = Some 3%Q.
Proof. vm_compute. done. Qed.

(** The command line loads prices without the YAML layer: what the gateway charges
    is unpriced for [pricing list] and [pricing backfill]. *)
Example cli_ignores_yaml_prices :
  (effective_pricing 0 gateway).2 = Ok (mkPricing ∅) /\ lookup_price (cs_pricing (w_store gateway)) "gpt" None = mkPrice 5 5.
Proof. vm_compute. done. Qed.

(** A second login for another pool moves the model to a pool without a provider. *)
Definition xai_key : KeyEntry := oauth "access" "refresh" "xai" 1 None.
Example second_pool_has_no_provider :
  let d := w_db (persist_oauth_local "b" xai_key (persist_oauth_local "a" xai_key gateway).1).1 in
  (rc_pool_id <$> routing_config_tbl d) = ["b"] /\ (pc_pool_id <$> provider_config_tbl d) = ["a"].
Proof. vm_compute. done. Qed.

(** Without a tenant, [unset] drops the tenants' rows too; an expired row still labels
    the source. *)
Example expired_override_labels_source :
  let w := (pricing_set "gpt" 1 2 None 0 (Some 5) gateway).1 in (pricing_source "gpt" w).2 = Ok "override(global)".
Proof. vm_compute. done. Qed.

(** A refusal of the gateway that is no 404 is taken for an unreachable gateway, and
    the key is written to the local database. *)
Example refused_key_is_written_locally :
  (apply_oauth_key (fun _ _ => Err "HTTP 400 Bad Request: weight must be positive") "http://gw" None "p" xai_key gateway).2 = Ok LocalDatabase.
Proof. vm_compute. done. Qed.

Example urls : candidate_base_urls "http://127.0.0.1:8080//" (Some "http://127.0.0.1:8080") = ["http://127.0.0.1:8080"]
  /\ http_to_ws "https://gw/x" = "wss://gw/x" /\ base_url_of_server (Some "0.0.0.0") (Some 4000) = Some "http://127.0.0.1:4000".
Proof. vm_compute. done. Qed.
End CliWitnesses.
