(* ===== verification/Gateway.v ===== *)
(** * The request pipeline

    Models the chain that [build_router] of [src/src/server/mod.rs] puts around the
    chat handler: authentication outside, then the body limit, then the rate
    limiter, then the body extraction and the handler; and sequences of requests
    through it, under one table of client keys.  What axum and tower-http answer
    to a body that is too large or that they cannot extract comes with the
    request. *)

From Stdlib Require Import Lqa.
From S2P Require Import Prelude Json Types RateLimit Cache Router Auth Handler.

Record Gateway := mkGateway {
  gw_auth : AuthState;
  gw_limiter : option RateLimiter;
  gw_shared : Shared
}.

(** A request as it arrives, with what the outside does while it is served. *)
Record Incoming := mkIncoming {
  in_headers : header_map;
  in_request_id : string;
  in_too_large : option HttpResponse; (* the body limit's answer, if it refuses *)
  in_body : Result ChatCompletionRequest HttpResponse;
  in_bucket_now : Z;                  (* clock when a new bucket is made *)
  in_limit_now : Z;                   (* clock of the bucket *)
  in_limit_ts : Z;
  in_env : RequestEnv;
  in_attempts : list AttemptEnv
}.

Inductive Answer : Type :=
| Rejected (r : HttpResponse)
| Handled (r : Result Reply AppError).

Section Pipeline.
Context `{SJ : SerdeJson} `{DG : Digest} `{FD : F64Display} `{FL : F64} `{WI : WeightedIndex} `{DI : !DashIter string CacheEntry}.

Definition rl_request (i : Incoming) (c : AuthedClient) : RlRequest :=
  mkRlRequest (Some (ac_tenant_id c)) (in_bucket_now i) (in_limit_now i) (in_limit_ts i).

(** Behind the limiter: the extractors and the handler. *)
Definition handle (gw : Gateway) (i : Incoming) (c : AuthedClient) : option (Gateway * list Event * Answer) :=
  match in_body i with
  | Err r => Some (gw, [], Rejected r)
  | Ok req =>
      (fun '(s, evs, r) => (mkGateway (gw_auth gw) (gw_limiter gw) s, evs, Handled r))
        <$> chat_completions_handler (in_env i) (ac_tenant_id c) (in_request_id i) (in_headers i) req
              (in_attempts i) (gw_shared gw)
  end.

Definition serve (gw : Gateway) (i : Incoming) : option (Gateway * list Event * Answer) :=
  match require_auth (gw_auth gw) (in_headers i) with
  | Err e => Some (gw, [], Rejected (into_response e))
  | Ok c =>
      match in_too_large i, gw_limiter gw with
      | Some r, _ => Some (gw, [], Rejected r)
      | None, None => handle gw i c
      | None, Some l =>
          let '(l, d, al) := rate_limit_middleware l (rl_request i c) in
          let gw := mkGateway (gw_auth gw) (Some l) (gw_shared gw) in
          match d with
          | RateLimit.Reply r => Some (gw, EvAlert <$> al, Rejected r)
          | RateLimit.Next => handle gw i c
          end
      end
  end.

(** Requests one after the other. *)
Fixpoint serve_all (gw : Gateway) (reqs : list Incoming) : option (Gateway * list Answer) :=
  match reqs with
  | [] => Some (gw, [])
  | i :: reqs' =>
      match serve gw i with
      | None => None
      | Some (gw, _, a) => (fun '(gw, al) => (gw, a :: al)) <$> serve_all gw reqs'
      end
  end.

(** ** Bounds over histories *)

(** The requests of a tenant that reached the handler. *)
Definition is_handled (a : Answer) : bool := match a with Handled _ => true | Rejected _ => false end.

Definition tenant_of (st : AuthState) (i : Incoming) : option string :=
  match require_auth st (in_headers i) with Ok c => Some (ac_tenant_id c) | Err _ => None end.

Definition handled_for (st : AuthState) (t : string) (reqs : list Incoming) (al : list Answer) : nat :=
  count_if (fun ia : Incoming * Answer => bool_decide (tenant_of st ia.1 = Some t) && is_handled ia.2) (zip reqs al).

(** What the limiter sees of a history. *)
Definition limiter_view (st : AuthState) (reqs : list Incoming) : list RlRequest :=
  omap (fun i => match require_auth st (in_headers i), in_too_large i with
                 | Ok c, None => Some (rl_request i c)
                 | _, _ => None
                 end) reqs.

Lemma handle_frame gw i c gw' evs a :
  handle gw i c = Some (gw', evs, a) -> gw_auth gw' = gw_auth gw /\ gw_limiter gw' = gw_limiter gw.
Proof.
  unfold handle. destruct (in_body i); [|by intros [= <- <- <-]].
  destruct (chat_completions_handler _ _ _ _ _ _ _) as [[[s e] r]|]; [|done]. by intros [= <- <- <-].
Qed.

(** The request as the limiter sees it, if it gets there. *)
Lemma limiter_view_cons st i reqs :
  limiter_view st (i :: reqs)
  = match require_auth st (in_headers i), in_too_large i with
    | Ok c, None => [rl_request i c]
    | _, _ => []
    end ++ limiter_view st reqs.
Proof. unfold limiter_view. csimpl. by destruct (require_auth _ _), (in_too_large i). Qed.

Lemma handled_for_cons st t i reqs a al :
  handled_for st t (i :: reqs) (a :: al)
  = ((if bool_decide (tenant_of st i = Some t) && is_handled a then 1 else 0) + handled_for st t reqs al)%nat.
Proof. unfold handled_for, count_if. csimpl. by destruct (_ && _). Qed.

Lemma decisions_cons t r reqs d ds :
  admitted (decisions_of t (r :: reqs) (d :: ds))
  = (if for_tenant t r && is_next d then 1 else 0) + admitted (decisions_of t reqs ds).
Proof. unfold decisions_of. csimpl. destruct (for_tenant t r); csimpl; [apply admitted_cons|lia]. Qed.

(** A handled request was let through by the limiter, and the limiter goes on
    as if it had seen only the authenticated requests. *)
Lemma serve_all_admitted reqs gw l gw' al t :
  gw_limiter gw = Some l -> serve_all gw reqs = Some (gw', al) ->
  Z.of_nat (handled_for (gw_auth gw) t reqs al)
  <= admitted (decisions_of t (limiter_view (gw_auth gw) reqs) (rl_run l (limiter_view (gw_auth gw) reqs)).2).
Proof.
  revert gw l gw' al. induction reqs as [|i reqs IH]; intros gw l gw' al Hl; cbn [serve_all].
  { intros [= <- <-]. done. }
  destruct (serve gw i) as [[[gw1 evs] a]|] eqn:Es; [|done].
  destruct (serve_all gw1 reqs) as [[gw2 al']|] eqn:Ea; [|done]. cbn [fmap option_fmap option_map]. intros [= <- <-].
  rewrite limiter_view_cons, handled_for_cons. unfold tenant_of. unfold serve in Es.
  destruct (require_auth (gw_auth gw) (in_headers i)) as [c|e] eqn:Er.
  2:{ injection Es as <- <- <-. rewrite bool_decide_false by done. by eapply IH. }
  destruct (in_too_large i) as [big|] eqn:Eb.
  { injection Es as <- <- <-. rewrite andb_false_r. by eapply IH. }
  rewrite Hl in Es. cbn [app rl_run]. destruct (rate_limit_middleware l (rl_request i c)) as [[l1 d] alerts].
  assert (gw_auth gw1 = gw_auth gw /\ gw_limiter gw1 = Some l1 /\ (is_handled a = true -> is_next d = true))
    as (Hau & Hlim & Hd).
  { destruct d; [apply handle_frame in Es as [? ?]; auto|]. by injection Es as <- <- <-. }
  specialize (IH gw1 l1 gw2 al' Hlim Ea). rewrite Hau in IH.
  destruct (rl_run l1 (limiter_view (gw_auth gw) reqs)) as [l2 ds]. cbn [snd] in *. rewrite decisions_cons.
  assert (for_tenant t (rl_request i c) = bool_decide (Some (ac_tenant_id c) = Some t)) as ->.
  { apply bool_decide_ext. naive_solver. }
  destruct (bool_decide _), (is_handled a), (is_next d); cbn [andb]; try lia; by specialize (Hd eq_refl).
Qed.

(** The limiter after a history is the one that saw the requests that got to it. *)
Lemma serve_all_limiter reqs gw l gw' al :
  gw_limiter gw = Some l -> serve_all gw reqs = Some (gw', al) ->
  gw_auth gw' = gw_auth gw /\ gw_limiter gw' = Some (rl_run l (limiter_view (gw_auth gw) reqs)).1.
Proof.
  revert gw l gw' al. induction reqs as [|i reqs IH]; intros gw l gw' al Hl; cbn [serve_all]; [by intros [= <- <-]|].
  destruct (serve gw i) as [[[gw1 evs] a]|] eqn:Es; [|done].
  destruct (serve_all gw1 reqs) as [[gw2 al']|] eqn:Ea; [|done]. cbn [fmap option_fmap option_map]. intros [= <- <-].
  rewrite limiter_view_cons. unfold serve in Es.
  destruct (require_auth (gw_auth gw) (in_headers i)) as [c|e]; [|injection Es as <- <- <-; by eapply IH].
  destruct (in_too_large i) as [big|]; [injection Es as <- <- <-; by eapply IH|].
  rewrite Hl in Es. cbn [app rl_run]. destruct (rate_limit_middleware l (rl_request i c)) as [[l1 d] alerts].
  assert (gw_auth gw1 = gw_auth gw /\ gw_limiter gw1 = Some l1) as (Hau & Hlim).
  { destruct d; [apply handle_frame in Es as [? ?]; auto|]. by injection Es as <- <- <-. }
  destruct (IH gw1 l1 gw2 al' Hlim Ea) as [H1 H2]. rewrite Hau in H1, H2. destruct (rl_run l1 _) as [l2 ds]. done.
Qed.

(** The requests of a tenant, admitted or not. *)
Definition sent_by (st : AuthState) (t : string) (reqs : list Incoming) : nat :=
  count_if (fun i => bool_decide (tenant_of st i = Some t)) reqs.

Lemma view_at_most_sent st t reqs :
  (length (List.filter (for_tenant t) (limiter_view st reqs)) <= sent_by st t reqs)%nat.
Proof.
  induction reqs as [|i reqs IH]; [done|]. rewrite limiter_view_cons, List.filter_app, length_app. unfold sent_by, count_if in *. cbn [List.filter].
  assert (Hi : tenant_of st i = match require_auth st (in_headers i) with Ok c => Some (ac_tenant_id c) | Err _ => None end) by done. rewrite Hi. clear Hi.
  destruct (require_auth st (in_headers i)) as [c|e]; [|done].
  assert (bool_decide (Some (ac_tenant_id c) = Some t) = for_tenant t (rl_request i c)) as -> by (apply bool_decide_ext; naive_solver).
  destruct (in_too_large i); cbn [List.filter]; destruct (for_tenant t (rl_request i c)); cbn [List.filter length app]; lia.
Qed.

(** A refused request changes nothing behind the limiter, and of the events of
    the gateway it causes at most the limiter's alert. *)
Theorem refusal_leaves_no_trace gw i gw' evs r :
  serve gw i = Some (gw', evs, Rejected r) ->
  gw_shared gw' = gw_shared gw /\ gw_auth gw' = gw_auth gw
  /\ Forall (fun e => exists al, e = EvAlert al) evs.
Proof.
  assert (forall g c g' e, handle g i c = Some (g', e, Rejected r) -> g' = g /\ e = []) as Hh.
  { intros g c g' e. unfold handle. destruct (in_body i); [|by intros [= <- <- <-]].
    by destruct (chat_completions_handler _ _ _ _ _ _ _) as [[[? ?] ?]|]. }
  unfold serve. destruct (require_auth _ _) as [c|e]; [|by intros [= <- <- _]].
  destruct (in_too_large i); [by intros [= <- <- _]|].
  destruct (gw_limiter gw) as [l|]; [|by intros [-> ->]%Hh].
  destruct (rate_limit_middleware l _) as [[l1 []] alerts]; [by intros [-> ->]%Hh|].
  intros [= <- <- _]. split; [done|]. split; [done|]. apply Forall_fmap, Forall_forall. eauto.
Qed.

(** With no key, or one that is not valid, nothing at all happens: the answer is
    the 401 and the limiter's buckets are as they were. *)
Theorem unauthenticated_is_inert gw i :
  tenant_of (gw_auth gw) i = None ->
  serve gw i = Some (gw, [], Rejected (into_response invalid_key)).
Proof.
  unfold tenant_of, serve. destruct (require_auth _ _) as [c|e] eqn:E; [done|]. intros _.
  unfold require_auth in E. match type of E with match ?x with _ => _ end = _ => destruct x end; congruence.
Qed.
End Pipeline.

Section PipelineClaims.
Context `{SJ : SerdeJson} `{DG : Digest} `{FD : F64Display} `{FL : F64} `{WI : WeightedIndex} `{DI : !DashIter string CacheEntry}.
Context `{LW : !F64Laws} `{FW : !F64Within}.

End PipelineClaims.

Module GatewayDemo.
#[local] Existing Instances exact_f64 HandlerDemo.serde HandlerDemo.digest HandlerDemo.display HandlerDemo.wi HandlerDemo.iter.
Definition auth : AuthState := mkAuthState [mkClientKey "sk-one" "acme"; mkClientKey "sk-two" "beta"] None.
(** A request under the key [k] at the time [now], answered at the first attempt. *)
Definition incoming (k : string) (now : Z) : Incoming :=
  mkIncoming [("authorization", "Bearer " +:+ k)] "id" None (Ok (HandlerDemo.req "plain" false)) now now 0
    HandlerDemo.re [HandlerDemo.ok].
(** Three requests of "acme" within ten nanoseconds at two per minute, one of
    "beta" and one with an unknown key between them. *)
Definition history : list Incoming :=
  [incoming "sk-one" 0; incoming "sk-bad" 1; incoming "sk-one" 2; incoming "sk-two" 3; incoming "sk-one" 4].
Definition g0 : Gateway := mkGateway auth (Some (limiter_new 2)) HandlerDemo.s0.
Definition outcome : option (Gateway * list Answer) := serve_all g0 history.
Definition statuses (al : list Answer) : list Z :=
  (fun a => match a with Rejected r => http_status r | Handled _ => 200 end) <$> al.
(** A tenant that was served once and idle for an hour gets its burst of two, and
    what ten nanoseconds earn, not the tokens of an hour. *)
Definition hour : Z := 3600000000000.
Definition later : list Incoming :=
  [incoming "sk-one" hour; incoming "sk-bad" (hour + 1); incoming "sk-one" (hour + 2); incoming "sk-two" (hour + 3); incoming "sk-one" (hour + 4)].
Definition g1 : option (Gateway * list Answer) := serve_all g0 [incoming "sk-one" 0].
End GatewayDemo.

Section GatewayWitnesses.
Import GatewayDemo.
#[local] Existing Instances exact_f64 HandlerDemo.serde HandlerDemo.digest HandlerDemo.display HandlerDemo.wi HandlerDemo.iter.

Example gateway_serves : statuses <$> (snd <$> outcome) = Some [200; 401; 200; 200; 429].
Proof. vm_compute. reflexivity. Qed.

End GatewayWitnesses.
