(* ===== verification/Server.v ===== *)
(** * The HTTP server

    Models [src/src/server/mod.rs]: the table of routes that [build_router] and
    [build_admin_routes] put together, with the layers around each route, and
    [request_id_middleware] of [src/src/server/middleware.rs]; and a request on
    its way through the layers of its route to its handler.  How axum finds the
    route of a path is a parameter ([Matchit]); the answers of the CORS layer and
    of the body limit come with the request.

    The theorems show that no path fits two routes, which requests reach which
    handlers and under which guard, that the chain around the chat handler is the
    pipeline of [Gateway], with the id that the header shows in its rows and streams, and that every handler but one finds the extensions
    its arguments ask for. *)

From S2P Require Import Prelude Json Types RateLimit Cache Config Router Auth Handler Gateway.

(** ** Methods and handlers *)

Inductive Method : Type := GET | HEAD | POST | PUT | PATCH | DELETE | OPTIONS.
#[global] Instance Method_eq_dec : EqDecision Method.
Proof. solve_decision. Defined.

(** The functions the routes name. *)
Inductive Endpoint : Type :=
| chat_completions | models | model_metadata | metrics | health_full | health_live | health_ready
| cost_overview | request_list | request_detail | key_health | traffic_trend | alerts_screen | cost_drilldown
| api_status | api_keys | api_usage | api_config_overview | api_config_export | api_config_validate
| api_config_import | api_config_refresh | api_models | api_create_model | api_update_model
| api_list_client_keys | api_add_client_key | api_update_client_key | api_delete_client_key | api_rotate_client_key
| live | export
| api_list_providers | api_create_provider | api_delete_provider
| api_list_pools | api_create_pool | api_delete_pool | api_add_pool_key
| api_list_routing | api_create_routing | api_delete_routing.
#[global] Instance Endpoint_eq_dec : EqDecision Endpoint.
Proof. solve_decision. Defined.

Inductive Layer : Type :=
| RateLimitLayer
| DefaultBodyLimit (n : Z)
| RequestBodyLimit (n : Z)
| RequireAuth
| RequestIdLayer
| IpGuard (allowed_ips : list string)
| CorsLayer.
#[global] Instance Layer_eq_dec : EqDecision Layer.
Proof. solve_decision. Defined.

(** ** [axum::Router], as its builder calls describe it

    A route is a path, its methods, and the layers around it, the outermost
    first; a fallback serves the paths under a prefix that no route takes. *)

Record RouteSpec := mkRoute { rt_path : string; rt_methods : list (Method * Endpoint); rt_layers : list Layer }.
Record Fallback := mkFallback { fb_prefix : string; fb_dir : string; fb_layers : list Layer }.
Record App := mkApp { app_routes : list RouteSpec; app_fallbacks : list Fallback }.

Definition router_new : App := mkApp [] [].
Definition route (path : string) (ms : list (Method * Endpoint)) (a : App) : App :=
  mkApp (app_routes a ++ [mkRoute path ms []]) (app_fallbacks a).

Definition under (l : Layer) (r : RouteSpec) : RouteSpec := mkRoute (rt_path r) (rt_methods r) (l :: rt_layers r).
(** Around the routes there are so far, and the fallback. *)
Definition layer (l : Layer) (a : App) : App :=
  mkApp (under l <$> app_routes a) ((fun f => mkFallback (fb_prefix f) (fb_dir f) (l :: fb_layers f)) <$> app_fallbacks a).
(** Around the routes there are so far only. *)
Definition route_layer (l : Layer) (a : App) : App := mkApp (under l <$> app_routes a) (app_fallbacks a).
Definition merge (b a : App) : App := mkApp (app_routes a ++ app_routes b) (app_fallbacks a ++ app_fallbacks b).

(** The root of a nested router is the prefix itself. *)
Definition nested_path (prefix path : string) : string := if str_eqb path "/" then prefix else prefix +:+ path.
Definition nest (prefix : string) (b a : App) : App :=
  mkApp (app_routes a ++ ((fun r => mkRoute (nested_path prefix (rt_path r)) (rt_methods r) (rt_layers r)) <$> app_routes b))
        (app_fallbacks a ++ ((fun f => mkFallback (prefix +:+ fb_prefix f) (fb_dir f) (fb_layers f)) <$> app_fallbacks b)).
Definition fallback_service (dir : string) (a : App) : App :=
  mkApp (app_routes a) (app_fallbacks a ++ [mkFallback "/" dir []]).

Infix "▷" := (fun a f => f a) (at level 50, left associativity).

Definition build_admin_routes (allowed_ips : list string) : App :=
  router_new
  ▷ route "/" [(GET, cost_overview)]
  ▷ route "/requests" [(GET, request_list)]
  ▷ route "/requests/{id}" [(GET, request_detail)]
  ▷ route "/keys" [(GET, key_health)]
  ▷ route "/traffic" [(GET, traffic_trend)]
  ▷ route "/alerts" [(GET, alerts_screen)]
  ▷ route "/cost/drilldown" [(GET, cost_drilldown)]
  ▷ route "/api/status" [(GET, api_status)]
  ▷ route "/api/keys" [(GET, api_keys)]
  ▷ route "/api/usage" [(GET, api_usage)]
  ▷ route "/api/config" [(GET, api_config_overview)]
  ▷ route "/api/config/export" [(GET, api_config_export)]
  ▷ route "/api/config/validate" [(POST, api_config_validate)]
  ▷ route "/api/config/import" [(POST, api_config_import)]
  ▷ route "/api/config/refresh" [(POST, api_config_refresh)]
  ▷ route "/api/models" [(GET, api_models); (POST, api_create_model)]
  ▷ route "/api/models/{model_id}" [(PATCH, api_update_model)]
  ▷ route "/api/client-keys" [(GET, api_list_client_keys); (POST, api_add_client_key)]
  ▷ route "/api/client-keys/{key_hash}"
      [(PATCH, api_update_client_key); (DELETE, api_delete_client_key); (POST, api_rotate_client_key)]
  ▷ route "/live" [(GET, live)]
  ▷ route "/export" [(GET, export)]
  ▷ route "/api/providers" [(GET, api_list_providers); (POST, api_create_provider)]
  ▷ route "/api/providers/{provider_id}" [(DELETE, api_delete_provider)]
  ▷ route "/api/pools" [(GET, api_list_pools); (POST, api_create_pool)]
  ▷ route "/api/pools/{pool_id}" [(DELETE, api_delete_pool)]
  ▷ route "/api/pools/{pool_id}/keys" [(POST, api_add_pool_key)]
  ▷ route "/api/routing" [(GET, api_list_routing); (POST, api_create_routing)]
  ▷ route "/api/routing/{logical_model}" [(DELETE, api_delete_routing)]
  ▷ route_layer (IpGuard allowed_ips)
  ▷ fallback_service "frontend/dist".

(** [max_body_bytes], [allowed_ips] and whether there is a rate limiter come from
    the configuration. *)
Definition build_router (limit : Z) (allowed_ips : list string) (limited : bool) : App :=
  let api :=
    router_new
    ▷ route "/v1/chat/completions" [(POST, chat_completions)]
    ▷ route "/v1/models" [(GET, models)]
    ▷ route "/v1/model-metadata" [(GET, model_metadata)]
    ▷ route "/metrics" [(GET, metrics)]
    ▷ route "/health" [(GET, health_full)]
    ▷ route "/health/live" [(GET, health_live)]
    ▷ route "/health/ready" [(GET, health_ready)] in
  let api := if limited then api ▷ route_layer RateLimitLayer else api in
  let api := api ▷ layer (DefaultBodyLimit limit) ▷ layer (RequestBodyLimit limit)
                 ▷ route_layer RequireAuth ▷ layer RequestIdLayer in
  router_new
  ▷ merge api
  ▷ nest "/admin" (build_admin_routes allowed_ips)
  ▷ fallback_service "frontend/dist"
  ▷ layer CorsLayer.

(** ** Paths *)

(** [s.split('/')] *)
Fixpoint split_slash (s : string) : list string :=
  match s with
  | EmptyString => [EmptyString]
  | String c s' =>
      if Ascii.eqb c (chr 47) then EmptyString :: split_slash s'
      else match split_slash s' with
           | seg :: rest => String c seg :: rest
           | [] => [String c EmptyString]
           end
  end.

(** The name in [{name}]. *)
Definition capture_name (seg : string) : option string :=
  match strip_prefix "{" seg with
  | Some rest => if ends_with rest "}" then Some (strip_suffix_char (chr 125) rest) else None
  | None => None
  end.

(** A capture takes one segment that is not empty, every other segment itself. *)
Fixpoint fits_segs (pattern path : list string) : option (list (string * string)) :=
  match pattern, path with
  | [], [] => Some []
  | p :: pattern', s :: path' =>
      match capture_name p with
      | Some name => if str_is_empty s then None else (fun caps => (name, s) :: caps) <$> fits_segs pattern' path'
      | None => if str_eqb p s then fits_segs pattern' path' else None
      end
  | _, _ => None
  end.
Definition fits_path (pattern path : string) : option (list (string * string)) := fits_segs (split_slash pattern) (split_slash path).

Lemma split_slash_not_nil s : split_slash s ≠ [].
Proof. destruct s as [|c s]; [done|]. cbn [split_slash]. destruct (Ascii.eqb _ _); [done|]. by destruct (split_slash s). Qed.

Lemma split_slash_app a b : split_slash (a +:+ String (chr 47) b) = split_slash a ++ split_slash b.
Proof.
  induction a as [|c a IH]; [done|]. cbn [String.append split_slash]. destruct (Ascii.eqb c (chr 47)); [by rewrite IH|].
  rewrite IH. pose proof (split_slash_not_nil a). by destruct (split_slash a).
Qed.

(** A path segment: not empty, no slash, no question mark. *)
Fixpoint no_delimiter (s : string) : bool :=
  match s with
  | EmptyString => true
  | String c s' => negb (Ascii.eqb c (chr 47)) && negb (Ascii.eqb c (chr 63)) && no_delimiter s'
  end.
Definition segment (s : string) : bool := negb (str_is_empty s) && no_delimiter s.

Lemma split_segment s : no_delimiter s = true -> split_slash s = [s].
Proof.
  induction s as [|c s IH]; [done|]. cbn [no_delimiter split_slash]. destruct (Ascii.eqb c (chr 47)); [done|].
  intros [_ H]%andb_true_iff. by rewrite IH.
Qed.

(** Segments that are not captures fit themselves. *)
Lemma fits_segs_app l pat path : forallb (fun s => negb (is_some (capture_name s))) l = true -> fits_segs (l ++ pat) (l ++ path) = fits_segs pat path.
Proof.
  induction l as [|x l IH]; intros H; [done|]. cbn in *. destruct (capture_name x); [done|]. rewrite str_eqb_refl. auto.
Qed.

(** The path router of axum: some pattern of the table that fits, if one does. *)
Class Matchit := { match_path : list string -> string -> option (string * list (string * string)) }.
Class MatchitLaws `{Matchit} : Prop := {
  match_sound pats path pat caps : match_path pats path = Some (pat, caps) -> pat ∈ pats /\ fits_path pat path = Some caps;
  match_complete pats path pat caps : pat ∈ pats -> fits_path pat path = Some caps -> is_Some (match_path pats path)
}.

(** ** A request on its way *)

(** The extensions the layers put into the request. *)
Record Extensions := mkExt { x_request_id : option string; x_client : option AuthedClient; x_metrics : bool }.
Definition ext_none : Extensions := mkExt None None false.

(** The request under the id a handler takes from the extensions. *)
Definition identified (i : Incoming) (id : string) : Incoming :=
  mkIncoming (in_headers i) id (in_too_large i) (in_body i) (in_bucket_now i) (in_limit_now i) (in_limit_ts i) (in_env i) (in_attempts i).
Lemma identified_id i : identified i (in_request_id i) = i.
Proof. by destruct i. Qed.

(** [in_] carries the headers, the clocks and what the body limit answers; the
    id is the one [Uuid::new_v4] gives. *)
Record Arrival := mkArrival {
  ar_method : Method; ar_path : string;
  ar_cors : option HttpResponse;      (* the CORS layer's answer, if it gives one *)
  ar_in : Incoming
}.

(** What comes back: headers added on the way out, and an answer of a layer or
    of what it encloses. *)
Record Served (X : Type) := mkServed { sv_headers : header_map; sv_answer : HttpResponse + X }.
Arguments mkServed {X} _ _.
Arguments sv_headers {X} _.
Arguments sv_answer {X} _.

Definition Next (X : Type) : Type := Gateway -> Extensions -> option (Gateway * list Event * Served X).

Definition answered {X} (gw : Gateway) (evs : list Event) (r : HttpResponse) : option (Gateway * list Event * Served X) :=
  Some (gw, evs, mkServed [] (inl r)).

(** [headers_mut().insert(name, v)] *)
Definition header_insert (name v : string) (h : header_map) : header_map :=
  List.filter (fun kv => negb (str_eqb kv.1 name)) h ++ [(name, v)].

Definition REQUEST_ID_HEADER : string := "x-gateway-request-id".

Section Onion.
Context `{DG : Digest} `{FL : F64}.

Definition tagged {X} (id : string) (o : option (Gateway * list Event * Served X)) : option (Gateway * list Event * Served X) :=
  (fun '(gw, evs, s) => (gw, evs, mkServed (header_insert REQUEST_ID_HEADER id (sv_headers s)) (sv_answer s))) <$> o.

Definition request_id_middleware {X} (id : string) (next : Next X) : Next X := fun gw ext =>
  tagged id (next gw (mkExt (Some id) (x_client ext) (x_metrics ext))).

(** [ip_guard] answers 404 with an empty body. *)
Definition around {X} (i : Arrival) (l : Layer) (next : Next X) : Next X := fun gw ext =>
  match l with
  | CorsLayer => match ar_cors i with Some r => answered gw [] r | None => next gw ext end
  | RequestIdLayer => request_id_middleware (in_request_id (ar_in i)) next gw ext
  | RequireAuth =>
      match require_auth (gw_auth gw) (in_headers (ar_in i)) with
      | Ok c => next gw (mkExt (x_request_id ext) (Some c) (x_metrics ext))
      | Err e => answered gw [] (into_response e)
      end
  | RequestBodyLimit _ => match in_too_large (ar_in i) with Some r => answered gw [] r | None => next gw ext end
  | DefaultBodyLimit _ => next gw ext
  | RateLimitLayer =>
      match gw_limiter gw with
      | None => next gw ext
      | Some l =>
          let '(l, d, al) := rate_limit_middleware l
            (mkRlRequest (ac_tenant_id <$> x_client ext) (in_bucket_now (ar_in i)) (in_limit_now (ar_in i)) (in_limit_ts (ar_in i))) in
          let gw := mkGateway (gw_auth gw) (Some l) (gw_shared gw) in
          match d with
          | RateLimit.Reply r => answered gw (EvAlert <$> al) r
          | RateLimit.Next => next gw ext
          end
      end
  | IpGuard allowed_ips => if ip_guard allowed_ips (in_headers (ar_in i)) then next gw ext else answered gw [] (mkHttp 404 Null)
  end.

Definition onion {X} (i : Arrival) (ls : list Layer) (next : Next X) : Next X := foldr (around i) next ls.

(** Where a request ends: at a handler, with the captures and the extensions; at a
    route that does not take its method; at the files; nowhere. *)
Inductive Destination : Type :=
| Reached (e : Endpoint) (captures : list (string * string)) (ext : Extensions)
| MethodNotAllowed
| Files (dir : string)
| NoRoute.

(** [get] takes HEAD too. *)
Definition method_endpoint (m : Method) (ms : list (Method * Endpoint)) : option Endpoint :=
  snd <$> List.find (fun me => bool_decide (me.1 = m) || bool_decide (me.1 = GET /\ m = HEAD)) ms.

Definition route_of (a : App) (pat : string) : option RouteSpec := List.find (fun r => str_eqb (rt_path r) pat) (app_routes a).

(** The fallback with the longest prefix. *)
Definition fallback_of (a : App) (path : string) : option Fallback :=
  foldr (fun f best => if str_prefix (fb_prefix f) path
                       then match best with
                            | Some b => if (String.length (fb_prefix f) <=? String.length (fb_prefix b))%nat then Some b else Some f
                            | None => Some f
                            end
                       else best) None (app_fallbacks a).

Definition arrive (d : Destination) : Next Destination := fun gw ext =>
  Some (gw, [], mkServed [] (inr (match d with Reached e caps _ => Reached e caps ext | d => d end))).

Definition dispatch_request `{Matchit} (a : App) (i : Arrival) : Next Destination :=
  match match_path (rt_path <$> app_routes a) (ar_path i) ≫= fun pc => (fun r => (r, pc.2)) <$> route_of a pc.1 with
  | Some (r, caps) =>
      onion i (rt_layers r)
        (arrive match method_endpoint (ar_method i) (rt_methods r) with Some e => Reached e caps ext_none | None => MethodNotAllowed end)
  | None =>
      match fallback_of a (ar_path i) with
      | Some f => onion i (fb_layers f) (arrive (Files (fb_dir f)))
      | None => arrive NoRoute
      end
  end.

(** The running server: [limited] exactly when there is a limiter. *)
Definition http_server `{Matchit} (limit : Z) (allowed_ips : list string) (gw : Gateway) (i : Arrival) :=
  dispatch_request (build_router limit allowed_ips (is_some (gw_limiter gw))) i gw ext_none.
End Onion.

(* ------------------------------------------------------------------ *)
(** ** No path fits two routes *)

(** Some path may fit both patterns. *)
Fixpoint overlap (p q : list string) : bool :=
  match p, q with
  | [], [] => true
  | a :: p', b :: q' => (is_some (capture_name a) || is_some (capture_name b) || str_eqb a b) && overlap p' q'
  | _, _ => false
  end.

Fixpoint all_apart {A} (f : A -> list string) (l : list A) : bool :=
  match l with
  | [] => true
  | x :: l' => forallb (fun y => negb (overlap (f x) (f y)) && negb (overlap (f y) (f x))) l' && all_apart f l'
  end.

Lemma fits_both p q s c c' : fits_segs p s = Some c -> fits_segs q s = Some c' -> overlap p q = true.
Proof.
  revert q s c c'. induction p as [|a p IH]; intros [|b q] [|x s] c c'; try done. cbn [fits_segs overlap].
  destruct (capture_name a) as [na|], (capture_name b) as [nb|]; cbn [is_some orb andb].
  - destruct (str_is_empty x); [done|]. destruct (fits_segs p s) eqn:E1, (fits_segs q s) eqn:E2; try done. intros _ _. by eapply IH.
  - destruct (str_is_empty x); [done|]. destruct (str_eqb b x), (fits_segs p s) eqn:E1; try done. intros _ H. by eapply IH.
  - destruct (str_eqb a x), (str_is_empty x), (fits_segs q s) eqn:E2; try done. intros H _. by eapply IH.
  - destruct (str_eqb a x) eqn:Ea, (str_eqb b x) eqn:Eb; try done. apply str_eqb_spec in Ea as ->, Eb as ->.
    rewrite str_eqb_refl. intros H1 H2. by eapply IH.
Qed.

Lemma all_apart_eq {A} (f : A -> list string) l x y :
  all_apart f l = true -> x ∈ l -> y ∈ l -> overlap (f x) (f y) = true -> x = y.
Proof.
  induction l as [|z l IH]; cbn [all_apart]; [by intros _ ?%elem_of_nil|].
  rewrite andb_true_iff, forallb_forall. intros [Hz Hl] Hx Hy Ho. apply elem_of_cons in Hx as [->|Hx], Hy as [->|Hy]; auto.
  - apply list_elem_of_In, Hz in Hy. by rewrite Ho in Hy.
  - apply list_elem_of_In, Hz in Hx. by rewrite Ho, andb_false_r in Hx.
Qed.

Definition route_segs (r : RouteSpec) : list string := split_slash (rt_path r).

Lemma table_apart limit ips limited : all_apart route_segs (app_routes (build_router limit ips limited)) = true.
Proof. destruct limited; vm_compute; reflexivity. Qed.

Lemma routes_unambiguous limit ips limited r r' path c c' :
  r ∈ app_routes (build_router limit ips limited) -> r' ∈ app_routes (build_router limit ips limited) ->
  fits_path (rt_path r) path = Some c -> fits_path (rt_path r') path = Some c' -> r = r'.
Proof.
  intros Hr Hr' H H'. eapply (all_apart_eq route_segs); [apply (table_apart limit ips limited)|done..|]. by eapply fits_both.
Qed.

(** ** The layers of a route *)

(** The handlers a client key gives access to; the others are the administrator's. *)
Definition api_endpoint (e : Endpoint) : bool :=
  match e with
  | chat_completions | models | model_metadata | metrics | health_full | health_live | health_ready => true
  | _ => false
  end.

Definition api_layers (limit : Z) (limited : bool) : list Layer :=
  [CorsLayer; RequestIdLayer; RequireAuth; RequestBodyLimit limit; DefaultBodyLimit limit] ++ (if limited then [RateLimitLayer] else []).
Definition admin_layers (ips : list string) : list Layer := [CorsLayer; IpGuard ips].

Definition route_guarded (limit : Z) (ips : list string) (limited : bool) (r : RouteSpec) : Prop :=
  Forall (fun me => api_endpoint me.2 = true) (rt_methods r) /\ rt_layers r = api_layers limit limited
  \/ Forall (fun me => api_endpoint me.2 = false) (rt_methods r) /\ rt_layers r = admin_layers ips.

Lemma table_guarded limit ips limited : Forall (route_guarded limit ips limited) (app_routes (build_router limit ips limited)).
Proof. destruct limited; cbv; repeat (constructor; [first [left; split; [by repeat constructor|done]|right; split; [by repeat constructor|done]]|]); constructor. Qed.

Lemma method_endpoint_elem m ms e : method_endpoint m ms = Some e -> exists m', (m', e) ∈ ms /\ (m' = m \/ m' = GET /\ m = HEAD).
Proof.
  unfold method_endpoint. destruct (List.find _ ms) as [[m' e']|] eqn:E; [|done]. intros [= <-].
  apply find_some in E as [Hin Hm]. exists m'. split; [by apply list_elem_of_In|]. cbn [fst] in Hm.
  apply orb_true_iff in Hm. by rewrite !bool_decide_eq_true in Hm.
Qed.

(** The layers around a handler are those of its side of the table. *)
Lemma layers_of_endpoint limit ips limited r m e :
  r ∈ app_routes (build_router limit ips limited) -> method_endpoint m (rt_methods r) = Some e ->
  rt_layers r = if api_endpoint e then api_layers limit limited else admin_layers ips.
Proof.
  intros Hr (m' & Hm & _)%method_endpoint_elem. pose proof (table_guarded limit ips limited) as H. rewrite Forall_forall in H.
  destruct (H r Hr) as [[He ->]|[He ->]]; rewrite Forall_forall in He; specialize (He _ Hm); cbn in He; by rewrite He.
Qed.

Lemma route_of_elem a r : r ∈ app_routes a -> exists r', route_of a (rt_path r) = Some r' /\ r' ∈ app_routes a /\ rt_path r' = rt_path r.
Proof.
  intros Hr. unfold route_of. destruct (List.find _ _) as [r'|] eqn:E.
  - apply find_some in E as [Hin%list_elem_of_In Hp%str_eqb_spec]. eauto.
  - apply list_elem_of_In in Hr. apply (find_none _ _ E) in Hr. by rewrite str_eqb_refl in Hr.
Qed.

#[local] Arguments build_router : simpl never.

Section Access.
Context `{DG : Digest} `{FL : F64} `{MT : Matchit} `{ML : !MatchitLaws}.
Context (limit : Z) (ips : list string).

(** The route of a path, whatever the path router does. *)
Lemma dispatch_route limited i r caps :
  r ∈ app_routes (build_router limit ips limited) -> fits_path (rt_path r) (ar_path i) = Some caps ->
  dispatch_request (build_router limit ips limited) i
  = onion i (rt_layers r)
      (arrive match method_endpoint (ar_method i) (rt_methods r) with Some e => Reached e caps ext_none | None => MethodNotAllowed end).
Proof.
  intros Hr Hf. unfold dispatch_request.
  destruct (match_complete (rt_path <$> app_routes (build_router limit ips limited)) (ar_path i) (rt_path r) caps) as [[pat caps'] Hm]; [|done|].
  { by apply list_elem_of_fmap_2. }
  rewrite Hm. csimpl. apply match_sound in Hm as [(r' & -> & Hr')%list_elem_of_fmap Hf'].
  destruct (route_of_elem _ _ Hr') as (r2 & -> & Hr2 & Hp). csimpl. rewrite <- Hp in Hf'.
  assert (r2 = r) as -> by by eapply routes_unambiguous. rewrite Hf in Hf'. by injection Hf' as <-.
Qed.

(** Without one, no handler runs. *)
Lemma dispatch_no_route limited i :
  (forall r, r ∈ app_routes (build_router limit ips limited) -> fits_path (rt_path r) (ar_path i) = None) ->
  exists ls d, dispatch_request (build_router limit ips limited) i = onion i ls (arrive d) /\ (forall e c x, d ≠ Reached e c x) /\ (ls = [CorsLayer] \/ ls = []).
Proof.
  intros Hn. unfold dispatch_request. destruct (match_path _ _) as [[pat caps]|] eqn:Hm.
  { apply match_sound in Hm as [(r & -> & Hr)%list_elem_of_fmap Hf]. by rewrite Hn in Hf. }
  csimpl. destruct (fallback_of (build_router limit ips limited) (ar_path i)) as [f|] eqn:Ef.
  - exists (fb_layers f), (Files (fb_dir f)). split; [done|]. split; [done|]. left.
    assert (Forall (fun f => fb_layers f = [CorsLayer]) (app_fallbacks (build_router limit ips limited))) as HF by (destruct limited; by repeat constructor).
    revert HF Ef. unfold fallback_of. induction (app_fallbacks (build_router limit ips limited)) as [|g l IH]; [done|]. intros [Hg Hl]%Forall_cons. cbn [foldr].
    destruct (str_prefix (fb_prefix g) (ar_path i)); [|by apply IH]. destruct (foldr _ None l) as [b|].
    + destruct (_ <=? _)%nat; intros [= <-]; [by apply IH|done].
    + by intros [= <-].
  - exists [], NoRoute. split; [done|]. split; [done|by right].
Qed.

(** What the layers of either side let through. *)
Definition passes (gw : Gateway) (i : Arrival) (e : Endpoint) : Prop :=
  ar_cors i = None /\
  if api_endpoint e then
    exists c, require_auth (gw_auth gw) (in_headers (ar_in i)) = Ok c /\ in_too_large (ar_in i) = None
      /\ forall l, gw_limiter gw = Some l -> (rate_limit_middleware l (rl_request (ar_in i) c)).1.2 = RateLimit.Next
  else ip_guard ips (in_headers (ar_in i)) = true.

Definition reaches (gw : Gateway) (i : Arrival) (e : Endpoint) (caps : list (string * string)) (ext : Extensions) : Prop :=
  exists gw' evs hs, http_server limit ips gw i = Some (gw', evs, mkServed hs (inr (Reached e caps ext))).

Lemma onion_arrive i ls gw ext d gw' evs hs e caps x :
  onion i ls (arrive d) gw ext = Some (gw', evs, mkServed hs (inr (Reached e caps x))) -> exists x', d = Reached e caps x'.
Proof.
  revert gw ext gw' evs hs. induction ls as [|l ls IH]; intros gw ext gw' evs hs.
  { cbn [onion foldr arrive]. destruct d; intros [=]; subst; eauto. }
  cbn [onion foldr]. change (foldr (around i) (arrive d) ls) with (onion i ls (arrive d)). destruct l; cbn [around]; unfold request_id_middleware, tagged, answered.
  - destruct (gw_limiter gw); [|apply IH]. destruct (rate_limit_middleware _ _) as [[? []] ?]; [apply IH|done].
  - apply IH.
  - destruct (in_too_large _); [done|apply IH].
  - destruct (require_auth _ _); [apply IH|done].
  - destruct (onion i ls (arrive d) gw _) as [[[g v] [h a]]|] eqn:E; [|done]. cbn. intros [= -> -> _ ->]. by eapply IH.
  - destruct (ip_guard _ _); [apply IH|done].
  - destruct (ar_cors i); [done|apply IH].
Qed.

(** The api side, every guard in its order. *)
Definition api_ext (i : Arrival) (c : AuthedClient) : Extensions := mkExt (Some (in_request_id (ar_in i))) (Some c) false.

Lemma api_onion {X} i (next : Next X) gw :
  onion i (api_layers limit (is_some (gw_limiter gw))) next gw ext_none
  = match ar_cors i with
    | Some r => answered gw [] r
    | None => tagged (in_request_id (ar_in i))
        match require_auth (gw_auth gw) (in_headers (ar_in i)) with
        | Err e => answered gw [] (into_response e)
        | Ok c =>
            match in_too_large (ar_in i), gw_limiter gw with
            | Some r, _ => answered gw [] r
            | None, None => next gw (api_ext i c)
            | None, Some l =>
                let '(l, d, al) := rate_limit_middleware l (rl_request (ar_in i) c) in
                let gw := mkGateway (gw_auth gw) (Some l) (gw_shared gw) in
                match d with
                | RateLimit.Reply r => answered gw (EvAlert <$> al) r
                | RateLimit.Next => next gw (api_ext i c)
                end
            end
        end
    end.
Proof.
  unfold onion, api_layers. cbn [app foldr around]. destruct (ar_cors i); [done|]. unfold request_id_middleware. f_equal. cbn [around].
  destruct (require_auth _ _); [|done]. cbn [around]. destruct (in_too_large _); [done|].
  destruct (gw_limiter gw) as [l|] eqn:El; cbn [is_some app foldr around]; [by rewrite El|done].
Qed.

Lemma admin_onion {X} i (next : Next X) gw :
  onion i (admin_layers ips) next gw ext_none
  = match ar_cors i with
    | Some r => answered gw [] r
    | None => if ip_guard ips (in_headers (ar_in i)) then next gw ext_none else answered gw [] (mkHttp 404 Null)
    end.
Proof. done. Qed.

(** What reaching a handler says of the request, and with what it arrives. *)
Definition arrives_with (gw : Gateway) (i : Arrival) (e : Endpoint) (ext : Extensions) : Prop :=
  if api_endpoint e then exists c, require_auth (gw_auth gw) (in_headers (ar_in i)) = Ok c /\ ext = api_ext i c else ext = ext_none.

Definition routed_to (gw : Gateway) (i : Arrival) (e : Endpoint) (caps : list (string * string)) : Prop :=
  exists r, r ∈ app_routes (build_router limit ips (is_some (gw_limiter gw))) /\ fits_path (rt_path r) (ar_path i) = Some caps
    /\ method_endpoint (ar_method i) (rt_methods r) = Some e.

Lemma reaches_inv gw i e caps ext : reaches gw i e caps ext -> routed_to gw i e caps /\ passes gw i e /\ arrives_with gw i e ext.
Proof.
  set (limited := is_some (gw_limiter gw)). intros (gw' & evs & hs & H). unfold http_server in H. fold limited in H.
  destruct (List.find (fun r => is_some (fits_path (rt_path r) (ar_path i))) (app_routes (build_router limit ips limited))) as [r|] eqn:E.
  - apply find_some in E as [Hr%list_elem_of_In Hf]. destruct (fits_path (rt_path r) (ar_path i)) as [caps'|] eqn:Hfit; [|done].
    rewrite (dispatch_route limited i r caps') in H by done. destruct (onion_arrive _ _ _ _ _ _ _ _ _ _ _ H) as [x' Hd].
    destruct (method_endpoint (ar_method i) (rt_methods r)) as [e'|] eqn:Hm; [|done]. injection Hd as -> -> _.
    split; [by exists r|]. rewrite (layers_of_endpoint _ _ _ _ _ _ Hr Hm) in H. unfold passes, arrives_with. destruct (api_endpoint e).
    + unfold limited in H. rewrite api_onion in H. destruct (ar_cors i); [done|].
      destruct (require_auth _ _) as [c|]; [|done]. destruct (in_too_large _); [done|]. destruct (gw_limiter gw) as [l|].
      * destruct (rate_limit_middleware l _) as [[? []] ?] eqn:El; [|done]. injection H as _ _ _ <-.
        split; [|by exists c]. split; [done|]. exists c. split; [done|]. split; [done|]. intros ? [= <-]. by rewrite El.
      * injection H as _ _ _ <-. split; [|by exists c]. split; [done|]. by exists c.
    + rewrite admin_onion in H. destruct (ar_cors i); [done|]. destruct (ip_guard _ _); [|done]. by injection H as _ _ _ <-.
  - exfalso. destruct (dispatch_no_route limited i) as (ls & d & Hd & Hnot & _).
    { intros r Hr%list_elem_of_In. pose proof (find_none _ _ E r Hr) as Hn. cbn beta in Hn. by destruct (fits_path _ _). }
    rewrite Hd in H. apply onion_arrive in H as [x' ->]. by eapply Hnot.
Qed.

Lemma reaches_intro gw i e caps : routed_to gw i e caps -> passes gw i e -> exists ext, reaches gw i e caps ext.
Proof.
  intros (r & Hr & Hf & Hm) [Hc Hp]. unfold reaches, http_server.
  rewrite (dispatch_route _ i r caps) by done. rewrite Hm, (layers_of_endpoint _ _ _ _ _ _ Hr Hm). destruct (api_endpoint e).
  - rewrite api_onion, Hc. destruct Hp as (c & -> & -> & Hl). destruct (gw_limiter gw) as [l|]; [|cbn; eauto 10].
    specialize (Hl l eq_refl). destruct (rate_limit_middleware l _) as [[? []] ?]; [|done]. cbn. eauto 10.
  - rewrite admin_onion, Hc, Hp. cbn. eauto 10.
Qed.

(** Claim C17: a handler runs exactly for the requests whose path fits its route and whose
    method the route takes, and that get past the guards of its side: the
    handlers under [/v1], the metrics and the health endpoints need a valid
    client key, a body within the limit and a token of the tenant's bucket;
    the handlers under [/admin] need an allowed address (or none stated) and
    no key.*)
Theorem server_access gw i e caps : (exists ext, reaches gw i e caps ext) <-> routed_to gw i e caps /\ passes gw i e.
Proof.
  split; [intros [ext (? & ? & _)%reaches_inv]; done|intros [? ?]; by apply reaches_intro].
Qed.

(** A request for an admin route, past the guard, is at its handler. *)
Lemma admin_served gw i pat r caps e :
  route_of (build_router limit ips (is_some (gw_limiter gw))) pat = Some r -> fits_path pat (ar_path i) = Some caps ->
  method_endpoint (ar_method i) (rt_methods r) = Some e -> api_endpoint e = false ->
  ar_cors i = None -> ip_guard ips (in_headers (ar_in i)) = true ->
  http_server limit ips gw i = Some (gw, [], mkServed [] (inr (Reached e caps ext_none))).
Proof.
  intros Hr Hf Hm He Hc Hg. apply find_some in Hr as [Hin%list_elem_of_In <-%str_eqb_spec]. unfold http_server.
  rewrite (dispatch_route _ i r caps) by done. by rewrite Hm, (layers_of_endpoint _ _ _ _ _ _ Hin Hm), He, admin_onion, Hc, Hg.
Qed.

(** ** Extensions *)

(** The [Extension] arguments of the handlers. *)
Definition extracts (e : Endpoint) (ext : Extensions) : bool :=
  match e with
  | chat_completions => is_some (x_client ext) && is_some (x_request_id ext)
  | models | model_metadata => is_some (x_client ext)
  | metrics => x_metrics ext
  | _ => true
  end.

(** Claim C18: whenever a request reaches a handler, the extensions the handler's arguments
    ask for are there, with one exception: nothing ever adds the counters that
    the metrics handler asks for, so that handler never runs.*)
Theorem extensions_typed gw i e caps ext : reaches gw i e caps ext -> extracts e ext = negb (bool_decide (e = metrics)).
Proof.
  intros (_ & _ & H)%reaches_inv. unfold arrives_with in H. destruct e; cbn [api_endpoint] in H; try done; by destruct H as (c & _ & ->).
Qed.
End Access.

(** ** The chain around the chat handler *)

Section ChatRoute.
Context `{SJ : SerdeJson} `{DG : Digest} `{FD : F64Display} `{FL : F64} `{WI : WeightedIndex} `{DI : !DashIter string CacheEntry}.

(** axum's answer to a missing extension. *)
Context (missing_extension : HttpResponse).

(** The handler with its extracted arguments, the client and the id of the request
    among the extensions. *)
Definition chat_route (i : Arrival) : Next Answer := fun gw ext =>
  match x_client ext, x_request_id ext with
  | Some c, Some id => (fun '(gw, evs, a) => (gw, evs, mkServed [] (inr a))) <$> handle gw (identified (ar_in i) id) c
  | _, _ => answered gw [] missing_extension
  end.

Definition flat (s : Served Answer) : Answer := match sv_answer s with inl r => Rejected r | inr a => a end.

(** The rows and streams of a request have its id. *)
Lemma serve_ids gw i gw' evs a : serve gw i = Some (gw', evs, a) ->
  (forall l, EvLog l ∈ evs -> log_id l = in_request_id i)
  /\ (forall ctx body, a = Handled (Ok (StreamReply ctx body)) -> st_request_id ctx = in_request_id i).
Proof.
  assert (forall g c, handle g i c = Some (gw', evs, a) -> (forall l, EvLog l ∈ evs -> log_id l = in_request_id i)
    /\ (forall ctx body, a = Handled (Ok (StreamReply ctx body)) -> st_request_id ctx = in_request_id i)) as Hh.
  { intros g c. unfold handle. destruct (in_body i) as [req|r]; [|intros [= _ <- <-]; split; [set_solver|done]].
    destruct (chat_completions_handler _ _ _ _ _ _ _) as [[[s e] r]|] eqn:E; [|done]. intros [= _ <- <-]. split.
    - intros l Hl. by apply (handler_rows _ _ _ _ _ _ _ _ _ _ _ E Hl).
    - intros ctx body [= ->]. by apply handler_stream in E as [? _]. }
  unfold serve. destruct (require_auth _ _) as [c|e]; [|intros [= _ <- <-]; split; [set_solver|done]].
  destruct (in_too_large i); [intros [= _ <- <-]; split; [set_solver|done]|]. destruct (gw_limiter gw) as [l|]; [|apply Hh].
  destruct (rate_limit_middleware l _) as [[? []] al]; [apply Hh|]. intros [= _ <- <-]. split; [|done].
  intros l' (x & ? & _)%list_elem_of_fmap. done.
Qed.

(** Claim C19: the layers that [build_router] puts around the chat handler make the
    pipeline [serve]: the request id outermost, then authentication, the body
    limit, the rate limit and the handler (the README and the plan put the rate
    limit before the body limit).  Every answer carries the id of its request; the
    handler takes its id from the extension that the middleware set, and every
    row it logs, and the stream whose row is logged later, have the id that the
    client is given.  (For a request that the CORS layer does not answer itself.) *)
Theorem chat_chain_is_pipeline limit ips gw i r :
  r ∈ app_routes (build_router limit ips (is_some (gw_limiter gw))) -> method_endpoint POST (rt_methods r) = Some chat_completions ->
  ar_cors i = None ->
  let answer := onion i (rt_layers r) (chat_route i) gw ext_none in
  (fun '(gw, evs, s) => (gw, evs, flat s)) <$> answer = serve gw (ar_in i)
  /\ forall gw' evs s, answer = Some (gw', evs, s) ->
       header_get (sv_headers s) REQUEST_ID_HEADER = Some (in_request_id (ar_in i))
       /\ (forall l, EvLog l ∈ evs -> header_get (sv_headers s) REQUEST_ID_HEADER = Some (log_id l))
       /\ (forall ctx body, flat s = Handled (Ok (StreamReply ctx body)) -> header_get (sv_headers s) REQUEST_ID_HEADER = Some (st_request_id ctx)).
Proof.
  intros Hr Hm Hc answer.
  assert ((fun '(gw, evs, s) => (gw, evs, header_get (sv_headers s) REQUEST_ID_HEADER, flat s)) <$> answer
    = (fun '(gw, evs, a) => (gw, evs, Some (in_request_id (ar_in i)), a)) <$> serve gw (ar_in i)) as H.
  { unfold answer. rewrite (layers_of_endpoint _ _ _ _ _ _ Hr Hm). cbn [api_endpoint]. rewrite api_onion, Hc.
    unfold tagged, serve, answered, chat_route. cbn [x_client x_request_id api_ext]. rewrite identified_id. destruct (require_auth _ _) as [c|]; [|done].
    destruct (in_too_large _); [done|]. destruct (gw_limiter gw) as [l|].
    - destruct (rate_limit_middleware l _) as [[? []] ?]; [|done]. by destruct (handle _ _ _) as [[[? ?] ?]|].
    - by destruct (handle _ _ _) as [[[? ?] ?]|]. }
  clearbody answer. destruct answer as [[[g v] s]|], (serve gw (ar_in i)) as [[[g' v'] a]|] eqn:Es; try done. csimpl in H.
  injection H as -> -> Hh <-. split; [done|]. intros gw' evs s' [= <- <- <-]. apply serve_ids in Es as [H1 H2]. rewrite Hh.
  split; [done|]. split; [intros l Hl; by rewrite H1|]. intros ctx body E. by rewrite (H2 ctx body E).
Qed.
End ChatRoute.

(** ** Examples *)

Definition first_match : Matchit := {|
  match_path pats path := foldr (fun pat rest => match fits_path pat path with Some caps => Some (pat, caps) | None => rest end) None pats
|}.

Lemma first_match_laws : @MatchitLaws first_match.
Proof.
  split; cbn [match_path first_match]; intros pats path pat caps; induction pats as [|p pats IH]; cbn [foldr]; try done.
  - destruct (fits_path p path) as [c|] eqn:E; [intros [= -> ->]; by split; [left|]|]. intros [? ?]%IH. by split; [right|].
  - by intros ?%elem_of_nil.
  - intros [->|H]%elem_of_cons Hf; [by rewrite Hf|]. destruct (fits_path p path); [done|]. by apply IH.
Qed.

Module ServerDemo.
Definition limit : Z := 1048576.
Definition ips : list string := ["10.0.0.1"].
(** Under the headers [h]; nobody limits the rate. *)
Definition arrival (m : Method) (path : string) (h : header_map) : Arrival :=
  mkArrival m path None
    (mkIncoming h "id-1" None (Ok (HandlerDemo.req "plain" false)) 0 0 0 HandlerDemo.re [HandlerDemo.ok]).
Definition gw : Gateway := mkGateway GatewayDemo.auth None HandlerDemo.s0.
Definition key : header_map := [("authorization", "Bearer sk-one")].
(** The handler a request reaches, or the status it is refused with. *)
Definition landing `{Matchit} (i : Arrival) : option (Z + Endpoint * list (string * string)) :=
  match @http_server HandlerDemo.digest exact_f64 _ limit ips gw i with
  | Some (_, _, mkServed _ (inl r)) => Some (inl (http_status r))
  | Some (_, _, mkServed _ (inr (Reached e caps _))) => Some (inr (e, caps))
  | Some (_, _, mkServed _ (inr MethodNotAllowed)) => Some (inl 405)
  | _ => None
  end.
End ServerDemo.

Section ServerWitnesses.
Import ServerDemo.
#[local] Existing Instances exact_f64 HandlerDemo.serde HandlerDemo.digest HandlerDemo.display HandlerDemo.wi HandlerDemo.iter
  first_match first_match_laws.

(** A probe of the container has no key: it is refused, and so is a request to
    an admin route from an address that is not allowed; with no address stated
    it passes. *)
Example landings :
  landing <$> [arrival GET "/health/live" []; arrival GET "/health/live" key; arrival GET "/admin/api/pools" [("x-real-ip", "10.0.0.2")];
               arrival GET "/admin/api/pools" []; arrival DELETE "/admin/api/client-keys/ab12" []; arrival PUT "/admin/api/pools" [];
               arrival GET "/admin/nothing" []]
  = [Some (inl 401); Some (inr (health_live, [])); Some (inl 404); Some (inr (api_list_pools, []));
     Some (inr (api_delete_client_key, [("key_hash", "ab12")])); Some (inl 405); None].
Proof. vm_compute. reflexivity. Qed.

Theorem server_access_witness :
  (exists ext, reaches limit ips gw (arrival GET "/health/live" key) health_live [] ext)
  <-> routed_to limit ips gw (arrival GET "/health/live" key) health_live []
      /\ passes ips gw (arrival GET "/health/live" key) health_live.
Proof. apply (server_access limit ips). Defined.

Theorem extensions_typed_witness :
  exists ext, reaches limit ips gw (arrival GET "/v1/models" key) models [] ext /\ extracts models ext = negb (bool_decide (models = metrics)).
Proof.
  eexists. assert (reaches limit ips gw (arrival GET "/v1/models" key) models []
    (mkExt (Some "id-1") (Some (mkAuthed (compute_key_hash "sk-one") "acme")) false)) as H by (by vm_compute; eauto).
  split; [exact H|exact (extensions_typed limit ips _ _ _ _ _ H)].
Defined.

Definition chat_spec : RouteSpec := mkRoute "/v1/chat/completions" [(POST, chat_completions)] (api_layers limit false).

Theorem chat_chain_is_pipeline_witness :
  let answer := onion (arrival POST "/v1/chat/completions" key) (rt_layers chat_spec)
    (chat_route (mkHttp 500 Null) (arrival POST "/v1/chat/completions" key)) gw ext_none in
  (fun '(gw, evs, s) => (gw, evs, flat s)) <$> answer = serve gw (ar_in (arrival POST "/v1/chat/completions" key))
  /\ exists gw' evs s l, answer = Some (gw', evs, s) /\ EvLog l ∈ evs /\ header_get (sv_headers s) REQUEST_ID_HEADER = Some (log_id l).
Proof.
  intros answer. destruct (chat_chain_is_pipeline (mkHttp 500 Null) limit ips gw (arrival POST "/v1/chat/completions" key) chat_spec) as [H1 H2];
    [cbv -[elem_of]; left|done|done|]. fold answer in H1, H2. split; [exact H1|].
  assert (exists l, (fun '(_, evs, _) => List.find is_log evs) <$> answer = Some (Some (EvLog l))) as [l Hl] by (vm_compute; eauto).
  destruct answer as [[[gw' evs] s]|]; [|done]. exists gw', evs, s, l. split; [done|]. injection Hl as Hl.
  apply find_some in Hl as [Hl _]. apply list_elem_of_In in Hl. split; [exact Hl|]. by apply (H2 gw' evs s eq_refl).
Defined.
End ServerWitnesses.
