(* ===== verification/CliRun.v ===== *)
(** * The commands of the command line

    Models the rest of [src/src/cli.rs]: the commands and their arguments, the
    requests they send ([do_get], [do_post], [do_patch], [do_delete]), how the
    answers are decoded and printed, and [run], which ties them to the database
    commands of [Cli.v].  The process has its output, the database files and the
    outside ([Outside]): the network, the file system, the environment.

    The theorem shows that the text of a failed request shows no secret of its URL;
    what the commands do to a gateway is in [CliGateway.v]. *)

From stdpp Require Import sorting.
From S2P Require Import Prelude Json Types Alerts Config Pricing Db ConfigStore Providers Credential Auth AdminApi ModelImport LogDb Dashboard Cli Server Cache.

(** ** Arguments *)

Inductive ConfigAction : Type :=
| ConfigExport (output : option string)
| ConfigImport (file : string) (dry_run : bool).

Inductive ClientKeyAction : Type :=
| KeyList
| KeyAdd (key tenant label : string)
| KeyUpdate (key_hash : string) (enabled : option bool) (tenant label : option string)
| KeyRotate (key_hash new_key : string)
| KeyDelete (key_hash : string).

Inductive PricingAction : Type :=
| PricingList (db : string) (model : option string)
| PricingSet (model : string) (input output : Q) (tenant : option string) (effective_from effective_until : option Z) (db : string)
| PricingUnset (model : string) (tenant : option string) (db : string)
| PricingBackfill (db : string) (overwrite dry_run : bool).

Inductive OauthAction : Type :=
| OauthLogin (issuer : string) (pool : option string) (apply : bool) (weight : Z)
| OauthImportPi (pool : option string) (apply : bool) (weight : Z).

Inductive Commands : Type :=
| CmdStatus | CmdKeys | CmdMetrics | CmdReload
| CmdConfig (action : ConfigAction)
| CmdAlerts
| CmdClientKeys (action : ClientKeyAction)
| CmdLive
| CmdExport (format : string) (hours : Z)
| CmdImportModels (source db : string) (overwrite : bool)
| CmdOauth (action : OauthAction)
| CmdPricing (action : PricingAction).

Record CliArgs := mkCli { arg_base_url : string; arg_config : option string; arg_admin_key : string; arg_command : Commands }.

(** ** The process

    Its tables are those of the database the command names. *)

Record CliRequest := mkCliRequest { cq_method : Method; cq_url : string; cq_headers : header_map; cq_body : option string }.

(** A request sent: the error of the transport, or the status and the text. *)
Definition Sent : Type := Result (Z * Result string string) string.

Class Outside (S : Type) := {
  send : S -> CliRequest -> S * Sent;
  read_file : S -> string -> Result string string;
  write_file : S -> string -> string -> S * Result unit string;
  read_stdin : S -> Result string string;
  env_var : S -> string -> option string;
  now_of : S -> Z;                  (* milliseconds *)
  http_fetch : S -> string -> Result (Z * Result string string) string;  (* of the model catalog *)
  (** the issuer's answers to a device login: the first, and those to the polls *)
  device_answer : S -> Result (Z * Result DeviceCodeResponse string) string;
  poll_rounds : S -> list PollRound
}.

Record Proc (S : Type) := mkProc { pr_out : list string; pr_err : list string; pr_db : World; pr_log : LogWorld; pr_outside : S }.
Arguments mkProc {S} _ _ _ _ _.
Arguments pr_out {S} _.
Arguments pr_err {S} _.
Arguments pr_db {S} _.
Arguments pr_log {S} _.
Arguments pr_outside {S} _.

Definition TM (S A : Type) : Type := Proc S -> Proc S * Result A string.
#[global] Instance TM_ret S : MRet (TM S) := fun A a p => (p, Ok a).
#[global] Instance TM_bind S : MBind (TM S) := fun A B k m p =>
  match m p with (p', Ok a) => k a p' | (p', Err e) => (p', Err e) end.

Section Process.
Context {S : Type}.
Definition fail {A} (e : string) : TM S A := fun p => (p, Err e).
Definition try {A} (r : Result A string) : TM S A := fun p => (p, r).
(** [print!], [println!] and [eprintln!] *)
Definition print (s : string) : TM S unit := fun p => (mkProc (pr_out p ++ [s]) (pr_err p) (pr_db p) (pr_log p) (pr_outside p), Ok tt).
Definition println (s : string) : TM S unit := print (s +:+ lf).
Definition eprintln (s : string) : TM S unit := fun p => (mkProc (pr_out p) (pr_err p ++ [s +:+ lf]) (pr_db p) (pr_log p) (pr_outside p), Ok tt).
Fixpoint printlns (l : list string) : TM S unit :=
  match l with [] => mret tt | s :: l' => _ ← println s; printlns l' end.
(** A command on the tables, or on the log. *)
Definition on_db {A} (m : CM A) : TM S A := fun p =>
  let '(w, r) := m (pr_db p) in (mkProc (pr_out p) (pr_err p) w (pr_log p) (pr_outside p), r).
Definition on_log {A} (m : LogWorld -> LogWorld * Result A string) : TM S A := fun p =>
  let '(w, r) := m (pr_log p) in (mkProc (pr_out p) (pr_err p) (pr_db p) w (pr_outside p), r).
Definition outside {A} (f : S -> A) : TM S A := fun p => (p, Ok (f (pr_outside p))).
Definition outside_step {A} (f : S -> S * A) : TM S A := fun p =>
  let '(s, a) := f (pr_outside p) in (mkProc (pr_out p) (pr_err p) (pr_db p) (pr_log p) s, Ok a).
End Process.

(** ** Requests *)

(** The parts of a [reqwest::Url]. *)
Record Url := mkUrl {
  u_scheme : string; u_username : string; u_password : option string; u_host : string; u_path : string;
  u_query : option string; u_fragment : option string
}.
Class UrlCrate := { parse_url : string -> option Url; print_url : Url -> string }.

Section Requests.
Context `{UC : UrlCrate} `{SD : StatusDisplay} {S : Type} `{OS : !Outside S}.
Context (admin_key : string).

Definition redact_url (url : string) : string :=
  match parse_url url with
  | None => "[invalid URL]"
  | Some parsed =>
      if negb (str_eqb (u_scheme parsed) "http" || str_eqb (u_scheme parsed) "https") then "[invalid URL]"
      else print_url (mkUrl (u_scheme parsed) "" None (u_host parsed) (u_path parsed) None None)
  end.

(** [e] is the error's text without its URL. *)
Definition request_error (url e : string) : string :=
  "request to " +:+ redact_url url +:+ " failed: " +:+ e
  +:+ ". Ensure the gateway is running at that address or specify --base-url <gateway-url>.".

Definition attach_auth (headers : header_map) : header_map :=
  if str_is_empty admin_key then headers else headers ++ [("authorization", "Bearer " +:+ admin_key)].

Definition json_type : header_map := [("content-type", "application/json")].

(** The body of an answer that is not a success, or nothing if it cannot be read. *)
Definition http_failure (status : Z) (text : Result string string) : string :=
  "HTTP " +:+ status_display status +:+ ": " +:+ match text with Ok t => t | Err _ => "" end.

Definition do_get (url : string) : TM S string :=
  r ← outside_step (fun s => send s (mkCliRequest GET url (attach_auth []) None));
  try match r with
      | Err e => Err (request_error url e)
      | Ok (status, text) => if is_success status then text else Err ("HTTP " +:+ status_display status)
      end.

Definition with_body (m : Method) (url body : string) : TM S string :=
  r ← outside_step (fun s => send s (mkCliRequest m url (attach_auth [] ++ json_type) (Some body)));
  try match r with
      | Err e => Err (request_error url e)
      | Ok (status, text) => if is_success status then text else Err (http_failure status text)
      end.

Definition do_post : string -> string -> TM S string := with_body POST.
Definition do_patch : string -> string -> TM S string := with_body PATCH.

Definition do_delete (url : string) : TM S string :=
  r ← outside_step (fun s => send s (mkCliRequest DELETE url (attach_auth []) None));
  try match r with
      | Err e => Err (request_error url e)
      | Ok (status, text) => if is_success status then text else Err (http_failure status text)
      end.
End Requests.

(** ** Formats *)

(** Characters of a UTF-8 text: bytes that do not continue one. *)
Fixpoint char_count (s : string) : nat :=
  match s with
  | EmptyString => 0
  | String c s' => ((if in_bytes 0x80 0xBF c then 0 else 1) + char_count s')%nat
  end.
Fixpoint spaces (n : nat) : string := match n with O => "" | S n' => String (chr 32) (spaces n') end.
(** [{:<n}] and [{:>n}] *)
Definition left_aligned (n : nat) (s : string) : string := s +:+ spaces (n - char_count s).
Definition right_aligned (n : nat) (s : string) : string := spaces (n - char_count s) +:+ s.

(** [{:?}] of a [str]. *)
Class DebugStr := { debug_str : string -> string }.

(** ** Answers *)

Record PoolResp := mkPoolResp { pr_pool_id : string; pr_total_keys : Z; pr_healthy_keys : Z; pr_bad_keys : Z }.
Record StatusResp := mkStatusResp {
  sr_uptime_secs : Z; sr_requests_total : Z; sr_requests_failed : Z; sr_stream_requests : Z; sr_cache_hits : Z;
  sr_active_connections : Z; sr_prompt_tokens : Z; sr_completion_tokens : Z; sr_retries : Z; sr_key_demotions : Z;
  sr_upstream_5xx : Z; sr_upstream_4xx : Z; sr_pools : list PoolResp; sr_alert_count : Z
}.
Record KeyResp := mkKeyResp { kr_key_hash : string; kr_weight : Z; kr_healthy : bool; kr_success_rate : string }.
Record PoolKeysResp := mkPoolKeys { pk_pool_id : string; pk_keys : list KeyResp }.
Record KeysResp := mkKeysResp { kr_pools : list PoolKeysResp }.
Record KeyRecordResp := mkKeyRecord {
  rr_key_hash : string; rr_tenant_id : string; rr_created_at : Z; rr_enabled : bool; rr_label : string
}.
Record ClientKeyList := mkClientKeyList { cl_keys : list KeyRecordResp; cl_total : Z }.
Record ConfigDocumentResp := mkConfigDocument { cd_ok : bool; cd_dry_run : bool; cd_version : Z; cd_message : string }.

(** The derived decoders, on the value of the text. *)
Definition field {A} (k : string) (dec : Value -> option A) (v : Value) : option A := get k v ≫= dec.
Definition as_u32 (v : Value) : option Z := opt_filter (fun n => n <=? u32_max) (as_u64 v).
Definition vec {A} (dec : Value -> option A) (v : Value) : option (list A) := as_array v ≫= mapM dec.

Definition decode_pool (v : Value) : option PoolResp :=
  id ← field "pool_id" as_str v; total ← field "total_keys" as_u64 v; healthy ← field "healthy_keys" as_u64 v;
  bad ← field "bad_keys" as_u64 v; Some (mkPoolResp id total healthy bad).

Definition decode_status (v : Value) : option StatusResp :=
  up ← field "uptime_secs" as_u64 v; total ← field "requests_total" as_u64 v; failed ← field "requests_failed" as_u64 v;
  stream ← field "stream_requests" as_u64 v; hits ← field "cache_hits" as_u64 v; active ← field "active_connections" as_u64 v;
  prompt ← field "prompt_tokens" as_u64 v; completion ← field "completion_tokens" as_u64 v; retries ← field "retries" as_u64 v;
  demotions ← field "key_demotions" as_u64 v; u5 ← field "upstream_5xx" as_u64 v; u4 ← field "upstream_4xx" as_u64 v;
  pools ← field "pools" (vec decode_pool) v; alerts ← field "alert_count" as_u64 v;
  Some (mkStatusResp up total failed stream hits active prompt completion retries demotions u5 u4 pools alerts).

Definition decode_key (v : Value) : option KeyResp :=
  hash ← field "key_hash" as_str v; weight ← field "weight" as_u32 v; healthy ← field "healthy" as_bool v;
  rate ← field "success_rate" as_str v; Some (mkKeyResp hash weight healthy rate).
Definition decode_pool_keys (v : Value) : option PoolKeysResp :=
  id ← field "pool_id" as_str v; keys ← field "keys" (vec decode_key) v; Some (mkPoolKeys id keys).
Definition decode_keys (v : Value) : option KeysResp := mkKeysResp <$> field "pools" (vec decode_pool_keys) v.

Definition decode_key_record (v : Value) : option KeyRecordResp :=
  hash ← field "key_hash" as_str v; tenant ← field "tenant_id" as_str v; created ← field "created_at" as_i64 v;
  enabled ← field "enabled" as_bool v; label ← field "label" as_str v; Some (mkKeyRecord hash tenant created enabled label).
Definition decode_key_list (v : Value) : option ClientKeyList :=
  keys ← field "keys" (vec decode_key_record) v; total ← field "total" as_u64 v; Some (mkClientKeyList keys total).

Definition decode_config_document (v : Value) : option ConfigDocumentResp :=
  ok ← field "ok" as_bool v; dry ← field "dry_run" as_bool v; version ← field "version" as_u64 v;
  message ← field "message" as_str v; Some (mkConfigDocument ok dry version message).

Section Commands.
Context `{UC : UrlCrate} `{SD : StatusDisplay} `{SJ : SerdeJson} `{DB : DebugStr} `{FX : FixedDisplay} `{FL : F64}.
Context {S : Type} `{OS : !Outside S}.
Context (admin_key base_url : string).
(** The text of serde_json's error for a document, after [parse: ]. *)
Context (json_error : string -> string).

Definition decoded {A} (dec : Value -> option A) (text : string) : TM S A :=
  try (ok_or (from_str text ≫= dec) ("parse: " +:+ json_error text)).

Definition rule (n : nat) : string := str_concat (repeat (String (chr 0xE2) (String (chr 0x94) (String (chr 0x80) ""))) n).
Definition num (n : Z) : string := format_num (fixed 1) n.

Definition status_lines (s : StatusResp) : list string :=
  ["LLM Proxy v2.0 Status " +:+ em_dash +:+ " uptime " +:+ string_of_Z (sr_uptime_secs s / 3600) +:+ "h "
     +:+ string_of_Z (sr_uptime_secs s mod 3600 / 60) +:+ "m";
   rule 36;
   "Requests total:      " +:+ num (sr_requests_total s);
   "Failed:              " +:+ num (sr_requests_failed s);
   "Stream:              " +:+ num (sr_stream_requests s);
   "Cache hits:          " +:+ num (sr_cache_hits s);
   "Active connections:  " +:+ string_of_Z (sr_active_connections s);
   "Prompt tokens:       " +:+ num (sr_prompt_tokens s);
   "Completion tokens:   " +:+ num (sr_completion_tokens s);
   "Retries:             " +:+ num (sr_retries s);
   "Key demotions:       " +:+ num (sr_key_demotions s);
   "Upstream 5xx:        " +:+ num (sr_upstream_5xx s);
   "Upstream 4xx:        " +:+ num (sr_upstream_4xx s);
   "Alert events:        " +:+ string_of_Z (sr_alert_count s);
   "";
   "Key Pools:"]
  ++ ((fun p => "  " +:+ left_aligned 20 (pr_pool_id p) +:+ "  total=" +:+ string_of_Z (pr_total_keys p)
               +:+ "  healthy=" +:+ string_of_Z (pr_healthy_keys p) +:+ "  bad=" +:+ string_of_Z (pr_bad_keys p)) <$> sr_pools s).

Definition cmd_status : TM S unit :=
  body ← do_get admin_key (base_url +:+ "/admin/api/status");
  s ← decoded decode_status body;
  printlns (status_lines s).

Definition key_line (k : KeyResp) : string :=
  "  " +:+ right_aligned 12 (kr_key_hash k) +:+ "  w=" +:+ left_aligned 4 (string_of_Z (kr_weight k)) +:+ "  "
  +:+ left_aligned 5 (if kr_healthy k then "OK" else "BAD") +:+ "  success_rate=" +:+ kr_success_rate k.

Definition cmd_keys : TM S unit :=
  body ← do_get admin_key (base_url +:+ "/admin/api/keys");
  r ← decoded decode_keys body;
  printlns (["Key Health"; rule 10]
            ++ (kr_pools r ≫= fun p => ["Pool: " +:+ pk_pool_id p] ++ (key_line <$> pk_keys p) ++ [""])).

Definition cmd_metrics : TM S unit := body ← do_get admin_key (base_url +:+ "/metrics"); println body.

Definition cmd_reload : TM S unit := body ← do_post admin_key (base_url +:+ "/admin/api/config/refresh") "{}"; println body.

Definition cmd_config_export (output : option string) : TM S unit :=
  yaml ← do_get admin_key (base_url +:+ "/admin/api/config/export");
  match output with
  | Some path =>
      r ← outside_step (fun s => write_file s path yaml);
      match r with
      | Ok _ => eprintln ("Wrote " +:+ path)
      | Err e => fail ("write " +:+ path +:+ ": " +:+ e)
      end
  | None => print yaml
  end.

Definition import_document (yaml : string) (dry_run : bool) : Value := obj [("yaml", Str yaml); ("dry_run", Bool dry_run)].

Definition cmd_config_import (file : string) (dry_run : bool) : TM S unit :=
  yaml ← (if str_eqb file "-" then
            r ← outside read_stdin; try match r with Ok t => Ok t | Err e => Err ("stdin: " +:+ e) end
          else
            r ← outside (fun s => read_file s file); try match r with Ok t => Ok t | Err e => Err ("read " +:+ file +:+ ": " +:+ e) end);
  resp ← do_post admin_key (base_url +:+ "/admin/api/config/import") (to_string (import_document yaml dry_run));
  r ← decoded decode_config_document resp;
  _ ← println (cd_message r);
  if cd_ok r && negb (cd_dry_run r) then println ("version=" +:+ string_of_Z (cd_version r)) else mret tt.

Definition alert_line (ev : Value) : string :=
  "  [" +:+ unwrap_or (get_str "event_type" ev) "?" +:+ "] " +:+ unwrap_or (get_str "msg" ev) "-".

Definition cmd_alerts : TM S unit :=
  body ← do_get admin_key (base_url +:+ "/admin/alerts?format=json");
  v ← decoded Some body;
  let events := unwrap_or (get "events" v ≫= as_array) [] in
  printlns (("Recent alert events: " +:+ string_of_Z (Z.of_nat (length events))) :: (alert_line <$> take 20 events)).

(** *** Client keys *)

Definition client_key_line (k : KeyRecordResp) : string :=
  "  " +:+ right_aligned 12 (rr_key_hash k) +:+ "  tenant=" +:+ left_aligned 10 (rr_tenant_id k) +:+ "  "
  +:+ (if rr_enabled k then "enabled" else "disabled") +:+ "  label=" +:+ debug_str (rr_label k).

Definition cmd_client_keys_list : TM S unit :=
  body ← do_get admin_key (base_url +:+ "/admin/api/client-keys");
  r ← decoded decode_key_list body;
  printlns (["Client Keys (" +:+ string_of_Z (cl_total r) +:+ ")"; rule 25] ++ (client_key_line <$> cl_keys r)).

Definition add_body (key tenant label : string) : Value := obj [("key", Str key); ("tenant_id", Str tenant); ("label", Str label)].
Definition update_body (enabled : option bool) (tenant label : option string) : Value :=
  Object (let o := match enabled with Some e => map_insert "enabled" (Bool e) [] | None => [] end in
          let o := match tenant with Some t => map_insert "tenant_id" (Str t) o | None => o end in
          match label with Some l => map_insert "label" (Str l) o | None => o end).
Definition rotate_body (new_key : string) : Value := obj [("new_key", Str new_key)].

Definition bool_display (b : bool) : string := if b then "true" else "false".

Definition cmd_client_keys (a : ClientKeyAction) : TM S unit :=
  match a with
  | KeyList => cmd_client_keys_list
  | KeyAdd key tenant label =>
      resp ← do_post admin_key (base_url +:+ "/admin/api/client-keys") (to_string (add_body key tenant label));
      k ← decoded decode_key_record resp;
      println ("Added key: hash=" +:+ rr_key_hash k)
  | KeyUpdate key_hash enabled tenant label =>
      resp ← do_patch admin_key (base_url +:+ "/admin/api/client-keys/" +:+ key_hash) (to_string (update_body enabled tenant label));
      k ← decoded decode_key_record resp;
      println ("Updated key: hash=" +:+ rr_key_hash k +:+ "  enabled=" +:+ bool_display (rr_enabled k))
  | KeyRotate key_hash new_key =>
      resp ← do_post admin_key (base_url +:+ "/admin/api/client-keys/" +:+ key_hash) (to_string (rotate_body new_key));
      k ← decoded decode_key_record resp;
      println ("Rotated key: hash=" +:+ rr_key_hash k)
  | KeyDelete key_hash =>
      resp ← do_delete admin_key (base_url +:+ "/admin/api/client-keys/" +:+ key_hash);
      k ← decoded decode_key_record resp;
      println ("Deleted key: hash=" +:+ rr_key_hash k)
  end.

Definition cmd_live : TM S unit :=
  printlns ["Connect to:  " +:+ base_url +:+ "/admin/live"; "WebSocket:   " +:+ http_to_ws base_url +:+ "/admin/live";
            "Open in browser for the live waterfall UI."].

Definition cmd_export (format : string) (hours : Z) : TM S unit :=
  body ← do_get admin_key (base_url +:+ "/admin/export?format=" +:+ format +:+ "&hours=" +:+ string_of_Z hours);
  println body.
End Commands.

(** ** Configuration file *)

Section ConfigFile.
Context {S : Type} `{OS : !Outside S}.
(** [serde_yaml::from_str]; a document's values are read like JSON's. *)
Context (yaml_value : string -> Result Value string).

(** [CONFIG_PATH], if the command line sets it. *)
Definition config_path (s : S) (set : option string) : string :=
  match set with
  | Some path => path
  | None => unwrap_or (env_var s "LLM_PROXY_CONFIG") "config.yaml"
  end.

Definition config_document (s : S) (set : option string) : option Value :=
  match read_file s (config_path s set) with
  | Ok raw => match yaml_value raw with Ok v => Some v | Err _ => None end
  | Err _ => None
  end.

Definition base_url_from_config (s : S) (set : option string) : option string :=
  v ← config_document s set;
  server ← get "server" v;
  base_url_of_server (get_str "host" server) (get "port" server ≫= as_u64).

Definition db_path_of (doc : Value) : option string := get "db" doc ≫= get_str "path".
Definition default_db_path (s : S) (set : option string) : string :=
  unwrap_or (config_document s set ≫= db_path_of) "./data/llm_proxy.db".

(** The default of [--base-url] is computed while the arguments are parsed, before
    [run] sets [CONFIG_PATH]. *)
Definition parsed_base_url (s : S) (flag : option string) : string :=
  unwrap_or flag (default_cli_base_url (env_var s "LLM_PROXY_BASE_URL") (base_url_from_config s None)).
End ConfigFile.

(** ** The document of the local fallback *)

(** [doc.as_mapping_mut().ok_or(..)?.entry(k).or_insert(v)], then [f] on the entry. *)
Definition with_entry (k : string) (v : Value) (f : Value -> Result Value string) (doc : Value) : Result Value string :=
  match doc with
  | Object m => let? v' := f (unwrap_or (map_get k m) v) in Ok (Object (map_insert k v' m))
  | _ => Err "config.yaml root must be a mapping"
  end.

Definition key_object (entry : KeyEntry) : Value :=
  obj [("type", Str (cred_type_str entry)); ("issuer", Str (unwrap_or (issuer entry) "xai")); ("key", Str (key entry));
       ("refresh", Str (unwrap_or (refresh entry) "")); ("expires", json_int (unwrap_or (expires entry) 0));
       ("weight", json_int (weight entry))].
Definition pool_object (entry : KeyEntry) : Value :=
  obj [("keys", Array [key_object entry]); ("strategy", Str "weighted_random")].
Definition provider_object (pool_id : string) : Value :=
  obj [("id", Str "xai"); ("kind", Str "openai"); ("base_url", Str "https://api.x.ai/v1"); ("pool_id", Str pool_id)].

Definition provider_listed (pool_id : string) (p : Value) : bool :=
  bool_decide (get_str "pool_id" p = Some pool_id) || bool_decide (get_str "id" p = Some "xai").

Definition local_document (pool_id : string) (entry : KeyEntry) (doc : Value) : Result Value string :=
  let? doc := with_entry "pools" (Object []) (fun pools =>
      match pools with
      | Object m => Ok (Object (map_insert pool_id (pool_object entry) m))
      | _ => Err "pools must be a mapping"
      end) doc in
  let? doc := with_entry "providers" (Array []) (fun providers =>
      Ok match providers with
         | Array seq => if existsb (provider_listed pool_id) seq then Array seq else Array (seq ++ [provider_object pool_id])
         | v => v
         end) doc in
  with_entry "model_to_pool" (Object []) (fun routing =>
      Ok match routing with
         | Object m => Object (map_or_insert grok (Str pool_id) m)
         | v => v
         end) doc.

(** ** The commands on the database *)

Section Run.
Context `{UC : UrlCrate} `{SD : StatusDisplay} `{SX : Sqlx} `{SJ : SerdeJson} `{DG : Digest} `{DB : DebugStr} `{FX : FixedDisplay}
  `{FD : F64Display} `{FL : F64}.
Context `{DP : !DashIter string ModelPricing} `{DE : !DashIter string PriceEntry}.
Context `{DR : !DashIter string ModelRouting} `{DO : !DashIter string PoolConfig}.
Context {S : Type} `{OS : !Outside S}.
Context (json_error : string -> string) (yaml_value : string -> Result Value string).

Definition cmd_import_models (source : string) (overwrite : bool) : TM S unit :=
  s ← outside id;
  report ← on_db (_ ← open_db;
                  call app_error_to_string (import_source json_error (read_file s) (http_fetch s) source overwrite));
  let c := counts report in
  _ ← println ("new=" +:+ string_of_Z (Z.of_nat (cnt_new c)) +:+ " skipped=" +:+ string_of_Z (Z.of_nat (cnt_skipped c))
               +:+ " conflicts=" +:+ string_of_Z (Z.of_nat (cnt_conflicts c)) +:+ " failed=" +:+ string_of_Z (Z.of_nat (cnt_failed c)));
  _ ← printlns (reasons report);
  if (0 <? cnt_conflicts c)%nat && negb overwrite then
    println "existing registry rows were left unchanged; pass --overwrite to refresh them from models.dev"
  else mret tt.

Fixpoint print_prices (pricing : PricingConfig) (models : list string) : TM S unit :=
  match models with
  | [] => mret tt
  | model :: rest =>
      let price := lookup_price pricing model None in
      source ← on_db (pricing_source model);
      let source := if Qeq_bool (price_prompt price) 0 && Qeq_bool (price_completion price) 0 then "unpriced" else source in
      _ ← println (left_aligned 34 model +:+ " " +:+ right_aligned 10 (fixed 4 (price_prompt price)) +:+ " "
                   +:+ right_aligned 10 (fixed 4 (price_completion price)) +:+ "  " +:+ source);
      print_prices pricing rest
  end.

Definition cmd_pricing_list (only_model : option string) : TM S unit :=
  now ← outside now_of;
  pricing ← on_db (effective_pricing now);
  models ← match only_model with
           | Some m => mret [m]
           | None => on_db (sql "model_registry" (read (fun d => merge_sort str_before (mr_id <$> model_registry_tbl d))))
           end;
  _ ← println (left_aligned 34 "MODEL" +:+ " " +:+ right_aligned 10 "INPUT/1M" +:+ " " +:+ right_aligned 10 "OUTPUT/1M" +:+ "  SOURCE");
  _ ← print_prices pricing models;
  println (lf +:+ "Layers (highest priority first): pricing_override(tenant) > pricing_override(global) > config.yaml pricing: > model_registry").

Definition cmd_pricing_set (model : string) (input output : Q) (tenant : option string) (effective_from effective_until : option Z) : TM S unit :=
  now ← outside now_of;
  _ ← on_db (run_pricing_set now model input output tenant effective_from effective_until);
  _ ← println ("set " +:+ model +:+ " input=" +:+ f64_to_string input +:+ " output=" +:+ f64_to_string output
               +:+ " tenant=" +:+ unwrap_or tenant "*" +:+ " from=" +:+ string_of_Z (unwrap_or effective_from now)
               +:+ " until=" +:+ match effective_until with Some u => string_of_Z u | None => "never" end);
  println "run `llm_proxy_cli reload` (or wait for the poller) to apply".

(** [rows_affected]: the rows the statement removed. *)
Definition override_count : TM S nat := fun p => (p, Ok (length (pricing_override_tbl (w_db (pr_db p))))).

Definition cmd_pricing_unset (model : string) (tenant : option string) : TM S unit :=
  before ← override_count;
  _ ← on_db (pricing_unset model tenant);
  after ← override_count;
  println ("removed " +:+ string_of_Z (Z.of_nat (before - after)) +:+ " override row(s) for " +:+ model
           +:+ " (tenant=" +:+ unwrap_or tenant "*" +:+ ")").

Definition cmd_pricing_backfill (overwrite dry_run : bool) : TM S unit :=
  now ← outside now_of;
  pricing ← on_db (effective_pricing now);
  r ← on_log (pricing_backfill pricing overwrite dry_run);
  println ((if dry_run then "[dry-run] " else "") +:+ string_of_Z (bf_priced r) +:+ " rows priced (total $" +:+ fixed 6 (bf_total r)
           +:+ "), " +:+ string_of_Z (bf_unpriced r) +:+ " left NULL (no price in any layer)").

(** ** OAuth *)

Definition oauth_yaml_lines (entry : KeyEntry) : list string :=
  ["Login succeeded."; "YAML fragment for config.yaml (pools.<pool_id>.keys):"; "      - type: oauth";
   "        issuer: " +:+ unwrap_or (issuer entry) "xai";
   "        key: " +:+ debug_str (key entry);
   "        refresh: " +:+ debug_str (unwrap_or (refresh entry) "")]
  ++ match expires entry with Some e => ["        expires: " +:+ string_of_Z e] | None => [] end
  ++ ["        weight: " +:+ string_of_Z (weight entry)].

Definition print_oauth_yaml (entry : KeyEntry) : TM S unit := printlns (oauth_yaml_lines entry).

(** The file is read and its document brought up to date, only its database path is
    used; then the tables. *)
Definition persist_local (config : option string) (pool_id : string) (entry : KeyEntry) : TM S unit :=
  s ← outside id;
  let path := config_path s config in
  raw ← try match read_file s path with Ok r => Ok r | Err e => Err ("read " +:+ path +:+ ": " +:+ e) end;
  doc ← try match yaml_value raw with Ok d => Ok d | Err e => Err ("parse " +:+ path +:+ ": " +:+ e) end;
  doc ← try (local_document pool_id entry doc);
  let db_path := unwrap_or (db_path_of doc) "./data/llm_proxy.db" in
  _ ← on_db (persist_oauth_local pool_id entry);
  println ("Updated sqlite " +:+ db_path).

(** A failed call as a value, for the code that goes on. *)
Definition caught {A} (m : TM S A) : TM S (Result A string) := fun p => let '(p', r) := m p in (p', Ok r).

Definition create_body (pool : string) (body : Value) : Value :=
  obj [("id", Str pool); ("strategy", Str "weighted_random");
       ("keys", Array [unwrap_or (from_str (to_string body)) Null])].

(** The gateways in turn: whether one took the key. *)
Fixpoint post_to_gateways (admin_key pool : string) (body : Value) (bases : list string) : TM S bool :=
  match bases with
  | [] => mret false
  | url_base :: rest =>
      r ← caught (do_post admin_key (url_base +:+ "/admin/api/pools/" +:+ pool +:+ "/keys") (to_string body));
      match r with
      | Ok resp => _ ← println ("Applied to pool " +:+ pool +:+ " via " +:+ url_base +:+ ": " +:+ resp); mret true
      | Err e =>
          if str_contains "HTTP 404" e then
            r ← caught (do_post admin_key (url_base +:+ "/admin/api/pools") (to_string (create_body pool body)));
            match r with
            | Ok resp => _ ← println ("Created pool " +:+ pool +:+ " via " +:+ url_base +:+ ": " +:+ resp); mret true
            | Err create_err =>
                _ ← println ("gateway " +:+ url_base +:+ " rejected pool create: " +:+ create_err);
                post_to_gateways admin_key pool body rest
            end
          else
            _ ← println ("gateway " +:+ url_base +:+ " unreachable: " +:+ e);
            post_to_gateways admin_key pool body rest
      end
  end.

Definition apply_key (cli : CliArgs) (pool : string) (entry : KeyEntry) : TM S unit :=
  s ← outside id;
  taken ← post_to_gateways (arg_admin_key cli) pool (post_body entry)
           (candidate_base_urls (arg_base_url cli) (base_url_from_config yaml_value s (arg_config cli)));
  if taken : bool then mret tt else
  _ ← persist_local (arg_config cli) pool entry;
  println "Wrote oauth credential to local sqlite. Restart the gateway to load it, or pass --base-url http://127.0.0.1:<port>".

Definition with_weight (entry : KeyEntry) (w : Z) : KeyEntry :=
  mkKeyEntry (key entry) w (cred_type entry) (refresh entry) (expires entry) (issuer entry) (identity entry).

(** What both commands do with the entry. *)
Definition finish_login (cli : CliArgs) (entry : KeyEntry) (pool : option string) (apply : bool) (w : Z) : TM S unit :=
  let entry := with_weight entry w in
  _ ← print_oauth_yaml entry;
  if apply then
    pool ← try (ok_or pool "--apply requires --pool <pool_id>");
    apply_key cli pool entry
  else mret tt.

Definition prompt_lines (d : DeviceCode) : list string :=
  ["xAI device login"; "----------------"; "1. Open this URL in a browser:"; "   " +:+ verification_uri d;
   "2. Confirm this code: " +:+ user_code d;
   "The code expires in " +:+ string_of_Z (expires_in_seconds d) +:+ " seconds. Waiting for authorization..."].

(** The text of a run whose answers do not end the flow. *)
Definition still_waiting : string := "waiting for authorization".

Definition cmd_login (cli : CliArgs) (issuer_name : string) (pool : option string) (apply : bool) (w : Z) : TM S unit :=
  if negb (str_eqb issuer_name "xai") then fail ("unsupported oauth issuer '" +:+ issuer_name +:+ "'") else
  s ← outside id;
  device ← try match device_code_of (device_answer s) with Ok d => Ok d | Err e => Err (app_error_to_string e) end;
  _ ← printlns (prompt_lines device);
  entry ← try match login (now_of s) (device_answer s) (poll_rounds s) with
              | Some (Ok entry) => Ok entry
              | Some (Err e) => Err (app_error_to_string e)
              | None => Err still_waiting
              end;
  finish_login cli entry pool apply w.

Definition cmd_import_pi (cli : CliArgs) (pool : option string) (apply : bool) (w : Z) : TM S unit :=
  s ← outside id;
  home ← try (ok_or (env_var s "HOME") "HOME is not set");
  let path := home +:+ "/.pi/agent/auth.json" in
  raw ← try match read_file s path with Ok r => Ok r | Err e => Err ("read " +:+ path +:+ ": " +:+ e) end;
  v ← try (ok_or (from_str raw) ("parse auth.json: " +:+ json_error raw));
  entry ← try (import_pi_xai v);
  finish_login cli entry pool apply w.

(** ** [run] *)

Definition run_cli (cli : CliArgs) : TM S unit :=
  let k := arg_admin_key cli in
  let base := arg_base_url cli in
  match arg_command cli with
  | CmdStatus => cmd_status k base json_error
  | CmdKeys => cmd_keys k base json_error
  | CmdMetrics => cmd_metrics k base
  | CmdReload => cmd_reload k base
  | CmdConfig (ConfigExport output) => cmd_config_export k base output
  | CmdConfig (ConfigImport file dry_run) => cmd_config_import k base json_error file dry_run
  | CmdAlerts => cmd_alerts k base json_error
  | CmdClientKeys a => cmd_client_keys k base json_error a
  | CmdLive => cmd_live base
  | CmdExport format hours => cmd_export k base format hours
  | CmdImportModels source _ overwrite => cmd_import_models source overwrite
  | CmdPricing (PricingList _ model) => cmd_pricing_list model
  | CmdPricing (PricingSet model input output tenant from until _) => cmd_pricing_set model input output tenant from until
  | CmdPricing (PricingUnset model tenant _) => cmd_pricing_unset model tenant
  | CmdPricing (PricingBackfill _ overwrite dry_run) => cmd_pricing_backfill overwrite dry_run
  | CmdOauth (OauthLogin issuer_name pool apply w) => cmd_login cli issuer_name pool apply w
  | CmdOauth (OauthImportPi pool apply w) => cmd_import_pi cli pool apply w
  end.
End Run.

(** ** Secrets of a URL *)

Section Redaction.
Context `{UC : UrlCrate}.

Definition same_place (u v : Url) : Prop := u_scheme u = u_scheme v /\ u_host u = u_host v /\ u_path u = u_path v.

(** The text of a failed request tells two URLs apart only by scheme, host and
    path: a user name, a password, a query or a fragment leaves no trace. *)
Theorem error_text_hides_secrets url url' u v e : parse_url url = Some u -> parse_url url' = Some v -> same_place u v ->
  request_error url e = request_error url' e.
Proof. intros Hu Hv (Hs & Hh & Hp). unfold request_error, redact_url. by rewrite Hu, Hv, Hs, Hh, Hp. Qed.
End Redaction.

(** ** The fallback of a login *)

(** The document that [persist_oauth_local] brings up to date has the database path
    of the file it was read from. *)
Lemma with_entry_other k v f doc doc' k' : with_entry k v f doc = Ok doc' -> k ≠ k' -> get k' doc' = get k' doc.
Proof.
  unfold with_entry. destruct doc as [| | | | |m]; try done. destruct (f _) as [v'|]; [|done]. cbn. intros [= <-] Hne.
  cbn [get]. by apply map_get_insert_ne.
Qed.

Lemma local_document_path pool_id entry doc doc' : local_document pool_id entry doc = Ok doc' -> db_path_of doc' = db_path_of doc.
Proof.
  unfold local_document, db_path_of. destruct (with_entry "pools" _ _ doc) as [d1|] eqn:E1; [|done]. cbn.
  destruct (with_entry "providers" _ _ d1) as [d2|] eqn:E2; [|done]. intros E3.
  rewrite (with_entry_other _ _ _ _ _ "db" E3), (with_entry_other _ _ _ _ _ "db" E2), (with_entry_other _ _ _ _ _ "db" E1); done.
Qed.

Section Gateways.
Context `{UC : UrlCrate} `{SD : StatusDisplay} `{SJ : SerdeJson} {S : Type} `{OS : !Outside S}.
(** Gateways whose answers do not depend on what was asked before. *)
Context (answer : CliRequest -> Sent) (steady : forall s rq, send s rq = (s, answer rq)).

Definition steady_post (admin_key url : string) (v : Value) : Result string string :=
  match answer (mkCliRequest POST url (attach_auth admin_key [] ++ json_type) (Some (to_string v))) with
  | Err e => Err (request_error url e)
  | Ok (status, text) => if is_success status then text else Err (http_failure status text)
  end.

Lemma caught_post admin_key url v p :
  caught (do_post admin_key url (to_string v)) p = (p, Ok (steady_post admin_key url v)).
Proof.
  unfold caught, do_post, with_body, mbind, TM_bind, outside_step. rewrite steady. unfold try, steady_post. by destruct p.
Qed.

(** The loop with its printing takes the decisions of [apply_via]. *)
Lemma gateways_agree admin_key pool body bases p : from_str (to_string body) = Some body ->
  (post_to_gateways admin_key pool body bases p).2 = Ok (is_some (apply_via (steady_post admin_key) pool body bases)).
Proof.
  intros Hf. assert (create_body pool body = obj [("id", Str pool); ("strategy", Str "weighted_random"); ("keys", Array [body])]) as Hc.
  { unfold create_body. by rewrite Hf. }
  revert p. induction bases as [|b bases IH]; intros p; [done|]. cbn [post_to_gateways apply_via].
  unfold mbind at 1, TM_bind at 1. rewrite caught_post. destruct (steady_post _ _ body) as [resp|e]; [done|].
  destruct (str_contains "HTTP 404" e).
  - unfold mbind at 1, TM_bind at 1. rewrite caught_post, Hc. destruct (steady_post _ _ _) as [resp|e']; [done|]. apply IH.
  - apply IH.
Qed.
End Gateways.
