(* ===== verification/CliGateway.v ===== *)
(** * The command line and the gateway together

    Composes [CliRun.v] with [Server.v] and the handlers of [AdminApi.v]: a network
    that delivers the requests for a base URL to a running server, the server's
    side of the commands on client keys (the body decoded, the store's operation,
    the record or the error sent back), and where each command's request goes.

    The theorems show that such a command does to the gateway's store exactly what
    the store's operation does and reports its outcome, and that every command's
    request is one the server routes to the handler the command is meant for. *)

From S2P Require Import Prelude Json Types Config Pricing Db ConfigStore Providers Cache Auth Handler Gateway AdminApi LogDb Dashboard Cli Server CliRun.

(** ** The server's side *)

(** The derived decoders of [src/src/auth_store.rs]. *)
Definition string_or (k d : string) (v : Value) : option string :=
  match get k v with None => Some d | Some x => as_str x end.
Definition maybe {A} (k : string) (dec : Value -> option A) (v : Value) : option (option A) :=
  match get k v with None | Some Null => Some None | Some x => Some <$> dec x end.

Definition decode_create (v : Value) : option CreateKeyRequest :=
  key ← field "key" as_str v; tenant ← string_or "tenant_id" "default" v; label ← string_or "label" "" v;
  Some (mkCreate key tenant label).
Definition decode_update (v : Value) : option UpdateKeyRequest :=
  _ ← as_object v; enabled ← maybe "enabled" as_bool v; label ← maybe "label" as_str v; tenant ← maybe "tenant_id" as_str v;
  Some (mkUpdate enabled label tenant).
Definition decode_rotate (v : Value) : option RotateKeyRequest := mkRotate <$> field "new_key" as_str v.

Definition encode_public (r : ClientKeyPublicRecord) : Value :=
  obj [("tenant_id", Str (pub_tenant_id r)); ("key_hash", Str (pub_key_hash r)); ("created_at", json_int (pub_created_at r));
       ("enabled", Bool (pub_enabled r)); ("label", Str (pub_label r))].
Definition encode_key_list (l : ClientKeyListResponse) : Value :=
  obj [("keys", Array (encode_public <$> ckl_keys l)); ("total", json_int (Z.of_nat (ckl_total l)))].

Definition respond {A} (encode : A -> Value) (r : Result A AppError) : HttpResponse :=
  match r with Ok a => mkHttp 200 (encode a) | Err e => into_response e end.

(** The store is one, shared by the middleware and the handlers. *)
Definition set_auth_store (gw : Gateway) (st : option AuthStore) : Gateway :=
  mkGateway (mkAuthState (entries (gw_auth gw)) st) (gw_limiter gw) (gw_shared gw).

Section Handlers.
Context `{SJ : SerdeJson} `{DG : Digest} `{DK : !DashIter string ClientKeyRecord}.
(** axum's answers to a body or a path it cannot extract, and the other handlers. *)
Context (rejection : HttpResponse) (other : Endpoint -> HttpResponse).
(** [Path<String>]: percent-decoding. *)
Context (path_decode : string -> option string).

Definition store_reply (gw : Gateway) (p : option AuthStore * Result ClientKeyPublicRecord AppError) : Gateway * HttpResponse :=
  (set_auth_store gw p.1, respond encode_public p.2).

Definition json_body {A} (dec : Value -> option A) (body : option string) : option A := (body ≫= from_str) ≫= dec.

Definition key_hash_of (caps : list (string * string)) : option string :=
  (snd <$> List.find (fun kv => str_eqb kv.1 "key_hash") caps) ≫= path_decode.

Definition client_key_handler (gw : Gateway) (now : Z) (e : Endpoint) (caps : list (string * string)) (body : option string)
    : Gateway * HttpResponse :=
  let st := auth_store (gw_auth gw) in
  match e with
  | api_list_client_keys => (gw, respond encode_key_list (admin_api_list_client_keys st))
  | api_add_client_key =>
      match json_body decode_create body with
      | Some req => store_reply gw (admin_api_add_client_key st now req)
      | None => (gw, rejection)
      end
  | api_update_client_key =>
      match key_hash_of caps, json_body decode_update body with
      | Some h, Some req => store_reply gw (admin_api_update_client_key st h req)
      | _, _ => (gw, rejection)
      end
  | api_delete_client_key =>
      match key_hash_of caps with
      | Some h => store_reply gw (admin_api_delete_client_key st h)
      | None => (gw, rejection)
      end
  | api_rotate_client_key =>
      match key_hash_of caps, json_body decode_rotate body with
      | Some h, Some req => store_reply gw (admin_api_rotate_client_key st now h req)
      | _, _ => (gw, rejection)
      end
  | _ => (gw, other e)
  end.
End Handlers.

(** ** The network *)

(** The path of a request target. *)
Fixpoint before_query (s : string) : string :=
  match s with
  | EmptyString => EmptyString
  | String c s' => if Ascii.eqb c (chr 63) then EmptyString else String c (before_query s')
  end.

Record Remote := mkRemote { rm_gateway : Gateway; rm_now : Z }.

Section Network.
Context `{SJ : SerdeJson} `{DG : Digest} `{DK : !DashIter string ClientKeyRecord} `{FL : F64} `{MT : Matchit}.
Context (rejection : HttpResponse) (other : Endpoint -> HttpResponse) (path_decode : string -> option string).
(** The server's address, its configuration, and the headers a proxy before it adds. *)
Context (base : string) (limit : Z) (ips : list string) (via : header_map).
(** What a request carries besides its headers: the clocks and the id. *)
Context (template : Incoming).

Definition arrival_of (rq : CliRequest) (path : string) : Arrival :=
  mkArrival (cq_method rq) path None
    (mkIncoming (via ++ cq_headers rq) (in_request_id template) None (in_body template) (in_bucket_now template)
       (in_limit_now template) (in_limit_ts template) (in_env template) (in_attempts template)).

(** A request whose URL begins with the address arrives there with the rest as its
    target. *)
Definition deliver_request (s : Remote) (rq : CliRequest) : Remote * Sent :=
  match strip_prefix base (cq_url rq) with
  | None => (s, Err "error sending request")
  | Some target =>
      match http_server limit ips (rm_gateway s) (arrival_of rq (before_query target)) with
      | Some (gw, _, sv) =>
          match sv_answer sv with
          | inl r => (mkRemote gw (rm_now s), Ok (http_status r, Ok (to_string (http_body r))))
          | inr (Reached e caps _) =>
              let '(gw, r) := client_key_handler rejection other path_decode gw (rm_now s) e caps (cq_body rq) in
              (mkRemote gw (rm_now s), Ok (http_status r, Ok (to_string (http_body r))))
          | inr MethodNotAllowed => (mkRemote gw (rm_now s), Ok (405, Ok ""))
          | inr (Files _) | inr NoRoute => (mkRemote gw (rm_now s), Ok (404, Ok ""))
          end
      | None => (s, Err "error sending request")
      end
  end.
End Network.

(* ------------------------------------------------------------------ *)
(** ** What is sent is what is read *)

Lemma decode_create_add key tenant label : decode_create (add_body key tenant label) = Some (mkCreate key tenant label).
Proof. reflexivity. Qed.
Lemma decode_update_body enabled tenant label : decode_update (update_body enabled tenant label) = Some (mkUpdate enabled label tenant).
Proof. by destruct enabled, tenant, label. Qed.
Lemma decode_rotate_body new_key : decode_rotate (rotate_body new_key) = Some (mkRotate new_key).
Proof. reflexivity. Qed.

(** The record as the command line reads it. *)
Definition read_record (r : ClientKeyPublicRecord) : KeyRecordResp :=
  mkKeyRecord (pub_key_hash r) (pub_tenant_id r) (pub_created_at r) (pub_enabled r) (pub_label r).

Lemma as_i64_int z : z < 2 ^ 63 -> as_i64 (json_int z) = Some z.
Proof.
  intros H. unfold json_int. destruct (Z.ltb_spec z 0); [done|]. cbn [as_i64]. by rewrite (proj2 (Z.ltb_lt _ _) H).
Qed.

Lemma decode_encode_record r : pub_created_at r < 2 ^ 63 -> decode_key_record (encode_public r) = Some (read_record r).
Proof.
  intros H. unfold decode_key_record, field, encode_public.
  assert (forall k, get k (obj [("tenant_id", Str (pub_tenant_id r)); ("key_hash", Str (pub_key_hash r)); ("created_at", json_int (pub_created_at r));
       ("enabled", Bool (pub_enabled r)); ("label", Str (pub_label r))])
    = map_get k [("created_at", json_int (pub_created_at r)); ("enabled", Bool (pub_enabled r)); ("key_hash", Str (pub_key_hash r));
       ("label", Str (pub_label r)); ("tenant_id", Str (pub_tenant_id r))]) as Hg by done.
  rewrite !Hg. cbn [map_get]. repeat (rewrite bool_decide_true by done || rewrite bool_decide_false by done).
  apply as_i64_int in H. csimpl. cbn [as_i64 json_int] in H. by rewrite H.
Qed.

(** ** Headers and targets *)

Lemma header_get_app a b name : header_get (a ++ b) name = or_else (header_get a name) (header_get b name).
Proof. unfold header_get. induction a as [|[k v] a IH]; [done|]. cbn. by destruct (str_eqb k name). Qed.

(** The command line states no address of its own. *)
Lemma cli_headers_guard ips via admin_key extra :
  header_get extra "x-real-ip" = None -> header_get extra "x-forwarded-for" = None ->
  ip_guard ips (via ++ attach_auth admin_key [] ++ extra) = ip_guard ips via.
Proof.
  intros H1 H2. unfold ip_guard. rewrite !header_get_app, H1, H2. unfold attach_auth. destruct (str_is_empty admin_key); cbn [app header_get fmap].
  - by destruct (header_get via "x-real-ip"), (header_get via "x-forwarded-for").
  - by destruct (header_get via "x-real-ip"), (header_get via "x-forwarded-for").
Qed.

Lemma before_query_segment a s : no_delimiter s = true -> before_query a = a -> before_query (a +:+ s) = a +:+ s.
Proof.
  intros Hs. induction a as [|c a IH]; cbn [String.append before_query].
  - intros _. induction s as [|c s IHs]; [done|]. cbn [no_delimiter before_query] in *. apply andb_true_iff in Hs as [[_ Hc]%andb_true_iff Hs].
    destruct (Ascii.eqb c (chr 63)); [done|]. by rewrite IHs.
  - destruct (Ascii.eqb c (chr 63)); [done|]. intros [= H]. by rewrite IH.
Qed.

Definition keys_path : string := "/admin/api/client-keys".
Definition key_path (h : string) : string := "/admin/api/client-keys/" +:+ h.

Lemma fits_key_path h : segment h = true -> fits_path "/admin/api/client-keys/{key_hash}" (key_path h) = Some [("key_hash", h)].
Proof.
  intros [He Hd]%andb_true_iff. unfold fits_path, key_path.
  change ("/admin/api/client-keys/" +:+ h) with (keys_path +:+ String (chr 47) h). rewrite split_slash_app, (split_segment h Hd).
  assert (str_is_empty h = false) as Hn by by destruct h.
  change (split_slash "/admin/api/client-keys/{key_hash}") with (split_slash keys_path ++ ["{key_hash}"]).
  rewrite fits_segs_app by (vm_compute; reflexivity). cbn [fits_segs]. change (capture_name "{key_hash}") with (Some "key_hash"). by rewrite Hn.
Qed.

(** ** The commands on client keys *)

(** The operation a command asks for, what it sends, and what it prints. *)
Definition op_of (now : Z) (a : ClientKeyAction) : option AuthOp :=
  match a with
  | KeyList => None
  | KeyAdd key tenant label => Some (OpAdd now (mkCreate key tenant label))
  | KeyUpdate h enabled tenant label => Some (OpUpdate h (mkUpdate enabled label tenant))
  | KeyRotate h new_key => Some (OpRotate now h (mkRotate new_key))
  | KeyDelete h => Some (OpRemove h)
  end.

Definition sent_body (a : ClientKeyAction) : option Value :=
  match a with
  | KeyList | KeyDelete _ => None
  | KeyAdd key tenant label => Some (add_body key tenant label)
  | KeyUpdate _ enabled tenant label => Some (update_body enabled tenant label)
  | KeyRotate _ new_key => Some (rotate_body new_key)
  end.

Definition hash_arg (a : ClientKeyAction) : option string :=
  match a with KeyList | KeyAdd _ _ _ => None | KeyUpdate h _ _ _ | KeyRotate h _ | KeyDelete h => Some h end.

Definition report_line (a : ClientKeyAction) (r : ClientKeyRecord) : string :=
  match a with
  | KeyList => ""
  | KeyAdd _ _ _ => "Added key: hash=" +:+ ck_key_hash r
  | KeyUpdate _ _ _ _ => "Updated key: hash=" +:+ ck_key_hash r +:+ "  enabled=" +:+ bool_display (ck_enabled r)
  | KeyRotate _ _ => "Rotated key: hash=" +:+ ck_key_hash r
  | KeyDelete _ => "Deleted key: hash=" +:+ ck_key_hash r
  end.

(** How a request of the command line reaches its handler. *)
Definition key_route (a : ClientKeyAction) : Method * string * Endpoint :=
  match a with
  | KeyList => (GET, keys_path, api_list_client_keys)
  | KeyAdd _ _ _ => (POST, keys_path, api_add_client_key)
  | KeyUpdate h _ _ _ => (PATCH, key_path h, api_update_client_key)
  | KeyRotate h _ => (POST, key_path h, api_rotate_client_key)
  | KeyDelete h => (DELETE, key_path h, api_delete_client_key)
  end.

Definition key_captures (a : ClientKeyAction) : list (string * string) :=
  match hash_arg a with Some h => [("key_hash", h)] | None => [] end.

Section KeyRoutes.
Context `{DG : Digest} `{FL : F64} `{MT : Matchit} `{ML : !MatchitLaws}.
Context (limit : Z) (ips : list string).

Lemma key_command_served gw i a :
  (forall h, hash_arg a = Some h -> segment h = true) ->
  (ar_method i, ar_path i) = (key_route a).1 -> ar_cors i = None -> ip_guard ips (in_headers (ar_in i)) = true ->
  http_server limit ips gw i = Some (gw, [], mkServed [] (inr (Reached (key_route a).2 (key_captures a) ext_none))).
Proof.
  intros Hh Hm Hc Hg.
  assert (forall limited, route_of (build_router limit ips limited) keys_path
    = Some (mkRoute keys_path [(GET, api_list_client_keys); (POST, api_add_client_key)] (admin_layers ips))) as H1.
  { intros []; reflexivity. }
  assert (forall limited, route_of (build_router limit ips limited) "/admin/api/client-keys/{key_hash}"
    = Some (mkRoute "/admin/api/client-keys/{key_hash}" [(PATCH, api_update_client_key); (DELETE, api_delete_client_key); (POST, api_rotate_client_key)]
              (admin_layers ips))) as H2.
  { intros []; reflexivity. }
  destruct a; cbn [key_route fst snd] in Hm; injection Hm as Hm Hp; cbn [key_captures hash_arg].
  1,2: eapply admin_served; [apply H1|by rewrite Hp; vm_compute|by rewrite Hm|done..].
  all: eapply admin_served; [apply H2|rewrite Hp; apply fits_key_path; by apply Hh|by rewrite Hm|done..].
Qed.
End KeyRoutes.

Section Compose.
Context `{UC : UrlCrate} `{SD : StatusDisplay} `{SX : Sqlx} `{SJ : SerdeJson} `{DG : Digest} `{DB : DebugStr} `{FX : FixedDisplay}
  `{FD : F64Display} `{FL : F64}.
Context `{DP : !DashIter string ModelPricing} `{DE : !DashIter string PriceEntry}.
Context `{DR : !DashIter string ModelRouting} `{DO : !DashIter string PoolConfig} `{DK : !DashIter string ClientKeyRecord}.
Context `{MT : Matchit} `{ML : !MatchitLaws}.
Context (json_error : string -> string) (yaml_value : string -> Result Value string).
Context (rejection : HttpResponse) (other : Endpoint -> HttpResponse) (path_decode : string -> option string).
Context (base : string) (limit : Z) (ips : list string) (via : header_map) (template : Incoming).
(** An outside whose network is the one of [deliver_request]. *)
Context {S : Type} `{OS : !Outside S} (got : S -> Remote) (put : S -> Remote -> S).
Context (got_put : forall s r, got (put s r) = r).
Context (connected : forall s rq,
  send s rq = let d := deliver_request rejection other path_decode base limit ips via template (got s) rq in (put s d.1, d.2)).

Definition store_of (p : Proc S) : option AuthStore := auth_store (gw_auth (rm_gateway (got (pr_outside p)))).
Definition with_outside (p : Proc S) (s : S) : Proc S := mkProc (pr_out p) (pr_err p) (pr_db p) (pr_log p) s.

(** The headers of a request: none of them states an address. *)
Definition sent_headers (admin_key : string) (a : ClientKeyAction) : header_map :=
  attach_auth admin_key [] ++ match sent_body a with Some _ => json_type | None => [] end.

(** The request of a command, delivered: its handler's answer. *)
Lemma key_request_delivered admin_key a s st o :
  op_of (rm_now (got s)) a = Some o -> auth_store (gw_auth (rm_gateway (got s))) = Some st ->
  (forall h, hash_arg a = Some h -> segment h = true /\ path_decode h = Some h) ->
  ip_guard ips via = true -> (forall v, sent_body a = Some v -> json_faithful v) ->
  let r := auth_op st o in
  send s (mkCliRequest (key_route a).1.1 (base +:+ (key_route a).1.2) (sent_headers admin_key a) (to_string <$> sent_body a))
  = (put s (mkRemote (set_auth_store (rm_gateway (got s)) (Some r.1)) (rm_now (got s))),
     let rsp := respond encode_public (let? k := r.2 in Ok (public_of_record k)) in Ok (http_status rsp, Ok (to_string (http_body rsp)))).
Proof.
  intros Ho Hst Hh Hg Hj r. rewrite connected. unfold deliver_request. cbn [cq_url cq_method cq_headers cq_body].
  rewrite (proj2 (strip_prefix_Some base _ _) eq_refl).
  assert (before_query (key_route a).1.2 = (key_route a).1.2) as ->.
  { destruct a as [|? ? ?|h ? ? ?|h ?|h]; try done; apply before_query_segment; try done;
      destruct (Hh h eq_refl) as [[_ ?]%andb_true_iff _]; done. }
  erewrite (key_command_served limit ips (rm_gateway (got s)) _ a); [|by intros h [? _]%Hh|by destruct (key_route a) as [[??]?]|done|].
  2:{ cbn [arrival_of ar_in in_headers cq_headers]. unfold sent_headers. rewrite cli_headers_guard; [done|by destruct (sent_body a)..]. }
  cbn [sv_answer]. unfold client_key_handler, key_captures, key_hash_of, json_body, json_faithful in *. rewrite Hst.
  subst r. destruct a as [|k t l|h e t l|h k|h]; [done|..]; injection Ho as <-; cbn [key_route snd hash_arg sent_body fmap option_fmap option_map cq_body].
  all: unfold mbind, option_bind; cbn [fst snd List.find]; rewrite ?str_eqb_refl; cbn [fmap option_fmap option_map snd].
  all: try rewrite (Hj _ eq_refl); try rewrite (proj2 (Hh _ eq_refl)).
  all: by rewrite ?decode_create_add, ?decode_update_body, ?decode_rotate_body.
Qed.

(** A command on one key: a request, the record read, a line. *)
Definition key_request (admin_key : string) (a : ClientKeyAction) : TM S string :=
  r ← outside_step (fun s => send s (mkCliRequest (key_route a).1.1 (base +:+ (key_route a).1.2) (sent_headers admin_key a) (to_string <$> sent_body a)));
  try match r with
      | Err e => Err (request_error (base +:+ (key_route a).1.2) e)
      | Ok (status, text) => if is_success status then text else Err (http_failure status text)
      end.

Definition read_line (a : ClientKeyAction) (k : KeyRecordResp) : string :=
  report_line a (mkRecord "" (rr_tenant_id k) (rr_key_hash k) (rr_created_at k) (rr_enabled k) (rr_label k)).

Lemma key_command_shape admin_key a now o : op_of now a = Some o ->
  cmd_client_keys admin_key base json_error a
  = (resp ← key_request admin_key a; k ← decoded json_error decode_key_record resp; println (read_line a k)).
Proof.
  destruct a; cbn [op_of]; intros Ho; [done|..]; unfold key_request, sent_headers; cbn [key_route sent_body fst snd fmap option_fmap option_map];
    by rewrite ?app_nil_r.
Qed.

Lemma auth_op_errors st o e : (auth_op st o).2 = Err e -> is_success (http_status (into_response e)) = false.
Proof.
  assert (forall m, is_success (http_status (into_response (BadRequest m))) = false) as Hb by done.
  assert (forall h, is_success (http_status (into_response (key_not_found h))) = false) as Hn by done.
  destruct o; cbn [auth_op]; unfold add, update, rotate, remove; repeat case_match; cbn [snd]; intros [= <-]; auto.
Qed.

Lemma key_request_runs admin_key a p s' rsp :
  send (pr_outside p) (mkCliRequest (key_route a).1.1 (base +:+ (key_route a).1.2) (sent_headers admin_key a) (to_string <$> sent_body a))
  = (s', Ok (http_status rsp, Ok (to_string (http_body rsp)))) ->
  key_request admin_key a p
  = (with_outside p s', if is_success (http_status rsp) then Ok (to_string (http_body rsp))
                        else Err (http_failure (http_status rsp) (Ok (to_string (http_body rsp))))).
Proof. intros H. unfold key_request, mbind, TM_bind, outside_step. by rewrite H. Qed.

(** Claim C30: a command of the command line that adds, updates, rotates or deletes a client
    key does to the store of the gateway it talks to what that operation of the
    store does, no more; the line it prints shows the record as the store has
    it, and when the store refuses, the command fails with the status and the
    body of the refusal and prints nothing.*)
Theorem client_key_commands_refine admin_key config a p st o :
  op_of (rm_now (got (pr_outside p))) a = Some o -> store_of p = Some st ->
  (forall h, hash_arg a = Some h -> segment h = true /\ path_decode h = Some h) ->
  ip_guard ips via = true -> (forall v, sent_body a = Some v -> json_faithful v) ->
  (forall r, (auth_op st o).2 = Ok r -> json_faithful (encode_public (public_of_record r)) /\ ck_created_at r < 2 ^ 63) ->
  let '(p', res) := run_cli json_error yaml_value (mkCli base config admin_key (CmdClientKeys a)) p in
  store_of p' = Some (auth_op st o).1 /\ pr_db p' = pr_db p
  /\ match (auth_op st o).2 with
     | Ok r => res = Ok tt /\ pr_out p' = pr_out p ++ [report_line a r +:+ lf]
     | Err e => res = Err (http_failure (http_status (into_response e)) (Ok (to_string (http_body (into_response e))))) /\ pr_out p' = pr_out p
     end.
Proof.
  intros Ho Hst Hh Hg Hj Hr. unfold run_cli. cbn [arg_admin_key arg_base_url arg_command].
  rewrite (key_command_shape admin_key a _ o Ho).
  pose proof (key_request_runs admin_key a p _ _ (key_request_delivered admin_key a (pr_outside p) st o Ho Hst Hh Hg Hj)) as Hreq.
  unfold mbind, TM_bind. rewrite Hreq. clear Hreq. destruct (auth_op st o) as [st' [r|e]] eqn:Ea; cbn [fst snd respond http_status http_body] in *.
  - destruct (Hr r eq_refl) as [Hf Hc]. change (is_success 200) with true. unfold decoded, try. cbn iota. rewrite Hf.
    unfold mbind, option_bind. rewrite decode_encode_record by done. unfold store_of, println, print.
    cbn [ok_or with_outside pr_out pr_err pr_db pr_log pr_outside]. rewrite got_put. split; [done|]. split; [done|]. split; [done|]. by destruct a.
  - rewrite (auth_op_errors st o e) by (by rewrite Ea). unfold store_of. cbn [with_outside pr_out pr_db pr_outside]. by rewrite got_put.
Qed.
End Compose.

(** ** Where the commands go *)

Definition command_target (c : Commands) : option (Method * string * Endpoint) :=
  match c with
  | CmdStatus => Some (GET, "/admin/api/status", api_status)
  | CmdKeys => Some (GET, "/admin/api/keys", api_keys)
  | CmdMetrics => Some (GET, "/metrics", metrics)
  | CmdReload => Some (POST, "/admin/api/config/refresh", api_config_refresh)
  | CmdConfig (ConfigExport _) => Some (GET, "/admin/api/config/export", api_config_export)
  | CmdConfig (ConfigImport _ _) => Some (POST, "/admin/api/config/import", api_config_import)
  | CmdAlerts => Some (GET, "/admin/alerts?format=json", alerts_screen)
  | CmdClientKeys a => Some (key_route a)
  | CmdExport format hours => Some (GET, "/admin/export?format=" +:+ format +:+ "&hours=" +:+ string_of_Z hours, export)
  | CmdLive | CmdImportModels _ _ _ | CmdOauth _ | CmdPricing _ => None
  end.

Definition key_segments (c : Commands) : Prop :=
  match c with CmdClientKeys a => forall h, hash_arg a = Some h -> segment h = true | _ => True end.

(** What the command reads before it asks the gateway is there. *)
Definition input_there {S} `{!Outside S} (c : Commands) (s : S) : Prop :=
  match c with
  | CmdConfig (ConfigImport file _) => exists t, (if str_eqb file "-" then read_stdin s else read_file s file) = Ok t
  | _ => True
  end.

Definition routed_target (limit : Z) (ips : list string) (limited : bool) (m : Method) (target : string) (e : Endpoint) : Prop :=
  exists r caps, r ∈ app_routes (build_router limit ips limited) /\ fits_path (rt_path r) (before_query target) = Some caps
    /\ method_endpoint m (rt_methods r) = Some e.

Lemma routed_by limit ips limited m target e pat r caps :
  route_of (build_router limit ips limited) pat = Some r -> fits_path pat (before_query target) = Some caps ->
  method_endpoint m (rt_methods r) = Some e -> routed_target limit ips limited m target e.
Proof.
  intros Hr Hf Hm. apply find_some in Hr as [Hin%list_elem_of_In <-%str_eqb_spec]. by exists r, caps.
Qed.

Lemma before_query_key h : segment h = true -> before_query (key_path h) = key_path h.
Proof. intros [_ H]%andb_true_iff. by apply before_query_segment. Qed.

Lemma key_command_routed limit ips limited a : (forall h, hash_arg a = Some h -> segment h = true) ->
  routed_target limit ips limited (key_route a).1.1 (key_route a).1.2 (key_route a).2.
Proof.
  intros Hh. destruct a as [|k t l|h e t l|h k|h]; cbn [key_route fst snd].
  1,2: destruct limited; eapply (routed_by _ _ _ _ _ _ keys_path); by vm_compute.
  all: eapply (routed_by _ _ _ _ _ _ "/admin/api/client-keys/{key_hash}");
    [destruct limited; vm_compute; reflexivity|rewrite before_query_key by auto; apply fits_key_path; auto|done].
Qed.

Section Targets.
Context `{UC : UrlCrate} `{SD : StatusDisplay} `{SX : Sqlx} `{SJ : SerdeJson} `{DG : Digest} `{DB : DebugStr} `{FX : FixedDisplay}
  `{FD : F64Display} `{FL : F64}.
Context `{DP : !DashIter string ModelPricing} `{DE : !DashIter string PriceEntry}.
Context `{DR : !DashIter string ModelRouting} `{DO : !DashIter string PoolConfig}.
Context (json_error : string -> string) (yaml_value : string -> Result Value string).
Context {S : Type} `{OS : !Outside S}.

Lemma TM_bind_Err {A B} (m : TM S A) (k : A -> TM S B) p p' e : m p = (p', Err e) -> (m ≫= k) p = (p', Err e).
Proof. unfold mbind, TM_bind. by intros ->. Qed.
Lemma TM_bind_Ok {A B} (m : TM S A) (k : A -> TM S B) p p' a : m p = (p', Ok a) -> (m ≫= k) p = k a p'.
Proof. unfold mbind, TM_bind. by intros ->. Qed.

(** A request that cannot be sent. *)
Lemma lost {A} rq p s' err (k : Sent -> TM S A) :
  send (pr_outside p) rq = (s', Err err) -> (outside_step (fun s => send s rq) ≫= k) p = k (Err err) (with_outside p s').
Proof. intros H. unfold mbind, TM_bind, outside_step. by rewrite H. Qed.

Lemma do_get_lost admin_key url p s' err :
  send (pr_outside p) (mkCliRequest GET url (attach_auth admin_key []) None) = (s', Err err) ->
  do_get admin_key url p = (with_outside p s', Err (request_error url err)).
Proof. intros H. unfold do_get. by rewrite (lost _ _ _ _ _ H). Qed.
Lemma with_body_lost admin_key m url body p s' err :
  send (pr_outside p) (mkCliRequest m url (attach_auth admin_key [] ++ json_type) (Some body)) = (s', Err err) ->
  with_body admin_key m url body p = (with_outside p s', Err (request_error url err)).
Proof. intros H. unfold with_body. by rewrite (lost _ _ _ _ _ H). Qed.
Lemma do_delete_lost admin_key url p s' err :
  send (pr_outside p) (mkCliRequest DELETE url (attach_auth admin_key []) None) = (s', Err err) ->
  do_delete admin_key url p = (with_outside p s', Err (request_error url err)).
Proof. intros H. unfold do_delete. by rewrite (lost _ _ _ _ _ H). Qed.

(** The text a [config import] reads. *)
Lemma import_reads (file text : string) p : (if str_eqb file "-" then read_stdin (pr_outside p) else read_file (pr_outside p) file) = Ok text ->
  (if str_eqb file "-" then
     r ← outside read_stdin; try match r with Ok t => Ok t | Err e => Err ("stdin: " +:+ e) end
   else
     r ← outside (fun s => read_file s file); try match r with Ok t => Ok t | Err e => Err ("read " +:+ file +:+ ": " +:+ e) end) p
  = (p, Ok text).
Proof. unfold mbind, TM_bind, outside, try. destruct (str_eqb file "-"); by intros ->. Qed.

(** The first request of a command, lost. *)
Lemma command_lost base config admin_key c p m target e :
  command_target c = Some (m, target, e) -> input_there c (pr_outside p) ->
  exists headers body, forall s' err, send (pr_outside p) (mkCliRequest m (base +:+ target) headers body) = (s', Err err) ->
    run_cli json_error yaml_value (mkCli base config admin_key c) p = (with_outside p s', Err (request_error (base +:+ target) err)).
Proof.
  intros Ht Hi.
  destruct c as [| | | |[output|file dry]| |[|k t l|h en t l|h k|h]| |format hours|source db ov|act|act]; try done.
  all: cbn [command_target key_route] in Ht; injection Ht as <- <- <-; unfold run_cli; cbn [arg_admin_key arg_base_url arg_command].
  all: try solve [eexists _, _; intros s' err H; apply TM_bind_Err; first [apply do_get_lost|apply do_delete_lost|apply with_body_lost]; exact H].
  destruct Hi as [text Hi]. eexists _, _. intros s' err H. unfold cmd_config_import.
  rewrite (TM_bind_Ok _ _ _ _ _ (import_reads file text p Hi)). apply TM_bind_Err, with_body_lost. exact H.
Qed.

Lemma command_routed limit ips limited c m target e :
  command_target c = Some (m, target, e) -> key_segments c -> routed_target limit ips limited m target e.
Proof.
  intros Ht Hk. destruct c as [| | | |[output|file dry]| |a| |format hours|source db ov|act|act]; try done; cbn [command_target] in Ht.
  8: { injection Ht as Ht. pose proof (key_command_routed limit ips limited a Hk) as H. by rewrite Ht in H. }
  all: injection Ht as <- <- <-.
  - destruct limited; eapply (routed_by _ _ _ _ _ _ "/admin/api/status"); by vm_compute.
  - destruct limited; eapply (routed_by _ _ _ _ _ _ "/admin/api/keys"); by vm_compute.
  - destruct limited; eapply (routed_by _ _ _ _ _ _ "/metrics"); by vm_compute.
  - destruct limited; eapply (routed_by _ _ _ _ _ _ "/admin/api/config/refresh"); by vm_compute.
  - destruct limited; eapply (routed_by _ _ _ _ _ _ "/admin/api/config/export"); by vm_compute.
  - destruct limited; eapply (routed_by _ _ _ _ _ _ "/admin/api/config/import"); by vm_compute.
  - destruct limited; eapply (routed_by _ _ _ _ _ _ "/admin/alerts"); by vm_compute.
  - destruct limited; eapply (routed_by _ _ _ _ _ _ "/admin/export"); by vm_compute.
Qed.

(** Each command that asks the gateway sends one request first, whose target the
    server routes to the handler the command is meant for; when that request
    cannot be sent the command ends with the error naming the URL, and has
    printed and changed nothing. *)
Theorem commands_reach_their_handlers limit ips limited base config admin_key c p m target e :
  command_target c = Some (m, target, e) -> key_segments c -> input_there c (pr_outside p) ->
  routed_target limit ips limited m target e
  /\ exists headers body, forall s' err, send (pr_outside p) (mkCliRequest m (base +:+ target) headers body) = (s', Err err) ->
       run_cli json_error yaml_value (mkCli base config admin_key c) p = (with_outside p s', Err (request_error (base +:+ target) err)).
Proof.
  intros Ht Hk Hi. split; [by eapply command_routed|by eapply command_lost].
Qed.
End Targets.

(** ** Examples *)

Module CliDemo.
#[local] Existing Instances exact_f64 HandlerDemo.digest first_match.
Definition keys_iter : DashIter string ClientKeyRecord := dash_iter_by_key string ClientKeyRecord.
#[local] Existing Instance keys_iter.
Definition base : string := "http://gw:8080".
Definition st : AuthStore := store_new 5 [mkClientKey "sk-one" "acme"].
Definition action : ClientKeyAction := KeyAdd "sk-new" "beta" "ci".
Definition op : AuthOp := OpAdd 7 (mkCreate "sk-new" "beta" "ci").
Definition new_record : ClientKeyRecord := mkRecord "sk-new" "beta" (compute_key_hash "sk-new") 7 true "ci".
(** The two documents of this run. *)
Definition serde : SerdeJson :=
  {| from_str := fun s => if str_eqb s "add" then Some (add_body "sk-new" "beta" "ci") else if str_eqb s "rec" then Some (encode_public (public_of_record new_record)) else None;
     to_string := fun v => match get "key" v, get "key_hash" v with Some _, _ => "add" | _, Some _ => "rec" | _, _ => "err" end |}.
#[local] Existing Instance serde.
Definition secret_url : string := "http://me:secret@gw/x?t=1".
Definition url_crate : UrlCrate :=
  {| parse_url := fun s => Some (if str_eqb s secret_url then mkUrl "http" "me" (Some "secret") "gw" "/x" (Some "t=1") None
                                 else mkUrl "http" "" None "gw" "/x" None None);
     print_url := fun u => u_scheme u +:+ "://" +:+ (if str_is_empty (u_username u) then "" else u_username u +:+ "@") +:+ u_host u +:+ u_path u
                           +:+ match u_query u with Some q => "?" +:+ q | None => "" end |}.
Definition status_text : StatusDisplay := {| status_display := string_of_Z |}.
Definition debug : DebugStr := {| debug_str := fun s => s |}.
Definition display : F64Display := HandlerDemo.display.
Definition template : Incoming := GatewayDemo.incoming "" 0.
Definition remote : Remote := mkRemote (mkGateway (mkAuthState [] (Some st)) None HandlerDemo.s0) 7.
Definition net : Remote -> CliRequest -> Remote * Sent :=
  deliver_request (mkHttp 400 Null) (fun _ => mkHttp 500 Null) Some base 1024 ["10.0.0.1"] [("x-real-ip", "10.0.0.1")] template.
Definition world : Outside Remote :=
  {| send := net; read_file := fun _ _ => Err "no such file"; write_file := fun s _ _ => (s, Ok tt); read_stdin := fun _ => Ok "";
     env_var := fun _ _ => None; now_of := fun _ => 0; http_fetch := fun _ _ => Err "offline"; device_answer := fun _ => Err "offline";
     poll_rounds := fun _ => [] |}.
Definition p0 : Proc Remote := mkProc [] [] StoreDemo.w0 LogDemo.w0 remote.
End CliDemo.

Section CliWitnesses.
Import CliDemo.
#[local] Existing Instances exact_f64 HandlerDemo.digest first_match first_match_laws keys_iter serde url_crate status_text debug CliDemo.display
  DashDemo.display StoreDemo.sqlx StoreDemo.it_prices StoreDemo.it_entries StoreDemo.it_routes StoreDemo.it_pools world.

Theorem client_key_commands_refine_witness :
  let '(p', res) := run_cli (fun _ => "bad") (fun _ => Err "bad") (mkCli base None "" (CmdClientKeys action)) p0 in
  res = Ok tt /\ pr_out p' = ["Added key: hash=" +:+ compute_key_hash "sk-new" +:+ lf]
  /\ (store_of (S := Remote) (fun s => s) p' ≫= fun s => client_keys s !! "sk-new") = Some new_record.
Proof.
  pose proof (client_key_commands_refine (fun _ => "bad") (fun _ => Err "bad") (mkHttp 400 Null) (fun _ => mkHttp 500 Null) Some base 1024
    ["10.0.0.1"] [("x-real-ip", "10.0.0.1")] template (fun s => s) (fun _ r => r) (fun _ _ => eq_refl)
    (fun s rq => eq_trans (surjective_pairing (net s rq)) eq_refl)
    "" None action p0 st op eq_refl eq_refl) as H.
  destruct (run_cli _ _ _ p0) as [p' res].
  assert ((auth_op st op).2 = Ok new_record) as Hop by (vm_compute; reflexivity).
  destruct H as (Hs & _ & H); [done|vm_compute; reflexivity|intros v [= <-]; vm_compute; reflexivity| |].
  { rewrite Hop. intros r [= <-]. split; [vm_compute; reflexivity|done]. }
  rewrite Hop in H. destruct H as [-> Ho]. split; [done|]. split; [exact Ho|]. rewrite Hs. vm_compute. reflexivity.
Defined.

Theorem commands_reach_their_handlers_witness :
  routed_target 1024 ["10.0.0.1"] false DELETE (key_path "ab12") api_delete_client_key
  /\ exists headers body, forall s' err,
       send (pr_outside p0) (mkCliRequest DELETE ("http://down" +:+ key_path "ab12") headers body) = (s', Err err) ->
       run_cli (fun _ => "bad") (fun _ => Err "bad") (mkCli "http://down" None "" (CmdClientKeys (KeyDelete "ab12"))) p0
       = (with_outside p0 s', Err (request_error ("http://down" +:+ key_path "ab12") err)).
Proof.
  refine (commands_reach_their_handlers (fun _ => "bad") (fun _ => Err "bad") 1024 ["10.0.0.1"] false "http://down" None ""
    (CmdClientKeys (KeyDelete "ab12")) p0 DELETE (key_path "ab12") api_delete_client_key eq_refl _ I).
  intros h [= <-]. reflexivity.
Defined.

Theorem error_text_hides_secrets_witness : request_error secret_url "refused" = request_error "http://gw/x" "refused".
Proof.
  apply (error_text_hides_secrets secret_url "http://gw/x" (mkUrl "http" "me" (Some "secret") "gw" "/x" (Some "t=1") None)
    (mkUrl "http" "" None "gw" "/x" None None)); done.
Defined.

(** A configuration file named on the command line does not give the address. *)
Definition elsewhere : Outside unit :=
  {| send := fun s _ => (s, Err "down"); read_file := fun _ f => if str_eqb f "other.yaml" then Ok "doc" else Err "no such file";
     write_file := fun s _ _ => (s, Ok tt); read_stdin := fun _ => Ok ""; env_var := fun _ _ => None; now_of := fun _ => 0;
     http_fetch := fun _ _ => Err "offline"; device_answer := fun _ => Err "offline"; poll_rounds := fun _ => [] |}.
Example config_flag_ignored_for_address :
  let yaml _ := Ok (obj [("server", obj [("port", json_int 9000)])]) in
  @base_url_from_config unit elsewhere yaml tt (Some "other.yaml") = Some "http://127.0.0.1:9000"
  /\ @parsed_base_url unit elsewhere yaml tt None = "http://127.0.0.1:8080".
Proof. vm_compute. done. Qed.
End CliWitnesses.
