(* ===== verification/Endpoints.v ===== *)
(** * The handlers behind the routes

    Gives every handler of the server's table its effect on the state of the
    process: the thin handlers that no other file models ([src/src/server/handler.rs],
    [src/src/metrics.rs], [src/src/dashboard/admin_api.rs], [requests.rs],
    [cost_drilldown.rs]), the state they share ([AppState] of
    [src/src/server/mod.rs]), and a request served from its arrival to its effect.

    The theorems show that a GET changes nothing of the state but the bucket of
    its tenant (and raises an alert when it is refused for the rate), that the managed configuration and the client keys are
    changed only by requests past the guard of the admin routes, and that the
    rows the chat handler writes are rows the dashboard can read, and finds by
    the id the client was given. *)

From S2P Require Import Prelude Json Types Alerts RateLimit Cache Config Pricing Db ConfigStore Router Metrics Providers Catalog Credential Auth AdminApi Export Boot Handler LogDb Csv Dashboard Gateway Server CliGateway.

(** ** Thin handlers *)

Record ModelsResponse := mkModels { mls_object : string; mls_data : list Model }.
Record ModelMetadataResponse := mkModelMetadataList { mml_object : string; mml_data : list ModelMetadataDto }.
Record PoolView := mkPoolView { pv_pool_id : string; pv_keys : list KeyView }.
Record KeysResponse := mkKeys { kr_pool_views : list PoolView }.
Record DrilldownQuery := mkDrillQuery { dq_model : string; dq_tenant : option string; dq_format : option string }.
Record DrilldownResponse := mkDrillResponse {
  drs_model : string; drs_tenant : option string; drs_stats : DrilldownStats; drs_chart : ChartData
}.

(** A clock in milliseconds, and [as_secs]. *)
Definition secs (now_ms : Z) : Z := Z.quot now_ms 1000.

Section Thin.
Context `{SX : Sqlx} `{FX : FixedDisplay} `{FL : F64} `{DI16 : DecodeI16} `{SJ : SerdeJson}.
Context `{DI : !DashIter string RouteEntry}.

Definition models_handler {P} (r : Router P) : ModelsResponse := mkModels "list" (list_models r).
Definition model_metadata_handler {P} (r : Router P) (s : ConfigSnapshot) : ModelMetadataResponse :=
  mkModelMetadataList "model_metadata_list" (list_metadata r (cs_registry s) (cs_metadata s)).

Definition metrics_handler (m : Metrics) : Z * header_map * string :=
  (200, [("content-type", "text/plain; charset=utf-8")], render m).

(** [KeyView::from_snapshot] *)
Definition key_view (ks : KeySnapshot) (spark : list Z) (rate : string) : KeyView :=
  mkKeyView (ks_key_hash ks) (ks_weight ks) (ks_healthy ks) spark rate.

Definition key_success_rate_for_hash (now_secs : Z) (key_hash : string) : LM (list Z * string) := key_success_rate now_secs key_hash.

Definition admin_api_keys (now_secs : Z) (snaps : list PoolSnapshot) : LM KeysResponse :=
  pools ← each_map (fun snap =>
    keys ← each_map (fun ks => sr ← key_success_rate_for_hash now_secs (ks_key_hash ks); mret (key_view ks sr.1 sr.2)) (ps_keys snap);
    mret (mkPoolView (ps_pool_id snap) keys)) snaps;
  mret (mkKeys pools).

Definition cost_drilldown_handler (now_secs : Z) (pricing : PricingConfig) (q : DrilldownQuery) : LM DrilldownResponse :=
  sc ← query_drilldown now_secs pricing (dq_model q) (dq_tenant q);
  mret (mkDrillResponse (dq_model q) (dq_tenant q) sc.1 (mkChart (ch_lines sc.2) (ch_labels sc.2))).
End Thin.

(** ** The state of the process *)

Record AppState := mkState {
  st_world : World;                 (* config store and its tables *)
  st_log : LogWorld;                (* the log's tables *)
  st_gateway : Gateway;             (* client keys, rate limiter, the handler's shared state *)
  st_router : Router Provider;      (* the current router *)
  st_alert_count : nat              (* length of the alert snapshot *)
}.

Definition set_world (st : AppState) (w : World) : AppState := mkState w (st_log st) (st_gateway st) (st_router st) (st_alert_count st).
Definition set_log (st : AppState) (l : LogWorld) : AppState := mkState (st_world st) l (st_gateway st) (st_router st) (st_alert_count st).
Definition set_gateway (st : AppState) (gw : Gateway) : AppState := mkState (st_world st) (st_log st) gw (st_router st) (st_alert_count st).

(** The decoded query of a request, and the clock. *)
Record QueryArgs := mkQuery {
  qy_now_ms : Z; qy_filter : RequestFilter; qy_hours : option Z; qy_tenant : option string; qy_format : option string;
  qy_days : option Z; qy_drill : DrilldownQuery; qy_type : option string; qy_ts_from : option Z; qy_ts_to : option Z;
  qy_export_format : string; qy_export_hours : Z
}.

(** What the handlers of GET answer with. *)
Inductive Body : Type :=
| TextBody (status : Z) (headers : header_map) (text : string)
| ModelsBody (r : ModelsResponse)
| MetadataBody (r : ModelMetadataResponse)
| HealthBody (r : HealthReport)
| CostBody (r : Screen CostResponse)
| RequestsBody (r : Screen RequestsResponse)
| DetailBody (r : RequestDetail)
| KeyHealthBody (r : list (string * list KeyView))
| TrafficBody (r : Screen TrafficResponse)
| AlertsBody (r : AlertsResponse)
| DrillBody (r : DrilldownResponse)
| StatusBody (r : StatusResponse)
| KeysBody (r : KeysResponse)
| UsageBody (r : UsageResponse)
| OverviewBody (r : ConfigOverviewResponse)
| ValueBody (v : Value)
| ClientKeysBody (r : ClientKeyListResponse)
| ExportedBody (r : ExportBody)
| Upgraded.                         (* the live socket *)

(** ** Rotated tokens

    A request whose OAuth token has run out writes the new one to the rows of
    [key_entry] with its hash.  The credential runtime never reads the table, so
    it works on a journal: blank for each hash in the table, the row written
    where there was a write. *)

Definition blank_row : KeyRow := Credential.mkKeyRow "" None None.
Definition journal (tbl : list KeyEntryRow) : gmap string KeyRow := list_to_map ((fun r => (ke_key_hash r, blank_row)) <$> tbl).

Definition with_db (c : CredentialRuntime) (tbl : list KeyEntryRow) : CredentialRuntime := mkCred (tokens c) (Some (journal tbl)) (xai c).
Definition with_journal (w : World) (gw : Gateway) : Gateway :=
  let s := gw_shared gw in mkGateway (gw_auth gw) (gw_limiter gw) (set_cred s (with_db (sh_cred s) (key_entry_tbl (w_db w)))).

Definition set_token (r : KeyEntryRow) (k : KeyRow) : KeyEntryRow :=
  Db.mkKeyRow (ke_pool_id r) (ke_key_hash r) (key_plain k) (ke_weight r) (ke_enabled r) (ke_cred_type r)
    (refresh_token_col k) (expires_at k) (ke_issuer r).
Definition rotate_row (j : gmap string KeyRow) (r : KeyEntryRow) : KeyEntryRow :=
  match j !! ke_key_hash r with
  | Some k => if is_some (refresh_token_col k) then set_token r k else r
  | None => r
  end.
Definition rotate_tokens (c : CredentialRuntime) (w : World) : World :=
  match db c with
  | Some j => mkWorld (w_faults w) (set_key_entry (w_db w) (rotate_row j <$> key_entry_tbl (w_db w))) (w_store w)
  | None => w
  end.

Section Effects.
Context `{SX : Sqlx} `{SJ : SerdeJson} `{DG : Digest} `{FX : FixedDisplay} `{FD : F64Display} `{FL : F64} `{DI16 : DecodeI16}
  `{WI : WeightedIndex} `{SR : SumReal}.
Context `{DP : !DashIter string ModelPricing} `{DE : !DashIter string PriceEntry}.
Context `{DR : !DashIter string ModelRouting} `{DO : !DashIter string PoolConfig}.
Context `{DK : !DashIter string ClientKeyRecord} `{DC : !DashIter string CacheEntry} `{DI : !DashIter string RouteEntry}.
Context (yaml_config : string -> Result Config string) (yaml_text : ExportDocument -> string).
(** Sections of the startup configuration that the export shows. *)
Context (server_section : ExportServer) (db_path : string).

(** A screen of the log, a query of the managed tables. *)
Definition screen {A} (wrap : A -> Body) (m : LM A) (st : AppState) : AppState * Result Body AppError :=
  let '(w, r) := m (st_log st) in (set_log st w, let? a := r in Ok (wrap a)).
Definition managed {A} (wrap : A -> Body) (m : M A) (st : AppState) : AppState * Result Body AppError :=
  let '(w, r) := m (st_world st) in (set_world st w, let? a := r in Ok (wrap a)).

(** [sqlx::query("SELECT 1").fetch_one(&state.db).await.is_ok()] *)
Definition db_ok : M bool := fun w =>
  let '(w, r) := run (fun e => Internal (db_display e)) (read (fun _ => tt)) w in (w, Ok (is_ok r)).

Definition get_handler (e : Endpoint) (caps : list (string * string)) (q : QueryArgs) (st : AppState)
    : AppState * Result Body AppError :=
  let now_secs := secs (qy_now_ms q) in
  let store := w_store (st_world st) in
  let pricing := cs_pricing store in
  let snaps := pool_snapshot (sh_bad (gw_shared (st_gateway st))) (st_router st) in
  let capture name := unwrap_or (snd <$> List.find (fun kv => str_eqb kv.1 name) caps) "" in
  match e with
  | models => (st, Ok (ModelsBody (models_handler (st_router st))))
  | model_metadata => (st, Ok (MetadataBody (model_metadata_handler (st_router st) store)))
  | metrics => (st, Ok (let '(status, h, text) := metrics_handler (sh_metrics (gw_shared (st_gateway st))) in TextBody status h text))
  | Server.health_live => (st, Ok (TextBody Boot.health_live.1 [] Boot.health_live.2))
  | Server.health_ready =>
      managed (fun ok => let r := Boot.health_ready ok (st_router st) in TextBody r.1 [] r.2) db_ok st
  | Server.health_full => managed (fun ok => HealthBody (Boot.health_full ok (st_router st) now_secs)) db_ok st
  | cost_overview => screen CostBody (cost_overview_handler now_secs pricing (qy_hours q) (qy_tenant q) (qy_format q)) st
  | request_list => screen RequestsBody (request_list_handler (qy_now_ms q) (qy_filter q)) st
  | request_detail => screen DetailBody (request_detail_handler (capture "id")) st
  | key_health => screen KeyHealthBody (key_health_handler now_secs snaps) st
  | traffic_trend => screen TrafficBody (traffic_trend_handler now_secs (qy_days q) (qy_tenant q) (qy_format q)) st
  | alerts_screen => screen AlertsBody (alerts_handler (qy_type q) (qy_tenant q) (qy_ts_from q) (qy_ts_to q)) st
  | cost_drilldown => screen DrillBody (cost_drilldown_handler now_secs pricing (qy_drill q)) st
  | api_status => (st, Ok (StatusBody (admin_api_status (sh_bad (gw_shared (st_gateway st))) (st_router st)
                                         (sh_metrics (gw_shared (st_gateway st))) (st_alert_count st) now_secs)))
  | api_keys => screen KeysBody (admin_api_keys now_secs snaps) st
  | api_usage => screen UsageBody (admin_api_usage now_secs pricing (qy_hours q) (qy_tenant q)) st
  | api_config_overview => (st, Ok (OverviewBody (admin_api_config_overview store)))
  | api_config_export => (st, Ok (TextBody 200 [("content-type", "text/yaml; charset=utf-8"); ("content-disposition", "attachment; filename=llm-proxy-config.yaml")]
                                    (admin_api_config_export yaml_text server_section db_path store)))
  | api_models => managed ValueBody admin_api_models st
  | api_list_client_keys => (st, let? l := admin_api_list_client_keys (auth_store (gw_auth (st_gateway st))) in Ok (ClientKeysBody l))
  | live => (st, Ok Upgraded)
  | export => screen ExportedBody (export_handler (qy_now_ms q) (qy_export_format q) (qy_export_hours q)) st
  | api_list_providers => (st, Ok (ValueBody (obj [("providers", Array (admin_api_list_providers store))])))
  | api_list_pools => (st, Ok (ValueBody (obj [("pools", Array (admin_api_list_pools store))])))
  | api_list_routing => (st, Ok (ValueBody (admin_api_list_routing store)))
  | _ => (st, Err (NotFound ""))
  end.

(** ** Requests with a body *)

(** axum's answers, and serde's decoding of the bodies of the admin requests. *)
Context (rejection : HttpResponse) (other : Endpoint -> HttpResponse) (path_decode : string -> option string).
Context (decode_op : Endpoint -> list (string * string) -> option string -> option AdminOp).

(** The rows a request writes: a failed insert is only logged. *)
Definition write_logs (evs : list Event) : LM unit :=
  each (fun e => match e with
                 | EvLog l => _ ← attempted (log_request l); mret tt
                 | EvAlert _ => mret tt
                 end) evs.

Definition chat_effect (i : Incoming) (c : AuthedClient) (st : AppState) : AppState * list Event :=
  match handle (with_journal (st_world st) (st_gateway st)) i c with
  | Some (gw, evs, _) =>
      (set_world (set_log (set_gateway st gw) (write_logs evs (st_log st)).1) (rotate_tokens (sh_cred (gw_shared gw)) (st_world st)), evs)
  | None => (st, [])
  end.

Definition is_client_key_op (e : Endpoint) : bool :=
  match e with api_add_client_key | api_update_client_key | api_delete_client_key | api_rotate_client_key => true | _ => false end.

Definition write_handler (e : Endpoint) (caps : list (string * string)) (ext : Extensions) (i : Incoming) (body : option string)
    (now_ms : Z) (st : AppState) : AppState * list Event :=
  if is_client_key_op e then (set_gateway st (client_key_handler rejection other path_decode (st_gateway st) now_ms e caps body).1, [])
  else match e with
       | chat_completions => match x_client ext, x_request_id ext with Some c, Some id => chat_effect (identified i id) c st | _, _ => (st, []) end
       | api_config_validate => (st, [])
       | _ => (match decode_op e caps body with Some op => set_world st (admin_step yaml_config op now_ms (st_world st)) | None => st end, [])
       end.

(** ** A request *)

Definition is_read (m : Method) : bool := match m with GET | HEAD => true | _ => false end.

Context `{MT : Matchit} (limit : Z) (ips : list string).

(** The state after a request, and the rows and alerts it gave rise to. *)
Definition serve_request (i : Arrival) (q : QueryArgs) (body : option string) (st : AppState) : AppState * list Event :=
  match http_server limit ips (st_gateway st) i with
  | Some (gw, evs, sv) =>
      let st := set_gateway st gw in
      match sv_answer sv with
      | inr (Reached e caps ext) =>
          if negb (extracts e ext) then (st, evs)
          else if is_read (ar_method i) then ((get_handler e caps q st).1, evs)
          else let out := write_handler e caps ext (ar_in i) body (qy_now_ms q) st in (out.1, evs ++ out.2)
      | _ => (st, evs)
      end
  | None => (st, [])
  end.
End Effects.

(* ------------------------------------------------------------------ *)
(** ** Reading *)

(** A computation on the log's tables that changes none of them, whatever fails. *)
Definition log_reads {A} (m : LM A) : Prop := forall w, lw_db (m w).1 = lw_db w.

Create HintDb reading.

Lemma log_reads_ret {A} (a : A) : log_reads (mret a).
Proof. done. Qed.
Lemma log_reads_refuse {A} e : log_reads (refuse e : LM A).
Proof. done. Qed.
Lemma log_reads_bind {A B} (m : LM A) (k : A -> LM B) : log_reads m -> (forall a, log_reads (k a)) -> log_reads (m ≫= k).
Proof.
  intros Hm Hk w. specialize (Hm w). unfold mbind, LM_bind. destruct (m w) as [w' [a|e]]; cbn [fst] in *; [by rewrite Hk|done].
Qed.
Lemma log_reads_fetch {A} on_err (q : LogDb -> Result A DbError) : log_reads (fetch on_err q).
Proof. intros [[|[msg|] fs] d]; unfold fetch, exec; cbn [lw_db lw_faults]; try destruct (q d); done. Qed.
Lemma log_reads_attempted {A} (m : LM A) : log_reads m -> log_reads (attempted m).
Proof. intros H w. specialize (H w). unfold attempted. by destruct (m w) as [w' []]. Qed.
Lemma log_reads_each_map {A B} (f : A -> LM B) l : (forall a, log_reads (f a)) -> log_reads (each_map f l).
Proof.
  intros H. induction l as [|a l IH]; [done|]. cbn [each_map]. apply log_reads_bind; [done|]. intros b. by apply log_reads_bind.
Qed.

#[export] Hint Resolve log_reads_ret log_reads_refuse log_reads_fetch log_reads_attempted log_reads_each_map : reading.

(** Follows the sequence of queries of a screen. *)
Ltac reads_log :=
  repeat first [apply log_reads_bind; [|intros ?] | case_match | progress cbv beta zeta | solve [auto with reading]].

Section Reading.
Context `{SX : Sqlx} `{FX : FixedDisplay} `{FL : F64} `{DI16 : DecodeI16} `{SJ : SerdeJson}.

Lemma request_list_reads now f : log_reads (request_list_handler now f).
Proof. unfold request_list_handler, query_tenant_list, query_requests. reads_log. Qed.
Lemma request_detail_reads id : log_reads (request_detail_handler id).
Proof. unfold request_detail_handler. reads_log. Qed.
Lemma cost_overview_reads now p h t f : log_reads (cost_overview_handler now p h t f).
Proof. unfold cost_overview_handler, query_tenant_list, query_cost, query_cost_stats. reads_log. Qed.
Lemma traffic_reads now d t f : log_reads (traffic_trend_handler now d t f).
Proof. unfold traffic_trend_handler, query_tenant_list, query_traffic_raw. reads_log. Qed.
Lemma usage_reads now p h t : log_reads (admin_api_usage now p h t).
Proof. unfold admin_api_usage, query_tenant_list, hourly_costs. reads_log. Qed.
Lemma alerts_reads ty t a b : log_reads (alerts_handler ty t a b).
Proof. unfold alerts_handler, query_alert_events. reads_log. Qed.
Lemma drilldown_reads now p q : log_reads (cost_drilldown_handler now p q).
Proof. unfold cost_drilldown_handler, query_drilldown. reads_log. Qed.
Lemma key_rate_reads now h : log_reads (key_success_rate now h).
Proof. unfold key_success_rate. reads_log. Qed.
Lemma key_health_reads now snaps : log_reads (key_health_handler now snaps).
Proof.
  unfold key_health_handler. apply log_reads_each_map. intros s. apply log_reads_bind; [|done].
  apply log_reads_each_map. intros k. apply log_reads_bind; [apply key_rate_reads|done].
Qed.
Lemma api_keys_reads now snaps : log_reads (admin_api_keys now snaps).
Proof.
  unfold admin_api_keys. apply log_reads_bind; [|done]. apply log_reads_each_map. intros s. apply log_reads_bind; [|done].
  apply log_reads_each_map. intros k. apply log_reads_bind; [apply key_rate_reads|done].
Qed.
Lemma export_reads now f h : log_reads (export_handler now f h).
Proof. unfold export_handler. reads_log. Qed.
End Reading.

#[export] Hint Resolve request_list_reads request_detail_reads cost_overview_reads traffic_reads usage_reads alerts_reads drilldown_reads
  key_health_reads api_keys_reads export_reads : reading.

(** The state is the same but for the buckets of the rate limiter (and the failures
    the drivers have reported): the tables, the snapshot, the client keys, the shared
    state of the handler, the router, the length of the alert snapshot. *)
Record same_data (st st' : AppState) : Prop := {
  sd_db : w_db (st_world st') = w_db (st_world st);
  sd_store : w_store (st_world st') = w_store (st_world st);
  sd_log : lw_db (st_log st') = lw_db (st_log st);
  sd_auth : gw_auth (st_gateway st') = gw_auth (st_gateway st);
  sd_shared : gw_shared (st_gateway st') = gw_shared (st_gateway st);
  sd_router : st_router st' = st_router st;
  sd_alerts : st_alert_count st' = st_alert_count st
}.

(** What the limiter makes of a request, and the alert it raises: nothing, or the
    bucket of the authenticated tenant is used, and a refusal is an alert. *)
Definition limits `{DG : Digest} `{FL : F64} (g : Gateway) (i : Incoming) (g' : Gateway) (evs : list Event) : Prop :=
  gw_limiter g' = gw_limiter g /\ evs = []
  \/ exists l l' c d al, require_auth (gw_auth g) (in_headers i) = Ok c /\ in_too_large i = None
       /\ gw_limiter g = Some l /\ gw_limiter g' = Some l' /\ rate_limit_middleware l (rl_request i c) = (l', d, al) /\ evs = EvAlert <$> al
       /\ (forall t, t ≠ ac_tenant_id c -> buckets l' !! t = buckets l !! t)
       /\ al = match d with RateLimit.Next => [] | RateLimit.Reply _ => [RateLimited (in_limit_ts i) (ac_tenant_id c)] end.

Lemma same_data_refl st : same_data st st.
Proof. done. Qed.

Lemma same_data_trans st1 st2 st3 : same_data st1 st2 -> same_data st2 st3 -> same_data st1 st3.
Proof. intros [] []. split; congruence. Qed.

Lemma screen_same {A} (wrap : A -> Body) (m : LM A) st : log_reads m -> same_data st (screen wrap m st).1.
Proof. intros H. specialize (H (st_log st)). unfold screen. destruct (m (st_log st)) as [w r]. by split. Qed.

Lemma managed_same {A} (wrap : A -> Body) (m : M A) st :
  (forall w, w_db (m w).1 = w_db w /\ w_store (m w).1 = w_store w) -> same_data st (managed wrap m st).1.
Proof. intros H. destruct (H (st_world st)). unfold managed. destruct (m (st_world st)) as [w r]. by split. Qed.

Lemma db_ok_reads `{SX : Sqlx} w : w_db (db_ok w).1 = w_db w /\ w_store (db_ok w).1 = w_store w.
Proof.
  unfold db_ok. pose proof (run_cases (fun e => Internal (db_display e)) (read (fun _ => tt)) w) as H.
  destruct (run _ _ w) as [w' [a|e]]; cbn [fst]; [|done]. destruct H as [[= <- _] ?]. done.
Qed.

Lemma api_models_reads `{SX : Sqlx} `{SJ : SerdeJson} w : w_db (admin_api_models w).1 = w_db w /\ w_store (admin_api_models w).1 = w_store w.
Proof.
  unfold admin_api_models, mbind, M_bind.
  match goal with |- context [run ?e ?q w] => pose proof (run_cases e q w) as H; destruct (run e q w) as [w' [a|er]] end; cbn [fst]; [|done].
  destruct H as [H ?]. destruct (collect _ _); [|done]. injection H as H _. cbn. by rewrite H.
Qed.

Section Serving.
Context `{SX : Sqlx} `{SJ : SerdeJson} `{DG : Digest} `{FX : FixedDisplay} `{FD : F64Display} `{FL : F64} `{DI16 : DecodeI16}
  `{WI : WeightedIndex} `{SR : SumReal}.
Context `{DP : !DashIter string ModelPricing} `{DE : !DashIter string PriceEntry}.
Context `{DR : !DashIter string ModelRouting} `{DO : !DashIter string PoolConfig}.
Context `{DK : !DashIter string ClientKeyRecord} `{DC : !DashIter string CacheEntry} `{DI : !DashIter string RouteEntry}.
Context (yaml_config : string -> Result Config string) (yaml_text : ExportDocument -> string).
Context (server_section : ExportServer) (db_path : string).
Context (rejection : HttpResponse) (other : Endpoint -> HttpResponse) (path_decode : string -> option string).
Context (decode_op : Endpoint -> list (string * string) -> option string -> option AdminOp).
Context `{MT : Matchit} `{ML : !MatchitLaws} (limit : Z) (ips : list string).

Abbreviation serve_one :=
  (serve_request yaml_config yaml_text server_section db_path rejection other path_decode decode_op limit ips).

Lemma get_handler_same e caps q st : same_data st (get_handler yaml_text server_section db_path e caps q st).1.
Proof.
  destruct e; cbn [get_handler]; try apply same_data_refl; try (apply screen_same; auto with reading).
  - apply managed_same, db_ok_reads.
  - apply managed_same, db_ok_reads.
  - apply managed_same. intros w. apply api_models_reads.
Qed.

(** What the layers themselves change: the limiter's buckets. *)
Definition gateway_frame (g g' : Gateway) : Prop := gw_auth g' = gw_auth g /\ gw_shared g' = gw_shared g.
Definition next_frame (next : Next Destination) : Prop := forall g x g' v s, next g x = Some (g', v, s) -> gateway_frame g g'.

Lemma onion_frame i ls next : next_frame next -> next_frame (onion i ls next).
Proof.
  intros Hn. induction ls as [|l ls IH]; [done|]. intros g x g' v s.
  cbn [onion foldr]. change (foldr (around i) next ls) with (onion i ls next).
  destruct l; cbn [around]; unfold request_id_middleware, tagged, answered; try apply IH.
  - destruct (gw_limiter g); [|apply IH]. destruct (rate_limit_middleware _ _) as [[? []] ?]; [by intros H%IH|by intros [= <- _ _]].
  - destruct (in_too_large _); [by intros [= <- _ _]|apply IH].
  - destruct (require_auth _ _); [apply IH|by intros [= <- _ _]].
  - destruct (onion i ls next g _) as [[[g1 v1] s1]|] eqn:E; [|done]. intros [= <- _ _]. by eapply IH.
  - destruct (ip_guard _ _); [apply IH|by intros [= <- _ _]].
  - destruct (ar_cors i); [by intros [= <- _ _]|apply IH].
Qed.

Lemma arrive_frame d : next_frame (arrive d).
Proof. intros g x g' v s. unfold arrive. by intros [= <- _ _]. Qed.

Lemma server_frame gw i gw' evs sv : http_server limit ips gw i = Some (gw', evs, sv) -> gateway_frame gw gw'.
Proof.
  unfold http_server, dispatch_request. destruct (match_path _ _ ≫= _) as [[r caps]|]; [apply onion_frame, arrive_frame|].
  destruct (fallback_of _ _); [apply onion_frame, arrive_frame|apply arrive_frame].
Qed.

Lemma rate_limit_limits g i c l l' d al g' : require_auth (gw_auth g) (in_headers i) = Ok c -> in_too_large i = None ->
  gw_limiter g = Some l -> rate_limit_middleware l (rl_request i c) = (l', d, al) -> gw_limiter g' = Some l' -> limits g i g' (EvAlert <$> al).
Proof.
  intros Hc Hb Hl Hm Hl'. right. exists l, l', c, d, al. do 5 (split; [done|]). split; [done|]. split.
  - intros t Ht. pose proof (middleware_other t l (rl_request i c)) as Ho. rewrite Hm in Ho. apply Ho. unfold for_tenant. cbn. by apply str_eqb_ne.
  - unfold rate_limit_middleware in Hm. cbn [rl_client rl_request unwrap_or rl_ts] in Hm. destruct (str_is_empty _); [by injection Hm as _ <- <-|].
    destruct (consume _ _) as [b []]; cbn [negb] in Hm; by injection Hm as _ <- <-.
Qed.

(** What the layers do to the limiter, on every path. *)
Lemma server_limits gw i gw' evs sv : http_server limit ips gw i = Some (gw', evs, sv) -> limits gw (ar_in i) gw' evs.
Proof.
  set (limited := is_some (gw_limiter gw)). intros H. unfold http_server in H. fold limited in H.
  assert (forall (next : Next Destination) g' v s, onion i (admin_layers ips) next gw ext_none = Some (g', v, s) -> (exists d, next = arrive d) -> g' = gw /\ v = []) as Hadm.
  { intros next g' v s. rewrite admin_onion. destruct (ar_cors i); [by intros [= <- <- _]|]. destruct (ip_guard _ _); [|by intros [= <- <- _]].
    intros Hn [d ->]. by injection Hn as <- <- _. }
  destruct (List.find (fun r => is_some (fits_path (rt_path r) (ar_path i))) (app_routes (build_router limit ips limited))) as [r|] eqn:E.
  - apply find_some in E as [Hr%list_elem_of_In Hf]. destruct (fits_path (rt_path r) (ar_path i)) as [caps|] eqn:Hfit; [|done].
    rewrite (dispatch_route _ _ limited i r caps) in H by done. pose proof (table_guarded limit ips limited) as Ht. rewrite Forall_forall in Ht.
    destruct (Ht r Hr) as [[_ Hls]|[_ Hls]]; rewrite Hls in H.
    + unfold limited in H. rewrite api_onion in H. destruct (ar_cors i); [left; by injection H as <- <- _|].
      unfold tagged in H. destruct (require_auth _ _) as [c|] eqn:Hc; [|left; by injection H as <- <- _].
      destruct (in_too_large _) eqn:Hb; [left; by injection H as <- <- _|]. destruct (gw_limiter gw) as [l|] eqn:El.
      * destruct (rate_limit_middleware l _) as [[l' d] al] eqn:Em.
        assert (limits gw (ar_in i) (mkGateway (gw_auth gw) (Some l') (gw_shared gw)) (EvAlert <$> al)) as Hlim by (by eapply rate_limit_limits).
        destruct d; [|by injection H as <- <- _]. injection H as <- <- _.
        assert (al = []) as ->; [|exact Hlim]. destruct Hlim as [[_ Hal]|(l1 & l2 & c' & d' & al' & Hc' & _ & Hl1 & _ & Hm' & Hal & _ & Hd')]; [by destruct al|].
        rewrite El in Hl1. injection Hl1 as <-. rewrite Hc in Hc'. injection Hc' as <-. rewrite Em in Hm'. by injection Hm' as _ <- <-.
      * left. by injection H as <- <- _.
    + left. apply Hadm in H as [-> ->]; [done|]. eauto.
  - left. destruct (dispatch_no_route limit ips limited i) as (ls & d & Hd & _ & Hls).
    { intros r Hr%list_elem_of_In. pose proof (find_none _ _ E r Hr) as Hn. cbn beta in Hn. by destruct (fits_path _ _). }
    rewrite Hd in H. destruct Hls as [-> | ->]; [|by injection H as <- <- _]. cbn [onion foldr around] in H.
    destruct (ar_cors i); by injection H as <- <- _.
Qed.

Lemma set_gateway_same st gw : gw_auth gw = gw_auth (st_gateway st) -> gw_shared gw = gw_shared (st_gateway st) -> same_data st (set_gateway st gw).
Proof. by split. Qed.

Lemma read_frame i q body st : is_read (ar_method i) = true -> same_data st (serve_one i q body st).1.
Proof.
  intros Hr. unfold serve_request. destruct (http_server _ _ _ _) as [[[gw evs] sv]|] eqn:Es; [|apply same_data_refl].
  apply server_frame in Es as [Ha Hs]. pose proof (set_gateway_same st gw Ha Hs) as Hg.
  destruct (sv_answer sv) as [r|[e caps ext| | |]]; try done. rewrite Hr. destruct (extracts e ext); [|done]. cbn [negb].
  eapply same_data_trans; [exact Hg|]. apply get_handler_same.
Qed.

(** A GET (or HEAD) of any path, with any headers, whatever fails on the way,
    changes neither the managed tables nor their snapshot, neither the log nor
    the client keys, nor any counter, cache or key state of the chat handler: of
    the state of the process, only the limiter's buckets. *)
Theorem reads_change_nothing i q body st : is_read (ar_method i) = true -> same_data st (serve_one i q body st).1.
Proof. apply read_frame. Qed.

(** On the client's side only the chat endpoint takes a method that writes. *)
Lemma table_writes ips' limited : Forall (fun r => Forall (fun me => api_endpoint me.2 = true -> is_read me.1 = false -> me.2 = chat_completions) (rt_methods r))
  (app_routes (build_router limit ips' limited)).
Proof. destruct limited; cbv -[api_endpoint is_read]; repeat (constructor; [by repeat (constructor; [try done|])|]); constructor. Qed.

Lemma api_writes_are_chat gw i e caps ext : reaches limit ips gw i e caps ext -> is_read (ar_method i) = false -> api_endpoint e = true -> e = chat_completions.
Proof.
  intros ((r & Hr & _ & Hm) & _)%reaches_inv Hw He. pose proof (table_writes ips (is_some (gw_limiter gw))) as H. rewrite Forall_forall in H.
  specialize (H r Hr). rewrite Forall_forall in H. apply method_endpoint_elem in Hm as (m' & Hin & Hm').
  apply (H _ Hin He). cbn. destruct Hm' as [->|[-> Hh]]; [done|]. by rewrite Hh in Hw.
Qed.

(** Rotated tokens: some keys have a new token in place of their old one. *)
Definition rotation (r r' : KeyEntryRow) : Prop := r' = r \/ exists k, r' = set_token r k.
Definition tokens_rotated (d d' : Database) : Prop := exists tbl, Forall2 rotation (key_entry_tbl d) tbl /\ d' = set_key_entry d tbl.

Lemma set_key_entry_id d : set_key_entry d (key_entry_tbl d) = d.
Proof. by destruct d. Qed.
Lemma rotated_refl d : tokens_rotated d d.
Proof. exists (key_entry_tbl d). split; [|by rewrite set_key_entry_id]. apply Forall_Forall2_diag, Forall_true. by left. Qed.

(** The parts of the state each side may change. *)
Record managed_same_data (st st' : AppState) : Prop := {
  ms_db : tokens_rotated (w_db (st_world st)) (w_db (st_world st'));
  ms_store : w_store (st_world st') = w_store (st_world st);
  ms_auth : gw_auth (st_gateway st') = gw_auth (st_gateway st);
  ms_router : st_router st' = st_router st;
  ms_alerts : st_alert_count st' = st_alert_count st
}.
Record traffic_same_data (st st' : AppState) : Prop := {
  ts_log : lw_db (st_log st') = lw_db (st_log st);
  ts_shared : gw_shared (st_gateway st') = gw_shared (st_gateway st);
  ts_limiter : gw_limiter (st_gateway st') = gw_limiter (st_gateway st);
  ts_router : st_router st' = st_router st;
  ts_alerts : st_alert_count st' = st_alert_count st
}.

Lemma rotation_row j r : rotation r (rotate_row j r).
Proof. unfold rotate_row. repeat case_match; [right; by eexists|by left..]. Qed.

Lemma rotate_tokens_rotated c w : tokens_rotated (w_db w) (w_db (rotate_tokens c w)) /\ w_store (rotate_tokens c w) = w_store w.
Proof.
  unfold rotate_tokens. destruct (db c) as [j|]; (split; [|done]); eexists.
  - split; [|reflexivity]. cbn [w_db]. apply Forall2_fmap_r, Forall_Forall2_diag, Forall_true. intros r. apply rotation_row.
  - split; [|symmetry; apply set_key_entry_id]. apply Forall_Forall2_diag, Forall_true. by left.
Qed.

Lemma chat_effect_managed i c st : managed_same_data st (chat_effect i c st).1 /\ gw_limiter (st_gateway (chat_effect i c st).1) = gw_limiter (st_gateway st).
Proof.
  unfold chat_effect. destruct (handle _ _ _) as [[[gw evs] a]|] eqn:E.
  - apply handle_frame in E as [Ha Hl]. destruct (rotate_tokens_rotated (sh_cred (gw_shared gw)) (st_world st)). by split.
  - split; [|done]. split; try done. apply rotated_refl.
Qed.

Lemma client_key_handler_shared gw now e caps body :
  let gw' := (client_key_handler rejection other path_decode gw now e caps body).1 in gw_shared gw' = gw_shared gw /\ gw_limiter gw' = gw_limiter gw.
Proof. unfold client_key_handler, store_reply. repeat case_match; done. Qed.

Lemma write_handler_traffic e caps ext i body now st : e ≠ chat_completions ->
  traffic_same_data st (write_handler yaml_config rejection other path_decode decode_op e caps ext i body now st).1.
Proof.
  intros He. unfold write_handler. destruct (is_client_key_op e); [split; try done; cbn; apply client_key_handler_shared|].
  destruct e; try done; destruct (decode_op _ _ _); done.
Qed.

Lemma write_handler_silent e caps ext i body now st : e ≠ chat_completions ->
  (write_handler yaml_config rejection other path_decode decode_op e caps ext i body now st).2 = [].
Proof. intros He. unfold write_handler. destruct (is_client_key_op e); [done|]. by destruct e. Qed.

Lemma get_handler_limiter e caps q st :
  gw_limiter (st_gateway (get_handler yaml_text server_section db_path e caps q st).1) = gw_limiter (st_gateway st).
Proof.
  destruct e; cbn [get_handler]; try done; unfold screen, managed;
    match goal with |- context [?m (st_log st)] => by destruct (m (st_log st)) | |- context [?m (st_world st)] => by destruct (m (st_world st)) end.
Qed.

(** An admin request that is at its handler left the gateway as it was. *)
Lemma admin_untouched gw i gw' evs hs e caps ext : http_server limit ips gw i = Some (gw', evs, mkServed hs (inr (Reached e caps ext))) ->
  api_endpoint e = false -> gw' = gw /\ evs = [].
Proof.
  intros H He. assert (reaches limit ips gw i e caps ext) as Hr by (by exists gw', evs, hs).
  apply reaches_inv in Hr as ((r & Hin & Hf & Hm) & [Hc Hg] & _). rewrite He in Hg. unfold http_server in H.
  rewrite (dispatch_route _ _ _ i r caps) in H by done. rewrite Hm, (layers_of_endpoint _ _ _ _ _ _ Hin Hm), He, admin_onion, Hc, Hg in H.
  by injection H as <- <- _ _.
Qed.

(** Claim C20: whatever a request is, its effect has two parts.  The limiter: nothing,
    or, for a request with a valid key and a body within the limit, the bucket of
    its own tenant is used, and a refusal raises one alert; this holds of reads
    too.  Beside that it does one of three things: nothing, to no part of the
    state, and it causes no event; or, as a chat request with a valid key, it
    changes the log and the shared state of the chat handler, but not the client
    keys, not the configuration in memory, and in the tables at most the tokens of
    OAuth keys; or, as a write to an admin route from an allowed address (or one
    not stated), it changes those, but neither the log nor the shared state nor any
    bucket, and it causes no event.  (The alerts and rows it causes are the events
    of the second component; the tables of the log and of the configuration count
    without the failures their drivers report.) *)
Theorem request_effects i q body st : let out := serve_one i q body st in
  exists evs1 evs2, out.2 = evs1 ++ evs2 /\ limits (st_gateway st) (ar_in i) (st_gateway out.1) evs1
  /\ (same_data st out.1 /\ evs2 = []
      \/ (exists caps ext c, reaches limit ips (st_gateway st) i chat_completions caps ext
            /\ require_auth (gw_auth (st_gateway st)) (in_headers (ar_in i)) = Ok c /\ managed_same_data st out.1)
      \/ (exists e caps ext, reaches limit ips (st_gateway st) i e caps ext /\ api_endpoint e = false /\ is_read (ar_method i) = false
            /\ ip_guard ips (in_headers (ar_in i)) = true /\ traffic_same_data st out.1 /\ evs1 ++ evs2 = [])).
Proof.
  cbv zeta. unfold serve_request.
  destruct (http_server _ _ _ _) as [[[gw evs] sv]|] eqn:Es; [|exists [], []; split; [done|]; split; [by left|left; split; [apply same_data_refl|done]]].
  pose proof (server_frame _ _ _ _ _ Es) as [Ha Hs]. pose proof (set_gateway_same st gw Ha Hs) as Hg. pose proof (server_limits _ _ _ _ _ Es) as Hl.
  assert (exists evs1 evs2, evs = evs1 ++ evs2 /\ limits (st_gateway st) (ar_in i) gw evs1 /\ (same_data st (set_gateway st gw) /\ evs2 = [])) as Hnone
    by (exists evs, []; by rewrite app_nil_r).
  assert (forall P : Prop, (exists evs1 evs2, evs = evs1 ++ evs2 /\ limits (st_gateway st) (ar_in i) gw evs1 /\ (same_data st (set_gateway st gw) /\ evs2 = []))
    -> exists evs1 evs2, evs = evs1 ++ evs2 /\ limits (st_gateway st) (ar_in i) gw evs1 /\ (same_data st (set_gateway st gw) /\ evs2 = [] \/ P)) as Hleft by naive_solver.
  destruct sv as [hs [r|[e caps ext| | |]]]; cbn [sv_answer fst snd]; try (destruct Hnone as (e1 & e2 & H1 & H2 & H3); exists e1, e2; by auto).
  destruct (extracts e ext); cbn [negb]; [|destruct Hnone as (e1 & e2 & H1 & H2 & H3); exists e1, e2; by auto]. clear Hnone Hleft.
  destruct (is_read (ar_method i)) eqn:Hr; cbn [fst snd].
  { exists evs, []. rewrite app_nil_r. split; [done|]. split.
    - unfold limits. rewrite get_handler_limiter. exact Hl.
    - left. split; [|done]. eapply same_data_trans; [exact Hg|]. apply get_handler_same. }
  assert (reaches limit ips (st_gateway st) i e caps ext) as Hreach by (by exists gw, evs, hs).
  pose proof (reaches_inv _ _ _ _ _ _ _ Hreach) as (_ & [_ Hp] & Hx). eexists evs, _. split; [reflexivity|]. destruct (api_endpoint e) eqn:He.
  - pose proof (api_writes_are_chat _ _ _ _ _ Hreach Hr He) as ->. unfold arrives_with in Hx. cbn [api_endpoint] in Hx. destruct Hx as (c & Hc & ->).
    destruct (chat_effect_managed (identified (ar_in i) (in_request_id (ar_in i))) c (set_gateway st gw)) as [[H1 H2 H3 H4 H5] Hlim]. split.
    + unfold limits. cbn [write_handler is_client_key_op x_client x_request_id api_ext]. rewrite Hlim. exact Hl.
    + right. left. exists caps, (api_ext i c), c. split; [done|]. split; [done|]. split; [done|done|by rewrite <- Ha|done|done].
  - assert (e ≠ chat_completions) as Hne by (by intros ->).
    destruct (write_handler_traffic e caps ext (ar_in i) body (qy_now_ms q) (set_gateway st gw) Hne) as [H1 H2 H3 H4 H5].
    rewrite (write_handler_silent e caps ext (ar_in i) body (qy_now_ms q) (set_gateway st gw) Hne).
    assert (gw = st_gateway st /\ evs = []) as [Hgw ->] by (by eapply admin_untouched).
    split; [unfold limits; rewrite H3; exact Hl|]. right. right. exists e, caps, ext. do 4 (split; [done|]). split; [|done].
    split; [done|by rewrite <- Hs|rewrite H3, <- Hgw; done|done|done].
Qed.
End Serving.

(* ------------------------------------------------------------------ *)
(** ** The rows of the log *)

Section Rows.
Context `{SJ : SerdeJson} `{DG : Digest} `{FD : F64Display} `{FL : F64} `{WI : WeightedIndex} `{DI : !DashIter string CacheEntry}.

(** Columns at the widths the screens read them with. *)
Lemma shape_decodable l :
  log_status_code l = Some 200 -> 0 <= retry_count (from_router (log_audit l)) < 2 ^ 31 -> decodable (row_of_log l).
Proof.
  intros Hs Hr. split; [done|]. intros z. unfold row_of_log. cbn. rewrite Hs. destruct (log_is_stream l); naive_solver lia.
Qed.

(** Every row the chat handler writes, at once or when its stream is over,
    decodes at the widths with which the dashboard's screens read it, as long
    as the configured retries fit 31 bits.*)
Theorem logged_rows_typed re tenant id h req envs s s' evs r :
  max_retries (failover (re_policy re)) < 2 ^ 31 ->
  chat_completions_handler re tenant id h req envs s = Some (s', evs, r) ->
  (forall l, EvLog l ∈ evs -> decodable (row_of_log l))
  /\ (forall ctx body started times closed latency m items m' evs' l, r = Ok (StreamReply ctx body) ->
        build_stream_response ctx started body times closed latency m = Some (items, m', evs') ->
        EvLog l ∈ evs' -> decodable (row_of_log l)).
Proof.
  intros Hm He. assert (Z.of_nat (policy_retries re) < 2 ^ 31) as Hp by (unfold policy_retries; lia). split.
  - intros l Hl. destruct (handler_log_rows _ _ _ _ _ _ _ _ _ _ He) as [_ Hrc]. specialize (Hrc l Hl).
    apply shape_decodable; [|lia]. by eapply handler_rows.
  - intros ctx body started times closed latency m items m' evs' l -> Hb Hl. apply handler_stream in He as (_ & _ & Hr).
    unfold build_stream_response, stream_report in Hb. destruct (client_stream _ _) as [its|]; [|done]. cbn in Hb. injection Hb as <- <- <-.
    apply elem_of_cons in Hl as [[= ->]|Hl]; [apply shape_decodable; [done|cbn; lia]|]. destruct (_ <? _); set_solver.
Qed.
End Rows.

(** ** From the answer to the screen *)

Definition log_rows (evs : list Event) : list RequestLog := omap (fun e => match e with EvLog l => Some l | EvAlert _ => None end) evs.

Lemma log_rows_length evs : length (log_rows evs) = logs evs.
Proof. unfold log_rows, logs, count_if. induction evs as [|[a|l] evs IH]; csimpl; [done|done|]. by rewrite IH. Qed.
Lemma log_rows_elem evs l : l ∈ log_rows evs <-> EvLog l ∈ evs.
Proof.
  unfold log_rows. rewrite list_elem_of_omap. split; [|intros H; by exists (EvLog l)].
  intros ([a|l'] & Hin & H); [done|]. by injection H as <-.
Qed.

Definition has_id (id : string) (r : LogRow) : bool := str_eqb (lr_id r) id.

Lemma find_app_fresh {A} (f : A -> bool) l x : Forall (fun y => f y = false) l -> f x = true -> List.find f (l ++ [x]) = Some x.
Proof. induction 1 as [|y l Hy Hl IH]; intros Hx; cbn; [by rewrite Hx|]. rewrite Hy. auto. Qed.

Section Found.
Context `{SX : Sqlx} `{SJ : SerdeJson} `{DG : Digest} `{FD : F64Display} `{FL : F64} `{WI : WeightedIndex} `{DC : !DashIter string CacheEntry}.

Lemma log_request_fresh l w : LogDb.quiet w -> Forall (fun r => has_id (log_id l) r = false) (request_log (lw_db w)) ->
  log_request l w = (mkLogWorld (tail (lw_faults w)) (set_request_log (lw_db w) (request_log (lw_db w) ++ [row_of_log l])), Ok tt).
Proof.
  intros Hq Hf. unfold log_request. apply exec_quiet; [done|]. unfold insert_log_row.
  assert (existsb (fun q => str_eqb (lr_id q) (lr_id (row_of_log l))) (request_log (lw_db w)) = false) as ->; [|done].
  apply not_true_iff_false. rewrite existsb_exists. intros (r & Hr%list_elem_of_In & Hid). rewrite Forall_forall in Hf.
  specialize (Hf r Hr). unfold has_id in Hf. change (lr_id (row_of_log l)) with (log_id l) in Hid. by rewrite Hf in Hid.
Qed.

(** The rows written, when they are at most one. *)
Lemma write_logs_one evs w : LogDb.quiet w -> (logs evs <= 1)%nat ->
  (forall l, EvLog l ∈ evs -> Forall (fun r => has_id (log_id l) r = false) (request_log (lw_db w))) ->
  request_log (lw_db (write_logs evs w).1) = request_log (lw_db w) ++ (row_of_log <$> log_rows evs).
Proof.
  revert w. induction evs as [|[a|l] evs IH]; intros w Hq Hn Hf.
  - cbn. by rewrite app_nil_r.
  - apply IH; [done|done|]. intros l Hl. apply Hf. by right.
  - unfold write_logs. cbn [each]. unfold mbind at 1, LM_bind at 1, mbind at 1, LM_bind at 1, attempted.
    rewrite log_request_fresh by (done || (apply Hf; by left)). cbn [mret LM_ret].
    change (each _ evs ?w) with (write_logs evs w). assert (logs evs = 0%nat) as H0 by (unfold logs, count_if in *; cbn in Hn; lia).
    assert (log_rows evs = []) as He by (apply length_zero_iff_nil; by rewrite log_rows_length).
    rewrite IH.
    + cbn [lw_db request_log set_request_log]. unfold log_rows in *. csimpl. by rewrite He, app_nil_r.
    + by apply quiet_tail.
    + lia.
    + intros l' Hl'%log_rows_elem. rewrite He in Hl'. by apply elem_of_nil in Hl'.
Qed.

Definition detail_of (r : LogRow) : RequestDetail :=
  mkDetail r (lr_status_code r) (negb (lr_is_stream r =? 0)) (unwrap_or (lr_retry_count r) 0) (unwrap_or (lr_tenant_id r) "").

Lemma detail_answers d id r : List.find (has_id id) (request_log d) = Some r -> decodable r -> answers (request_detail_handler id) d (detail_of r).
Proof.
  intros Hf [_ Hd]. unfold request_detail_handler. eapply answers_bind; [apply answers_fetch|].
  - unfold has_id in Hf. rewrite Hf, !decode_opt_ok by auto. rewrite decode_i32_ok by auto. reflexivity.
  - apply answers_ret.
Qed.

(** Claim C21: a request that is answered in full can be looked up afterwards: when the log's
    driver works and its id is new, exactly one row is added, and the detail
    screen for the id the client was given shows it, with the status the client
    saw and the tenant the request was made for (the default tenant for a
    cached answer).*)
Theorem answered_request_is_found i c st gw evs resp :
  handle (with_journal (st_world st) (st_gateway st)) i c = Some (gw, evs, Handled (Ok (JsonReply resp))) ->
  max_retries (failover (re_policy (in_env i))) < 2 ^ 31 -> LogDb.quiet (st_log st) ->
  Forall (fun r => has_id (in_request_id i) r = false) (request_log (lw_db (st_log st))) ->
  let d := lw_db (st_log (chat_effect i c st).1) in
  exists l, request_log d = request_log (lw_db (st_log st)) ++ [row_of_log l] /\ log_shape (in_request_id i) (ac_tenant_id c) l
    /\ answers (request_detail_handler (in_request_id i)) d (detail_of (row_of_log l)).
Proof.
  intros Hh Hm Hq Hfresh d. unfold d, chat_effect. rewrite Hh. cbn [fst st_log set_log set_world]. clear d.
  unfold handle in Hh. destruct (in_body i) as [req|]; [|done].
  destruct (chat_completions_handler _ _ _ _ _ _ _) as [[[s' evs'] r]|] eqn:He; [|done]. injection Hh as <- -> ->.
  destruct (handler_log_rows _ _ _ _ _ _ _ _ _ _ He) as [Hn Hrc]. cbn [is_json] in Hn.
  destruct (log_rows evs) as [|l [|l' ls]] eqn:Er; pose proof (log_rows_length evs) as Hlen; rewrite Er, Hn in Hlen; try done.
  assert (EvLog l ∈ evs) as Hl by (apply log_rows_elem; rewrite Er; by left).
  pose proof (handler_rows _ _ _ _ _ _ _ _ _ _ _ He Hl) as Hs. exists l.
  assert (request_log (lw_db (write_logs evs (st_log st)).1) = request_log (lw_db (st_log st)) ++ [row_of_log l]) as Hw.
  { rewrite write_logs_one; [by rewrite Er|done|lia|]. intros l0 Hl0.
    by rewrite (ls_id _ _ _ (handler_rows _ _ _ _ _ _ _ _ _ _ _ He Hl0)). }
  split; [done|]. split; [done|]. apply detail_answers.
  - rewrite Hw. apply find_app_fresh; [done|]. unfold has_id. change (lr_id (row_of_log l)) with (log_id l). rewrite (ls_id _ _ _ Hs). apply str_eqb_refl.
  - apply shape_decodable; [apply Hs|]. specialize (Hrc l Hl). unfold policy_retries in Hrc. lia.
Qed.
End Found.

(** ** Examples *)

Module EndpointsDemo.
Definition routes_iter : DashIter string RouteEntry := dash_iter_by_key string RouteEntry.
Definition gw : Gateway := mkGateway GatewayDemo.auth None HandlerDemo.s0.
Definition st : AppState := mkState StoreDemo.w0 (mkLogWorld [] (mkLogDb [] [] [] [] [] [] None)) gw HandlerDemo.router 0.
Definition query : QueryArgs :=
  mkQuery 7 DashDemo.everything None None None None (mkDrillQuery "gpt" None None) None None None "jsonl" 24.
Definition client : AuthedClient := mkAuthed "h" "acme".
Definition section : ExportServer := mkExportServer "127.0.0.1" 8080 1024.
(** Each admin request with a body is taken for a refresh. *)
Definition as_refresh (e : Endpoint) (caps : list (string * string)) (body : option string) : option AdminOp := Some OpRefresh.
End EndpointsDemo.

Section EndpointsWitnesses.
Import EndpointsDemo.
#[local] Existing Instances exact_f64 HandlerDemo.serde HandlerDemo.digest HandlerDemo.display HandlerDemo.wi HandlerDemo.iter
  first_match first_match_laws CliDemo.keys_iter DashDemo.display DashDemo.narrow StoreDemo.sqlx LogDemo.sums
  StoreDemo.it_prices StoreDemo.it_entries StoreDemo.it_routes StoreDemo.it_pools routes_iter.

Definition serve_demo (i : Arrival) : AppState :=
  fst (serve_request (fun _ => Err "no") (fun _ => "") section "db" (mkHttp 400 Null) (fun _ => mkHttp 500 Null) Some as_refresh
    ServerDemo.limit ServerDemo.ips i query None st).

Theorem reads_change_nothing_witness : same_data st (serve_demo (ServerDemo.arrival GET "/admin/requests" [])).
Proof.
  exact (reads_change_nothing (fun _ => Err "no") (fun _ => "") section "db" (mkHttp 400 Null) (fun _ => mkHttp 500 Null) Some as_refresh
    ServerDemo.limit ServerDemo.ips (ServerDemo.arrival GET "/admin/requests" []) query None st eq_refl).
Defined.

Theorem request_effects_witness :
  let st' := serve_demo (ServerDemo.arrival POST "/admin/api/config/refresh" []) in
  cs_version (w_store (st_world st')) ≠ cs_version (w_store (st_world st)) /\ traffic_same_data st st'.
Proof.
  cbv zeta. set (i := ServerDemo.arrival POST "/admin/api/config/refresh" []).
  assert (cs_version (w_store (st_world (serve_demo i))) ≠ cs_version (w_store (st_world st))) as Hv by (vm_compute; done).
  split; [exact Hv|].
  destruct (request_effects (fun _ => Err "no") (fun _ => "") section "db" (mkHttp 400 Null) (fun _ => mkHttp 500 Null) Some as_refresh
    ServerDemo.limit ServerDemo.ips i query None st) as (e1 & e2 & _ & _ & [[H _]|[(caps & ext & c & _ & _ & H)|(e & caps & ext & _ & _ & _ & _ & H & _)]]).
  - destruct Hv. f_equal. apply H.
  - destruct Hv. f_equal. apply H.
  - exact H.
Defined.

Definition demo_chat : Incoming := GatewayDemo.incoming "sk-one" 0.
Definition demo_outcome := handle (with_journal (st_world st) gw) demo_chat client.

Theorem logged_rows_typed_witness : exists s' evs r l,
  chat_completions_handler (in_env demo_chat) "acme" "id" [] (HandlerDemo.req "plain" false) [HandlerDemo.ok] HandlerDemo.s0 = Some (s', evs, r)
  /\ EvLog l ∈ evs /\ decodable (row_of_log l).
Proof.
  destruct (chat_completions_handler (in_env demo_chat) "acme" "id" [] (HandlerDemo.req "plain" false) [HandlerDemo.ok] HandlerDemo.s0)
    as [[[s' evs] r]|] eqn:E; [|vm_compute in E; done].
  assert (exists l, EvLog l ∈ evs) as [l Hl].
  { assert ((fun x => length (log_rows x.1.2)) <$> chat_completions_handler (in_env demo_chat) "acme" "id" [] (HandlerDemo.req "plain" false)
      [HandlerDemo.ok] HandlerDemo.s0 = Some 1%nat) as Hs by (vm_compute; reflexivity).
    rewrite E in Hs. csimpl in Hs. destruct (log_rows evs) as [|l ls] eqn:Er; [done|].
    exists l. apply log_rows_elem. rewrite Er. by left. }
  exists s', evs, r, l. split; [done|]. split; [exact Hl|].
  refine (proj1 (logged_rows_typed (in_env demo_chat) "acme" "id" [] (HandlerDemo.req "plain" false) [HandlerDemo.ok] HandlerDemo.s0 s' evs r _ E) l Hl).
  vm_compute. reflexivity.
Defined.

Theorem answered_request_is_found_witness : exists l,
  answers (request_detail_handler "id") (lw_db (st_log (chat_effect demo_chat client st).1)) (detail_of (row_of_log l)) /\ lr_id (row_of_log l) = "id".
Proof.
  destruct demo_outcome as [[[gw' evs] a]|] eqn:E; [|vm_compute in E; done].
  assert (exists resp, a = Handled (Ok (JsonReply resp))) as [resp ->].
  { assert (exists resp, snd <$> demo_outcome = Some (Handled (Ok (JsonReply resp)))) as [resp H] by (vm_compute; eauto).
    rewrite E in H. exists resp. by injection H as ->. }
  destruct (answered_request_is_found demo_chat client st gw' evs resp E) as (l & _ & Hs & Ha);
    [vm_compute; reflexivity|constructor|constructor|].
  exists l. split; [exact Ha|]. apply Hs.
Defined.

(** The same request twice, for the tenant "acme": the second answer comes from the
    cache and its row is the default tenant's. *)
Example cached_answer_logged_for_default :
  let st1 := (chat_effect demo_chat client st).1 in
  (fun r => (lr_tenant_id r, lr_pool_id r)) <$> request_log (lw_db (st_log (chat_effect
     (mkIncoming (in_headers demo_chat) "id-2" None (in_body demo_chat) 0 0 0 (in_env demo_chat) (in_attempts demo_chat)) client st1).1))
  = [(Some "acme", "p"); (Some "default", "cache")].
Proof. vm_compute. reflexivity. Qed.
End EndpointsWitnesses.
