(* ===== verification/Tasks.v ===== *)
(** * Background work: the live view and the maintenance of the log

    Models the rest of [src/src/dashboard/live.rs] (the channel of finished
    requests and the loop behind the web socket of the live view) and of
    [src/src/db_maintenance.rs] (the task that purges, optimises and indexes).
    tokio's broadcast channel is a class with its documented laws; what a turn of
    [tokio::select!] picks, the clock and the fate of a frame are the
    environment's.

    The theorems account for every finished request on the screen of a viewer,
    and bound the age of what the log keeps. *)

From S2P Require Import Prelude Json Types Db ConfigStore Handler LogDb Csv Dashboard.

(** ** [tokio::sync::broadcast] *)

(** What [recv] comes to; it waits while there is nothing new. *)
Inductive Received (A : Type) : Type :=
| Item (v : A)
| Behind (n : nat)                  (* RecvError::Lagged *)
| Closed                            (* RecvError::Closed *)
| Idle.
Arguments Item {A}. Arguments Behind {A}. Arguments Closed {A}. Arguments Idle {A}.

(** A receiver is a position in the sequence of all values ever sent. *)
Class Broadcast := recv : forall {A : Type}, nat -> list A -> nat -> Received A * nat.

(** The values come in the order they were sent; only the last [cap] are kept, and
    a receiver that has fallen behind is told how many it missed and goes on
    at the oldest value kept. *)
Class BroadcastLaws `{Broadcast} : Prop := {
  recv_item A cap (sent : list A) pos v :
    sent !! pos = Some v -> (length sent <= pos + cap)%nat -> recv cap sent pos = (Item v, S pos);
  recv_behind A cap (sent : list A) pos :
    (pos + cap < length sent)%nat -> recv cap sent pos = (Behind (length sent - cap - pos), (length sent - cap)%nat);
  recv_idle A cap (sent : list A) pos : (length sent <= pos)%nat -> recv cap sent pos = (Idle, pos)
}.

(** ** The live view *)

Section Live.
Context `{SJ : SerdeJson} `{BC : Broadcast}.

(** The capacity of the channel [LIVE_TX]. *)
Definition LIVE_CAPACITY : nat := Z.to_nat 1024.

Definition opt_value {A} (f : A -> Value) (o : option A) : Value := match o with Some a => f a | None => Null end.

(** [LiveRequestEvent], as its derived [Serialize] writes it. *)
Definition live_value (e : LiveRequestEvent) : Value :=
  obj [("event_type", Str (le_event_type e)); ("request_id", Str (le_request_id e)); ("model", Str (le_model e));
       ("pool_id", Str (le_pool_id e)); ("status_code", json_int (le_status_code e)); ("latency_ms", json_int (le_latency_ms e));
       ("tokens", opt_value json_int (le_tokens e)); ("ts", json_int (le_ts e)); ("tenant_id", Str (le_tenant_id e));
       ("key_hash", Str (le_key_hash e)); ("error_code", opt_value Str (le_error_code e)); ("is_stream", Bool (le_is_stream e));
       ("cost_usd", opt_value (fun q => Number (Float q)) (le_cost_usd e))].
Definition to_json (e : LiveRequestEvent) : string := to_string (live_value e).

(** [broadcast_live_event]: the channel's history grows by one. *)
Definition broadcast_live_event (sent : list string) (e : LiveRequestEvent) : list string := sent ++ [to_json e].

(** The messages of the socket. *)
Inductive WsMessage : Type := WsText (s : string) | WsPing (data : string).

Definition lag_message (n : nat) : string := to_string (obj [("event_type", Str "lag"); ("dropped", json_int (Z.of_nat n))]).

(** A frame the viewer got. *)
Inductive Frame : Type := Card (json : string) | Lag (dropped : nat) | Ping.
Definition frame_message (f : Frame) : WsMessage :=
  match f with Card j => WsText j | Lag n => WsText (lag_message n) | Ping => WsPing "" end.

Record Socket := mkSocket { so_pos : nat; so_frames : list Frame; so_open : bool }.

(** [get_live_tx().subscribe()] *)
Definition subscribe (sent : list string) : Socket := mkSocket (length sent) [] true.

(** The branch that [select!] takes: the channel, or the 30 seconds. *)
Inductive Branch : Type := OnRecv | OnTimer.

(** A turn of the loop of [handle_live_socket]; [ok]: the frame went out. *)
Definition socket_turn (sent : list string) (b : Branch) (ok : bool) (s : Socket) : Socket :=
  if negb (so_open s) then s
  else
    let put f := if ok then so_frames s ++ [f] else so_frames s in
    match b with
    | OnTimer => mkSocket (so_pos s) (put Ping) ok
    | OnRecv =>
        match recv LIVE_CAPACITY sent (so_pos s) with
        | (Item json, pos) => mkSocket pos (put (Card json)) ok
        | (Behind n, pos) => mkSocket pos (put (Lag n)) true
        | (Closed, pos) => mkSocket pos (so_frames s) false
        | (Idle, _) => s
        end
    end.

(** The gateway's log and a viewer, in any order. *)
Inductive LiveAct : Type := Finished (l : RequestLog) | Turn (b : Branch) (ok : bool).

Definition live_act (hs : list string * Socket) (a : LiveAct) : list string * Socket :=
  let '(sent, s) := hs in
  match a with
  | Finished l => (broadcast_live_event sent (broadcast_request_log l), s)
  | Turn b ok => (sent, socket_turn sent b ok s)
  end.
Definition live_view (sent : list string) (acts : list LiveAct) : list string * Socket := foldl live_act (sent, subscribe sent) acts.
End Live.

(* ------------------------------------------------------------------ *)
(** ** What a viewer sees *)

Section LiveSpec.
Context `{SJ : SerdeJson} `{BC : Broadcast} `{BL : !BroadcastLaws}.

(** The cards of the requests finished during the acts. *)
Definition cards (acts : list LiveAct) : list string :=
  omap (fun a => match a with Finished l => Some (to_json (broadcast_request_log l)) | Turn _ _ => None end) acts.

(** Reading the frames against the cards: a card frame shows the next card, a lag
    frame owns up to the next [n]; what is left is still to come. *)
Fixpoint told (frames : list Frame) (all : list string) : option (list string) :=
  match frames with
  | [] => Some all
  | Card j :: fs => match all with j' :: rest => if str_eqb j j' then told fs rest else None | [] => None end
  | Lag n :: fs => if (n <=? length all)%nat then told fs (drop n all) else None
  | Ping :: fs => told fs all
  end.

Definition is_lag (f : Frame) : bool := match f with Lag _ => true | _ => false end.
Definition sends_ok (a : LiveAct) : bool := match a with Turn _ ok => ok | Finished _ => true end.

(** At no turn more than the capacity behind. *)
Fixpoint keeps_up (hs : list string * Socket) (acts : list LiveAct) : Prop :=
  match acts with
  | [] => True
  | a :: acts' => (length hs.1 <= so_pos hs.2 + LIVE_CAPACITY)%nat /\ keeps_up (live_act hs a) acts'
  end.

Lemma told_app fs gs all rest : told fs all = Some rest -> told (fs ++ gs) all = told gs rest.
Proof.
  revert all. induction fs as [|[j|n|] fs IH]; intros all; cbn [told app]; [by intros [= ->]|..].
  - destruct all as [|j' all]; [done|]. destruct (str_eqb j j'); [apply IH|done].
  - destruct (n <=? length all)%nat; [apply IH|done].
  - apply IH.
Qed.

Lemma told_more fs all rest more : told fs all = Some rest -> told fs (all ++ more) = Some (rest ++ more).
Proof.
  revert all. induction fs as [|[j|n|] fs IH]; intros all; cbn [told]; [by intros [= ->]|..].
  - destruct all as [|j' all]; [done|]. cbn [app]. destruct (str_eqb j j'); [apply IH|done].
  - destruct (n <=? length all)%nat eqn:E; [|done]. apply Nat.leb_le in E. intros H%IH.
    rewrite length_app. destruct (n <=? _)%nat eqn:E2; [|apply Nat.leb_gt in E2; lia]. by rewrite drop_app_le by lia.
  - apply IH.
Qed.

(** The frames account for the history from [start] to the position. *)
Record viewing (start : nat) (hs : list string * Socket) : Prop := {
  vw_told : told (so_frames hs.2) (drop start hs.1) = Some (drop (so_pos hs.2) hs.1);
  vw_start : (start <= so_pos hs.2 <= length hs.1)%nat;
  vw_open : so_open hs.2 = true
}.

(** The three things a turn on the channel can be. *)
Lemma recv_cases (sent : list string) pos : (pos <= length sent)%nat ->
  (recv LIVE_CAPACITY sent pos = (Idle, pos) /\ pos = length sent)
  \/ (exists v, sent !! pos = Some v /\ recv LIVE_CAPACITY sent pos = (Item v, S pos) /\ (length sent <= pos + LIVE_CAPACITY)%nat)
  \/ (exists n, (0 < n)%nat /\ (pos + n < length sent)%nat /\ recv LIVE_CAPACITY sent pos = (Behind n, (pos + n)%nat)
        /\ (pos + LIVE_CAPACITY < length sent)%nat).
Proof.
  intros Hp. destruct (decide (pos + LIVE_CAPACITY < length sent)%nat) as [Hb|Hb].
  - right; right. assert (0 < LIVE_CAPACITY)%nat by (apply Nat.ltb_lt; vm_compute; reflexivity).
    exists (length sent - LIVE_CAPACITY - pos)%nat. rewrite recv_behind by done.
    split; [lia|]. split; [lia|]. split; [|done]. f_equal. lia.
  - destruct (decide (pos = length sent)) as [->|Hne]; [left; by rewrite recv_idle|]. right; left.
    destruct (lookup_lt_is_Some_2 sent pos) as [v Hv]; [lia|]. exists v. split; [done|]. split; [|lia]. apply recv_item; [done|lia].
Qed.

Lemma viewing_finished start sent s l : viewing start (sent, s) -> viewing start (live_act (sent, s) (Finished l)).
Proof.
  intros [Ht Hs Ho]. unfold live_act, broadcast_live_event. split; cbn in *; [|rewrite length_app; lia|done].
  rewrite !drop_app_le by lia. by apply told_more.
Qed.

Lemma viewing_turn start sent s b : viewing start (sent, s) ->
  let s' := socket_turn sent b true s in
  viewing start (sent, s') /\ (so_pos s <= so_pos s')%nat
  /\ (b = OnRecv -> (so_pos s < length sent)%nat -> (so_pos s < so_pos s')%nat)
  /\ ((length sent <= so_pos s + LIVE_CAPACITY)%nat -> existsb is_lag (so_frames s) = false -> existsb is_lag (so_frames s') = false).
Proof.
  intros [Ht Hs Ho]. cbn in *. unfold socket_turn. rewrite Ho. cbn [negb]. destruct b; cbn zeta.
  - destruct (recv_cases sent (so_pos s) (proj2 Hs)) as [[-> He]|[(v & Hv & -> & Hc)|(n & Hn & Hl & -> & Hc)]].
    + split; [by split|]. split; [done|]. split; [lia|done].
    + pose proof (lookup_lt_Some _ _ _ Hv). split; [split; cbn; [|lia|done]|cbn; split; [lia|split; [lia|]]].
      * erewrite told_app by exact Ht. cbn. rewrite (drop_S _ _ _ Hv). by rewrite str_eqb_refl.
      * intros _ Hf. by rewrite existsb_app, Hf.
    + split; [split; cbn; [|lia|done]|cbn; split; [lia|split; [lia|lia]]].
      erewrite told_app by exact Ht. cbn. rewrite length_drop. destruct (n <=? _)%nat eqn:E; [|apply Nat.leb_gt in E; lia].
      by rewrite drop_drop.
  - split; [split; cbn; [|lia|done]|cbn; split; [lia|split; [done|]]].
    + by erewrite told_app by exact Ht.
    + intros _ Hf. by rewrite existsb_app, Hf.
Qed.

Lemma live_run_viewing start acts hs : Forall (fun a => sends_ok a = true) acts -> viewing start hs ->
  let hs' := foldl live_act hs acts in
  viewing start hs' /\ hs'.1 = hs.1 ++ cards acts
  /\ (keeps_up hs acts -> existsb is_lag (so_frames hs.2) = false -> existsb is_lag (so_frames hs'.2) = false).
Proof.
  intros Ha. revert hs. induction Ha as [|a acts Ha _ IH]; intros [sent s] Hv; cbn zeta; [by rewrite app_nil_r|].
  cbn [foldl keeps_up fst snd]. destruct a as [l|b ok].
  - destruct (IH _ (viewing_finished _ _ _ l Hv)) as (H1 & H2 & H3). split; [done|].
    split; [rewrite H2; cbn; unfold broadcast_live_event; by rewrite <- app_assoc|]. intros [_ Hk]. by apply H3.
  - cbn in Ha. subst ok. destruct (viewing_turn _ _ _ b Hv) as (Hv' & _ & _ & Hl). destruct (IH (sent, socket_turn sent b true s) Hv') as (H1 & H2 & H3).
    split; [done|]. split; [done|]. intros [Hc Hk] Hf. apply H3; [done|]. by apply Hl.
Qed.

(** What the card frames show. *)
Definition cards_shown (fs : list Frame) : list string := omap (fun f => match f with Card j => Some j | _ => None end) fs.

Lemma told_shown fs all rest : told fs all = Some rest -> existsb is_lag fs = false -> cards_shown fs ++ rest = all.
Proof.
  revert all. induction fs as [|[j|n|] fs IH]; intros all; [by intros [= ->]|..]; cbn [told existsb is_lag orb]; [| |apply IH].
  - destruct all as [|j' all]; [done|]. destruct (str_eqb j j') eqn:E; [|done]. apply str_eqb_spec in E as ->.
    intros H1 H2. cbn. f_equal. by apply IH.
  - done.
Qed.

(** Turns on the channel bring the position to the end of the history. *)
Lemma catches_up start sent s n : viewing start (sent, s) -> (length sent - so_pos s <= n)%nat ->
  let hs := foldl live_act (sent, s) (replicate n (Turn OnRecv true)) in
  viewing start hs /\ hs.1 = sent /\ so_pos hs.2 = length sent.
Proof.
  revert s. induction n as [|n IH]; intros s Hv Hn; cbn [replicate foldl]; cbn zeta.
  - split; [done|]. split; [done|]. cbn. destruct (vw_start _ _ Hv) as [_ H]. cbn in H. lia.
  - destruct (viewing_turn _ _ _ OnRecv Hv) as (Hv' & Hm & Hp & _). apply (IH (socket_turn sent OnRecv true s)); [done|].
    destruct (decide (so_pos s < length sent)%nat) as [Hl|Hl]; [specialize (Hp eq_refl Hl)|]; lia.
Qed.

(** Claim C27: what a viewer of the live page sees.  From the moment it connects, in whatever
    order requests finish and the socket's loop gets its turns, as long as the
    frames go out: the frames account for every finished request, in order and
    once, up to those still to come, by a card or by a lag frame that says how
    many are left out; a viewer that is never more than the capacity of the
    channel behind is shown them all; and once the loop has had its turns
    nothing is still to come.*)
Theorem live_view_complete sent acts : Forall (fun a => sends_ok a = true) acts ->
  let s := (live_view sent acts).2 in
  exists rest, told (so_frames s) (cards acts) = Some rest
  /\ (keeps_up (sent, subscribe sent) acts -> cards_shown (so_frames s) ++ rest = cards acts)
  /\ forall n, (length rest <= n)%nat ->
       told (so_frames (live_view sent (acts ++ replicate n (Turn OnRecv true))).2) (cards acts) = Some [].
Proof.
  intros Ha. unfold live_view.
  assert (viewing (length sent) (sent, subscribe sent)) as H0 by (split; [done|cbn; lia|done]).
  destruct (live_run_viewing _ acts _ Ha H0) as (Hv & Hh & Hk). cbn [fst snd] in *. setoid_rewrite foldl_app.
  destruct (foldl live_act (sent, subscribe sent) acts) as [hist s] eqn:E. cbn zeta. cbn [fst snd] in *. subst hist.
  pose proof (vw_told _ _ Hv) as Ht. pose proof (vw_start _ _ Hv) as Hs. cbn [fst snd] in *.
  rewrite drop_app_length in Ht. eexists. split; [exact Ht|]. split.
  - intros Hu. eapply told_shown; [exact Ht|]. by apply Hk.
  - intros n Hn. rewrite length_drop in Hn. destruct (catches_up _ _ _ n Hv Hn) as (Hv' & E1 & E2).
    pose proof (vw_told _ _ Hv') as Ht'. rewrite E1, E2, drop_app_length in Ht'. rewrite Ht'. by rewrite drop_all.
Qed.
End LiveSpec.

(* ------------------------------------------------------------------ *)
(** ** The maintenance task *)

Record DbMaintenanceConfig := mkMaintenance {
  vacuum_interval_hours : Z; purge_interval_hours : Z; fts_rebuild_interval_hours : Z   (* u64 *)
}.
Definition maintenance_default : DbMaintenanceConfig := mkMaintenance 24 1 6.

(** The tickers of the task. *)
Inductive MaintTick : Type := PurgeTick | VacuumTick | FtsTick.

(** The period of a ticker, in seconds. *)
Definition period (c : DbMaintenanceConfig) (t : MaintTick) : Z :=
  wrap 64 (match t with
           | PurgeTick => purge_interval_hours c
           | VacuumTick => vacuum_interval_hours c
           | FtsTick => fts_rebuild_interval_hours c
           end * 3600).

Section Maintenance.
Context `{SX : Sqlx}.

(** [PRAGMA optimize] *)
Definition vacuum : LM unit := attempted (exec (internal "Database optimize failed") (fun d => Ok (d, tt))) ≫= fun _ => mret tt.

Definition maintenance_turn (t : MaintTick) (now_ms : Z) : LM unit :=
  match t with PurgeTick => purge_expired now_ms | VacuumTick => vacuum | FtsTick => rebuild_fts end.

(** The loop, over what [select!] yields: a ticker and the clock, or the shutdown. *)
Fixpoint spawn_db_maintenance (turns : list (option (MaintTick * Z))) (w : LogWorld) : LogWorld :=
  match turns with
  | Some (t, now_ms) :: turns' => spawn_db_maintenance turns' (maintenance_turn t now_ms w).1
  | None :: _ | [] => w
  end.
End Maintenance.

(** ** The log over time *)

Section Retention.
Context `{SX : Sqlx} `{SR : SumReal}.

(** What happens to the log: a request is logged, the aggregator or the
    maintenance task has its turn. *)
Inductive LogAct : Type :=
| LogWrite (l : RequestLog)
| Aggregate
| Maintain (t : MaintTick).

Definition log_act (now_ms : Z) (a : LogAct) : LM unit :=
  match a with
  | LogWrite l => attempted (log_request l) ≫= fun _ => mret tt
  | Aggregate => aggregator_tick (Z.quot now_ms 1000)
  | Maintain t => maintenance_turn t now_ms
  end.

Definition log_run (acts : list (Z * LogAct)) (w : LogWorld) : LogWorld := foldl (fun w ta => (log_act ta.1 ta.2 w).1) w acts.

(** A computation that relates the tables by [R], whatever fails, and uses up
    failures of the driver only. *)
Definition framed {A} (R : LogDb -> LogDb -> Prop) (m : LM A) : Prop :=
  forall w, R (lw_db w) (lw_db (m w).1) /\ (LogDb.quiet w -> LogDb.quiet (m w).1).

Section Framed.
Context (R : LogDb -> LogDb -> Prop) `{HR : !PreOrder R}.

Lemma framed_ret {A} (a : A) : framed R (mret a).
Proof. split; [apply HR|done]. Qed.
Lemma framed_bind {A B} (m : LM A) (k : A -> LM B) : framed R m -> (forall a, framed R (k a)) -> framed R (m ≫= k).
Proof.
  intros Hm Hk w. destruct (Hm w) as [H1 H2]. unfold mbind, LM_bind. destruct (m w) as [w1 [a|e]]; cbn [fst] in *; [|done].
  destruct (Hk a w1) as [H3 H4]. split; [by etransitivity|auto].
Qed.
Lemma framed_exec {A} on_err (q : LogDb -> Result (LogDb * A) DbError) :
  (forall d d' a, q d = Ok (d', a) -> R d d') -> framed R (exec on_err q).
Proof.
  intros Hq w. unfold exec, LogDb.quiet. destruct (lw_faults w) as [|[msg|] fs] eqn:Ef.
  - destruct (q (lw_db w)) as [[d a]|e] eqn:E; cbn; (split; [|done]); [by eapply Hq|apply HR].
  - cbn. split; [apply HR|]. by intros [_ ?]%Forall_cons.
  - destruct (q (lw_db w)) as [[d a]|e] eqn:E; cbn; (split; [|by intros [_ ?]%Forall_cons]); [by eapply Hq|apply HR].
Qed.
Lemma framed_fetch {A} on_err (q : LogDb -> Result A DbError) : framed R (fetch on_err q).
Proof. apply framed_exec. intros d d' a. destruct (q d); [|done]. intros [= <- _]. apply HR. Qed.
Lemma framed_attempted {A} (m : LM A) : framed R m -> framed R (attempted m).
Proof. intros Hm w. specialize (Hm w). unfold attempted. by destruct (m w) as [w1 [a|e]]. Qed.
Lemma framed_each {A} (f : A -> LM unit) l : (forall a, framed R (f a)) -> framed R (each f l).
Proof. intros Hf. induction l as [|x l IH]; cbn [each]; [apply framed_ret|]. by apply framed_bind. Qed.
End Framed.

(** Down to the statements. *)
Ltac frame_statements :=
  repeat first
    [ apply framed_ret; apply _ | apply framed_fetch; apply _ | apply framed_attempted
    | apply framed_exec; [apply _|intros ? ? ?] | apply framed_each; [apply _|intros ?]
    | apply framed_bind; [apply _| |intros ?]
    | lazymatch goal with |- framed _ (match ?x with _ => _ end) => destruct x end ].

(** Policies stay, and no row is added. *)
Definition no_new_row (d d' : LogDb) : Prop :=
  data_retention_policy d' = data_retention_policy d /\ forall r, r ∈ request_log d' -> r ∈ request_log d.
#[local] Instance no_new_row_preorder : PreOrder no_new_row.
Proof. split; [by split|]. intros d1 d2 d3 [E1 H1] [E2 H2]. split; [congruence|auto]. Qed.

Lemma aggregate_no_new now : framed no_new_row (aggregator_tick now).
Proof.
  unfold aggregator_tick, aggregate_last_hour. frame_statements. unfold aggregate_hour. destruct (collect _ _); [|done]. by intros [= <-].
Qed.

Lemma purge_no_new now : framed no_new_row (purge_expired now).
Proof.
  unfold purge_expired, purge_table. frame_statements; unfold delete_older;
    repeat case_match; intros [= <-]; (split; [done|]); cbn; try done; by intros r [? _]%elem_filter_bool.
Qed.

Lemma vacuum_no_new : framed no_new_row vacuum.
Proof. unfold vacuum. frame_statements. by intros [= <- _]. Qed.

Lemma fts_no_new : framed no_new_row rebuild_fts.
Proof. unfold rebuild_fts, index_row. frame_statements; by intros [= <- _]. Qed.

(** ** The age of the log *)

Definition DAY_MS : Z := 86400000.

(** The time of an act is not before the one before it and, as the ticker has it,
    at most an hour and the [delay] of the task after the last purge; a request is
    logged within the retention. *)
Fixpoint timely (days delay purged prev : Z) (acts : list (Z * LogAct)) : Prop :=
  match acts with
  | [] => True
  | (now, a) :: acts' =>
      prev <= now < 2 ^ 62 /\ now <= purged + period maintenance_default PurgeTick * 1000 + delay
      /\ match a with LogWrite l => now - days * DAY_MS <= log_ts l | _ => True end
      /\ timely days delay (match a with Maintain PurgeTick => now | _ => purged end) now acts'
  end.
Definition last_time (t0 : Z) (acts : list (Z * LogAct)) : Z := default t0 (fst <$> last acts).

(** Every row was within the retention at the last purge. *)
Record retained (days purged : Z) (w : LogWorld) : Prop := {
  rt_quiet : LogDb.quiet w;
  rt_policy : ("request_log", days) ∈ data_retention_policy (lw_db w);
  rt_rows : forall r, r ∈ request_log (lw_db w) -> purged - days * DAY_MS <= lr_ts r
}.

Lemma retained_no_new days purged w {A} (m : LM A) : framed no_new_row m -> retained days purged w -> retained days purged (m w).1.
Proof. intros Hm [Hq Hp Hr]. destruct (Hm w) as [[E Hs] Hq']. split; [auto|by rewrite E|auto]. Qed.

Lemma cutoff_exact now days : 0 <= days <= 10 ^ 9 -> 0 <= now < 2 ^ 62 -> cutoff_ms now days = now - days * DAY_MS.
Proof.
  intros Hd Hn. unfold cutoff_ms, DAY_MS. rewrite (i64_small (days * 86400000)) by lia. apply i64_small. lia.
Qed.

Lemma act_retained days delay purged prev now a w : 0 <= days <= 10 ^ 9 -> 0 <= prev -> purged <= prev ->
  timely days delay purged prev [(now, a)] -> retained days purged w ->
  retained days (match a with Maintain PurgeTick => now | _ => purged end) (log_act now a w).1.
Proof.
  intros Hd H0 Hpp ((Hle & Hhi) & Hgap & Ha & _) Hr. destruct a as [l| |[]]; cbn [log_act maintenance_turn].
  - destruct Hr as [Hq Hp Hr]. destruct (attempted_exec (internal "Failed to log request") (insert_log_row (row_of_log l)) w Hq) as (w' & o & E & Hq' & Hdb).
    assert ((attempted (log_request l) ≫= fun _ => mret tt) w = (w', Ok tt)) as -> by (by erewrite LM_bind_Ok by exact E).
    unfold insert_log_row in Hdb. destruct (existsb _ _); cbn [fst].
    + split; [done|by rewrite Hdb|rewrite Hdb; done].
    + split; [done|by rewrite Hdb|]. intros r. rewrite Hdb. cbn [request_log set_request_log]. rewrite elem_of_app, list_elem_of_singleton.
      intros [?| ->]; [auto|]. change (lr_ts (row_of_log l)) with (log_ts l). lia.
  - by apply retained_no_new, Hr; apply aggregate_no_new.
  - pose proof (retained_no_new _ _ _ _ (purge_no_new now) Hr) as [Hq' Hp' _].
    destruct (purge_expired_spec now w (rt_quiet _ _ _ Hr)) as (w' & E & Hrows & _). rewrite E in *. cbn [fst] in *. split; [done|done|].
    intros r [_ Hk]%Hrows. rewrite <- cutoff_exact by lia. apply Hk, Hr.
  - by apply retained_no_new, Hr; apply vacuum_no_new.
  - by apply retained_no_new, Hr; apply fts_no_new.
Qed.

Lemma run_retained days delay purged prev acts w : 0 <= days <= 10 ^ 9 -> 0 <= delay -> 0 <= prev -> purged <= prev <= purged + 3600000 + delay ->
  timely days delay purged prev acts -> retained days purged w ->
  exists purged', last_time prev acts <= purged' + 3600000 + delay /\ retained days purged' (log_run acts w).
Proof.
  intros Hd Hdl. revert purged prev w. induction acts as [|[now a] acts IH]; intros purged prev w H0 Hp Ht Hr.
  { exists purged. split; [cbn; lia|done]. }
  pose proof (act_retained days delay purged prev now a w Hd H0 (proj1 Hp)) as Hstep.
  destruct Ht as (Hn & Hgap & Ha & Hrest). change (period maintenance_default PurgeTick * 1000) with 3600000 in Hgap.
  set (purged1 := match a with Maintain PurgeTick => now | _ => purged end) in *.
  assert (purged1 <= now <= purged1 + 3600000 + delay) as Hp1 by (unfold purged1; destruct a as [| |[]]; lia).
  destruct (IH purged1 now (log_act now a w).1) as (p' & H1 & H2); [lia|done|done| |].
  - by apply Hstep.
  - exists p'. split; [|done]. unfold last_time in *. rewrite last_cons. destruct (last acts); cbn in *; lia.
Qed.

(** Claim C28: the log forgets, as long as the database does not fail.  Start from a log
    whose rows are within the retention of [days] days that the policy table gives, let
    requests be logged, each with a time within the retention, and the aggregator and
    the maintenance task have their turns in any order, with the hourly purge never
    more than [delay] late, and let no statement fail: at the end, whenever that is,
    every row of the log is younger than the retention, one hour and the delay.  (A
    purge that fails is only logged, and its rows then stay until the next one that
    succeeds.) *)
Theorem log_age_bounded days delay t0 w acts : 0 <= days <= 10 ^ 9 -> 0 <= delay -> 0 <= t0 ->
  retained days t0 w -> timely days delay t0 t0 acts ->
  forall r, r ∈ request_log (lw_db (log_run acts w)) -> last_time t0 acts - (days * DAY_MS + 3600000 + delay) <= lr_ts r.
Proof.
  intros Hd Hdl H0 Hr Ht r Hin. destruct (run_retained days delay t0 t0 acts w) as (purged & Hp & [_ _ Hrows]); try done; [lia|].
  specialize (Hrows r Hin). lia.
Qed.
End Retention.

(** ** Examples *)

(** A channel as documented. *)
#[local] Instance ring : Broadcast := fun A cap sent pos =>
  if (pos + cap <? length sent)%nat then (Behind (length sent - cap - pos), (length sent - cap)%nat)
  else match sent !! pos with Some v => (Item v, S pos) | None => (Idle, pos) end.
#[local] Instance ring_laws : BroadcastLaws.
Proof.
  split; intros A cap sent pos; unfold recv, ring.
  - intros v Hv Hl. destruct (_ <? _)%nat eqn:E; [apply Nat.ltb_lt in E; lia|]. by rewrite Hv.
  - intros Hl%Nat.ltb_lt. by rewrite Hl.
  - intros Hl. destruct (_ <? _)%nat eqn:E; [apply Nat.ltb_lt in E; lia|]. by rewrite lookup_ge_None_2.
Qed.

Module TasksDemo.
Definition row (id : string) (ts : Z) : RequestLog :=
  mkLog id ts None "m" "p" "k" None (Some 200) (Some 5) (Some 1) (Some 2) (Some 3) false None audit_detail_none None None None.
(** Two requests finish, one before the first turn; a ping; two turns. *)
Definition acts : list LiveAct := [Finished (row "a" 1); Turn OnRecv true; Finished (row "b" 2); Turn OnTimer true; Finished (row "c" 3)].
Definition w0 : LogWorld := mkLogWorld [] (mkLogDb [row_of_log (row "old" 0)] [] [] [] [("request_log", 30)] [] (Some 0)).
(** An hour with one request, then a purge that is a minute late. *)
Definition afternoon : list (Z * LogAct) :=
  [(600000, LogWrite (row "x" 600000)); (3660000, Maintain PurgeTick); (3700000, Maintain FtsTick); (3700000, Aggregate)].
End TasksDemo.

Section TasksWitnesses.
Import TasksDemo.
#[local] Existing Instances HandlerDemo.serde StoreDemo.sqlx LogDemo.sums.

Theorem live_view_complete_witness :
  cards_shown (so_frames (live_view ["earlier"] acts).2) ++ (to_json <$> (broadcast_request_log <$> [row "b" 2; row "c" 3])) = cards acts
  /\ length (so_frames (live_view ["earlier"] acts).2) = 2%nat.
Proof.
  destruct (live_view_complete ["earlier"] acts) as (rest & Ht & Hk & _); [by repeat constructor|].
  assert (rest = to_json <$> (broadcast_request_log <$> [row "b" 2; row "c" 3])) as <-.
  { vm_compute in Ht. injection Ht as <-. vm_compute. reflexivity. }
  split; [|vm_compute; reflexivity]. apply Hk. vm_compute. lia.
Defined.

Theorem log_age_bounded_witness :
  (lr_id <$> request_log (lw_db (log_run afternoon w0))) = ["old"; "x"]
  /\ forall r, r ∈ request_log (lw_db (log_run afternoon w0)) -> 3700000 - (30 * DAY_MS + 3600000 + 60000) <= lr_ts r.
Proof.
  split; [vm_compute; reflexivity|]. apply (log_age_bounded 30 60000 0 w0 afternoon); [lia..| |].
  - split; [constructor|by left|]. intros r Hr. apply list_elem_of_singleton in Hr as ->. vm_compute. discriminate.
  - unfold afternoon, timely. vm_compute. intuition discriminate.
Defined.
End TasksWitnesses.
