(* ===== verification/Process.v ===== *)
(** * The whole process

    Puts the gateway together: the assembly at the end of [bootstrap] in
    [src/src/bootstrap.rs], the tasks it spawns, the requests the server takes,
    and the shutdown of [src/src/main.rs].  The state of the process is the
    handlers' [AppState] with what the tasks keep for themselves; a step is a
    request served from its arrival to its effects, the end of a stream, a turn of
    a task, or a part of the shutdown, and steps come in any order.

    The theorems lift what the parts promise to histories of the process: the
    configuration stays consistent and routing converges to it, answers come from
    the keys the configuration names, and an alert reaches the channels, and the
    screen when its insert succeeds.  One turn of the rebuilder is one step. *)

From S2P Require Import Prelude Json Types Alerts RateLimit Concurrency Cache CircuitBreaker Config Pricing Db ConfigStore Router Metrics Inspector Providers Catalog Credential Auth AdminApi ModelImport Export Boot Health Handler LogDb Csv Dashboard Gateway Server CliGateway Endpoints Tasks.

(** ** Assembly *)

(** The sections of the YAML file that [bootstrap] uses for the assembly only. *)
Record StaticSections := mkStatic {
  ss_client_keys : list ClientKeyEntry;
  ss_rate_limit : RateLimitConfig;
  ss_concurrency : ConcurrencyConfig;
  ss_admin : AdminConfig;
  ss_max_body_bytes : Z
}.

(** [XaiOAuthEndpoints::default()] *)
Definition TOKEN_URL : string := "https://auth.x.ai/oauth2/token".
Definition DEVICE_CODE_URL : string := "https://auth.x.ai/oauth2/device/code".
Definition CLIENT_ID : string := "b1a00492-073a-47ea-816f-4c329264a828".
Definition endpoints_default : XaiOAuthEndpoints := mkEndpoints TOKEN_URL DEVICE_CODE_URL CLIENT_ID.

(** The tasks [bootstrap] spawns. *)
Inductive Task : Type := HealthTask | AggregatorTask | MaintenanceTask | PollerTask | RebuilderTask | AlertingTask.
#[global] Instance Task_eq_dec : EqDecision Task.
Proof. solve_decision. Defined.

Record Process := mkProcess {
  pr_startup : StartupConfig;
  pr_static : StaticSections;
  pr_app : AppState;
  pr_last : RoutingSnapshot;                      (* of the rebuilder *)
  pr_pools : gmap string PoolConfig;              (* of the health task: its copy of the pools, *)
  pr_probed : gset string;                        (* the pools that have a provider, *)
  pr_retries : gmap (string * string) Z;          (* and the failed probes *)
  pr_live : list string;                          (* all that was ever sent to the live view, *)
  pr_alerts : list AlertEvent;                    (* and to the alert task, *)
  pr_alert_pos : nat;                             (* which has read so far *)
  pr_alert_task : AlertTask;
  pr_tasks : list Task;                           (* still running *)
  pr_shutdown : bool
}.

(** The shared state of the handlers, as [bootstrap] makes it. *)
Definition shared_new (su : StartupConfig) (ss : StaticSections) : Shared :=
  mkShared (conc_new (cc_max_per_tenant (ss_concurrency ss)) (cc_total_max (ss_concurrency ss))) (cache_new (su_cache_max su)) bad_new with_defaults ∅
    metrics_default (cred_new (Some ∅) endpoints_default).

Definition limiter_of `{FL : F64} (ss : StaticSections) : option RateLimiter :=
  if rl_enabled (ss_rate_limit ss) then Some (limiter_new (requests_per_minute (ss_rate_limit ss))) else None.

Definition tasks_of (su : StartupConfig) : list Task :=
  [HealthTask; AggregatorTask; MaintenanceTask; PollerTask; RebuilderTask] ++ (if al_enabled (su_alerts su) then [AlertingTask] else []).

(** From the routing part of the startup to the process. *)
Definition assemble `{DG : Digest} `{FL : F64} (su : StartupConfig) (ss : StaticSections) (now_ms : Z) (log : LogWorld) (g : Boot.Live (P := Provider)) : Process :=
  let w := lv_world g in
  let auth := mkAuthState (ss_client_keys ss) (Some (store_new now_ms (ss_client_keys ss))) in
  mkProcess su ss
    (mkState w log (mkGateway auth (limiter_of ss) (shared_new su ss)) (current (lv_handle g)) 0)
    (lv_last g) (cs_pools (w_store w)) (list_to_set (prov_pool_id <$> cs_providers (w_store w))) ∅ [] [] 0 (mkAlertTask [] [] [] true)
    (tasks_of su) false.

Definition set_app (p : Process) (st : AppState) : Process :=
  mkProcess (pr_startup p) (pr_static p) st (pr_last p) (pr_pools p) (pr_probed p) (pr_retries p) (pr_live p) (pr_alerts p) (pr_alert_pos p)
    (pr_alert_task p) (pr_tasks p) (pr_shutdown p).
Definition set_shared (gw : Gateway) (s : Shared) : Gateway := mkGateway (gw_auth gw) (gw_limiter gw) s.

(** ** Steps *)

Inductive Step : Type :=
| Request (i : Arrival) (q : QueryArgs) (body : option string)
| StreamEnd (ctx : StreamContext) (insp : StreamInspector) (latency_ms : Z)
| PollTick (now_ms : Z)
| RebuildTick
| AggregateTick (now_secs : Z)
| MaintainTick (t : MaintTick) (now_ms : Z)
| HealthRound (envs : list ProbeEnv)
| AlertTurn (db_ok : bool)
| CtrlC
| TaskExit (t : Task).

Definition ALERT_CAPACITY : nat := 512.

Section Running.
Context `{SX : Sqlx} `{SJ : SerdeJson} `{DG : Digest} `{FX : FixedDisplay} `{FD : F64Display} `{FL : F64} `{DI16 : DecodeI16}
  `{WI : WeightedIndex} `{SR : SumReal} `{SD : StatusDisplay} `{MT : Matchit} `{BC : Broadcast}.
Context `{DP : !DashIter string ModelPricing} `{DE : !DashIter string PriceEntry}.
Context `{DR : !DashIter string ModelRouting} `{DO : !DashIter string PoolConfig}.
Context `{DK : !DashIter string ClientKeyRecord} `{DC : !DashIter string CacheEntry} `{DI : !DashIter string RouteEntry}.
Context `{DB : !DashIter string (list string)}.
Context (yaml_startup : string -> Result StartupConfig string) (yaml_text : ExportDocument -> string).
Context (server_section : ExportServer) (db_path : string).
Context (rejection : HttpResponse) (other : Endpoint -> HttpResponse) (path_decode : string -> option string).
Context (decode_op : Endpoint -> list (string * string) -> option string -> option AdminOp).
Context (new_openai new_anthropic new_gemini : string -> string -> list Z -> Provider).

(** What a request reads of the state before its first attempt. *)
Definition current_env (p : Process) (re : RequestEnv) : RequestEnv :=
  let s := w_store (st_world (pr_app p)) in
  mkReqEnv (re_ts re) (re_cache_now re) (cs_pricing s) (st_router (pr_app p)) (cs_registry s) (cs_runtime s)
    (strip_think_tags (su_normalization (pr_startup p))).
Definition arriving (p : Process) (i : Arrival) : Arrival :=
  let n := ar_in i in
  mkArrival (ar_method i) (ar_path i) (ar_cors i)
    (mkIncoming (in_headers n) (in_request_id n) (in_too_large n) (in_body n) (in_bucket_now n) (in_limit_now n) (in_limit_ts n)
       (current_env p (in_env n)) (in_attempts n)).

(** The rows go to the live view, the alerts to the alert task. *)
Definition publish (evs : list Event) (p : Process) : Process :=
  mkProcess (pr_startup p) (pr_static p) (pr_app p) (pr_last p) (pr_pools p) (pr_probed p) (pr_retries p)
    (pr_live p ++ ((fun l => to_json (broadcast_request_log l)) <$> log_rows evs))
    (pr_alerts p ++ omap (fun e => match e with EvAlert a => Some a | EvLog _ => None end) evs) (pr_alert_pos p)
    (pr_alert_task p) (pr_tasks p) (pr_shutdown p).

Definition ips_of (p : Process) : list string := allowed_ips (ss_admin (pr_static p)).

Definition request_step (i : Arrival) (q : QueryArgs) (body : option string) (p : Process) : Process :=
  let out := serve_request (managed_of yaml_startup) yaml_text server_section db_path rejection other path_decode decode_op
               (ss_max_body_bytes (pr_static p)) (ips_of p) (arriving p i) q body (pr_app p) in
  publish out.2 (set_app p out.1).

(** The task behind a streamed answer, once the stream is over. *)
Definition stream_end (ctx : StreamContext) (insp : StreamInspector) (latency_ms : Z) (p : Process) : Process :=
  let st := pr_app p in
  let s := gw_shared (st_gateway st) in
  let s := set_metrics s (record_latency_ms (sh_metrics s) (Z.max latency_ms 0)) in
  let '(log, spike) := stream_report ctx insp latency_ms in
  let evs := EvLog log :: spike in
  publish evs (set_app p (set_log (set_gateway st (set_shared (st_gateway st) s)) (write_logs evs (st_log st)).1)).

(** A tick of the rebuilder; a router that cannot be built is not installed. *)
Definition rebuild_step (p : Process) : Process :=
  let st := pr_app p in
  let s := w_store (st_world st) in
  if decide (pr_last p = routing_sections s) then p
  else match rebuild new_openai new_anthropic new_gemini s (bad_status_codes (su_failover (pr_startup p))) with
       | Ok router =>
           mkProcess (pr_startup p) (pr_static p) (mkState (st_world st) (st_log st) (st_gateway st) router (st_alert_count st))
             (routing_sections s) (pr_pools p) (pr_probed p) (pr_retries p) (pr_live p) (pr_alerts p) (pr_alert_pos p)
             (pr_alert_task p) (pr_tasks p) (pr_shutdown p)
       | Err _ => p
       end.

(** A round of the health task, on the registry and the credentials it shares
    with the handlers; tokens it refreshes are written like theirs. *)
Definition health_step (envs : list ProbeEnv) (p : Process) : Process :=
  let st := pr_app p in
  let s := gw_shared (st_gateway (set_gateway st (with_journal (st_world st) (st_gateway st)))) in
  let h := health_round (pr_pools p) (pr_probed p) (mkHealth (sh_bad s) (pr_retries p) (sh_cred s)) envs in
  let st' := set_world (set_gateway st (set_shared (st_gateway st) (set_cred (set_bad s (hs_bad h)) (hs_cred h))))
               (rotate_tokens (hs_cred h) (st_world st)) in
  mkProcess (pr_startup p) (pr_static p) st' (pr_last p) (pr_pools p) (pr_probed p) (hs_retries h) (pr_live p) (pr_alerts p) (pr_alert_pos p)
    (pr_alert_task p) (pr_tasks p) (pr_shutdown p).

(** [INSERT INTO alert_event]; the id is the next one. *)
Definition next_alert_id (tbl : list AlertEventRow) : Z := 1 + foldr (fun r m => Z.max (ae_id r) m) 0 tbl.
Definition alert_row (id : Z) (e : AlertEvent) : AlertEventRow :=
  let r := insert_alert_event e in
  mkAlertEvent id (row_ts r) (row_type r) (row_pool_id r) (row_tenant_id r) (row_key_hash r) (row_model r) (row_error_code r) (row_status r)
    (row_msg r) (Some (row_payload r)).
Definition add_alert (e : AlertEvent) (w : LogWorld) : LogWorld :=
  let d := lw_db w in
  mkLogWorld (lw_faults w)
    (mkLogDb (request_log d) (audit_hourly d) (alert_event d ++ [alert_row (next_alert_id (alert_event d)) e]) (ui_event_log d)
       (data_retention_policy d) (request_log_fts d) (fts_watermark d)).

(** A turn of the alert task on its channel. *)
Definition alert_turn (db_ok : bool) (p : Process) : Process :=
  let '(got, pos) := recv ALERT_CAPACITY (pr_alerts p) (pr_alert_pos p) in
  let result := match got with
                | Item e => Some (RecvEvent e db_ok)
                | Behind n => Some (Lagged (Z.of_nat n))
                | Closed => Some RecvClosed
                | Idle => None
                end in
  match result with
  | None => p
  | Some r =>
      let t := alert_step (alert_channels (su_alerts (pr_startup p))) (pr_alert_task p) r in
      let st := pr_app p in
      let log := match got with Item e => if db_ok then add_alert e (st_log st) else st_log st | _ => st_log st end in
      mkProcess (pr_startup p) (pr_static p) (mkState (st_world st) log (st_gateway st) (st_router st) (length (snap t)))
        (pr_last p) (pr_pools p) (pr_probed p) (pr_retries p) (pr_live p) (pr_alerts p) pos t (pr_tasks p) (pr_shutdown p)
  end.

Definition set_down (p : Process) (ts : list Task) (down : bool) : Process :=
  mkProcess (pr_startup p) (pr_static p) (pr_app p) (pr_last p) (pr_pools p) (pr_probed p) (pr_retries p) (pr_live p) (pr_alerts p)
    (pr_alert_pos p) (pr_alert_task p) ts down.

(** The task a step belongs to. *)
Definition task_of (s : Step) : option Task :=
  match s with
  | PollTick _ => Some PollerTask
  | RebuildTick => Some RebuilderTask
  | AggregateTick _ => Some AggregatorTask
  | MaintainTick _ _ => Some MaintenanceTask
  | HealthRound _ => Some HealthTask
  | AlertTurn _ => Some AlertingTask
  | _ => None
  end.

Definition on_log (m : LM unit) (p : Process) : Process := set_app p (set_log (pr_app p) (m (st_log (pr_app p))).1).

Definition act (s : Step) (p : Process) : Process :=
  match s with
  | Request i q body => request_step i q body p
  | StreamEnd ctx insp latency_ms => stream_end ctx insp latency_ms p
  | PollTick now_ms => set_app p (set_world (pr_app p) (poll_tick now_ms (st_world (pr_app p))))
  | RebuildTick => rebuild_step p
  | AggregateTick now_secs => on_log (aggregator_tick now_secs) p
  | MaintainTick t now_ms => on_log (maintenance_turn t now_ms) p
  | HealthRound envs => health_step envs p
  | AlertTurn db_ok => alert_turn db_ok p
  | CtrlC => set_down p (pr_tasks p) true
  | TaskExit t => if pr_shutdown p then set_down p (List.filter (fun t' => negb (bool_decide (t' = t))) (pr_tasks p)) true else p
  end.

(** A task that has left its loop has no more turns. *)
Definition process_step (p : Process) (s : Step) : Process :=
  match task_of s with
  | Some t => if bool_decide (t ∈ pr_tasks p) then act s p else p
  | None => act s p
  end.
Definition process_run (p : Process) (steps : list Step) : Process := foldl process_step p steps.

Context (json_error : string -> string) (read_file : string -> Result string string).
Context (http_get : string -> Result (Z * Result string string) string) (yaml_static : string -> StaticSections).

(** [bootstrap]: the routing part, then the assembly. *)
Definition boot_process (file file2 : Result string string) (sync : option string) (now_ms : Z) (w : World) (log : LogWorld)
    : Result Process AppError :=
  let? su := load_config yaml_startup file in
  let? g := (bootstrap yaml_startup json_error read_file http_get new_openai new_anthropic new_gemini file file2 sync now_ms w).2 in
  Ok (assemble su (yaml_static (match file with Ok t => t | Err _ => "" end)) now_ms log g).
End Running.

(* ------------------------------------------------------------------ *)
(** ** Rotated tokens are usable *)

(** A token that was written is one a key can be used with. *)
Definition token_ok (k : KeyRow) : Prop :=
  is_some (refresh_token_col k) = true -> key_plain k ≠ "" /\ exists r, refresh_token_col k = Some r /\ r ≠ "".
Definition journal_ok (c : CredentialRuntime) : Prop := forall j, db c = Some j -> map_Forall (fun _ k => token_ok k) j.

Lemma with_db_ok c tbl : journal_ok (with_db c tbl).
Proof.
  intros j [= <-] h k Hk. apply elem_of_list_to_map_2 in Hk. apply list_elem_of_fmap in Hk as (r & [= _ ->] & _). done.
Qed.

Lemma from_token_usable now body prev live : credentials_from_token now body prev = Ok live -> access live ≠ "" /\ live_refresh live ≠ "".
Proof.
  unfold credentials_from_token. destruct (non_empty (access_token body)) as [a|] eqn:Ea; [|done].
  apply non_empty_Some in Ea as [_ Ha]. cbn [ok_or]. destruct (non_empty (refresh_token body)) as [r|] eqn:Er.
  - apply non_empty_Some in Er as [_ Hr]. by intros [= <-].
  - destruct (non_empty prev) as [r|] eqn:Ep; [|done]. apply non_empty_Some in Ep as [_ Hr]. by intros [= <-].
Qed.

Section Rotation.
Context `{DG : Digest}.

Lemma ensure_fresh_journal post rt e t1 t2 t3 ok : journal_ok rt -> journal_ok (ensure_fresh post rt e t1 t2 t3 ok).1.
Proof.
  intros Hj. unfold ensure_fresh. destruct (negb (is_oauth e)); [done|].
  destruct (opt_filter _ (tokens rt !! _)); [done|]. destruct (opt_filter _ (expires e)); [by destruct (refresh e)|].
  unfold refresh_now. destruct (non_empty (refresh e)); [|done]. destruct (str_eqb _ _); [|done].
  unfold xai_refresh_token. destruct (post _ _) as [[status [body|]]|]; try done. destruct (negb _); [done|].
  destruct (credentials_from_token _ _ _) as [live|] eqn:El; [|done]. apply from_token_usable in El as [Ha Hr].
  unfold persist. cbn [db set_tokens]. destruct (db rt) as [j|] eqn:Ej; [|done]. destruct ok; [|exact Hj].
  intros j' [= <-] h k Hk. apply lookup_alter_Some in Hk as [(_ & k0 & _ & ->)|[_ Hk]]; [|by apply (Hj j Ej h)].
  intros _. split; [done|]. by eexists.
Qed.

Lemma probe_journal pools provs st item env : journal_ok (hs_cred st) -> journal_ok (hs_cred (probe_item pools provs st item env)).
Proof.
  intros Hj. unfold probe_item. destruct (key_entry _ _ _); [|done]. destruct (negb _); [done|]. destruct (pe_clocks env) as [[t1 t2] t3].
  pose proof (ensure_fresh_journal (pe_post env) (hs_cred st) k t1 t2 t3 (pe_write_ok env) Hj) as H.
  destruct (ensure_fresh _ _ _ _ _ _ _) as [cr [k'|e]]; [|done]. by destruct (pe_probe env k').
Qed.

Lemma round_journal `{DB : !DashIter string (list string)} pools provs st envs :
  journal_ok (hs_cred st) -> journal_ok (hs_cred (health_round pools provs st envs)).
Proof.
  unfold health_round. generalize (zip (bad_snapshot (hs_bad st)) envs). intros l. revert st.
  induction l as [|ie l IH]; intros st Hj; [done|]. cbn. by apply IH, probe_journal.
Qed.

Lemma rotate_row_valid c j r : db c = Some j -> journal_ok c -> key_valid (key_of_row r) -> key_valid (key_of_row (rotate_row j r)).
Proof.
  intros Hd Hj. unfold rotate_row. destruct (j !! ke_key_hash r) as [k|] eqn:Ek; [|done]. destruct (is_some _) eqn:Es; [|done].
  destruct (Hj j Hd _ _ Ek Es) as (Hk & t & Ht & Hne). unfold key_valid, key_of_row, set_token. cbn.
  destruct (eq_ignore_ascii_case _ _); [|done]. intros [_ Hi]. split; [|done]. by exists t.
Qed.

Lemma rotate_good c w : journal_ok c -> holds db_good snap_good w -> holds db_good snap_good (rotate_tokens c w).
Proof.
  intros Hj [[[] ] Hs]. unfold rotate_tokens. destruct (db c) as [j|] eqn:Hd; [|done]. split; [|done]. split; [split|..]; cbn; try done.
  - apply Forall_fmap. eapply Forall_impl; [exact keys_have_pool|]. cbn. intros r. unfold rotate_row. by repeat case_match.
  - apply Forall_fmap. eapply Forall_impl; [exact good_keys|]. cbn. intros r. by apply (rotate_row_valid c).
Qed.
End Rotation.

(** ** An attempt and the journal *)

Section AttemptJournal.
Context `{SJ : SerdeJson} `{DG : Digest} `{FD : F64Display} `{FL : F64} `{WI : WeightedIndex} `{DI : !DashIter string CacheEntry}.

Definition journaled (s : Shared) : Prop := journal_ok (sh_cred s).
(** The other requests write usable tokens too. *)
Definition fair (env : AttemptEnv) : Prop := Forall (fun f => forall s, journaled s -> journaled (f s)) (interference env).

Lemma attempt_journal cx env s n retries : fair env -> journaled s -> journaled (out_state (attempt cx env s n retries)).
Proof.
  unfold fair, interference. rewrite !Forall_cons. intros (Hb & Hf & Hc & Hl & _) Hs. unfold attempt. apply Hb in Hs.
  destruct (pick_key _ _ _ _) as [k|]; [|done]. destruct (ae_token_clocks env) as [[t1 t2] t3].
  pose proof (ensure_fresh_journal (ae_post env) (sh_cred (ae_before env s)) k t1 t2 t3 (ae_write_ok env) Hs) as H1.
  destruct (ensure_fresh _ _ _ _ _ _ _) as [cr fresh]. cbn [fst] in H1.
  assert (journaled (ae_refreshing env (set_cred (ae_before env s) cr))) as H2 by (by apply Hf).
  set (s2 := ae_refreshing env _) in *. clearbody s2. clear Hs H1.
  destruct fresh as [k'|e]; [|by unfold out_state; repeat case_match; simplify_eq/=].
  unfold try_key. destruct (allow _ _ _ _) as [cb [|]]; cbn [negb]; [|by case_match].
  specialize (Hc (set_breaker s2 cb) H2). set (s3 := ae_chatting env _) in *. clearbody s3. clear H2.
  destruct (ae_chat env (cx_req cx) k') as [[r|body]|[| | | |st rt bk msg|]]; try done.
  - unfold finish_once. cbn [out_state]. match goal with |- context [ae_logging env ?x] => specialize (Hl x Hc) end. by destruct (0 <? _).
  - unfold upstream_failed. repeat case_match; simplify_eq/=; done.
Qed.

Lemma loop_journal cx envs s n retries s' evs r : Forall fair envs -> journaled s ->
  chat_loop cx envs s n retries = Some (s', evs, r) -> journaled s'.
Proof.
  intros He. revert s n retries evs r. induction He as [|env envs Hf _ IH]; intros s n retries evs r Hs; [done|]. cbn [chat_loop].
  pose proof (attempt_journal cx env s (S n) retries Hf Hs) as H1.
  destruct (attempt cx env s (S n) retries) as [s1 e1 r1|s1 e1 rt1]; cbn [out_state] in H1; [by intros [= <- _ _]|].
  destruct (chat_loop cx envs s1 (S n) rt1) as [[[s2 e2] r2]|] eqn:El; [|done]. intros [= <- _ _]. by eapply IH.
Qed.

Lemma handler_journal re tenant id h req envs s s' evs r : Forall fair envs -> journaled s ->
  chat_completions_handler re tenant id h req envs s = Some (s', evs, r) -> journaled s'.
Proof.
  intros He Hs. unfold chat_completions_handler. destruct (acquire _ _) as [c [g|]]; [|by intros [= <- _ _]].
  set (s1 := if unwrap_or (stream req) false then _ else _). assert (journaled s1) as H1 by (unfold s1; by case_match). clearbody s1.
  unfold lookup_cached. destruct (if cacheable req then _ else _) as [s2 cached] eqn:El.
  assert (journaled s2) as H2 by (repeat case_match; simplify_eq; done).
  destruct cached as [resp|]; [by intros [= <- _ _]|]. unfold release, routed.
  destruct (resolve _ _) as [[pv route]|e]; [|by intros [= <- _ _]]. destruct (catalog_translate _ _ _); [|by intros [= <- _ _]].
  destruct (chat_loop _ _ _ _ _) as [[[s3 e3] r3]|] eqn:Ec; [|done]. intros [= <- _ _]. by eapply loop_journal in Ec.
Qed.
End AttemptJournal.

(** ** The key of a row *)

Section RowKeys.
Context `{SJ : SerdeJson} `{DG : Digest} `{FD : F64Display} `{FL : F64} `{WI : WeightedIndex} `{DI : !DashIter string CacheEntry}.
Hypothesis sha256_length : forall s, String.length (sha256 s) = 32%nat.

Definition pool_row (pid : string) (pool : PoolConfig) (l : RequestLog) : Prop :=
  log_pool_id l = pid /\ exists k, k ∈ keys pool /\ log_key_hash l = identity_hash k.

Lemma pick_key_elem b pool pid rng k : pick_key b pool pid rng = Some k -> k ∈ keys pool.
Proof.
  unfold pick_key. destruct (List.filter _ _) as [|k0 ks] eqn:E; [done|]. destruct (wi_sample _ _) as [idx|]; [|done].
  intros Hk%list_elem_of_lookup_2. rewrite <- E in Hk. by apply elem_filter_bool in Hk as [? _].
Qed.

Lemma try_key_rows cx env s n retries k l : EvLog l ∈ out_events (try_key cx env s n retries k) ->
  log_pool_id l = cx_pool_id cx /\ log_key_hash l = identity_hash k.
Proof.
  unfold try_key, upstream_failed, finish_once. intros Hin. repeat (case_match; simplify_eq/=; set_unfold; try naive_solver).
Qed.

Lemma attempt_pool_row cx env s n retries l : EvLog l ∈ out_events (attempt cx env s n retries) -> pool_row (cx_pool_id cx) (cx_pool cx) l.
Proof.
  unfold attempt. destruct (pick_key _ _ _ _) as [k|] eqn:Ek; [|cbn; set_solver]. apply pick_key_elem in Ek.
  destruct (ae_token_clocks env) as [[t1 t2] t3]. destruct (ensure_fresh _ _ _ _ _ _ _) as [cr [k'|e]] eqn:Ef.
  - apply fresh_key_identity in Ef; [|done]. intros [H1 H2]%try_key_rows. split; [done|]. exists k. by rewrite <- Ef.
  - intros Hin. exfalso. repeat (case_match; simplify_eq/=); set_solver.
Qed.

Lemma loop_pool_row cx envs s n retries s' evs r l :
  chat_loop cx envs s n retries = Some (s', evs, r) -> EvLog l ∈ evs -> pool_row (cx_pool_id cx) (cx_pool cx) l.
Proof.
  revert s n retries evs r. induction envs as [|env envs IH]; intros s n retries evs r; [done|]. cbn [chat_loop].
  pose proof (attempt_pool_row cx env s (S n) retries l) as Ha.
  destruct (attempt cx env s (S n) retries) as [s1 e1 r1|s1 e1 re1]; cbn [out_events] in Ha; [by intros [= <- <- <-]|].
  destruct (chat_loop cx envs s1 (S n) re1) as [[[s2 e2] r2]|] eqn:E; [|done].
  intros [= -> <- <-] [H|H]%elem_of_app; [auto|by eapply IH].
Qed.

(** A row with an upstream names the pool of the model's route and one of its keys. *)
Lemma handler_pool_row re tenant id h req envs s s' evs r l :
  chat_completions_handler re tenant id h req envs s = Some (s', evs, r) -> EvLog l ∈ evs -> is_Some (log_upstream l) ->
  exists pv route, resolve (re_router re) (model req) = Ok (pv, route) /\ pool_row (re_pool_id route) (re_pool route) l.
Proof.
  unfold chat_completions_handler. destruct (Concurrency.acquire _ tenant) as [c [g|]]; [|intros [= <- <- <-]; set_solver].
  destruct (lookup_cached _ _ _) as [s1 [cached|]]; cbn [release fmap option_fmap option_map].
  { intros [= <- <- <-] Hl%list_elem_of_singleton. injection Hl as ->. by intros [? ?]. }
  unfold routed. destruct (resolve _ _) as [[provider route]|e]; [|intros [= <- <- <-]; set_solver].
  destruct (catalog_translate _ _ _) as [req'|e]; [|intros [= <- <- <-]; set_solver]. cbv zeta.
  destruct (chat_loop _ envs s1 0 []) as [[[s2 e2] r2]|] eqn:E; [|done]. intros [= <- <- <-] Hl _.
  exists provider, route. split; [done|]. exact (loop_pool_row _ _ _ _ _ _ _ _ l E Hl).
Qed.
End RowKeys.

(** The layers write no rows. *)
Section LayerEvents.
Context `{DG : Digest} `{FL : F64} `{MT : Matchit}.

Definition rowless {X} (next : Next X) : Prop := forall g x g' evs s, next g x = Some (g', evs, s) -> log_rows evs = [].

Lemma alerts_rowless al : log_rows (EvAlert <$> al) = [].
Proof. by induction al. Qed.

Lemma onion_rowless {X} i ls (next : Next X) : rowless next -> rowless (onion i ls next).
Proof.
  intros Hn. induction ls as [|l ls IH]; [done|]. intros g x g' evs s.
  cbn [onion foldr]. change (foldr (around i) next ls) with (onion i ls next).
  destruct l; cbn [around]; unfold request_id_middleware, tagged, answered; try apply IH.
  - destruct (gw_limiter g); [|apply IH]. destruct (rate_limit_middleware _ _) as [[? []] al]; [apply IH|intros [= _ <- _]; apply alerts_rowless].
  - destruct (in_too_large _); [by intros [= _ <- _]|apply IH].
  - destruct (require_auth _ _); [apply IH|by intros [= _ <- _]].
  - destruct (onion i ls next g _) as [[[g1 v1] s1]|] eqn:E; [|done]. intros [= _ <- _]. by eapply IH.
  - destruct (ip_guard _ _); [apply IH|by intros [= _ <- _]].
  - destruct (ar_cors i); [by intros [= _ <- _]|apply IH].
Qed.

Lemma server_rowless limit ips gw i gw' evs sv : http_server limit ips gw i = Some (gw', evs, sv) -> log_rows evs = [].
Proof.
  assert (forall d, rowless (arrive d)) as Ha by (intros d g x g' e s; unfold arrive; by intros [= _ <- _]).
  unfold http_server, dispatch_request. destruct (match_path _ _ ≫= _) as [[r caps]|]; [by apply onion_rowless|].
  destruct (fallback_of _ _); [by apply onion_rowless|apply Ha].
Qed.
End LayerEvents.

(* ------------------------------------------------------------------ *)
(** ** The invariant of the process *)

Section ProcessSpec.
Context `{SX : Sqlx} `{SJ : SerdeJson} `{DG : Digest} `{FX : FixedDisplay} `{FD : F64Display} `{FL : F64} `{DI16 : DecodeI16}
  `{WI : WeightedIndex} `{SR : SumReal} `{SD : StatusDisplay} `{MT : Matchit} `{BC : Broadcast}.
Context `{DP : !DashIter string ModelPricing} `{DE : !DashIter string PriceEntry}.
Context `{DR : !DashIter string ModelRouting} `{DO : !DashIter string PoolConfig}.
Context `{DK : !DashIter string ClientKeyRecord} `{DC : !DashIter string CacheEntry} `{DI : !DashIter string RouteEntry}.
Context `{DB : !DashIter string (list string)}.
Context (yaml_startup : string -> Result StartupConfig string) (yaml_text : ExportDocument -> string).
Context (server_section : ExportServer) (db_path : string).
Context (rejection : HttpResponse) (other : Endpoint -> HttpResponse) (path_decode : string -> option string).
Context (decode_op : Endpoint -> list (string * string) -> option string -> option AdminOp).
Context (new_openai new_anthropic new_gemini : string -> string -> list Z -> Provider).
Context (json_error : string -> string) (read_file : string -> Result string string).
Context (http_get : string -> Result (Z * Result string string) string) (yaml_static : string -> StaticSections).

(** serde's decoders keep integers within the range of their Rust types. *)
Hypothesis decode_typed : forall e caps body op, decode_op e caps body = Some op -> op_typed (managed_of yaml_startup) op.

Abbreviation process_step := (process_step yaml_startup yaml_text server_section db_path rejection other path_decode decode_op new_openai new_anthropic new_gemini).
Abbreviation process_run := (process_run yaml_startup yaml_text server_section db_path rejection other path_decode decode_op new_openai new_anthropic new_gemini).
Abbreviation act := (act yaml_startup yaml_text server_section db_path rejection other path_decode decode_op new_openai new_anthropic new_gemini).
Abbreviation boot_process := (boot_process yaml_startup new_openai new_anthropic new_gemini json_error read_file http_get yaml_static).
Abbreviation rebuild := (rebuild new_openai new_anthropic new_gemini).
Abbreviation serve_one := (serve_request (managed_of yaml_startup) yaml_text server_section db_path rejection other path_decode decode_op).

Definition codes_of (p : Process) : list Z := bad_status_codes (su_failover (pr_startup p)).

Record process_good (p : Process) : Prop := {
  pg_world : holds db_good snap_good (st_world (pr_app p));
  pg_router : rebuild_router (factories new_openai new_anthropic new_gemini) (pr_last p) (codes_of p) = Ok (st_router (pr_app p))
}.

Definition step_ok (s : Step) : Prop := match s with Request i _ _ => Forall fair (in_attempts (ar_in i)) | _ => True end.

Lemma chat_effect_good i c st : Forall fair (in_attempts i) ->
  holds db_good snap_good (st_world st) -> holds db_good snap_good (st_world (chat_effect i c st).1) /\ st_router (chat_effect i c st).1 = st_router st.
Proof.
  intros Hf Hw. unfold chat_effect, handle. destruct (in_body i) as [req|r].
  - destruct (chat_completions_handler _ _ _ _ _ _ _) as [[[s evs] r]|] eqn:E; [|done]. split; [|done]. cbn [fst st_world set_world].
    apply rotate_good; [|done]. eapply handler_journal in E; [exact E|done|]. apply with_db_ok.
  - split; [|done]. cbn [fst st_world set_world]. apply rotate_good; [|done]. apply with_db_ok.
Qed.

Lemma write_handler_good e caps ext i body now st : Forall fair (in_attempts i) ->
  let out := write_handler (managed_of yaml_startup) rejection other path_decode decode_op e caps ext i body now st in
  holds db_good snap_good (st_world st) -> holds db_good snap_good (st_world out.1) /\ st_router out.1 = st_router st.
Proof.
  intros Hf out Hw. unfold out, write_handler. destruct (is_client_key_op e); [done|].
  assert (forall st', st' = match decode_op e caps body with
      Some op => set_world st (admin_step (managed_of yaml_startup) op now (st_world st)) | None => st end ->
    holds db_good snap_good (st_world st') /\ st_router st' = st_router st) as Hadmin.
  { intros st' ->. destruct (decode_op e caps body) as [op|] eqn:Ed; [|done]. split; [|done]. cbn. by apply admin_step_good; [eapply decode_typed|]. }
  destruct e; try (by apply Hadmin); [|done]. destruct (x_client ext); [|done]; destruct (x_request_id ext); [|done]. by apply chat_effect_good.
Qed.

Lemma get_handler_router e caps q st : st_router (get_handler yaml_text server_section db_path e caps q st).1 = st_router st.
Proof.
  unfold get_handler. destruct e; try done; unfold screen, managed;
    lazymatch goal with |- context [let '(_, _) := ?x in _] => by destruct x end.
Qed.

Lemma serve_good limit ips i q body st : Forall fair (in_attempts (ar_in i)) -> holds db_good snap_good (st_world st) ->
  holds db_good snap_good (st_world (serve_one limit ips i q body st).1) /\ st_router (serve_one limit ips i q body st).1 = st_router st.
Proof.
  intros Hf Hw. unfold serve_request. destruct (http_server _ _ _ _) as [[[gw evs] sv]|]; [|done].
  destruct (sv_answer sv) as [r|[e caps ext| | |]]; try done. destruct (negb _); [done|]. destruct (is_read _).
  - cbn [fst]. split; [|apply (get_handler_router e caps q (set_gateway st gw))].
    destruct (get_handler_same yaml_text server_section db_path e caps q (set_gateway st gw)) as [Hd Hs _ _ _ _ _].
    unfold holds. by rewrite Hd, Hs.
  - cbv zeta. cbn [fst]. by apply (write_handler_good e caps ext (ar_in i) body (qy_now_ms q) (set_gateway st gw)).
Qed.

Lemma health_step_good envs p : process_good p -> process_good (health_step envs p).
Proof.
  intros [Hw Hr]. split; [|done]. cbn. apply rotate_good; [|done]. apply round_journal. apply with_db_ok.
Qed.

Lemma rebuild_step_good p : process_good p ->
  process_good (rebuild_step new_openai new_anthropic new_gemini p)
  /\ st_world (pr_app (rebuild_step new_openai new_anthropic new_gemini p)) = st_world (pr_app p)
  /\ rebuild (w_store (st_world (pr_app p))) (codes_of p) = Ok (st_router (pr_app (rebuild_step new_openai new_anthropic new_gemini p))).
Proof.
  intros [Hw Hr]. unfold rebuild_step. destruct (decide _) as [E|E].
  - split; [done|]. split; [done|]. by rewrite E in Hr.
  - pose proof (rebuild_total new_openai new_anthropic new_gemini (w_store (st_world (pr_app p))) (codes_of p) (proj2 Hw)) as Ht.
    unfold codes_of in *. destruct (rebuild _ _) as [r|] eqn:Eb; [|done]. done.
Qed.

Lemma alert_turn_frame db_ok p :
  let p' := alert_turn db_ok p in
  st_world (pr_app p') = st_world (pr_app p) /\ st_router (pr_app p') = st_router (pr_app p) /\ pr_last p' = pr_last p /\ pr_startup p' = pr_startup p.
Proof. unfold alert_turn. by destruct (recv _ _ _) as [[] pos]. Qed.

Lemma act_good s p : step_ok s -> process_good p -> process_good (act s p) /\ pr_startup (act s p) = pr_startup p.
Proof.
  intros Hs Hg. destruct s; cbn [act Process.act].
  - destruct Hg as [Hw Hr]. split; [|done].
    destruct (serve_good (ss_max_body_bytes (pr_static p)) (ips_of p) (arriving p i) q body (pr_app p) Hs Hw) as [H1 H2].
    split; [exact H1|]. unfold request_step. cbn [pr_app publish set_app pr_last codes_of pr_startup]. by rewrite H2.
  - destruct Hg. unfold stream_end. destruct (stream_report _ _ _). by split.
  - destruct Hg as [Hw Hr]. split; [|done]. split; [|done]. cbn. by apply keeps_refresh_good.
  - split; [by apply rebuild_step_good|]. unfold rebuild_step. destruct (decide _); [done|]. by destruct (rebuild _ _).
  - destruct Hg. by split.
  - destruct Hg. by split.
  - split; [by apply health_step_good|done].
  - destruct (alert_turn_frame db_ok p) as (H1 & H2 & H3 & H4). destruct Hg as [Hw Hr]. split; [|done].
    unfold codes_of in *. split; [by rewrite H1|]. unfold codes_of. by rewrite H2, H3, H4.
  - destruct Hg. by split.
  - destruct Hg. destruct (pr_shutdown p); by split.
Qed.

Lemma process_run_good steps p : Forall step_ok steps -> process_good p ->
  process_good (process_run p steps) /\ pr_startup (process_run p steps) = pr_startup p.
Proof.
  intros Hs. revert p. induction Hs as [|s steps Hok _ IH]; intros p Hg; [done|]. cbn [foldl].
  destruct (act_good s p Hok Hg) as [H1 H2].
  assert (process_good (process_step p s) /\ pr_startup (process_step p s) = pr_startup p) as [H3 H4].
  { unfold process_step. destruct (task_of s) as [t|]; [|done]. by destruct (bool_decide _). }
  destruct (IH _ H3) as [H5 H6]. split; [exact H5|]. etransitivity; [exact H6|done].
Qed.

Lemma boot_codes file file2 sync now w g su :
  load_config yaml_startup file = Ok su ->
  (bootstrap yaml_startup json_error read_file http_get new_openai new_anthropic new_gemini file file2 sync now w).2 = Ok g ->
  lv_codes g = bad_status_codes (su_failover su).
Proof.
  intros Hl. unfold bootstrap. cbn zeta. unfold mbind, M_bind, lift at 1. rewrite Hl. cbn [fst].
  destruct (ConfigStore.load now w) as [w1 [[]|e]]; [|done]. destruct (seed _ _ _ _ w1) as [w2 [[]|e]]; [|done].
  destruct (install_startup su now w2) as [w3 [[]|e]]; [|done]. destruct (fill_registry _ _ _ now w3) as [w4 [[]|e]]; [|done].
  unfold get_store, lift. destruct (Boot.rebuild _ _ _ _ _); [|done]. destruct (build_all _ _ _); [|done]. by intros [= <-].
Qed.

Lemma boot_process_good file file2 sync now w log p :
  db_good (w_db w) -> snap_good (w_store w) -> file_typed yaml_startup file2 -> catalog_fits json_error http_get ->
  boot_process file file2 sync now w log = Ok p -> process_good p.
Proof.
  intros Hd Hs Hf Hc. unfold boot_process. destruct (load_config yaml_startup file) as [su|] eqn:Hl; [|done].
  pose proof (boot_codes file file2 sync now w) as Hcodes.
  destruct (bootstrap _ _ _ _ _ _ _ file file2 sync now w) as [w' [g|e]] eqn:Hb; [|done]. specialize (Hcodes g su Hl eq_refl).
  destruct (bootstrap_good _ _ _ _ _ _ _ file file2 sync now w w' g Hd Hs Hf Hc Hb) as [[Hg Hr] _].
  intros [= <-]. split; [done|]. unfold codes_of. cbn [assemble pr_startup pr_last pr_app st_router]. by rewrite <- Hcodes.
Qed.

Lemma rebuilder_step p : RebuilderTask ∈ pr_tasks p -> process_step p RebuildTick = rebuild_step new_openai new_anthropic new_gemini p.
Proof. intros H. unfold Process.process_step. cbn [task_of]. by rewrite bool_decide_true. Qed.

(** Hot reload: the next tick of the rebuilder leaves a router that serves the
    configuration in memory. *)
Lemma process_reload file file2 sync now w log p steps :
  db_good (w_db w) -> snap_good (w_store w) -> file_typed yaml_startup file2 -> catalog_fits json_error http_get ->
  boot_process file file2 sync now w log = Ok p -> Forall step_ok steps -> RebuilderTask ∈ pr_tasks (process_run p steps) ->
  let st := pr_app (process_step (process_run p steps) RebuildTick) in
  snap_good (w_store (st_world st)) /\ serves new_openai new_anthropic new_gemini (st_router st) (w_store (st_world st)) (codes_of p).
Proof.
  intros Hd Hs Hf Hc Hb Hsteps Hr. pose proof (boot_process_good _ _ _ _ _ _ _ Hd Hs Hf Hc Hb) as Hg.
  destruct (process_run_good steps p Hsteps Hg) as [Hg' Hsu]. rewrite rebuilder_step by done.
  destruct (rebuild_step_good _ Hg') as (Hg2 & Hw & Hreb). cbn zeta. rewrite Hw.
  pose proof (pg_world _ Hg') as [_ Hsn]. split; [done|]. unfold codes_of in *. rewrite Hsu in Hreb. by apply rebuild_serves.
Qed.

Lemma process_serves file file2 sync now w log p steps :
  db_good (w_db w) -> snap_good (w_store w) -> file_typed yaml_startup file2 -> catalog_fits json_error http_get ->
  boot_process file file2 sync now w log = Ok p -> Forall step_ok steps -> RebuilderTask ∈ pr_tasks (process_run p steps) ->
  let st := pr_app (process_step (process_run p steps) RebuildTick) in
  serves new_openai new_anthropic new_gemini (st_router st) (w_store (st_world st)) (codes_of p).
Proof. intros. by eapply process_reload. Qed.

Lemma served_rows limit ips i q body st l : (forall s, String.length (sha256 s) = 32%nat) ->
  EvLog l ∈ (serve_one limit ips i q body st).2 -> is_Some (log_upstream l) ->
  exists req pv route, in_body (ar_in i) = Ok req /\ resolve (re_router (in_env (ar_in i))) (model req) = Ok (pv, route)
    /\ pool_row (re_pool_id route) (re_pool route) l.
Proof.
  intros Hsha Hin Hu. unfold serve_request in Hin. destruct (http_server _ _ _ _) as [[[gw evs] sv]|] eqn:Es; [|by apply not_elem_of_nil in Hin].
  apply server_rowless in Es. assert (EvLog l ∉ evs) as Hno by (rewrite <- log_rows_elem, Es; apply not_elem_of_nil).
  destruct (sv_answer sv) as [r|[e caps ext| | |]]; try done. destruct (negb _); [done|]. destruct (is_read _); [done|].
  cbv zeta in Hin. cbn [snd] in Hin. apply elem_of_app in Hin as [?|Hin]; [done|]. unfold write_handler in Hin.
  destruct (is_client_key_op e); [by apply not_elem_of_nil in Hin|].
  destruct e; try (by apply not_elem_of_nil in Hin). destruct (x_client ext) as [c|]; [|by apply not_elem_of_nil in Hin].
  destruct (x_request_id ext) as [rid|]; [|by apply not_elem_of_nil in Hin].
  unfold chat_effect, handle, identified in Hin. cbn [in_body in_env in_headers in_request_id in_attempts] in Hin. destruct (in_body (ar_in i)) as [req|r] eqn:Eb; [|by apply not_elem_of_nil in Hin].
  destruct (chat_completions_handler _ _ _ _ _ _ _) as [[[s evs'] r]|] eqn:E; [|by apply not_elem_of_nil in Hin].
  destruct (handler_pool_row Hsha _ _ _ _ _ _ _ _ _ _ l E Hin Hu) as (pv & route & H1 & H2). by exists req, pv, route.
Qed.

(** Claim C8: answers follow the configuration.  After a startup on a good database and any
    history of requests, turns of the tasks and failures, once the rebuilder has had
    its tick, a row that a request writes for an upstream answer names the pool that
    the configuration in memory routes the requested model to, and the identity of
    one of that pool's configured keys, whatever tokens were refreshed and whatever
    keys were retried. *)
Theorem answers_follow_configuration file file2 sync now w log p steps i q body l :
  (forall s, String.length (sha256 s) = 32%nat) ->
  db_good (w_db w) -> snap_good (w_store w) -> file_typed yaml_startup file2 -> catalog_fits json_error http_get ->
  boot_process file file2 sync now w log = Ok p -> Forall step_ok steps -> RebuilderTask ∈ pr_tasks (process_run p steps) ->
  let p' := process_step (process_run p steps) RebuildTick in
  let s := w_store (st_world (pr_app p')) in
  EvLog l ∈ (serve_one (ss_max_body_bytes (pr_static p')) (ips_of p') (arriving p' i) q body (pr_app p')).2 -> is_Some (log_upstream l) ->
  exists req route pool k, in_body (ar_in i) = Ok req /\ cs_routing s !! model req = Some route /\ log_pool_id l = pool_id route
    /\ cs_pools s !! pool_id route = Some pool /\ k ∈ keys pool /\ log_key_hash l = identity_hash k.
Proof.
  intros Hsha Hd Hs Hf Hc Hb Hsteps Hr p' s Hin Hu.
  assert (serves new_openai new_anthropic new_gemini (st_router (pr_app p')) s (codes_of p)) as Hsv by (by eapply process_serves).
  destruct (served_rows _ _ _ _ _ _ l Hsha Hin Hu) as (req & pv & route & Eb & Eres & Hp & k & Hk & Hkh).
  cbn [arriving ar_in in_env in_body current_env re_router] in Eb, Eres. specialize (Hsv (model req)). fold s in Hsv.
  destruct (cs_routing s !! model req) as [rt|] eqn:Er; [|congruence]. destruct Hsv as (pool & Hpool & Hfl).
  destruct (find_last _ _) as [cfg|]; [|congruence]. rewrite Eres in Hfl. injection Hfl as -> ->. cbn [re_pool_id re_pool] in *.
  exists req, rt, pool, k. done.
Qed.

(** ** Alerts *)

Lemma omap_length_le {A B} (f : A -> option B) l : (length (omap f l) <= length l)%nat.
Proof. induction l as [|x l IH]; [done|]. cbn. destruct (f x); cbn; lia. Qed.

Context `{BL : !BroadcastLaws}.

Record alert_ready (p : Process) : Prop := {
  ry_task : AlertingTask ∈ pr_tasks p;
  ry_running : running (pr_alert_task p) = true;
  ry_pos : (pr_alert_pos p <= length (pr_alerts p) <= pr_alert_pos p + ALERT_CAPACITY)%nat
}.

(** The alerts whose inserts succeed, by the outcomes of the turns. *)
Fixpoint stored (al : list AlertEvent) (oks : list bool) : list AlertEvent :=
  match al, oks with
  | a :: al', ok :: oks' => (if ok then [a] else []) ++ stored al' oks'
  | _, _ => []
  end.

(** From [p] to [p'], the alerts [al] were worked off: those whose insert succeeded are
    new rows of the table of the alert screen, in order, and every channel was handed
    all of them, in order. *)
Definition worked_off (p p' : Process) (al : list AlertEvent) (oks : list bool) : Prop :=
  (exists ids, length ids = length (stored al oks)
     /\ alert_event (lw_db (st_log (pr_app p'))) = alert_event (lw_db (st_log (pr_app p))) ++ zip_with alert_row ids (stored al oks))
  /\ dispatched (pr_alert_task p') = dispatched (pr_alert_task p)
       ++ (al ≫= fun a => (fun c => (channel_id c, a)) <$> alert_channels (su_alerts (pr_startup p))).

Lemma alert_turn_item p a ok : alert_ready p -> pr_alerts p !! pr_alert_pos p = Some a ->
  let p' := process_step p (AlertTurn ok) in
  alert_ready p' /\ pr_alerts p' = pr_alerts p /\ pr_alert_pos p' = S (pr_alert_pos p) /\ pr_startup p' = pr_startup p /\ worked_off p p' [a] [ok].
Proof.
  intros [Ht Hr Hp] Ha. unfold Process.process_step. cbn [task_of]. rewrite bool_decide_true by done. cbn [Process.act]. unfold alert_turn.
  rewrite (recv_item _ _ _ _ a) by (done || lia). cbv zeta. unfold alert_step. rewrite Hr. cbn [negb].
  pose proof (lookup_lt_Some _ _ _ Ha). split; [split; [done|done|cbn; lia]|]. do 3 (split; [done|]). split.
  - destruct ok; [by exists [next_alert_id (alert_event (lw_db (st_log (pr_app p))))]|exists []; split; [done|]; cbn; by rewrite app_nil_r].
  - cbn. by rewrite app_nil_r.
Qed.

Lemma alert_turn_idle p ok : alert_ready p -> pr_alert_pos p = length (pr_alerts p) -> process_step p (AlertTurn ok) = p.
Proof.
  intros [Ht Hr Hp] E. unfold Process.process_step. cbn [task_of]. rewrite bool_decide_true by done. cbn [Process.act]. unfold alert_turn.
  by rewrite recv_idle by lia.
Qed.

Lemma worked_off_trans p p1 p2 a al ok oks : pr_startup p1 = pr_startup p ->
  worked_off p p1 [a] [ok] -> worked_off p1 p2 al oks -> worked_off p p2 (a :: al) (ok :: oks).
Proof.
  intros Hs [(ids1 & L1 & E1) D1] [(ids2 & L2 & E2) D2]. cbn [stored] in L1, E1. rewrite app_nil_r in L1, E1. split.
  - exists (ids1 ++ ids2). cbn [stored]. rewrite !length_app, L1, L2. split; [done|].
    by rewrite E2, E1, zip_with_app, app_assoc by done.
  - rewrite D2, D1, Hs. cbn. by rewrite app_nil_r, app_assoc.
Qed.

Lemma alert_turns oks p : alert_ready p -> (length (pr_alerts p) - pr_alert_pos p <= length oks)%nat ->
  worked_off p (process_run p (AlertTurn <$> oks)) (drop (pr_alert_pos p) (pr_alerts p)) oks.
Proof.
  revert p. induction oks as [|ok oks IH]; intros p Hp Hn.
  - cbn [length] in Hn. rewrite drop_ge by lia. split; [exists []; split; [done|]|]; cbn; by rewrite app_nil_r.
  - change (process_run p (AlertTurn <$> ok :: oks)) with (process_run (process_step p (AlertTurn ok)) (AlertTurn <$> oks)).
    destruct (pr_alerts p !! pr_alert_pos p) as [a|] eqn:Ea.
    + destruct (alert_turn_item p a ok Hp Ea) as (Hp' & Eal & Epos & Es & Hw). specialize (IH _ Hp'). rewrite Eal, Epos in IH.
      rewrite (drop_S _ _ _ Ea). eapply worked_off_trans; [done|exact Hw|]. apply IH. cbn [length] in Hn. lia.
    + pose proof (ry_pos _ Hp). apply lookup_ge_None in Ea. rewrite alert_turn_idle by (done || lia).
      specialize (IH p Hp ltac:(lia)). rewrite drop_ge in IH |- * by lia. exact IH.
Qed.

(** The alerts among the events of a request. *)
Definition raised (evs : list Event) : list AlertEvent := omap (fun e => match e with EvAlert a => Some a | EvLog _ => None end) evs.

(** Claim C29: an alert reaches the operator.  While the alert task runs, is not behind and
    the alerts of a request fit its channel, once the task has had a turn for each of
    them, every channel has been handed all of them, in order, whether or not the
    inserts succeeded; and the rows added to the table of the alert screen are, in
    order, those alerts whose insert succeeded: an alert whose insert fails (the
    code only logs it) is delivered to the channels and is not on the screen. *)
Theorem alerts_reach_operator p i q body oks :
  let evs := (serve_one (ss_max_body_bytes (pr_static p)) (ips_of p) (arriving p i) q body (pr_app p)).2 in
  AlertingTask ∈ pr_tasks p -> running (pr_alert_task p) = true -> pr_alert_pos p = length (pr_alerts p) ->
  (length (raised evs) <= length oks)%nat -> (length (raised evs) <= ALERT_CAPACITY)%nat ->
  let p1 := process_step p (Request i q body) in
  worked_off p1 (process_run p1 (AlertTurn <$> oks)) (raised evs) oks.
Proof.
  intros evs Ht Hr Hp Hn Hcap p1.
  assert (pr_alerts p1 = pr_alerts p ++ raised evs) as Eal by done.
  assert (pr_alert_pos p1 = length (pr_alerts p)) as Epos by done.
  pose proof (alert_turns oks p1) as H. rewrite Eal, Epos, length_app, drop_app_length in H. apply H; [|lia].
  split; [done|done|]. rewrite Eal, Epos, length_app. lia.
Qed.
End ProcessSpec.

(** ** Examples *)

Module ProcessDemo.
Import StoreDemo.
Definition it_bad : DashIter string (list string) := dash_iter_by_key string (list string).
Definition it_cards : DashIter string RouteEntry := dash_iter_by_key string RouteEntry.
#[export] Existing Instances sqlx serde digest it_prices it_entries it_routes it_pools it_bad it_cards ImportDemo.display exact_f64 LogDemo.sums
  HandlerDemo.display HandlerDemo.wi HandlerDemo.iter DashDemo.display DashDemo.narrow first_match first_match_laws CliDemo.keys_iter ring ring_laws.

(** Alerts are on, and anything over 10 ms is slow. *)
Definition startup : StartupConfig :=
  mkStartup doc (mkPricing ∅) metadata_default default_failover
    (mkAlertConfig true "https://hook" "" 2 10 (al_channels alert_config_default)) 10 (mkNormalization true).
Definition yaml_file (s : string) : Result StartupConfig string := if str_eqb s "doc" then Ok startup else Err "bad document".
Definition static (s : string) : StaticSections :=
  mkStatic [mkClientKey "sk-one" "acme"] (mkRateConfig false 0) concurrency_config_default (mkAdmin true ["127.0.0.1"]) 1024.
Definition new_provider (id url : string) (codes : list Z) : Provider := mkProvider url (fun _ => default_audit_from_provider).
(** The body "refresh" asks for a refresh, "route" for a second route. *)
Definition decode (e : Endpoint) (caps : list (string * string)) (body : option string) : option AdminOp :=
  match body with
  | Some "route" => Some (OpCreateRouting (mkCreateRouting "mini" "p" None None))
  | Some _ => Some OpRefresh
  | None => None
  end.
Definition section : ExportServer := mkExportServer "127.0.0.1" 8080 1024.
Definition query : QueryArgs := mkQuery 7 DashDemo.everything None None None None (mkDrillQuery "gpt" None None) None None None "jsonl" 24.
Definition log0 : LogWorld := mkLogWorld [] (mkLogDb [] [] [] [] [] [] None).
Definition booted : Result Process AppError :=
  boot_process yaml_file new_provider new_provider new_provider (fun _ => "") (fun _ => Err "") BootDemo.offline static (Ok "doc") (Ok "doc") None 1 w0 log0.
Definition p0 : Process := match booted with Ok p => p | Err _ => assemble startup (static "") 1 log0 (Boot.mkLive w0 (mkHandle (mkRouter ∅ ∅)) (mkRouting [] ∅ ∅) []) end.
Definition run_steps (p : Process) (steps : list Step) : Process :=
  process_run yaml_file (fun _ => "") section "db" (mkHttp 400 Null) (fun _ => mkHttp 500 Null) Some decode new_provider new_provider new_provider p steps.
Definition arrival (m : Method) (path : string) (model : string) : Arrival :=
  mkArrival m path None (mkIncoming [("authorization", "Bearer sk-one")] "id-1" None (Ok (HandlerDemo.req model false)) 0 0 0 HandlerDemo.re [HandlerDemo.ok]).
Definition chat (model : string) : Step := Request (arrival POST "/v1/chat/completions" model) query None.
(** A second route is made by a request, the tasks have turns, a request is answered. *)
Definition steps : list Step :=
  [Request (arrival POST "/admin/api/routing" "") query (Some "route"); PollTick 2; HealthRound []; chat "gpt"; AggregateTick 3600;
   MaintainTick PurgeTick 5; CtrlC; TaskExit PollerTask].
End ProcessDemo.

Section ProcessWitnesses.
Import ProcessDemo.

Lemma decode_demo_typed e caps body op : decode e caps body = Some op -> op_typed (managed_of yaml_file) op.
Proof. unfold decode. intros H. repeat case_match; by simplify_eq. Qed.
Lemma process_doc_typed : file_typed yaml_file (Ok "doc").
Proof. intros y c [= <-] H. vm_compute in H. injection H as <-. constructor. Qed.
Lemma ok_fair : fair HandlerDemo.ok.
Proof. unfold fair, interference. rewrite !Forall_cons. done. Qed.
Lemma steps_ok : Forall step_ok steps.
Proof.
  unfold steps, chat. rewrite !Forall_cons. unfold step_ok. cbn [ar_in arrival in_attempts]. rewrite !Forall_cons.
  split_and!; try exact ok_fair; try exact I; apply Forall_nil_2.
Qed.
Lemma demo_digest_length s : String.length (sha256 s) = 32%nat.
Proof. cbn [sha256 StoreDemo.digest]. rewrite length_take_str, length_app_str. cbn [String.length]. lia. Qed.

(** The process after the history and a tick of the rebuilder. *)
Abbreviation p1 :=
  (process_step yaml_file (fun _ => "") section "db" (mkHttp 400 Null) (fun _ => mkHttp 500 Null) Some decode new_provider new_provider new_provider
    (process_run yaml_file (fun _ => "") section "db" (mkHttp 400 Null) (fun _ => mkHttp 500 Null) Some decode new_provider new_provider new_provider p0 steps)
    RebuildTick).
Abbreviation served_demo i :=
  (serve_request (managed_of yaml_file) (fun _ => "") section "db" (mkHttp 400 Null) (fun _ => mkHttp 500 Null) Some decode
    (ss_max_body_bytes (pr_static p1)) (ips_of p1) (arriving p1 i) query None (pr_app p1)).

Theorem answers_follow_configuration_witness : exists l route pool k,
  EvLog l ∈ (served_demo (arrival POST "/v1/chat/completions" "mini")).2 /\ log_pool_id l = "p" /\ log_pool_id l = pool_id route
  /\ cs_pools (w_store (st_world (pr_app p1))) !! pool_id route = Some pool /\ k ∈ keys pool /\ log_key_hash l = identity_hash k.
Proof.
  destruct (log_rows (served_demo (arrival POST "/v1/chat/completions" "mini")).2) as [|l ls] eqn:El; [vm_compute in El; discriminate|].
  assert (EvLog l ∈ (served_demo (arrival POST "/v1/chat/completions" "mini")).2) as Hl by (apply log_rows_elem; rewrite El; by left).
  assert (is_Some (log_upstream l) /\ log_pool_id l = "p") as [Hu Hlp] by (vm_compute in El; injection El as <- _; split; [by eexists|reflexivity]).
  destruct (answers_follow_configuration yaml_file (fun _ => "") section "db" (mkHttp 400 Null) (fun _ => mkHttp 500 Null) Some decode
    new_provider new_provider new_provider (fun _ => "") (fun _ => Err "") BootDemo.offline static decode_demo_typed (Ok "doc") (Ok "doc") None 1 StoreDemo.w0 log0 p0 steps
    (arrival POST "/v1/chat/completions" "mini") query None l demo_digest_length)
    as (req & route & pool & k & Eb & Er & Hp & Hpool & Hk & Hh).
  - exact empty_db_good.
  - exact snapshot_default_good.
  - exact process_doc_typed.
  - exact offline_fits.
  - vm_compute. reflexivity.
  - exact steps_ok.
  - apply (bool_decide_unpack _). vm_compute. exact I.
  - exact Hl.
  - exact Hu.
  - exists l, route, pool, k. split; [exact Hl|]. split; [exact Hlp|]. split; [exact Hp|]. split; [|split; [exact Hk|exact Hh]].
    exact Hpool.
Defined.

(** A slow answer under a database that takes the row, and under one that does not. *)
Theorem alerts_reach_operator_witness :
  let a := LatencySpike 8 "gpt-large" 20 10 in
  let p := run_steps p0 [chat "gpt"; AlertTurn true] in
  let p' := run_steps p0 [chat "gpt"; AlertTurn false] in
  length (alert_event (lw_db (st_log (pr_app p)))) = 1%nat /\ alert_event (lw_db (st_log (pr_app p'))) = []
  /\ (forall c, c ∈ alert_channels (su_alerts startup) -> (channel_id c, a) ∈ dispatched (pr_alert_task p'))
  /\ st_alert_count (pr_app p) = 1%nat /\ length (pr_live p) = 1%nat.
Proof.
  cbv zeta.
  assert (forall oks, (1 <= length oks)%nat -> worked_off (run_steps p0 [chat "gpt"]) (process_run yaml_file (fun _ => "") section "db" (mkHttp 400 Null) (fun _ => mkHttp 500 Null) Some decode
    new_provider new_provider new_provider (run_steps p0 [chat "gpt"]) (AlertTurn <$> oks)) [LatencySpike 8 "gpt-large" 20 10] oks) as H.
  { intros oks Hl. refine (alerts_reach_operator yaml_file (fun _ => "") section "db" (mkHttp 400 Null) (fun _ => mkHttp 500 Null) Some decode
      new_provider new_provider new_provider p0 (arrival POST "/v1/chat/completions" "gpt") query None oks _ _ _ _ _).
    - apply (bool_decide_unpack _). vm_compute. exact I.
    - vm_compute. reflexivity.
    - vm_compute. reflexivity.
    - exact Hl.
    - apply Nat.leb_le. vm_compute. reflexivity. }
  split; [|split; [|split; [|split; vm_compute; reflexivity]]].
  - destruct (H [true] (le_n 1)) as [(ids & Hl & E) _]. vm_compute. reflexivity.
  - vm_compute. reflexivity.
  - intros c Hc. destruct (H [false] (le_n 1)) as [_ E]. change (run_steps p0 [chat "gpt"; AlertTurn false]) with
      (process_run yaml_file (fun _ => "") section "db" (mkHttp 400 Null) (fun _ => mkHttp 500 Null) Some decode
        new_provider new_provider new_provider (run_steps p0 [chat "gpt"]) (AlertTurn <$> [false])). rewrite E.
    apply elem_of_app. right. cbn [mbind list_bind]. rewrite app_nil_r. by apply (list_elem_of_fmap_2 (fun c => (channel_id c, _))).
Defined.
End ProcessWitnesses.
