(* ===== verification/AdminBodies.v ===== *)
(** * The bodies of the admin requests

    Models the derived decoders of the request types of
    [src/src/dashboard/admin_api.rs] and how a request of the admin API becomes an
    operation: the body is decoded by [Json<T>], the segment of the path by
    [Path<String>]; and the screens that the command line reads.  The parser that
    makes a tree of a text is a parameter.

    The theorems show that whatever a body holds the operation is within the types
    of the code, so that nothing has to be assumed of the decoder in [Process], that
    the bodies of the command line are read as it means them, that its [status] and
    [keys] read the counters and keys of the gateway, and that a key it posts is
    served after the next tick of the rebuilder. *)

From S2P Require Import Prelude Json Types Alerts RateLimit Concurrency Cache CircuitBreaker Config Pricing Db ConfigStore Router Metrics Inspector Providers Catalog Credential Auth AdminApi ModelImport Export Boot Health Handler Wire LogDb Csv Dashboard Gateway Server Cli CliRun CliGateway Endpoints Tasks Process Serde.

(** ** Decoders *)

Definition default_strategy : string := "weighted_random".
Definition default_weight : Z := 1.
Definition default_model_tokens : Z := 4096.
Definition default_model_enabled : bool := true.

Section Bodies.
Context {D : Type} `{DS : Deserializer D}.

Definition de_create_provider : D -> Result CreateProviderRequest string :=
  struct_of (made mkCreateProvider <*> required "id" de_string <*> required "kind" de_string <*> required "base_url" de_string
             <*> required "pool_id" de_string <*> defaulted "metadata" Null de_value).

Definition de_cred_type (d : D) : Result CredentialType string :=
  let? s := de_variant d in
  if str_eqb s "api_key" then Ok ApiKey
  else if str_eqb s "oauth" then Ok Oauth
  else Err (unknown_variant d s ["api_key"; "oauth"]).
Definition de_create_key : D -> Result CreateKeyEntryRequest string :=
  struct_of (made mkCreateKey <*> defaulted "key" "" de_string
             <*> defaulted "weight" default_weight de_u32
             <*> defaulted "type" ApiKey de_cred_type
             <*> optional_default "refresh" de_string
             <*> optional_default "expires" de_i64
             <*> optional_default "issuer" de_string).
Definition de_create_pool : D -> Result CreatePoolRequest string :=
  struct_of (made mkCreatePool <*> required "id" de_string <*> defaulted "strategy" default_strategy de_string
             <*> defaulted "keys" [] (seq_of de_create_key)).
Definition de_create_routing : D -> Result CreateRoutingRequest string :=
  struct_of (made mkCreateRouting <*> required "logical_model" de_string <*> required "pool_id" de_string
             <*> optional_default "default_params" de_value <*> optional_default "upstream_model" de_string).

Definition de_model_create : D -> Result ModelRegistryCreate string :=
  struct_of (made mkModelCreate <*> required "id" de_string <*> required "display_name" de_string <*> required "provider_kind" de_string
             <*> optional "provider_config_id" de_string
             <*> defaulted "supports_vision" false de_bool
             <*> defaulted "supports_tool_calling" false de_bool
             <*> defaulted "supports_json_mode" false de_bool
             <*> defaulted "max_context_tokens" default_model_tokens de_i32
             <*> defaulted "max_output_tokens" default_model_tokens de_i32
             <*> optional "input_price_per_1m" de_finite
             <*> optional "output_price_per_1m" de_finite
             <*> optional "capabilities_json" de_value
             <*> defaulted "enabled" default_model_enabled de_bool).
Definition de_model_patch : D -> Result ModelRegistryPatch string :=
  struct_of (made mkModelPatch <*> optional "display_name" de_string <*> optional "provider_kind" de_string
             <*> optional "provider_config_id" (nullable de_string)
             <*> optional "supports_vision" de_bool
             <*> optional "supports_tool_calling" de_bool
             <*> optional "supports_json_mode" de_bool
             <*> optional "max_context_tokens" de_i32
             <*> optional "max_output_tokens" de_i32
             <*> optional "input_price_per_1m" (nullable de_finite)
             <*> optional "output_price_per_1m" (nullable de_finite)
             <*> optional "capabilities_json" (nullable de_value)
             <*> optional "enabled" de_bool).
Definition de_config_document : D -> Result ConfigDocumentRequest string :=
  struct_of (made mkDocument <*> required "yaml" de_string <*> defaulted "dry_run" false de_bool).
End Bodies.

(** ** From a request to an operation *)

Section Requests.
Context `{JE : JsonErrors} `{FL : F64} (json_tree : string -> option Value) (path_decode : string -> option string).

(** [Json<T>] *)
Definition json_arg {A} (f : Value -> Result A string) (body : option string) : option A :=
  (body ≫= json_tree) ≫= fun v => match f v with Ok a => Some a | Err _ => None end.
(** [Path<String>] *)
Definition path_arg (name : string) (caps : list (string * string)) : option string :=
  (snd <$> List.find (fun kv => str_eqb kv.1 name) caps) ≫= path_decode.

(** What an endpoint that changes the configuration is called with; [None] when axum
    refuses the request. *)
Definition admin_op (e : Endpoint) (caps : list (string * string)) (body : option string) : option AdminOp :=
  match e with
  | api_create_provider => OpCreateProvider <$> json_arg de_create_provider body
  | api_delete_provider => OpDeleteProvider <$> path_arg "provider_id" caps
  | api_create_pool => OpCreatePool <$> json_arg de_create_pool body
  | api_add_pool_key => pool ← path_arg "pool_id" caps; OpAddPoolKey pool <$> json_arg de_create_key body
  | api_delete_pool => OpDeletePool <$> path_arg "pool_id" caps
  | api_create_routing => OpCreateRouting <$> json_arg de_create_routing body
  | api_delete_routing => OpDeleteRouting <$> path_arg "logical_model" caps
  | api_create_model => OpCreateModel <$> json_arg de_model_create body
  | api_update_model => id ← path_arg "model_id" caps; OpUpdateModel id <$> json_arg de_model_patch body
  | api_config_import => OpImport <$> json_arg de_config_document body
  | api_config_refresh => Some OpRefresh
  | _ => None
  end.

(** ** Typed *)

Lemma i32_yields : yields (de_i32 (D := Value)) i32.
Proof. intros d a Ha. exact (yields_ranged _ _ _ _ Ha). Qed.
Lemma model_create_yields : yields (de_model_create (D := Value)) (fun req => i32 (mc_max_context_tokens req) /\ i32 (mc_max_output_tokens req)).
Proof.
  pose proof i32_yields. assert (i32 default_model_tokens) by (unfold i32, default_model_tokens; lia).
  apply yields_struct. repeat (eapply fills_with; [fill|]). apply fills_made. intros. by split.
Qed.
Lemma model_patch_yields : yields (de_model_patch (D := Value)) (fun req => forall z, mp_max_context_tokens req = Some z \/ mp_max_output req = Some z -> i32 z).
Proof.
  pose proof i32_yields. apply yields_struct. repeat (eapply fills_with; [fill|]). apply fills_made. intros. cbn in *. naive_solver.
Qed.

Lemma json_arg_yields {A} (f : Value -> Result A string) P body a : yields f P -> json_arg f body = Some a -> P a.
Proof.
  intros Hf. unfold json_arg. destruct (body ≫= json_tree) as [v|]; [|done]. cbn. destruct (f v) eqn:E; [|done]. intros [= <-]. by eapply Hf.
Qed.

(** A body makes an operation within its types; what a document of an import holds
    is up to the decoder of documents. *)
Lemma admin_op_typed yaml_config e caps body op : admin_op e caps body = Some op ->
  (forall yaml c, yaml_config yaml = Ok c -> Forall (fun r => i32 (reg_max_context_tokens r) /\ i32 (reg_max_output_tokens r)) (model_registry c)) ->
  op_typed yaml_config op.
Proof.
  intros H Hy. destruct e; cbn in H; try done; unfold mbind, option_bind in H;
    repeat match type of H with
    | context [path_arg ?n caps] => destruct (path_arg n caps); [|done]
    | context [json_arg ?f body] => destruct (json_arg f body) eqn:?; [|done]
    end; cbn in H; injection H as <-; cbn; try done.
  - intros m Hm. by eapply Hy.
  - match goal with H : json_arg _ _ = Some _ |- _ => exact (json_arg_yields _ _ _ _ model_create_yields H) end.
  - match goal with H : json_arg _ _ = Some _ |- _ => exact (json_arg_yields _ _ _ _ model_patch_yields H) end.
Qed.
End Requests.

(** ** A key that is posted *)

Section PostedKey.
Context `{SX : Sqlx} `{SJ : SerdeJson} `{DG : Digest}.
Context `{DP : !DashIter string ModelPricing} `{DE : !DashIter string PriceEntry}.
Context `{DR : !DashIter string ModelRouting} `{DO : !DashIter string PoolConfig}.

Lemma check_key_passes msg k w : key_valid k -> weight k ≠ 0 -> check_key msg k w = (w, Ok tt).
Proof.
  intros Hk Hw. unfold check_key, guard, mbind, M_bind. apply Z.eqb_neq in Hw as ->. cbn. unfold is_oauth. unfold key_valid in Hk.
  destruct (cred_type k); cbn.
  - by apply str_is_empty_false in Hk as ->.
  - destruct Hk as [->%non_empty_some ->%non_empty_some]. done.
Qed.

(** The row is written, and the configuration in memory is read anew. *)
Lemma add_pool_key_runs pool req now w : let k := to_key_entry req in
  ConfigStore.quiet w -> db_good (w_db w) -> key_valid k -> weight k ≠ 0 -> pool_known (w_db w) pool = true ->
  exists w' v, admin_api_add_pool_key pool req now w = (w', Ok v) /\ w_db w' = set_key_entry (w_db w) (key_entry_tbl (w_db w) ++ [key_row pool k])
    /\ db_good (w_db w') /\ snapshot_of now (w_store w) (w_db w') = Ok (w_store w').
Proof.
  intros k Hq Hg Hk Hw Hp. set (d' := set_key_entry (w_db w) (key_entry_tbl (w_db w) ++ [key_row pool k])).
  assert (db_good d') as Hd.
  { pose proof (good_insert_key (key_row pool k) (proj2 (key_valid_row pool k) Hk) (w_db w)) as H. unfold insert_key_row in H.
    cbn [ke_pool_id key_row] in H. rewrite Hp in H. by eapply H. }
  pose proof (good_loads d' now (w_store w) Hd) as Hl. destruct (snapshot_of now (w_store w) d') as [s|] eqn:Es; [|done].
  assert (transaction (internal "begin add key") (internal "commit add key") (as_bad_request (insert_key_entry pool k)) w = (set_db w d', Ok tt)) as Ht.
  { assert (insert_key_entry pool k w = (set_db w d', Ok tt)) as Hi.
    { unfold insert_key_entry. rewrite run_quiet by done. unfold insert_key_row. cbn [ke_pool_id key_row]. by rewrite Hp. }
    rewrite transaction_quiet; unfold as_bad_request; by rewrite ?Hi. }
  exists (set_store (set_db w d') s). eexists. split; [|done].
  unfold admin_api_add_pool_key, mbind, M_bind. fold k. rewrite check_key_passes, run_quiet by done. unfold read. rewrite Hp. cbn [negb guard mret M_ret].
  replace (set_db w (w_db w)) with w by by destruct w. unfold guard. cbn. rewrite Ht. rewrite refresh_quiet by done. cbn [w_store w_db set_db]. by rewrite Es.
Qed.

Lemma snapshot_pools now s d s' : snapshot_of now s d = Ok s' -> cs_pools s' = db_pools d.
Proof. unfold snapshot_of. destruct (collect _ _); [|done]. destruct (db_registry d); [|done]. by intros [= <-]. Qed.

(** The pool has the key. *)
Lemma added_key_loaded d pool k : db_good d -> pool_known d pool = true -> 0 <= weight k < 2 ^ 32 ->
  exists ks, db_pools (set_key_entry d (key_entry_tbl d ++ [key_row pool k])) !! pool = Some (mkPool ks) /\ stored_key k ∈ ks.
Proof.
  intros Hg Hp Hw. eexists. rewrite db_pools_spec; [|apply Hg]. rewrite bool_decide_true; [split; [reflexivity|]|].
  - rewrite <- (key_roundtrip pool) by done. apply list_elem_of_fmap_2, elem_filter_bool. unfold enabled_keys.
    rewrite scan_perm, elem_filter_bool. split; [split; [|done]|apply str_eqb_refl]. cbn. set_solver.
  - unfold enabled_pools. rewrite scan_perm. cbn. rewrite all_enabled by apply Hg. by apply pool_known_spec.
Qed.
End PostedKey.

(** ** The bodies of the command line *)

Definition i64_ok (z : Z) : Prop := - 2 ^ 63 <= z < 2 ^ 63.
Definition create_key_of (k : KeyEntry) : CreateKeyEntryRequest :=
  mkCreateKey (key k) (weight k) (cred_type k) (refresh k) (expires k) (issuer k).

Section CommandLine.
Context `{JE : JsonErrors} `{FL : F64}.

Lemma post_body_object k : post_body k
  = Object (put_option "expires" json_int (expires k) ++ put_option "issuer" Str (issuer k) ++ put "key" (Str (key k))
            ++ put_option "refresh" Str (refresh k) ++ put "type" (Str (cred_type_str k)) ++ put "weight" (json_int (weight k))).
Proof. reflexivity. Qed.

Lemma i64_option_reads z : i64_ok z -> nullable de_i64 (json_int z) = Ok (Some z).
Proof. intros H. apply nullable_some; [by apply ranged_int|done]. Qed.
Lemma cred_type_reads k : de_cred_type (Str (cred_type_str k)) = Ok (cred_type k).
Proof. unfold cred_type_str. by destruct (cred_type k). Qed.
#[local] Hint Resolve i64_option_reads cred_type_reads u32_reads : roundtrip.

Lemma post_body_reads k : u32 (weight k) -> (forall z, expires k = Some z -> i64_ok z) -> de_create_key (post_body k) = Ok (create_key_of k).
Proof. intros Hw He. rewrite post_body_object. unfold create_key_of. read_struct. Qed.
Lemma pool_body_reads k pool : u32 (weight k) -> (forall z, expires k = Some z -> i64_ok z) ->
  de_create_pool (obj [("id", Str pool); ("strategy", Str "weighted_random"); ("keys", Array [post_body k])])
  = Ok (mkCreatePool pool default_strategy [create_key_of k]).
Proof.
  intros Hw He. pose proof (seq_one _ _ _ (post_body_reads k Hw He)) as Hs.
  change (obj _) with (Object (put "id" (Str pool) ++ put "keys" (Array [post_body k]) ++ put "strategy" (Str "weighted_random"))). read_struct.
Qed.
Lemma document_body_reads yaml dry : de_config_document (import_document yaml dry) = Ok (mkDocument yaml dry).
Proof. reflexivity. Qed.

Lemma create_key_entry k : key_valid k -> key_valid (to_key_entry (create_key_of k)).
Proof. done. Qed.
Lemma stored_created k : identity k = None -> to_key_entry (create_key_of k) = k.
Proof. destruct k. cbn. by intros ->. Qed.
End CommandLine.

(** ** The screens of the command line *)

Definition encode_pool_status (p : PoolStatus) : Value :=
  Object (put "pool_id" (Str (pst_pool_id p)) ++ put "total_keys" (json_int (Z.of_nat (pst_total_keys p))) ++ put "healthy_keys" (json_int (Z.of_nat (pst_healthy_keys p)))
          ++ put "bad_keys" (json_int (Z.of_nat (pst_bad_keys p)))).
Definition encode_status (s : StatusResponse) : Value :=
  Object (put "uptime_secs" (json_int (st_uptime_secs s)) ++ ((fun kv => (kv.1, json_int kv.2)) <$> st_counters s)
          ++ put_seq "pools" encode_pool_status (st_pools s) ++ put "alert_count" (json_int (Z.of_nat (AdminApi.st_alert_count s)))).
Definition encode_key_view (k : KeyView) : Value :=
  Object (put "key_hash" (Str (kv_key_hash k)) ++ put "weight" (json_int (kv_weight k)) ++ put "healthy" (Bool (kv_healthy k))
          ++ put_seq "sparkline" json_int (kv_sparkline k) ++ put "success_rate" (Str (kv_success_rate k))).
Definition encode_pool_view (p : PoolView) : Value :=
  Object (put "pool_id" (Str (pv_pool_id p)) ++ put_seq "keys" encode_key_view (pv_keys p)).
Definition encode_keys (r : KeysResponse) : Value := Object (put_seq "pools" encode_pool_view (kr_pool_views r)).

(** What [status] and [keys] read of them. *)
Definition read_pool (p : PoolStatus) : PoolResp := mkPoolResp (pst_pool_id p) (Z.of_nat (pst_total_keys p)) (Z.of_nat (pst_healthy_keys p)) (Z.of_nat (pst_bad_keys p)).
Definition read_key (k : KeyView) : KeyResp := mkKeyResp (kv_key_hash k) (kv_weight k) (kv_healthy k) (kv_success_rate k).
Definition read_pool_keys (p : PoolView) : PoolKeysResp := mkPoolKeys (pv_pool_id p) (read_key <$> pv_keys p).

Lemma as_u64_int z : 0 <= z -> as_u64 (json_int z) = Some z.
Proof. intros H. unfold json_int. by destruct (Z.ltb_spec z 0); [lia|]. Qed.
Lemma as_u64_nat (n : nat) : as_u64 (json_int (Z.of_nat n)) = Some (Z.of_nat n).
Proof. apply as_u64_int. lia. Qed.
Lemma vec_reads {A B} (dec : Value -> option B) (enc : A -> Value) (f : A -> B) l :
  Forall (fun a => dec (enc a) = Some (f a)) l -> vec dec (Array (enc <$> l)) = Some (f <$> l).
Proof. intros H. unfold vec. cbn. induction H as [|a l Ha _ IH]; [done|]. cbn. rewrite Ha. cbn. by rewrite IH. Qed.

Lemma pool_status_reads p : decode_pool (encode_pool_status p) = Some (read_pool p).
Proof.
  destruct p as [id total healthy bad]. lazy -[json_int as_u64 Z.of_nat]. by rewrite !as_u64_nat.
Qed.
Lemma key_view_reads k : u32 (kv_weight k) -> decode_key (encode_key_view k) = Some (read_key k).
Proof.
  destruct k as [h w ok sp rate]. intros [Hw1 Hw2]. cbn in Hw1, Hw2. assert (as_u32 (json_int w) = Some w) as Hw.
  { unfold as_u32. rewrite as_u64_int by done. cbn. unfold u32_max. by rewrite (proj2 (Z.leb_le _ _)) by lia. }
  lazy -[json_int as_u32]. by rewrite Hw.
Qed.
Lemma pool_view_reads p : Forall (fun k => u32 (kv_weight k)) (pv_keys p) -> decode_pool_keys (encode_pool_view p) = Some (read_pool_keys p).
Proof.
  destruct p as [id ks]. cbn [pv_keys]. intros H. assert (vec decode_key (Array (encode_key_view <$> ks)) = Some (read_key <$> ks)) as Hv.
  { apply vec_reads. eapply Forall_impl; [exact H|]. apply key_view_reads. }
  revert Hv. unfold encode_pool_view, read_pool_keys, put_seq. cbn [pv_pool_id pv_keys]. generalize (Array (encode_key_view <$> ks)), (read_key <$> ks).
  intros v l Hv. lazy -[vec decode_key]. by rewrite Hv.
Qed.
Lemma keys_read r : Forall (fun p => Forall (fun k => u32 (kv_weight k)) (pv_keys p)) (kr_pool_views r) ->
  decode_keys (encode_keys r) = Some (mkKeysResp (read_pool_keys <$> kr_pool_views r)).
Proof.
  intros H. change (decode_keys (encode_keys r)) with (mkKeysResp <$> vec decode_pool_keys (Array (encode_pool_view <$> kr_pool_views r))).
  rewrite (vec_reads decode_pool_keys encode_pool_view read_pool_keys); [done|]. eapply Forall_impl; [exact H|]. apply pool_view_reads.
Qed.

(** The counters of the status are those of the metrics. *)
Lemma status_reads `{DG : Digest} `{DI : !DashIter string RouteEntry} {P} b (r : Router P) m alerts now :
  (forall c, 0 <= Metrics.load m c) -> 0 <= now ->
  decode_status (encode_status (admin_api_status b r m alerts now))
  = Some (mkStatusResp now (total_requests m) (failed_requests m) (Metrics.stream_requests m) (cache_hits m) (active_connections m)
            (total_prompt_tokens m) (total_completion_tokens m) (m_retry_count m) (key_demotions m) (upstream_5xx m) (upstream_4xx m)
            ((fun s => read_pool (pool_status s)) <$> pool_snapshot b r) (Z.of_nat alerts)).
Proof.
  intros Hc Hn. unfold admin_api_status. generalize (pool_snapshot b r). intros snaps.
  pose proof (fun c => as_u64_int _ (Hc c)) as Hr. pose proof (as_u64_int _ Hn) as Hrn.
  assert (vec decode_pool (Array (encode_pool_status <$> (pool_status <$> snaps))) = Some ((fun s => read_pool (pool_status s)) <$> snaps)) as Hv.
  { rewrite (vec_reads decode_pool encode_pool_status read_pool); [by rewrite <- list_fmap_compose|]. apply Forall_forall. intros p _. apply pool_status_reads. }
  revert Hv. unfold encode_status, put_seq. cbn [st_pools st_counters st_uptime_secs AdminApi.st_alert_count].
  generalize (Array (encode_pool_status <$> (pool_status <$> snaps))), ((fun s => read_pool (pool_status s)) <$> snaps). intros v l Hv.
  destruct m as [m1 m2 m3 m4 m5 m6 m7 m8 m9 m10 m11 m12].
  pose proof (Hr CTotal) as H1. pose proof (Hr CFailed) as H2. pose proof (Hr CStream) as H3. pose proof (Hr CCacheHits) as H4. pose proof (Hr CActive) as H5.
  pose proof (Hr CPrompt) as H6. pose proof (Hr CCompletion) as H7. pose proof (Hr CRetry) as H8. pose proof (Hr CDemotions) as H9.
  pose proof (Hr C5xx) as H10. pose proof (Hr C4xx) as H11. clear Hr Hc. cbn -[json_int as_u64] in H1, H2, H3, H4, H5, H6, H7, H8, H9, H10, H11.
  lazy -[vec decode_pool json_int as_u64 Z.of_nat].
  by rewrite Hrn, H1, H2, H3, H4, H5, H6, H7, H8, H9, H10, H11, Hv, as_u64_nat.
Qed.
(** ** The path of a pool's keys *)

Definition pool_keys_path (pool : string) : string := "/admin/api/pools/" +:+ pool +:+ "/keys".

Lemma fits_pool_keys pool : segment pool = true -> fits_path "/admin/api/pools/{pool_id}/keys" (pool_keys_path pool) = Some [("pool_id", pool)].
Proof.
  intros [He Hd]%andb_true_iff. unfold fits_path, pool_keys_path.
  change ("/admin/api/pools/" +:+ pool +:+ "/keys") with ("/admin/api/pools" +:+ String (chr 47) (pool +:+ String (chr 47) "keys")).
  rewrite !split_slash_app, (split_segment pool Hd). assert (str_is_empty pool = false) as Hn by by destruct pool.
  change (split_slash "/admin/api/pools/{pool_id}/keys") with (split_slash "/admin/api/pools" ++ ["{pool_id}"; "keys"]).
  rewrite fits_segs_app by (vm_compute; reflexivity). cbn [app fits_segs]. change (capture_name "{pool_id}") with (Some "pool_id"). rewrite Hn.
  vm_compute. reflexivity.
Qed.

(** ** In the running process *)

Section PostedInProcess.
Context `{SX : Sqlx} `{SJ : SerdeJson} `{DG : Digest} `{FX : FixedDisplay} `{FD : F64Display} `{FL : F64} `{DI16 : DecodeI16}
  `{WI : WeightedIndex} `{SR : SumReal} `{SD : StatusDisplay} `{MT : Matchit} `{ML : !MatchitLaws} `{BC : Broadcast} `{JE : JsonErrors}.
Context `{DP : !DashIter string ModelPricing} `{DE : !DashIter string PriceEntry}.
Context `{DR : !DashIter string ModelRouting} `{DO : !DashIter string PoolConfig}.
Context `{DK : !DashIter string ClientKeyRecord} `{DC : !DashIter string CacheEntry} `{DI : !DashIter string RouteEntry}.
Context `{DB : !DashIter string (list string)}.
Context (yaml_startup : string -> Result StartupConfig string) (yaml_text : ExportDocument -> string).
Context (server_section : ExportServer) (db_path : string).
Context (rejection : HttpResponse) (other : Endpoint -> HttpResponse) (path_decode : string -> option string).
Context (json_tree : string -> option Value).
Context (new_openai new_anthropic new_gemini : string -> string -> list Z -> Provider).
Abbreviation process_step := (process_step yaml_startup yaml_text server_section db_path rejection other path_decode (admin_op json_tree path_decode) new_openai new_anthropic new_gemini).

(** A request of the command line that posts [k] to [pool]. *)
Record posts_key (p : Process) (i : Arrival) (text pool : string) (k : KeyEntry) : Prop := {
  pk_method : ar_method i = POST;
  pk_path : ar_path i = pool_keys_path pool;
  pk_segment : segment pool = true;
  pk_decode : path_decode pool = Some pool;
  pk_cors : ar_cors i = None;
  pk_address : ip_guard (ips_of p) (in_headers (ar_in i)) = true;
  pk_body : json_tree text = Some (post_body k)
}.
(** A key the gateway can hold. *)
Record key_fits (k : KeyEntry) : Prop := {
  kf_valid : key_valid k;
  kf_weight : 0 < weight k < 2 ^ 32;
  kf_expires : forall z, expires k = Some z -> i64_ok z
}.

Lemma posted_key_world p i q text pool k : posts_key p i text pool k -> key_fits k ->
  st_world (pr_app (process_step p (Request i q (Some text))))
  = (admin_api_add_pool_key pool (create_key_of k) (qy_now_ms q) (st_world (pr_app p))).1
  /\ pr_tasks (process_step p (Request i q (Some text))) = pr_tasks p.
Proof.
  intros [Hm Hp Hs Hd Hc Hg Hb] [_ [Hw1 Hw2] He]. split; [|done]. unfold Process.process_step. cbn [task_of Process.act]. unfold request_step.
  cbn [pr_app publish set_app]. unfold serve_request.
  erewrite (admin_served _ _ _ (arriving p i) "/admin/api/pools/{pool_id}/keys" _ [("pool_id", pool)] api_add_pool_key);
    [|by destruct (is_some _); vm_compute|cbn [arriving ar_path]; rewrite Hp; by apply fits_pool_keys|by cbn [arriving ar_method]; rewrite Hm; vm_compute|done|exact Hc|exact Hg].
  cbn [sv_answer extracts negb]. cbn [arriving ar_method]. rewrite Hm. cbn [is_read].
  unfold write_handler. cbn [is_client_key_op]. cbn [fst]. unfold admin_op, path_arg, json_arg, mbind, option_bind.
  cbn [List.find fst snd]. rewrite str_eqb_refl. cbn [fmap option_fmap option_map snd]. rewrite Hd, Hb.
  rewrite post_body_reads by (done || (split; lia)). reflexivity.
Qed.

(** Once the rebuilder has had its tick, every model of the pool is served with it. *)
Lemma posted_key_served p i q text pool k : 
  (forall e caps body op, admin_op json_tree path_decode e caps body = Some op -> op_typed (managed_of yaml_startup) op) ->
  process_good new_openai new_anthropic new_gemini p -> Forall fair (in_attempts (ar_in i)) -> ConfigStore.quiet (st_world (pr_app p)) ->
  pool_known (w_db (st_world (pr_app p))) pool = true -> RebuilderTask ∈ pr_tasks p -> posts_key p i text pool k -> key_fits k ->
  let st := pr_app (process_step (process_step p (Request i q (Some text))) RebuildTick) in
  (exists ks, cs_pools (w_store (st_world st)) !! pool = Some (mkPool ks) /\ stored_key (to_key_entry (create_key_of k)) ∈ ks)
  /\ serves new_openai new_anthropic new_gemini (st_router st) (w_store (st_world st)) (codes_of p).
Proof.
  intros Ht Hg Hf Hq Hp Hr Hpost Hk. destruct (posted_key_world p i q text pool k Hpost Hk) as [Hw Htasks].
  set (p1 := process_step p _) in *.
  destruct (add_pool_key_runs pool (create_key_of k) (qy_now_ms q) (st_world (pr_app p))) as (w' & v & Ea & Hd & Hgd & Hs);
    [done|apply Hg|apply Hk|apply Z.neq_sym, Z.lt_neq, Hk|done|]. rewrite Ea in Hw. cbn [fst] in Hw.
  destruct (act_good yaml_startup yaml_text server_section db_path rejection other path_decode (admin_op json_tree path_decode)
    new_openai new_anthropic new_gemini Ht (Request i q (Some text)) p Hf Hg) as [Hg1 Hsu]. change (Process.act _ _ _ _ _ _ _ _ _ _ _ _ p) with p1 in Hg1, Hsu.
  rewrite rebuilder_step by by rewrite Htasks. destruct (rebuild_step_good new_openai new_anthropic new_gemini p1 Hg1) as (Hg2 & Hw2 & Hreb). cbv zeta.
  rewrite Hw2, Hw. split.
  - apply snapshot_pools in Hs as ->. rewrite Hd. apply added_key_loaded; [apply Hg|done|]. cbn. destruct Hk as [_ [? ?] _]. lia.
  - unfold codes_of in Hreb |- *. rewrite Hsu, Hw in Hreb. apply rebuild_serves; [|done]. rewrite <- Hw. apply (pg_world _ _ _ _ Hg1).
Qed.
End PostedInProcess.
