(* ===== verification/ConfigFile.v ===== *)
(** * The configuration file

    Models how [serde_yaml::from_str::<Config>] makes a configuration of a document:
    the decoders that serde derives for the types of [src/src/config/mod.rs],
    [src/src/config/pricing.rs] and [src/src/auth/mod.rs], field by field with the
    defaults the attributes name, and the sections that the startup and the
    process take from it.  The parser of YAML is a parameter; what a node of the
    document can be read as is the class [Deserializer] of [Serde].

    The theorems show that a document is read by tables of the names, types and
    defaults of the fields that are written down on their own ([failover_table] and
    the others), that the result is within the ranges of its Rust types, that the
    order of the sections and sections that are not known do not matter, what stands in for a section that is missing, and that a process
    started from a document keeps its promises without further assumptions on the
    decoder. *)

From S2P Require Import Prelude Json Serde Types Alerts RateLimit Concurrency Cache CircuitBreaker Config Pricing Db ConfigStore Router Metrics Inspector Providers Catalog Credential Auth AdminApi ModelImport Export Boot Health Handler LogDb Csv Dashboard Gateway Server Cli CliRun CliGateway Endpoints Tasks Process Wire AdminBodies.

(** ** The sections *)

Record ServerConfig := mkServerConfig { host : string; port : Z; max_body_bytes : Z }.

(** [Config], the root of the document. *)
Record ConfigRoot := mkRoot {
  c_server : ServerConfig;
  c_client_keys : list ClientKeyEntry;
  c_db_path : string;
  c_failover : FailoverConfig;
  c_pools : gmap string PoolConfig;
  c_providers : list ProviderConfig;
  c_model_to_pool : gmap string ModelRouting;
  c_model_registry : list ModelRegistryConfig;
  c_model_metadata : ModelMetadataConfig;
  c_admin : AdminConfig;
  c_pricing : PricingConfig;
  c_rate_limit : RateLimitConfig;
  c_cache_max_entries : Z;
  c_alerts : AlertConfig;
  c_concurrency : ConcurrencyConfig;
  c_normalization : ResponseNormalization
}.

Definition default_max_body_bytes : Z := 1073741824.
Definition default_tenant : string := "default".
Definition default_bad_status_codes : list Z := [401; 402; 403; 429].
Definition default_registry_tokens : Z := 4096.
Definition default_allowed_ips : list string := ["127.0.0.1"; "::1"].
Definition default_rpm : Z := 60.
Definition default_cache_max : Z := 256.
Definition default_min_error_burst : Z := 3.
Definition default_min_latency_ms : Z := 30000.

(** [AdminConfig::default()] and [RateLimitConfig::default()], derived. *)
Definition admin_config_default : AdminConfig := mkAdmin false [].
Definition rate_limit_config_default : RateLimitConfig := mkRateConfig false 0.
Definition channel_def_default : ChannelDef := mkChannelDef false "".
Definition channels_default : ChannelsConfig := mkChannels channel_def_default channel_def_default channel_def_default.

Section Sections.
Context {D : Type} `{DE : Deserializer D}.

Definition de_server : D -> Result ServerConfig string :=
  struct_of (made mkServerConfig <*> required "host" de_string <*> required "port" de_u16
             <*> defaulted "max_body_bytes" default_max_body_bytes de_u64).

Definition de_client_key : D -> Result ClientKeyEntry string :=
  struct_of (made mkClientKey <*> required "key" de_string <*> defaulted "tenant_id" default_tenant de_string).
Definition de_auth : D -> Result (list ClientKeyEntry) string :=
  struct_of (required "client_keys" (seq_of de_client_key)).

Definition de_db : D -> Result string string := struct_of (required "path" de_string).

Definition de_failover : D -> Result FailoverConfig string :=
  struct_of (made mkFailover <*> defaulted "enabled" true de_bool
             <*> defaulted "bad_status_codes" default_bad_status_codes (seq_of de_u16)
             <*> defaulted "max_retries" 1 de_u32
             <*> defaulted "probe_interval_secs" 60 de_u64
             <*> defaulted "probe_timeout_secs" 10 de_u64
             <*> defaulted "max_probe_retries" 3 de_u32).

Definition de_kind (d : D) : Result ProviderKind string :=
  let? s := de_variant d in
  if str_eqb s "openai" || str_eqb s "open_ai" then Ok OpenAi
  else if str_eqb s "anthropic" then Ok Anthropic
  else if str_eqb s "gemini" then Ok Gemini
  else Err (unknown_variant d s ["openai"; "open_ai"; "anthropic"; "gemini"]).

(** [identity] is skipped. *)
Definition de_key : D -> Result KeyEntry string :=
  struct_of (made (fun key weight ty refresh expires issuer => mkKeyEntry key weight ty refresh expires issuer None)
             <*> defaulted "key" "" de_string
             <*> defaulted "weight" 0 de_u32
             <*> defaulted "type" ApiKey de_cred_type
             <*> optional_default "refresh" de_string
             <*> optional_default "expires" de_i64
             <*> optional_default "issuer" de_string).
Definition de_pool : D -> Result PoolConfig string := struct_of (made mkPool <*> required "keys" (seq_of de_key)).

Definition de_provider : D -> Result ProviderConfig string :=
  struct_of (made mkProviderConfig <*> required "id" de_string
             <*> required "pool_id" de_string
             <*> required "base_url" de_string
             <*> defaulted "kind" OpenAi de_kind
             <*> defaulted "metadata" Null de_value).

Definition de_registry : D -> Result ModelRegistryConfig string :=
  struct_of (made mkRegistryConfig <*> required "id" de_string
             <*> required "display_name" de_string
             <*> required "provider_kind" de_string
             <*> optional_default "provider_config_id" de_string
             <*> defaulted "supports_vision" false de_bool
             <*> defaulted "supports_tool_calling" false de_bool
             <*> defaulted "supports_json_mode" false de_bool
             <*> defaulted "max_context_tokens" default_registry_tokens de_i32
             <*> defaulted "max_output_tokens" default_registry_tokens de_i32
             <*> optional_default "input_price_per_1m" de_f64
             <*> optional_default "output_price_per_1m" de_f64
             <*> defaulted "capabilities_json" Null de_value
             <*> defaulted "enabled" true de_bool).

Definition de_metadata_pricing : D -> Result MetadataPricingPartial string :=
  struct_of (made mkPricingPartial <*> optional "input_usd_per_million_tokens" de_finite
             <*> optional "output_usd_per_million_tokens" de_finite
             <*> optional "cache_read_usd_per_million_tokens" de_finite
             <*> optional "cache_write_usd_per_million_tokens" de_finite).
Definition de_partial : D -> Result ModelMetadataPartial string :=
  struct_of (made mkMetaPartial <*> optional "name" de_string
             <*> optional "context_window" de_u32
             <*> optional "max_output_tokens" de_u32
             <*> optional "input_types" (seq_of de_string)
             <*> optional "reasoning" de_bool
             <*> optional "thinking_levels" (seq_of de_string)
             <*> optional "supports_tools" de_bool
             <*> optional "supports_vision" de_bool
             <*> defaulted "pricing" (mkPricingPartial None None None None) de_metadata_pricing).
Definition de_metadata : D -> Result ModelMetadataConfig string :=
  struct_of (made mkMetaConfig <*> defaulted "defaults" empty_partial de_partial
             <*> defaulted "pools" ∅ (map_of de_partial)
             <*> defaulted "models" ∅ (map_of de_partial)).

Definition de_admin : D -> Result AdminConfig string :=
  struct_of (made mkAdmin <*> defaulted "enabled" true de_bool
             <*> defaulted "allowed_ips" default_allowed_ips (seq_of de_string)).
Definition de_rate_limit : D -> Result RateLimitConfig string :=
  struct_of (made mkRateConfig <*> defaulted "enabled" true de_bool
             <*> defaulted "requests_per_minute" default_rpm de_u64).
Definition de_concurrency : D -> Result ConcurrencyConfig string :=
  struct_of (made mkConcConfig <*> defaulted "max_per_tenant" 50 de_u64 <*> defaulted "total_max" 500 de_u64).

Definition de_channel : D -> Result ChannelDef string :=
  struct_of (made mkChannelDef <*> defaulted "enabled" false de_bool <*> defaulted "url" "" de_string).
Definition de_channels : D -> Result ChannelsConfig string :=
  struct_of (made mkChannels <*> defaulted "webhook" channel_def_default de_channel
             <*> defaulted "slack" channel_def_default de_channel
             <*> defaulted "discord" channel_def_default de_channel).
Definition de_alerts : D -> Result AlertConfig string :=
  struct_of (made mkAlertConfig <*> defaulted "enabled" false de_bool
             <*> defaulted "webhook_url" "" de_string
             <*> defaulted "webhook_secret" "" de_string
             <*> defaulted "min_error_burst" default_min_error_burst de_u32
             <*> defaulted "min_latency_ms" default_min_latency_ms de_u64
             <*> defaulted "channels" channels_default de_channels).

Definition de_normalization : D -> Result ResponseNormalization string :=
  struct_of (made mkNormalization <*> defaulted "strip_think_tags" false de_bool).
End Sections.

(** ** Untagged types

    [#[serde(untagged)]] reads the node into a buffer and tries the variants on it
    in turn. *)

Section Untagged.
Context {D C : Type} `{DD : Deserializer D} `{DC : Deserializer C} (buffered : D -> Result C string) (no_variant : string -> string).

Definition first_of {A} (name : string) (fs : list (C -> Result A string)) (d : D) : Result A string :=
  let? c := buffered d in
  match List.find (fun f => is_ok (f c)) fs with Some f => f c | None => Err (no_variant name) end.

Definition de_routing : D -> Result ModelRouting string :=
  first_of "ModelRouting"
    [(fun c => let? s := de_string c in Ok (Simple s));
     struct_of (made WithParams <*> required "pool" de_string
                <*> defaulted "default_params" Null de_value
                <*> optional_default "upstream_model" de_string)].

Definition de_price_entry : C -> Result PriceEntry string :=
  struct_of (made mkPrice <*> defaulted "prompt" 0%Q de_finite <*> defaulted "completion" 0%Q de_finite).
(** [RawModelPricing] and its [into]. *)
Definition de_model_pricing : C -> Result ModelPricing string :=
  struct_of (made mkModelPricing <*> defaulted "default" zero_price de_price_entry
             <*> defaulted "tenants" ∅ (map_of de_price_entry)).
Definition de_pricing (d : D) : Result PricingConfig string :=
  let? raw := first_of "RawPricing"
    [struct_of (made V2 <*> required "models" (map_of de_model_pricing));
     (fun c => let? m := map_of de_price_entry c in Ok (V1 m))] d in
  Ok (pricing_of_raw raw).

(** ** The document *)

Definition root_fields : Fields D ConfigRoot :=
  made mkRoot <*> required "server" de_server
  <*> required "auth" de_auth
  <*> required "db" de_db
  <*> required "failover" de_failover
  <*> required "pools" (map_of de_pool)
  <*> required "providers" (seq_of de_provider)
  <*> required "model_to_pool" (map_of de_routing)
  <*> defaulted "model_registry" [] (seq_of de_registry)
  <*> defaulted "model_metadata" (mkMetaConfig empty_partial ∅ ∅) de_metadata
  <*> defaulted "admin" admin_config_default de_admin
  <*> defaulted "pricing" (mkPricing ∅) de_pricing
  <*> defaulted "rate_limit" rate_limit_config_default de_rate_limit
  <*> defaulted "cache_max_entries" default_cache_max de_u64
  <*> defaulted "alerts" alert_config_default de_alerts
  <*> defaulted "concurrency" concurrency_config_default de_concurrency
  <*> defaulted "response_normalization" (mkNormalization false) de_normalization.
Definition de_config : D -> Result ConfigRoot string := struct_of root_fields.

(** What the startup reads of it, and what the process keeps of it. *)
Definition startup_of (c : ConfigRoot) : StartupConfig :=
  mkStartup (mkConfig (c_pools c) (c_providers c) (c_model_to_pool c) (c_model_registry c)) (c_pricing c) (c_model_metadata c)
    (c_failover c) (c_alerts c) (c_cache_max_entries c) (c_normalization c).
Definition static_of (c : ConfigRoot) : StaticSections :=
  mkStatic (c_client_keys c) (c_rate_limit c) (c_concurrency c) (c_admin c) (max_body_bytes (c_server c)).

(** The parser of the text. *)
Context (yaml_node : string -> Result D string).

(** [serde_yaml::from_str::<Config>] *)
Definition from_yaml (text : string) : Result ConfigRoot string := let? d := yaml_node text in de_config d.
Definition yaml_startup (text : string) : Result StartupConfig string := let? c := from_yaml text in Ok (startup_of c).
Definition yaml_static (text : string) : StaticSections :=
  match from_yaml text with
  | Ok c => static_of c
  | Err _ => mkStatic [] rate_limit_config_default concurrency_config_default admin_config_default default_max_body_bytes
  end.
End Untagged.

(* ------------------------------------------------------------------ *)
(** ** The documented fields

    The names, types and defaults of the fields, written down once more on their own:
    a table per type, and what it is for a decoder to read exactly that table. *)

Section Tables.
Context {D : Type} `{DE : Deserializer D}.

(** What a field is: its entry read at its type, or the value for when it is absent;
    without one it has to be there. *)
Definition given {A} (es : list (string * D)) (k : string) (f : D -> Result A string) (absent : option A) (a : A) : Prop :=
  match entry k es with Some v => f v = Ok a | None => absent = Some a end.

(** A row: the name, whether the attribute [default] is on it, and its value. *)
Record Row (A : Type) := mkRow { row_name : string; row_default : bool; row_ok : list (string * D) -> A -> Prop }.
Arguments mkRow {A}.
Arguments row_name {A}.
Arguments row_default {A}.
Arguments row_ok {A}.
Definition must {A B} (k : string) (f : D -> Result B string) (proj : A -> B) : Row A := mkRow k false (fun es a => given es k f None (proj a)).
Definition may {A B} (k : string) (f : D -> Result B string) (proj : A -> option B) : Row A :=
  mkRow k false (fun es a => given es k (nullable f) (Some None) (proj a)).
Definition otherwise {A B} (k : string) (f : D -> Result B string) (proj : A -> B) (b : B) : Row A :=
  mkRow k true (fun es a => given es k f (Some b) (proj a)).
Definition perhaps {A B} (k : string) (f : D -> Result B string) (proj : A -> option B) : Row A := otherwise k (nullable f) proj None.

Definition row_names {A} (t : list (Row A)) : list (string * bool) := (fun r => (row_name r, row_default r)) <$> t.
(** The names of the entries that have a row. *)
Definition named {A} (t : list (Row A)) (es : list (string * D)) : list string :=
  (List.filter (fun kv => existsb (str_eqb kv.1) (row_names t).*1) es).*1.
(** Nodes with entries under the names of the table, none twice, every one of its type. *)
Definition reads_table {A} (dec : D -> Result A string) (t : list (Row A)) (also : A -> Prop) : Prop :=
  forall d a, dec d = Ok a <-> exists es, de_struct (row_names t) d = Ok es /\ NoDup (named t es) /\ Forall (fun r => row_ok r es a) t /\ also a.
Definition all {A} (a : A) : Prop := True.
(** The variant of an enum is its name. *)
Definition reads_names {A} (dec : D -> Result A string) (names : list (string * A)) : Prop :=
  forall d a, dec d = Ok a <-> exists s, de_variant d = Ok s /\ (s, a) ∈ names.

Definition server_table : list (Row ServerConfig) :=
  [must "host" de_string host; must "port" de_u16 port; otherwise "max_body_bytes" de_u64 max_body_bytes 1073741824].
Definition client_key_table : list (Row ClientKeyEntry) := [must "key" de_string cke_key; otherwise "tenant_id" de_string cke_tenant_id "default"].
Definition auth_table : list (Row (list ClientKeyEntry)) := [must "client_keys" (seq_of de_client_key) id].
Definition db_table : list (Row string) := [must "path" de_string id].
Definition failover_table : list (Row FailoverConfig) :=
  [otherwise "enabled" de_bool fo_enabled true; otherwise "bad_status_codes" (seq_of de_u16) bad_status_codes [401; 402; 403; 429];
   otherwise "max_retries" de_u32 max_retries 1; otherwise "probe_interval_secs" de_u64 probe_interval_secs 60;
   otherwise "probe_timeout_secs" de_u64 probe_timeout_secs 10; otherwise "max_probe_retries" de_u32 max_probe_retries 3].
Definition key_table : list (Row KeyEntry) :=
  [otherwise "key" de_string key ""; otherwise "weight" de_u32 weight 0; otherwise "type" de_cred_type cred_type ApiKey;
   perhaps "refresh" de_string refresh; perhaps "expires" de_i64 expires; perhaps "issuer" de_string issuer].
Definition pool_table : list (Row PoolConfig) := [must "keys" (seq_of de_key) keys].
Definition provider_table : list (Row ProviderConfig) :=
  [must "id" de_string prov_id; must "pool_id" de_string prov_pool_id; must "base_url" de_string base_url;
   otherwise "kind" de_kind prov_kind OpenAi; otherwise "metadata" de_value metadata Null].
Definition registry_table : list (Row ModelRegistryConfig) :=
  [must "id" de_string reg_id; must "display_name" de_string reg_display_name; must "provider_kind" de_string reg_provider_kind;
   perhaps "provider_config_id" de_string reg_provider_config_id; otherwise "supports_vision" de_bool reg_supports_vision false;
   otherwise "supports_tool_calling" de_bool reg_supports_tool_calling false; otherwise "supports_json_mode" de_bool reg_supports_json_mode false;
   otherwise "max_context_tokens" de_i32 reg_max_context_tokens 4096; otherwise "max_output_tokens" de_i32 reg_max_output_tokens 4096;
   perhaps "input_price_per_1m" de_f64 reg_input_price; perhaps "output_price_per_1m" de_f64 reg_output_price;
   otherwise "capabilities_json" de_value reg_capabilities Null; otherwise "enabled" de_bool reg_enabled true].
Definition metadata_pricing_table : list (Row MetadataPricingPartial) :=
  [may "input_usd_per_million_tokens" de_finite pp_input; may "output_usd_per_million_tokens" de_finite pp_output;
   may "cache_read_usd_per_million_tokens" de_finite pp_cache_read; may "cache_write_usd_per_million_tokens" de_finite pp_cache_write].
Definition partial_table : list (Row ModelMetadataPartial) :=
  [may "name" de_string mp_name; may "context_window" de_u32 mp_context_window; may "max_output_tokens" de_u32 mp_max_output_tokens;
   may "input_types" (seq_of de_string) mp_input_types; may "reasoning" de_bool mp_reasoning;
   may "thinking_levels" (seq_of de_string) mp_thinking_levels; may "supports_tools" de_bool mp_supports_tools;
   may "supports_vision" de_bool mp_supports_vision; otherwise "pricing" de_metadata_pricing mp_pricing (mkPricingPartial None None None None)].
Definition nothing_known : ModelMetadataPartial := mkMetaPartial None None None None None None None None (mkPricingPartial None None None None).
Definition metadata_table : list (Row ModelMetadataConfig) :=
  [otherwise "defaults" de_partial defaults nothing_known; otherwise "pools" (map_of de_partial) meta_pools ∅;
   otherwise "models" (map_of de_partial) meta_models ∅].
Definition admin_table : list (Row AdminConfig) :=
  [otherwise "enabled" de_bool admin_enabled true; otherwise "allowed_ips" (seq_of de_string) allowed_ips ["127.0.0.1"; "::1"]].
Definition rate_limit_table : list (Row RateLimitConfig) :=
  [otherwise "enabled" de_bool rl_enabled true; otherwise "requests_per_minute" de_u64 requests_per_minute 60].
Definition concurrency_table : list (Row ConcurrencyConfig) :=
  [otherwise "max_per_tenant" de_u64 cc_max_per_tenant 50; otherwise "total_max" de_u64 cc_total_max 500].
Definition channel_table : list (Row ChannelDef) := [otherwise "enabled" de_bool cd_enabled false; otherwise "url" de_string cd_url ""].
Definition silent : ChannelDef := mkChannelDef false "".
Definition channels_table : list (Row ChannelsConfig) :=
  [otherwise "webhook" de_channel ch_webhook silent; otherwise "slack" de_channel ch_slack silent; otherwise "discord" de_channel ch_discord silent].
Definition alerts_table : list (Row AlertConfig) :=
  [otherwise "enabled" de_bool al_enabled false; otherwise "webhook_url" de_string webhook_url "";
   otherwise "webhook_secret" de_string webhook_secret ""; otherwise "min_error_burst" de_u32 min_error_burst 3;
   otherwise "min_latency_ms" de_u64 min_latency_ms 30000; otherwise "channels" de_channels al_channels (mkChannels silent silent silent)].
Definition normalization_table : list (Row ResponseNormalization) := [otherwise "strip_think_tags" de_bool strip_think_tags false].

(** Every table of a type that is read field by field. *)
Definition sections_documented : Prop :=
  reads_table de_server server_table all /\ reads_table de_client_key client_key_table all /\ reads_table de_auth auth_table all
  /\ reads_table de_db db_table all /\ reads_table de_failover failover_table all
  /\ reads_table de_key key_table (fun k => identity k = None) /\ reads_table de_pool pool_table all /\ reads_table de_provider provider_table all
  /\ reads_table de_registry registry_table all /\ reads_table de_metadata_pricing metadata_pricing_table all
  /\ reads_table de_partial partial_table all /\ reads_table de_metadata metadata_table all /\ reads_table de_admin admin_table all
  /\ reads_table de_rate_limit rate_limit_table all /\ reads_table de_concurrency concurrency_table all
  /\ reads_table de_channel channel_table all /\ reads_table de_channels channels_table all /\ reads_table de_alerts alerts_table all
  /\ reads_table de_normalization normalization_table all
  /\ reads_names de_kind [("openai", OpenAi); ("open_ai", OpenAi); ("anthropic", Anthropic); ("gemini", Gemini)]
  /\ reads_names de_cred_type [("api_key", ApiKey); ("oauth", Oauth)].

(** *** What is given is what is built *)

Lemma required_given {A} k (f : D -> Result A string) d es a : fl_build (required k f) d es = Ok a <-> given es k f None a.
Proof. unfold given. cbn. by destruct (entry k es). Qed.
Lemma absent_given {A} b k a0 (f : D -> Result A string) d es a : fl_build (absent_is b k a0 f) d es = Ok a <-> given es k f (Some a0) a.
Proof. unfold given. cbn. destruct (entry k es); [done|]. split; by intros [= ->]. Qed.
Lemma build_with {A B} (pf : Fields D (A -> B)) pa d es b : fl_build (pf <*> pa) d es = Ok b ->
  exists f a, fl_build pf d es = Ok f /\ fl_build pa d es = Ok a /\ b = f a.
Proof. cbn. destruct (fl_build pf d es) as [f|]; [|done]. destruct (fl_build pa d es) as [a|]; [|done]. intros [= <-]. eauto. Qed.
Lemma builds_with {A B} (pf : Fields D (A -> B)) pa d es f a b : fl_build pf d es = Ok f -> fl_build pa d es = Ok a -> b = f a ->
  fl_build (pf <*> pa) d es = Ok b.
Proof. intros Hf Ha ->. cbn. by rewrite Hf, Ha. Qed.
Lemma named_known (known : list (Known D)) k : is_known known k = existsb (str_eqb k) (field_names known).*1.
Proof.
  unfold is_known, find_known, field_names. induction known as [|kn l IH]; [done|]. cbn. destruct (str_eqb k (kn_name kn)); [done|exact IH].
Qed.

Lemma table_read {A} (p : Fields D A) (t : list (Row A)) (also : A -> Prop) : field_names (fl_known p) = row_names t -> covers p ->
  (forall d es a, fl_build p d es = Ok a <-> Forall (fun r => row_ok r es a) t /\ also a) -> reads_table (struct_of p) t also.
Proof.
  intros Hn Hc Hb d a. unfold struct_of. rewrite Hn.
  assert (forall es, named t es = (known_entries (fl_known p) es).*1) as Hk.
  { intros es. unfold named, known_entries. rewrite <- Hn. f_equal. apply filter_ext. intros kv. by rewrite named_known. }
  split.
  - destruct (de_struct _ d) as [es|]; [|done]. destruct (visit d _ _ es) as [[]|] eqn:Ev; [|done]. intros H%Hb.
    apply visit_spec in Ev as [Hd _]. exists es. by rewrite Hk.
  - intros (es & -> & Hd & Hr). rewrite Hk in Hd. apply (Hb d) in Hr. by rewrite (visit_covered p d es a).
Qed.
End Tables.
Arguments mkRow {D A}.
Arguments row_name {D A}.
Arguments row_default {D A}.
Arguments row_ok {D A}.

(** Both directions of a table, row by row. *)
Ltac show_row := cbv beta iota delta [row_ok must may perhaps otherwise].
Ltac built := show_row; match goal with
  | H : fl_build (required ?k _) _ _ = Ok _ |- given _ ?k _ _ _ => exact (proj1 (required_given _ _ _ _ _) H)
  | H : fl_build _ _ _ = Ok _ |- given _ ?k _ _ _ => exact (proj1 (absent_given _ k _ _ _ _ _) H)
  end.
Ltac builds := first [ eapply required_given; eassumption | eapply absent_given; eassumption ].
Ltac read_table :=
  apply table_read;
  [ reflexivity
  | repeat (apply covers_with; [|first [apply covers_required | apply covers_absent]]);
    first [apply covers_made | apply covers_required | apply covers_absent]
  | let H := fresh in intros d es a; split;
    [ intros H; repeat (apply build_with in H as (? & ? & H & ? & ->)); try (injection H as <-); split; [repeat (apply Forall_cons; split); try apply Forall_nil_2; built|done]
    | intros [H Ha]; repeat (apply Forall_cons in H as [? H]); cbv beta iota delta [row_ok must may perhaps otherwise] in *;
      first [builds | repeat (eapply builds_with; [|builds|]); [reflexivity|..];
             first [reflexivity | destruct a; cbn in *; subst; reflexivity] ] ] ].

(* ------------------------------------------------------------------ *)
(** ** Machine ranges *)

Definition server_typed (s : ServerConfig) : Prop := 0 <= port s < 2 ^ 16 /\ 0 <= max_body_bytes s < 2 ^ 64.
Definition failover_typed (f : FailoverConfig) : Prop :=
  Forall (fun z => 0 <= z < 2 ^ 16) (bad_status_codes f) /\ 0 <= max_retries f < 2 ^ 32 /\ 0 <= probe_interval_secs f < 2 ^ 64
  /\ 0 <= probe_timeout_secs f < 2 ^ 64 /\ 0 <= max_probe_retries f < 2 ^ 32.
Definition registry_typed (e : ModelRegistryConfig) : Prop := i32 (reg_max_context_tokens e) /\ i32 (reg_max_output_tokens e).
Definition partial_typed (p : ModelMetadataPartial) : Prop :=
  (forall z, mp_context_window p = Some z -> 0 <= z < 2 ^ 32) /\ (forall z, mp_max_output_tokens p = Some z -> 0 <= z < 2 ^ 32).
Definition metadata_typed (m : ModelMetadataConfig) : Prop :=
  partial_typed (defaults m) /\ map_Forall (fun _ p => partial_typed p) (meta_pools m) /\ map_Forall (fun _ p => partial_typed p) (meta_models m).
Definition alerts_typed (a : AlertConfig) : Prop := 0 <= min_error_burst a < 2 ^ 32 /\ 0 <= min_latency_ms a < 2 ^ 64.
Definition concurrency_typed (c : ConcurrencyConfig) : Prop := 0 <= cc_max_per_tenant c < 2 ^ 64 /\ 0 <= cc_total_max c < 2 ^ 64.

Record root_typed (c : ConfigRoot) : Prop := {
  rt_server : server_typed (c_server c);
  rt_failover : failover_typed (c_failover c);
  rt_keys : map_Forall (fun _ p => Forall key_typed (keys p)) (c_pools c);
  rt_registry : Forall registry_typed (c_model_registry c);
  rt_metadata : metadata_typed (c_model_metadata c);
  rt_rate : 0 <= requests_per_minute (c_rate_limit c) < 2 ^ 64;
  rt_cache : 0 <= c_cache_max_entries c < 2 ^ 64;
  rt_alerts : alerts_typed (c_alerts c);
  rt_conc : concurrency_typed (c_concurrency c)
}.

Section SectionsTyped.
Context {D : Type} `{DD : Deserializer D}.

Lemma server_yields : yields de_server server_typed.
Proof. fill_struct. Qed.
Lemma failover_yields : yields de_failover failover_typed.
Proof. fill_struct. Qed.
Lemma key_yields : yields de_key key_typed.
Proof. fill_struct. Qed.
Lemma pool_yields : yields de_pool (fun p => Forall key_typed (keys p)).
Proof. pose proof key_yields. fill_struct. Qed.
Lemma registry_yields : yields de_registry registry_typed.
Proof. fill_struct. Qed.
Lemma partial_yields : yields de_partial partial_typed.
Proof. fill_struct. Qed.
Lemma metadata_yields : yields de_metadata metadata_typed.
Proof. pose proof partial_yields. fill_struct. Qed.
Lemma rate_yields : yields de_rate_limit (fun r => 0 <= requests_per_minute r < 2 ^ 64).
Proof. fill_struct. Qed.
Lemma concurrency_yields : yields de_concurrency concurrency_typed.
Proof. fill_struct. Qed.
Lemma alerts_yields : yields de_alerts alerts_typed.
Proof. fill_struct. Qed.
End SectionsTyped.

#[export] Hint Resolve server_yields failover_yields pool_yields registry_yields metadata_yields rate_yields concurrency_yields alerts_yields : decode.

Section Typed.
Context {D C : Type} `{DD : Deserializer D} `{DC : Deserializer C} (buffered : D -> Result C string) (no_variant : string -> string).
Context (yaml_node : string -> Result D string).

Lemma root_yields : yields (de_config buffered no_variant) root_typed.
Proof. fill_struct. Qed.

Lemma decoded_root text c : from_yaml buffered no_variant yaml_node text = Ok c -> root_typed c.
Proof. unfold from_yaml. destruct (yaml_node text) as [d|]; [|done]. apply root_yields. Qed.
End Typed.

(** *** The whole document *)

Section Documented.
Context {D C : Type} `{DD : Deserializer D} `{DC : Deserializer C} (buffered : D -> Result C string) (no_variant : string -> string).
Context (yaml_node : string -> Result D string).
Abbreviation de_routing := (de_routing buffered no_variant).
Abbreviation de_pricing := (de_pricing buffered no_variant).

Definition root_table : list (Row (D := D) ConfigRoot) :=
  [must "server" de_server c_server; must "auth" de_auth c_client_keys; must "db" de_db c_db_path; must "failover" de_failover c_failover;
   must "pools" (map_of de_pool) c_pools; must "providers" (seq_of de_provider) c_providers;
   must "model_to_pool" (map_of de_routing) c_model_to_pool; otherwise "model_registry" (seq_of de_registry) c_model_registry [];
   otherwise "model_metadata" de_metadata c_model_metadata (mkMetaConfig nothing_known ∅ ∅); otherwise "admin" de_admin c_admin (mkAdmin false []);
   otherwise "pricing" de_pricing c_pricing (mkPricing ∅); otherwise "rate_limit" de_rate_limit c_rate_limit (mkRateConfig false 0);
   otherwise "cache_max_entries" de_u64 c_cache_max_entries 256;
   otherwise "alerts" de_alerts c_alerts (mkAlertConfig false "" "" 0 0 (mkChannels silent silent silent));
   otherwise "concurrency" de_concurrency c_concurrency (mkConcConfig 50 500);
   otherwise "response_normalization" de_normalization c_normalization (mkNormalization false)].

(** The forms of a route and of the prices. *)
Definition routing_table : list (Row (D := C) ModelRouting) :=
  [mkRow "pool" false (fun es r => match r with WithParams pool _ _ => given es "pool" de_string None pool | Simple _ => False end);
   mkRow "default_params" true (fun es r => match r with WithParams _ v _ => given es "default_params" de_value (Some Null) v | Simple _ => False end);
   mkRow "upstream_model" true (fun es r => match r with WithParams _ _ m => given es "upstream_model" (nullable de_string) (Some None) m | Simple _ => False end)].
Definition price_table : list (Row (D := C) PriceEntry) :=
  [otherwise "prompt" de_finite price_prompt 0%Q; otherwise "completion" de_finite price_completion 0%Q].
Definition model_price_table : list (Row (D := C) ModelPricing) :=
  [otherwise "default" de_price_entry mp_default (mkPrice 0 0); otherwise "tenants" (map_of de_price_entry) mp_tenants ∅].
Definition models_table : list (Row (D := C) PricingConfig) := [must "models" (map_of de_model_pricing) priced_models].

Lemma root_read : reads_table (de_config buffered no_variant) root_table all.
Proof. unfold de_config. read_table. Qed.
Lemma price_read : reads_table (de_price_entry (C := C)) price_table all.
Proof. read_table. Qed.
Lemma model_price_read : reads_table (de_model_pricing (C := C)) model_price_table all.
Proof. read_table. Qed.

Definition as_params : C -> Result ModelRouting string :=
  struct_of (made WithParams <*> required "pool" de_string <*> defaulted "default_params" Null de_value <*> optional_default "upstream_model" de_string).
Lemma params_read : reads_table as_params routing_table all.
Proof.
  apply table_read; [reflexivity|repeat (apply covers_with; [|first [apply covers_required | apply covers_absent]]); apply covers_made|].
  intros d es a. split.
  - intros H. repeat (apply build_with in H as (? & ? & H & ? & ->)). injection H as <-. split; [|done]. repeat constructor; built.
  - intros [H _]. repeat (apply Forall_cons in H as [? H]). destruct a as [|pool v m]; [done|]. cbv beta iota delta [row_ok] in *.
    repeat (eapply builds_with; [|builds|]); [reflexivity|..]; reflexivity.
Qed.
Lemma first_of_two {A} name (f g : C -> Result A string) d a : first_of buffered no_variant name [f; g] d = Ok a <->
  exists c, buffered d = Ok c /\ (f c = Ok a \/ (forall b, f c ≠ Ok b) /\ g c = Ok a).
Proof.
  unfold first_of. destruct (buffered d) as [c|e]; [|split; [done|by intros (c & ? & _)]]. cbn. split.
  - intros H. exists c. split; [done|]. destruct (f c) as [b|] eqn:Ef; cbn in H; [left; congruence|]. destruct (g c) eqn:Eg; cbn in H; [|done].
    right. split; [done|congruence].
  - intros (c' & [= <-] & [H|[Hn H]]); [by rewrite H|]. destruct (f c) as [b|]; [by destruct (Hn b)|]. cbn. by rewrite H.
Qed.
Lemma routing_read d r : de_routing d = Ok r <-> exists c, buffered d = Ok c
  /\ ((exists pool, de_string c = Ok pool /\ r = Simple pool) \/ (forall s, de_string c ≠ Ok s) /\ as_params c = Ok r).
Proof.
  unfold ConfigFile.de_routing. rewrite first_of_two. do 2 f_equiv. intros c. f_equiv. fold as_params.
  destruct (de_string c) as [s|e]; cbn; [|naive_solver congruence]. split.
  - intros [[= <-]|[H _]]; [left; eauto|by destruct (H (Simple s))].
  - intros [(pool & [= <-] & ->)|[H _]]; [by left|by destruct (H s)].
Qed.

(** The prices by model, with or without prices for tenants; otherwise a flat table. *)
Definition as_models (c : C) : Result RawPricing string := struct_of (made V2 <*> required "models" (map_of de_model_pricing)) c.
Definition models_of (c : C) : Result PricingConfig string :=
  match as_models c with Ok r => Ok (pricing_of_raw r) | Err e => Err e end.
Lemma pricing_read d p : de_pricing d = Ok p <-> exists c, buffered d = Ok c
  /\ (models_of c = Ok p \/ (forall q, models_of c ≠ Ok q) /\ exists flat, map_of de_price_entry c = Ok flat
      /\ p = mkPricing ((fun e => mkModelPricing e ∅) <$> flat)).
Proof.
  pose proof (fun raw => first_of_two "RawPricing" as_models (fun c => let? m := map_of de_price_entry c in Ok (V1 m)) d raw) as Hf.
  change (de_pricing d) with (let? raw := first_of buffered no_variant "RawPricing" [as_models; fun c => let? m := map_of de_price_entry c in Ok (V1 m)] d
    in Ok (pricing_of_raw raw)).
  revert Hf. generalize (first_of buffered no_variant "RawPricing" [as_models; fun c => let? m := map_of de_price_entry c in Ok (V1 m)] d) as fs.
  intros fs Hf. unfold models_of. split.
  - destruct fs as [raw|e] eqn:E; [|done]. intros [= <-]. destruct (proj1 (Hf raw) eq_refl) as (c & Hc & Hr). exists c. split; [done|].
    destruct Hr as [->|[Hn Hr]]; [by left|]. right. destruct (as_models c) as [r0|]; [by destruct (Hn r0)|]. split; [done|].
    destruct (map_of _ c) as [m|]; [|done]. injection Hr as <-. eauto.
  - intros (c & Hc & Hr). destruct Hr as [Hr|[Hn (flat & Hr & ->)]].
    + destruct (as_models c) as [raw|] eqn:Er; [|done]. injection Hr as <-. rewrite (proj2 (Hf raw)); eauto.
    + rewrite (proj2 (Hf (V1 flat))); [done|]. exists c. split; [done|]. right. rewrite Hr. split; [|done].
      intros raw Hraw. destruct (Hn (pricing_of_raw raw)). by rewrite Hraw.
Qed.
Lemma models_read : reads_table models_of models_table all.
Proof.
  assert (reads_table as_models [mkRow "models" false (fun es r => match r with V2 m => given es "models" (map_of de_model_pricing) None m | V1 _ => False end)] all) as H.
  { apply table_read; [reflexivity|apply covers_with; [apply covers_made|apply covers_required]|]. intros d es a. split.
    - intros H. apply build_with in H as (f & m & H & Hm & ->). injection H as <-. split; [|done]. repeat constructor. by apply required_given in Hm.
    - intros [Hr _]. apply Forall_cons in Hr as [Hr _]. destruct a as [m|]; [|done]. eapply builds_with; [reflexivity|by apply required_given|done]. }
  intros c p. unfold models_of. split.
  - destruct (as_models c) as [raw|] eqn:E; [|done]. intros [= <-]. apply H in E as (es & Hd & Hn & Hr & _). exists es. split_and!; [done|done| |done].
    apply Forall_cons in Hr as [Hr _]. destruct raw; [|done]. by repeat constructor.
  - intros (es & Hd & Hn & Hr & _). apply Forall_cons in Hr as [Hr _]. destruct p as [m].
    rewrite (proj2 (H c (V2 m))); [done|]. exists es. split_and!; [done|done| |done]. by repeat constructor.
Qed.

Lemma kind_read : reads_names (D := D) de_kind [("openai", OpenAi); ("open_ai", OpenAi); ("anthropic", Anthropic); ("gemini", Gemini)].
Proof.
  intros d k. unfold de_kind. destruct (de_variant d) as [s|]; [|split; [done|by intros (? & ? & _)]]. split.
  - intros H. exists s. split; [done|]. destruct (str_eqb s "openai") eqn:E1; [apply str_eqb_spec in E1 as ->; cbn in H; set_solver|].
    destruct (str_eqb s "open_ai") eqn:E2; [apply str_eqb_spec in E2 as ->; cbn in H; set_solver|]. cbn in H.
    destruct (str_eqb s "anthropic") eqn:E3; [apply str_eqb_spec in E3 as ->; set_solver|].
    destruct (str_eqb s "gemini") eqn:E4; [apply str_eqb_spec in E4 as ->; set_solver|done].
  - intros (s' & [= <-] & H). repeat (apply elem_of_cons in H as [H|H]; [by simplify_eq|]). by apply not_elem_of_nil in H.
Qed.
Lemma cred_type_read : reads_names (D := D) de_cred_type [("api_key", ApiKey); ("oauth", Oauth)].
Proof.
  intros d k. unfold de_cred_type. destruct (de_variant d) as [s|]; [|split; [done|by intros (? & ? & _)]]. split.
  - intros H. exists s. split; [done|]. destruct (str_eqb s "api_key") eqn:E1; [apply str_eqb_spec in E1 as ->; set_solver|].
    destruct (str_eqb s "oauth") eqn:E2; [apply str_eqb_spec in E2 as ->; set_solver|done].
  - intros (s' & [= <-] & H). repeat (apply elem_of_cons in H as [H|H]; [by simplify_eq|]). by apply not_elem_of_nil in H.
Qed.
Lemma sections_read : sections_documented (D := D).
Proof. unfold sections_documented. split_and!; first [exact kind_read | exact cred_type_read | read_table]. Qed.

End Documented.

(* ------------------------------------------------------------------ *)
(** ** The sections of a document *)

Section Document.
Context {D C : Type} `{DD : Deserializer D} `{DCo : Deserializer C} (buffered : D -> Result C string) (no_variant : string -> string).
Context (yaml_node : string -> Result D string).
Abbreviation root_fields := (root_fields buffered no_variant).
Abbreviation de_config := (de_config buffered no_variant).

Lemma root_local : local root_fields.
Proof. unfold ConfigFile.root_fields. repeat (apply local_with; [|first [apply local_required | apply local_absent]]). apply local_made. Qed.

(** The entries of the sections that are known. *)
Definition sections (es : list (string * D)) : list (string * D) := known_entries (fl_known root_fields) es.
Definition section_names : list (string * bool) := field_names (fl_known root_fields).

(** The order of the sections of a document does not matter, nor do sections that
    are not known: two documents with the same known sections give the same
    configuration, or neither gives one. *)
Theorem sections_in_any_order d d' es es' c :
  de_struct section_names d = Ok es -> de_struct section_names d' = Ok es' -> sections es ≡ₚ sections es' ->
  de_config d = Ok c <-> de_config d' = Ok c.
Proof.
  intros Hd Hd' Hp. split; [apply (struct_order root_fields d d' es es')|apply (struct_order root_fields d' d es' es)]; try done; apply root_local.
Qed.

(** What a section is in the configuration that was read. *)
Definition section_is {A} (es : list (string * D)) (k : string) (a0 : A) (f : D -> Result A string) (a : A) : Prop :=
  match entry k es with Some v => f v = Ok a | None => a = a0 end.

Lemma build_defaulted {A} k a0 (f : D -> Result A string) d es a : fl_build (defaulted k a0 f) d es = Ok a -> section_is es k a0 f a.
Proof. unfold section_is. cbn. destruct (entry k es); [done|]. by intros [= <-]. Qed.

Lemma root_sections d es c : fl_build root_fields d es = Ok c ->
  section_is es "model_registry" [] (seq_of de_registry) (c_model_registry c)
  /\ section_is es "admin" admin_config_default de_admin (c_admin c)
  /\ section_is es "pricing" (mkPricing ∅) (de_pricing buffered no_variant) (c_pricing c)
  /\ section_is es "rate_limit" rate_limit_config_default de_rate_limit (c_rate_limit c)
  /\ section_is es "cache_max_entries" default_cache_max de_u64 (c_cache_max_entries c)
  /\ section_is es "alerts" alert_config_default de_alerts (c_alerts c)
  /\ section_is es "concurrency" concurrency_config_default de_concurrency (c_concurrency c)
  /\ section_is es "response_normalization" (mkNormalization false) de_normalization (c_normalization c).
Proof.
  intros H. unfold ConfigFile.root_fields in H.
  do 9 (apply build_with in H as (? & ? & H & ?%build_defaulted & ->)).
  do 7 (apply build_with in H as (? & ? & H & _ & ->)). injection H as <-. by split_and!.
Qed.
End Document.

(** ** A process started from a document *)

Section FromDocument.
Context `{SX : Sqlx} `{SJ : SerdeJson} `{DG : Digest} `{FX : FixedDisplay} `{FD : F64Display} `{FL : F64} `{DI16 : DecodeI16}
  `{WI : WeightedIndex} `{SR : SumReal} `{SD : StatusDisplay} `{MT : Matchit} `{BC : Broadcast}.
Context `{DP : !DashIter string ModelPricing} `{DE : !DashIter string PriceEntry}.
Context `{DR : !DashIter string ModelRouting} `{DO : !DashIter string PoolConfig}.
Context `{DK : !DashIter string ClientKeyRecord} `{DC : !DashIter string CacheEntry} `{DI : !DashIter string RouteEntry}.
Context `{DB : !DashIter string (list string)}.
Context {D C : Type} `{DD : Deserializer D} `{DCo : Deserializer C} (buffered : D -> Result C string) (no_variant : string -> string).
Context (yaml_node : string -> Result D string).
Context (new_openai new_anthropic new_gemini : string -> string -> list Z -> Provider).
Context (json_error : string -> string) (read_file : string -> Result string string).
Context (http_get : string -> Result (Z * Result string string) string).
Abbreviation from_yaml := (from_yaml buffered no_variant yaml_node).
Abbreviation yaml_startup := (yaml_startup buffered no_variant yaml_node).
Abbreviation yaml_static := (yaml_static buffered no_variant yaml_node).
Abbreviation boot_process := (boot_process yaml_startup new_openai new_anthropic new_gemini json_error read_file http_get yaml_static).

Lemma managed_of_document text c : from_yaml text = Ok c -> managed_of yaml_startup text = Ok (su_managed (startup_of c)).
Proof. intros H. unfold managed_of, ConfigFile.yaml_startup. by rewrite H. Qed.

Lemma document_file_typed file : file_typed yaml_startup file.
Proof.
  intros text m _. unfold managed_of, ConfigFile.yaml_startup. destruct (from_yaml text) as [c|] eqn:E; [|done]. intros [= <-].
  exact (rt_registry _ (decoded_root _ _ _ _ _ E)).
Qed.

(** What the document has to say for itself beyond being well formed: its JSON
    values survive printing, and no two providers share an id. *)
Record document_fine (c : ConfigRoot) : Prop := {
  df_valid : Config.validate (su_managed (startup_of c)) = Ok tt;
  df_params : map_Forall (fun _ r => forall v, default_params r = Some v -> json_faithful v) (c_model_to_pool c);
  df_metadata : Forall (fun p => json_faithful (if is_object (metadata p) then metadata p else obj [])) (c_providers c);
  df_providers : NoDup (prov_id <$> c_providers c)
}.

Lemma document_importable text c : from_yaml text = Ok c -> document_fine c -> importable (su_managed (startup_of c)).
Proof.
  intros H [_ Hp Hm Hn]. pose proof (decoded_root _ _ _ _ _ H) as Ht. split; cbn; try done; [|exact (rt_registry _ Ht)].
  intros id p Hid. eapply Forall_impl; [exact (rt_keys _ Ht id p Hid)|]. intros k Hk. apply Hk.
Qed.

(** Claim C32: a valid document starts the gateway: on a good database and a consistent
    snapshot in memory, when no statement fails, the process comes up with the document's
    client keys, limits, allowed addresses and policy, its router serves the
    configuration in memory, and when the tables were seeded the routes are the
    document's.  The file has the same text at both of its reads; beyond being valid the
    document has providers with distinct ids, and default parameters and metadata
    that survive printing as JSON; and the limits of the models of the catalog that may be
    imported fit 32 bits.  (Validation does not ask for the first and nothing checks the
    last, so that there are valid documents that do not start.) *)
Theorem document_starts_gateway text c sync now w log :
  from_yaml text = Ok c -> document_fine c -> catalog_fits json_error http_get -> ConfigStore.quiet w -> db_good (w_db w) -> snap_good (w_store w) ->
  exists p, boot_process (Ok text) (Ok text) sync now w log = Ok p
  /\ let st := pr_app p in let s := w_store (st_world st) in
     serves new_openai new_anthropic new_gemini (st_router st) s (bad_status_codes (c_failover c))
     /\ cs_runtime s = mkPolicy (c_failover c) (c_alerts c) (c_cache_max_entries c) (c_normalization c)
     /\ gw_auth (st_gateway st) = mkAuthState (c_client_keys c) (Some (store_new now (c_client_keys c)))
     /\ gw_limiter (st_gateway st) = (if rl_enabled (c_rate_limit c) then Some (limiter_new (requests_per_minute (c_rate_limit c))) else None)
     /\ ips_of p = allowed_ips (c_admin c)
     /\ (seeds sync (w_db w) = true -> forall m, route_view <$> cs_routing s !! m = route_view <$> c_model_to_pool c !! m).
Proof.
  intros H Hf Hc Hq Hd Hs. pose proof (document_importable _ _ H Hf) as Hi.
  assert (load_config yaml_startup (Ok text) = Ok (startup_of c)) as Hl.
  { unfold load_config, ConfigFile.yaml_startup. rewrite H. cbn iota. by rewrite (df_valid _ Hf). }
  destruct (bootstrap_runs yaml_startup json_error read_file http_get new_openai new_anthropic new_gemini text _ sync now w Hl Hi Hc Hq Hd Hs)
    as (w' & g & E & Hw & Hsv & Hp & Hr).
  unfold Process.boot_process. rewrite Hl, E. cbn iota beta. cbn [snd]. eexists. split; [reflexivity|].
  unfold assemble. rewrite Hw. unfold ConfigFile.yaml_static. rewrite H. by split_and!.
Qed.

(** Hot reload and posted keys, for a process started from a document: nothing has to
    be assumed of the decoders, of documents or of bodies. *)
Section Reloads.
Context `{ML : !MatchitLaws} `{JE : JsonErrors}.
Context (yaml_text : ExportDocument -> string) (server_section : ExportServer) (db_path : string).
Context (rejection : HttpResponse) (other : Endpoint -> HttpResponse) (path_decode : string -> option string) (json_tree : string -> option Value).
Abbreviation process_step := (process_step yaml_startup yaml_text server_section db_path rejection other path_decode (admin_op json_tree path_decode) new_openai new_anthropic new_gemini).
Abbreviation process_run := (process_run yaml_startup yaml_text server_section db_path rejection other path_decode (admin_op json_tree path_decode) new_openai new_anthropic new_gemini).

Lemma document_ops_typed e caps body op : admin_op json_tree path_decode e caps body = Some op -> op_typed (managed_of yaml_startup) op.
Proof.
  intros H. apply (admin_op_typed _ _ _ _ _ _ _ H). intros text m. unfold managed_of, ConfigFile.yaml_startup.
  destruct (from_yaml text) as [c|] eqn:E; [|done]. intros [= <-]. exact (rt_registry _ (decoded_root _ _ _ _ _ E)).
Qed.

(** Claim C4: hot reload in the running process.  After a startup from any document on a
    good database and any history of requests to any path with any bodies, ends of
    streams, turns of the tasks and a shutdown under way, with whatever database
    failures, token refreshes and interferences they meet, as long as the rebuilder
    is running its next tick leaves a router that serves exactly the configuration
    in memory, and that configuration is consistent. *)
Theorem gateway_hot_reload file file2 sync now w log p steps :
  db_good (w_db w) -> snap_good (w_store w) -> catalog_fits json_error http_get ->
  Process.boot_process yaml_startup new_openai new_anthropic new_gemini json_error read_file http_get yaml_static file file2 sync now w log = Ok p ->
  Forall step_ok steps -> RebuilderTask ∈ pr_tasks (process_run p steps) ->
  let st := pr_app (process_step (process_run p steps) RebuildTick) in
  snap_good (w_store (st_world st)) /\ serves new_openai new_anthropic new_gemini (st_router st) (w_store (st_world st)) (codes_of p).
Proof. intros Hd Hs Hc Hb Hst Hr. eapply process_reload; try done; [apply document_ops_typed|apply document_file_typed]. Qed.

(** Claim C6: a key that the command line posts is used.  In a process started from a
    document and after any history, when the database answers, the request of
    [login] that posts a valid key to a pool that is known is routed, decoded and
    stored; at the next tick of the rebuilder every model that the configuration
    routes to the pool, if a provider has it, resolves to a pool with the key. *)
Theorem posted_key_serves file file2 sync now w log p0 steps i q text pool k :
  db_good (w_db w) -> snap_good (w_store w) -> catalog_fits json_error http_get ->
  Process.boot_process yaml_startup new_openai new_anthropic new_gemini json_error read_file http_get yaml_static file file2 sync now w log = Ok p0 ->
  Forall step_ok steps ->
  let p := process_run p0 steps in
  RebuilderTask ∈ pr_tasks p -> ConfigStore.quiet (st_world (pr_app p)) -> pool_known (w_db (st_world (pr_app p))) pool = true ->
  step_ok (Request i q (Some text)) -> posts_key path_decode json_tree p i text pool k -> key_fits k ->
  let st := pr_app (process_step (process_step p (Request i q (Some text))) RebuildTick) in
  forall model route, cs_routing (w_store (st_world st)) !! model = Some route -> pool_id route = pool ->
  match find_last (for_pool pool) (cs_providers (w_store (st_world st))) with
  | Some cfg => exists ks, stored_key (to_key_entry (create_key_of k)) ∈ ks
      /\ resolve (st_router st) model = Ok (new_provider new_openai new_anthropic new_gemini cfg (codes_of p0),
                                          mkRouteEntry pool (mkPool ks) (default_params route) (upstream_model route))
  | None => True
  end.
Proof.
  intros Hd Hs Hc Hb Hst p Hr Hq Hp Hf Hpost Hk st model route Hm <-.
  pose proof (boot_process_good yaml_startup new_openai new_anthropic new_gemini json_error read_file http_get yaml_static
    _ _ _ _ _ _ _ Hd Hs (document_file_typed file2) Hc Hb) as Hg.
  destruct (process_run_good yaml_startup yaml_text server_section db_path rejection other path_decode (admin_op json_tree path_decode)
    new_openai new_anthropic new_gemini document_ops_typed steps p0 Hst Hg) as [Hg' Hsu].
  destruct (posted_key_served yaml_startup yaml_text server_section db_path rejection other path_decode json_tree new_openai new_anthropic new_gemini
    p i q text _ k document_ops_typed Hg' Hf Hq Hp Hr Hpost Hk) as [(ks & Hks & Hin) Hsv].
  specialize (Hsv model). fold st in Hks, Hsv. rewrite Hm in Hsv. destruct Hsv as (pl & Hpl & Hsv). rewrite Hks in Hpl. injection Hpl as <-.
  destruct (find_last _ _); [|done]. exists ks. split; [done|]. unfold codes_of in Hsv |- *. unfold p in Hsv. by rewrite Hsu in Hsv.
Qed.
End Reloads.

(** The address a request states. *)
Definition stated_address (h : header_map) : option string :=
  or_else (header_get h "x-real-ip") (header_get h "x-forwarded-for") ≫= header_to_str.

Lemma booted_with text file2 sync now w log p : boot_process (Ok text) file2 sync now w log = Ok p ->
  exists c g, from_yaml text = Ok c /\ p = assemble (startup_of c) (static_of c) now log g.
Proof.
  unfold Process.boot_process, load_config, ConfigFile.yaml_startup, ConfigFile.yaml_static.
  destruct (from_yaml text) as [c|]; [|done]. destruct (Config.validate _); [|done].
  destruct ((bootstrap _ _ _ _ _ _ _ _ _ _ _ _).2) as [g|]; [|done]. intros [= <-]. by exists c, g.
Qed.

(** Claim C34: what a gateway does without the optional sections.  It limits no rate; of the
    requests for the admin routes that state an address it lets none pass, the
    loopback addresses included; it raises no alerts; it admits 50 requests per
    tenant and 500 in all; and it leaves the answers as they are.*)
Theorem unlisted_sections text d es file2 sync now w log p :
  yaml_node text = Ok d -> de_struct (section_names buffered no_variant) d = Ok es ->
  boot_process (Ok text) file2 sync now w log = Ok p ->
  (entry "rate_limit" es = None -> gw_limiter (st_gateway (pr_app p)) = None)
  /\ (entry "admin" es = None -> forall h, ip_guard (ips_of p) h = true <-> stated_address h = None)
  /\ (entry "alerts" es = None -> AlertingTask ∉ pr_tasks p)
  /\ (entry "concurrency" es = None -> sh_conc (gw_shared (st_gateway (pr_app p))) = conc_new 50 500)
  /\ (entry "response_normalization" es = None -> strip_think_tags (su_normalization (pr_startup p)) = false).
Proof.
  intros Hn Hd Hb. apply booted_with in Hb as (c & g & Hy & ->). unfold ConfigFile.from_yaml in Hy. rewrite Hn in Hy.
  unfold de_config, struct_of in Hy. unfold section_names in Hd. rewrite Hd in Hy. destruct (visit _ _ _ es); [|done].
  apply root_sections in Hy as (_ & Ha & _ & Hr & _ & Hal & Hco & Hno). unfold section_is in *. split_and!; intros He; rewrite He in *.
  - cbn. unfold limiter_of. cbn. by rewrite Hr.
  - intros h. unfold ips_of, ip_guard. cbn. rewrite Ha. fold (stated_address h). by destruct (stated_address h).
  - cbn. unfold tasks_of. cbn. rewrite Hal. cbn. set_solver.
  - cbn. by rewrite Hco.
  - cbn. by rewrite Hno.
Qed.
End FromDocument.

(* ------------------------------------------------------------------ *)
(** ** Examples *)

(** Documents as JSON trees. *)
Module FileDemo.
Export ProcessDemo.
#[export] Existing Instance demo_errors.
Definition section_server : string * Value := ("server", obj [("host", Str "127.0.0.1"); ("port", json_int 8080)]).
Definition section_auth : string * Value := ("auth", obj [("client_keys", Array [obj [("key", Str "sk-one")]])]).
Definition section_pools : string * Value := ("pools", obj [("p", obj [("keys", Array [obj [("key", Str "k1"); ("weight", json_int 1)]])])]).
Definition section_providers : string * Value :=
  ("providers", Array [obj [("id", Str "up"); ("pool_id", Str "p"); ("base_url", Str "https://up"); ("kind", Str "open_ai")]]).
Definition section_routes : string * Value :=
  ("model_to_pool", obj [("gpt", Str "p"); ("mini", obj [("pool", Str "p"); ("upstream_model", Str "gpt-mini")])]).
Definition required_sections : list (string * Value) :=
  [section_server; section_auth; ("db", obj [("path", Str "./data.db")]); ("failover", obj [("max_retries", json_int 2)]);
   section_pools; section_providers; section_routes].
Definition minimal : Value := Object required_sections.
(** The same in another order, with a section that nothing reads. *)
Definition shuffled : Value := Object (("redis", Null) :: reverse required_sections).
(** With empty optional sections. *)
Definition opened : Value := Object (required_sections ++ [("admin", obj []); ("rate_limit", obj []); ("alerts", obj [])]).
Definition no_variant (name : string) : string := "data did not match any variant of untagged enum " +:+ name.
Definition node (text : string) : Result Value string := if str_eqb text "minimal" then Ok minimal else Err "not a document".
Definition root0 : ConfigRoot :=
  mkRoot (mkServerConfig "" 0 0) [] "" default_failover ∅ [] ∅ [] (mkMetaConfig empty_partial ∅ ∅) admin_config_default (mkPricing ∅) rate_limit_config_default 0
    alert_config_default concurrency_config_default (mkNormalization false).
Definition root_of (v : Value) : ConfigRoot := match de_config Ok no_variant v with Ok c => c | Err _ => root0 end.
Definition booted_from : Result Process AppError :=
  boot_process (yaml_startup Ok no_variant node) new_provider new_provider new_provider (fun _ => "") (fun _ => Err "") BootDemo.offline (yaml_static Ok no_variant node)
    (Ok "minimal") (Ok "minimal") None 1 StoreDemo.w0 log0.
Definition p_file : Process := match booted_from with Ok p => p | Err _ => p0 end.

(** Bodies: a second route, and the key of a login. *)
Definition grok_key : KeyEntry := mkKeyEntry "access" 1 Oauth (Some "refresh") (Some 7200) (Some "https://auth.x.ai") None.
Definition tree (text : string) : option Value :=
  if str_eqb text "route" then Some (obj [("logical_model", Str "grok"); ("pool_id", Str "p"); ("upstream_model", Str "grok-4")])
  else if str_eqb text "key" then Some (post_body grok_key) else None.
Definition file_steps : list Step := [Request (arrival POST "/admin/api/routing" "") query (Some "route"); PollTick 2; chat "gpt"].
Definition key_arrival : Arrival := arrival POST "/admin/api/pools/p/keys" "".
End FileDemo.

Section FileWitnesses.
Import FileDemo.

(** The defaults of the fields are not the defaults of the section. *)
Example empty_sections_differ :
  (allowed_ips (c_admin (root_of minimal)), rl_enabled (c_rate_limit (root_of minimal)), min_error_burst (c_alerts (root_of minimal)))
  = ([], false, 0)
  /\ (allowed_ips (c_admin (root_of opened)), rl_enabled (c_rate_limit (root_of opened)), min_error_burst (c_alerts (root_of opened)))
     = (["127.0.0.1"; "::1"], true, 3).
Proof. split; vm_compute; reflexivity. Qed.

(** The first error of the document is the one reported. *)
Example first_error_reported :
  de_config Ok no_variant (Object (("failover", obj [("max_retries", json_int (-1))]) :: required_sections)) = Err "invalid value"
  /\ de_config Ok no_variant (Object (section_server :: required_sections)) = Err "duplicate field `server`"
  /\ de_config Ok no_variant (Object (List.tail required_sections)) = Err "missing field `server`".
Proof. split_and!; vm_compute; reflexivity. Qed.


Theorem sections_in_any_order_witness : de_config Ok no_variant shuffled = Ok (root_of minimal).
Proof.
  refine (proj1 (sections_in_any_order Ok no_variant minimal shuffled required_sections (("redis", Null) :: reverse required_sections) (root_of minimal) _ _ _) _).
  - reflexivity.
  - reflexivity.
  - change (required_sections ≡ₚ reverse required_sections). symmetry. apply reverse_Permutation.
  - vm_compute. reflexivity.
Defined.

Theorem unlisted_sections_witness :
  gw_limiter (st_gateway (pr_app p_file)) = None
  /\ (ip_guard (ips_of p_file) [("x-real-ip", "127.0.0.1")] = true <-> stated_address [("x-real-ip", "127.0.0.1")] = None).
Proof.
  destruct (unlisted_sections Ok no_variant node new_provider new_provider new_provider (fun _ => "") (fun _ => Err "") BootDemo.offline
    "minimal" minimal required_sections (Ok "minimal") None 1 StoreDemo.w0 log0 p_file) as (H1 & H2 & _).
  - reflexivity.
  - reflexivity.
  - vm_compute. reflexivity.
  - split; [apply H1; reflexivity|apply H2; reflexivity].
Defined.

Lemma minimal_fine : document_fine (root_of minimal).
Proof.
  split.
  - vm_compute. reflexivity.
  - apply map_Forall_to_list. vm_compute. repeat constructor; intros v H; discriminate H || (injection H as <-; reflexivity).
  - vm_compute. repeat constructor.
  - apply (bool_decide_unpack _). vm_compute. exact I.
Qed.

Theorem document_starts_gateway_witness : exists p,
  boot_process (yaml_startup Ok no_variant node) new_provider new_provider new_provider (fun _ => "") (fun _ => Err "") BootDemo.offline (yaml_static Ok no_variant node)
    (Ok "minimal") (Ok "minimal") None 1 StoreDemo.w0 log0 = Ok p
  /\ route_view <$> cs_routing (w_store (st_world (pr_app p))) !! "mini" = Some ("p", None, Some "gpt-mini").
Proof.
  destruct (document_starts_gateway Ok no_variant node new_provider new_provider new_provider (fun _ => "") (fun _ => Err "") BootDemo.offline
    "minimal" (root_of minimal) None 1 StoreDemo.w0 log0) as (p & Hp & _ & _ & _ & _ & _ & Hr).
  - vm_compute. reflexivity.
  - exact minimal_fine.
  - exact offline_fits.
  - reflexivity.
  - exact empty_db_good.
  - exact snapshot_default_good.
  - exists p. split; [exact Hp|]. refine (eq_trans (Hr _ "mini") _); vm_compute; reflexivity.
Defined.

Abbreviation file_step := (process_step (yaml_startup Ok no_variant node) (fun _ => "") section "db" (mkHttp 400 Null) (fun _ => mkHttp 500 Null) Some
  (admin_op tree Some) new_provider new_provider new_provider).
Abbreviation p_grown := (process_run (yaml_startup Ok no_variant node) (fun _ => "") section "db" (mkHttp 400 Null) (fun _ => mkHttp 500 Null) Some
  (admin_op tree Some) new_provider new_provider new_provider p_file file_steps).
Abbreviation st_after := (pr_app (file_step (file_step p_grown (Request key_arrival query (Some "key"))) RebuildTick)).

Lemma file_steps_ok : Forall step_ok file_steps.
Proof.
  unfold file_steps, chat. rewrite !Forall_cons. unfold step_ok. cbn [ar_in arrival in_attempts]. rewrite !Forall_cons.
  split_and!; try exact ok_fair; try exact I; apply Forall_nil_2.
Qed.

Theorem gateway_hot_reload_witness : let st := pr_app (file_step p_grown RebuildTick) in
  serves new_provider new_provider new_provider (st_router st) (w_store (st_world st)) [401; 402; 403; 429]
  /\ is_ok (resolve (st_router st) "grok") = true.
Proof.
  split; [|vm_compute; reflexivity].
  destruct (gateway_hot_reload Ok no_variant node new_provider new_provider new_provider (fun _ => "") (fun _ => Err "") BootDemo.offline
    (fun _ => "") section "db" (mkHttp 400 Null) (fun _ => mkHttp 500 Null) Some tree (Ok "minimal") (Ok "minimal") None 1 StoreDemo.w0 log0 p_file file_steps)
    as [_ H].
  - exact empty_db_good.
  - exact snapshot_default_good.
  - exact offline_fits.
  - vm_compute. reflexivity.
  - exact file_steps_ok.
  - apply (bool_decide_unpack _). vm_compute. exact I.
  - exact H.
Defined.

Lemma key_step_ok : step_ok (Request key_arrival query (Some "key")).
Proof. unfold step_ok. cbn [ar_in key_arrival arrival in_attempts]. rewrite Forall_cons. split; [exact ok_fair|apply Forall_nil_2]. Qed.
Lemma key_posted : posts_key Some tree p_grown key_arrival "key" "p" grok_key.
Proof. split; vm_compute; reflexivity. Qed.
Lemma grok_key_fits : key_fits grok_key.
Proof. split; [split; eexists; split; done|cbn; lia|]. intros z [= <-]. unfold i64_ok. lia. Qed.

Lemma minimal_boots : boot_process (yaml_startup Ok no_variant node) new_provider new_provider new_provider (fun _ => "") (fun _ => Err "") BootDemo.offline
  (yaml_static Ok no_variant node) (Ok "minimal") (Ok "minimal") None 1 StoreDemo.w0 log0 = Ok p_file.
Proof. vm_compute. reflexivity. Qed.
Lemma grown_ready : RebuilderTask ∈ pr_tasks p_grown /\ ConfigStore.quiet (st_world (pr_app p_grown)) /\ pool_known (w_db (st_world (pr_app p_grown))) "p" = true.
Proof. split; [apply (bool_decide_unpack _); vm_compute; exact I|]. split; vm_compute; reflexivity. Qed.
Lemma grok_routed : pool_id <$> cs_routing (w_store (st_world st_after)) !! "grok" = Some "p".
Proof. vm_compute. reflexivity. Qed.
Lemma grok_provided : is_some (find_last (for_pool "p") (cs_providers (w_store (st_world st_after)))) = true.
Proof. vm_compute. reflexivity. Qed.

Theorem posted_key_serves_witness : exists pv route,
  resolve (st_router st_after) "grok" = Ok (pv, route) /\ stored_key grok_key ∈ keys (re_pool route).
Proof.
  pose proof grok_routed as Hg. destruct (cs_routing (w_store (st_world st_after)) !! "grok") as [route|] eqn:Er; [|discriminate Hg]. injection Hg as Hp.
  pose proof grok_provided as Hf. destruct grown_ready as (Ht & Hq & Hk).
  pose proof (posted_key_serves Ok no_variant node new_provider new_provider new_provider (fun _ => "") (fun _ => Err "") BootDemo.offline
    (fun _ => "") section "db" (mkHttp 400 Null) (fun _ => mkHttp 500 Null) Some tree (Ok "minimal") (Ok "minimal") None 1 StoreDemo.w0 log0 p_file file_steps
    key_arrival query "key" "p" grok_key empty_db_good snapshot_default_good offline_fits minimal_boots file_steps_ok Ht Hq Hk key_step_ok key_posted grok_key_fits
    "grok" route Er Hp) as H.
  destruct (find_last (for_pool "p") _) as [cfg|]; [|discriminate Hf]. destruct H as (ks & Hin & Hr).
  eexists _, _. split; [exact Hr|exact Hin].
Defined.
End FileWitnesses.
